(* ===== verification/_CoqProject ===== *)
-Q . S2P
Prelude.v
SocketFunctions.v
Cbuffer.v
IOBuffer.v
DemoMsg.v
MsgFormat.v
MStream.v
LinkedList.v
Queue.v
BufferChain.v
UrlParser.v
HttpMessage.v
HttpParser.v
FunctorList.v
EventTable.v
FdTable.v
Runloop.v
EventfdQueue.v
Loop.v
Timer.v
Listener.v
EventfdWatcher.v
AsioStream.v
HttpConnection.v
HttpServer.v
SyncSocket.v
KqRunloop.v
KqHelpers.v
KqWatchers.v
KqTyping.v
TcpStream.v
TcpListener.v
AsyncMsgStream.v
EchoApp.v
EchoPhases.v
ServerCtx.v
ServerRun.v
ServerLoop.v
VerifyStats.v
VerifyClient.v
ServerMain.v
