(* ===== verification/Prelude.v ===== *)
(** * Verification of network_c_http: buffers, messages, the event loop and the HTTP server

    ** The program

    The repository is a C library for HTTP over an event loop written by hand, with
    applications on top. From the bottom up: buffers and containers (src/src/common),
    HTTP messages and their parser around the third-party llhttp (src/src/http,
    src/src/http_protocol), an event loop over epoll with watchers for timers, listeners,
    streams, user events and inter-thread queues (src/src/runloop/epoll_runloop), the
    HTTP connection, handler and server on that loop, and a blocking HTTP client. The
    applications (src/apps) have message formats, a blocking message stream, and a server
    whose layers are a second event loop, over kqueue (src/src/runloop/kqueue_runloop),
    TCP streams and listeners, an asynchronous message stream and the echo application.

    ** Files, and what they model

    - Prelude: outcomes of a C function ([Ret], a failed [assert], undefined behaviour),
      wrap-around at C widths, memory blocks with unset bytes, strings. Shared automation.
    - SocketFunctions (common/socket_functions.c): wrappers over a record of the system
      calls, which SyncSocket and MStream use too.
    - Cbuffer (common/cbuffer.c), IOBuffer (common/iobuffer.c), BufferChain
      (common/buffer_chain.c): the three buffers on explicit memory blocks.
    - LinkedList (common/list.c): nodes in an explicit heap, refined to a sequence;
      BufferChain, HttpMessage, MStream, SyncSocket and the connection use the sequence.
    - Queue (common/queue.c): the bounded queue between threads; a step relation for
      threads that add and remove, with the mutex and both condition variables.
    - UrlParser (common/url_parser.c, url.c): both state machines of the URL parser.
    - HttpMessage (http/kvpair.c, http/header_list.c, http_protocol/http_message.c,
      common/utils.c), HttpParser (http_protocol/http_message_parser.c): a run of llhttp
      is the sequence of callbacks it makes, and each callback is a definition.
    - FunctorList, FdTable, Runloop (runloop/epoll_runloop/functor_list.c, functor.c,
      fdtable.c, fd_map.c, runloop.c): the ready list, the table of watchers, the loop.
    - Loop: the interface the loop offers its clients, a type class with laws; the loop of
      Runloop is one instance, a small reference loop used in examples another. The
      watchers below are proved against the interface.
    - EventfdQueue (w_eventfd_queue.c, w_queue_watcher.c, w_interthread_queue.c), Timer
      (w_timerfd.c), Listener (w_listener.c), EventfdWatcher (w_eventfd.c), AsioStream
      (w_stream.c, asio_stream.c): the watchers, each a heap object, [None] once freed.
    - HttpConnection (http_protocol/http_connection.c, http_handler.c and the completion
      callback of http_server.c): one client of the server. HttpServer (http_server.c): the
      event that accepts it, and the server object on Listener and Runloop.
    - SyncSocket (http_protocol/http_sync_socket.c): the blocking client.
    - DemoMsg (apps/msg/demo_msg.c, demo_msg_parser.c, newline_msg.c,
      newline_msg_parser.c), MsgFormat (apps/msg/msg_selection_header.h), MStream
      (apps/mstream/mstream.c): two message formats, the compile-time choice between them
      as a type class with laws, and the blocking stream over that class.
    - EventTable (runloop/kqueue_runloop/event_table.c), KqRunloop (runloop.c,
      rl_events_internal.h), KqHelpers (kqueue_helpers.c), KqWatchers (stream.c, listener.c,
      timer.c, user_event.c): the loop over kqueue. Events are slabs of a pool, a pointer
      to one is its index; what the kernel watches is a map of notes. An event has its
      tags and its union, word by word where a store does not fit the member it holds.
      KqTyping runs the loop with callbacks that are programs of these operations, with
      and without a check of tags and union at each use.
    - TcpStream (apps/tcp/tcp_stream.c, tcp_reader.c, tcp_writer.c), TcpListener
      (tcp_listener.c), AsyncMsgStream (apps/async_msg_stream/*.c), EchoApp
      (apps/server_apps/echo_app.c): the server of the applications, each layer with the
      one below. Their state is the loop and a world that holds the objects, the shared
      buffers, the kernel and the layers above. A callback of a layer is a parameter,
      which the next layer gives.
    - ServerCtx (apps/server_process/server_ctx.c): the context that accepts connections
      and starts an application for each, against a class for the applications ([AppOps]
      with [AppLaws]) that the echo application implements. ServerRun: the server with all
      its connections, each of them run on its own objects; what the loop does for a
      connection alone is lifted to the whole server by a simulation. EchoPhases: one
      connection turn by turn of the loop, as a machine of phases. ServerLoop: a rule for
      the runs of KqRunloop, and the server in it with its listener and any number of
      connections.
    - ServerMain (apps/server_process/async_main.c, async_process_main.c): the options of
      the server and the function of its threads.
    - VerifyStats (apps/client/verify_statistics.c), VerifyClient
      (verify_client_thread_function.c, verify_thread_context.c, verify_getopt.c, the report
      of verify_main.c): the client that verifies the echo application's answers.

    Definitions carry the names of the C functions. A structure is a record with the fields
    of the C structure, run-time type tags apart. The checks of these tags are compiled
    (RBL_TAG_CHECK_ON, src/src/CMakeLists.txt), but a constructor sets the tags of its
    object and no other operation changes them, so that a check can fail only on an object
    that was freed, which is [Ub] here, or on one of another type, which the types of the
    model exclude. The events of the kqueue loop are the exception, as their operations
    store tags: they are modelled with them. Loops are
    [Fixpoint]s named after their function; a handler that several files call [handler]
    is named after its watcher ([stream_handler], [timer_handler], ...).

    ** Correspondence and conventions

    A pointer to an object that may be freed is an option; using [None] is [Ub], and so
    are reads of unset bytes and accesses outside a block. Assertions are live, as in the
    build as configured. C integers are [Z] with the wrap-around or the overflow written
    out ([u16], [u32], [u64], [s32], [chk_int]).

    Code outside the repository is a parameter: llhttp, the kernel's calls (epoll, eventfd,
    timerfd, kqueue, sockets) and the application's functions. What is relied on is a record of laws
    taken from the documentation of those calls ([epoll_laws], [eventfd_laws],
    [fcntl_laws], [kqueue_laws], [io_laws], ...); every theorem that assumes one has a witness with a concrete
    kernel.

    ** The theorems

    - Parsing and printing: [HttpParser.http_parser_delivers] (the message assembled is the
      one llhttp announced, however the bytes are cut), [http_parse_serialize],
      [HttpMessage.http_message_serialize_text],
      [UrlParser.url_parse_total], [url_parse_print_roundtrip], and for the demonstration
      formats [DemoMsg.demo_frames_roundtrip], [demo_parser_refines_machine],
      [newline_parser_splits_lines].
    - Containers: refinement of the list, the buffers, the rings and the table to
      sequences and maps; [Queue.Queue_concurrent_fifo] and [Queue_progress] for any
      interleaving of threads.
    - The loop: [Runloop.runloop_run_refines] (it computes the runs of an abstract loop),
      [runloop_mirrors_kernel], [runloop_close_closes_all], and [Loop.runloop_laws].
    - Watchers and clients: what is delivered, when, and with which callback
      ([AsioStream.asio_stream_read_delivers], [Listener.asio_accept_delivers],
      [Timer.timer_registers_and_fires], [EventfdWatcher.eventfd_events_counted],
      [EventfdQueue.itqueue_refines_fifo], [HttpConnection.http_request_dispatched],
      [SyncSocket.http_syncsocket_reads_message], [MStream.mstream_delivers]).
    - The server of the applications, in its loop: [ServerLoop.server_loop_serves] is the
      end-to-end theorem. From any state in which each connection is somewhere in an
      exchange and the listener is waiting for a caller or about to try again, whatever
      events the kernel reports and however the bytes are cut, the loop returns and mixes
      no two connections, and, when the events come in time, it answers every request and
      frees every connection; unless a connection ends with errno 0, for which the process
      aborts when it sees it. No caller comes in between: one would start
      an application whose first read is undefined ([server_first_read_undefined]), and
      an accept that fails otherwise aborts ([server_accepts]).
    - Its layers: [EchoApp.echo_app_serves] composes all its layers
      (whatever the cut of requests and responses, each request is answered, in order),
      from [AsyncMsgStream.msg_stream_read_delivers] and [msg_stream_write_delivers],
      [TcpStream.tcp_read_delivers] and [tcp_write_delivers], and on the kqueue side
      [KqWatchers.kq_stream_interest]. [TcpListener.tcp_accept_delivers] is the same for
      connections, and [ServerCtx.server_accepts] goes from a caller to its application
      running ([ServerMain.thread_starts_server] from a thread to the server that accepts);
      [ServerRun.server_serves] lifts the first of them to the server with any
      number of connections, and [server_conn_ends] takes one that ends away;
      [KqRunloop.kq_runloop_run_refines], [EventTable.event_table_exclusive] and
      [KqTyping.kq_events_typed] (a program that uses each event as what it was made for
      passes every check of a tag, and uses the union only at the member it holds; one that
      does not is in [kq_event_mistyped]) are about the loop itself.
    - The HTTP server: [HttpServer.http_server_serves], [http_client_opens] and
      [http_server_ends].
    - The verification client: [VerifyClient.verify_client_succeeds] (against a server that
      answers as the echo application does, whatever the cut, every verification succeeds
      and all counters are right), [VerifyStats.rta_holds_twice] and
      [rta_consolidates].
    - Errors: theorems named after what goes wrong state where the code aborts, stalls or
      touches freed memory ([http_response_aborts], [asio_stream_write_not_resumed],
      [http_client_vanishes], [tcp_write_stalls], [tcp_new_undefined] and, for the whole server,
      [server_first_read_undefined], [http_partial_message_stalls], ...).

    ** Fuel

    Loops that end when their data does recurse on a bound taken from the data. The loops
    that wait for the world ([runloop_run], the blocking reads, [clear_loop],
    [newline_loop]) take fuel and return [None] when it runs out; the theorems about
    them say how much is enough: it is existential, or given by the length of the input or
    by the number of reads and writes to come.
    The layers of the server have no loop of their own: their theorems name the events and
    functors that the loop runs ([read_events], [run_posted], [drive], [run_exchange]).
    A function that the loop calls is given a pointer; the dispatchers check that it is the
    object the function belongs to ([on_self]).

    ** Not modelled

    - llhttp (src/vendor): third-party, generated. Logging and test support
      (src/rbl), malloc wrappers and random identifiers: printing or the C library. Of its
      macros for tags (check_tag.h) the checks on the events of the kqueue loop are
      modelled.
    - The files of runloop/kqueue_runloop that its build does not compile: they refer to
      structures that no longer exist.
    - What [runloop_run] does to the whole program while an HTTP server listens: its
      handlers act on every object of the program, so it is a parameter of HttpServer; what
      it does to the loop is in Runloop.
    - server_ctx_deinit: it is in no header and nothing calls it. Creating and joining the
      threads of async_process_main.c and verify_main.c, signals, and printing: the
      threads share no state, and what each does is modelled. process_request,
      verify_app.c and server_process/main.c: nothing calls or compiles them.
    - Connections that arrive while others are served: [server_accepts] and
      [thread_starts_server] are about the listener and its callers, [server_loop_serves]
      about the connections that are there, with a listener to which none comes. As
      tcp_stream_new leaves its buffers unset and
      tcp_listener_new allocates a pointer, no run of the program itself gets from the one
      to the other with defined behaviour ([server_first_read_undefined],
      [server_ctx_init_undefined]).
    - src/junk, src/conn_exp, tests and tools: not part of the library. *)

(** * Prelude: outcomes, machine integers, bytes and memory blocks

    Shared vocabulary of the development. *)

From stdpp Require Export base numbers list gmap.
From Stdlib Require Export ZArith Lia.
From Stdlib Require Export Strings.Byte.
From Stdlib Require Strings.String.
Export String.StringSyntax.

Open Scope Z_scope.
Open Scope list_scope.

(** ** Outcomes

    A C function either returns, fails an [assert] (the project always builds
    in Debug mode, so assertions are live), or runs into undefined behaviour:
    an access outside a block, a read of uninitialised memory, a use after
    free, a signed overflow. *)

Inductive outcome (A : Type) : Type :=
| Ret (a : A)
| AssertFail
| Ub.
Arguments Ret {A} a.
Arguments AssertFail {A}.
Arguments Ub {A}.

#[global] Instance outcome_ret : MRet outcome := fun A a => Ret a.
#[global] Instance outcome_bind : MBind outcome := fun A B f m =>
  match m with
  | Ret a => f a
  | AssertFail => AssertFail
  | Ub => Ub
  end.
#[global] Instance outcome_fmap : FMap outcome := fun A B f m =>
  match m with
  | Ret a => Ret (f a)
  | AssertFail => AssertFail
  | Ub => Ub
  end.

(** [assert(b)] of the source. *)
Definition c_assert (b : bool) : outcome unit :=
  if b then Ret () else AssertFail.

(** Dereferencing a pointer that may be NULL or dangling. *)
Definition deref {A} (o : option A) : outcome A :=
  match o with Some a => Ret a | None => Ub end.

(** A new value, or the old one when the new one is NULL. *)
Definition or_else {A} (new old : option A) : option A := match new with Some _ => new | None => old end.

Definition is_ret {A} (o : outcome A) : bool :=
  match o with Ret _ => true | _ => false end.

(** ** Refinement of outcomes: the concrete outcome matches the abstract one *)

Definition refines {A B} (R : A → B → Prop) (m : outcome A) (n : outcome B) : Prop :=
  match n with
  | Ret b => ∃ a, m = Ret a ∧ R a b
  | AssertFail => m = AssertFail
  | Ub => m = Ub
  end.

(** ** Machine integers *)

Definition INT_MAX : Z := 2147483647.
Definition INT_MIN : Z := -2147483648.
Definition UINT16_MAX : Z := 65535.

(** Unsigned conversions wrap. *)
Definition u16 (z : Z) : Z := z mod 2 ^ 16.
Definition u32 (z : Z) : Z := z mod 2 ^ 32.
Definition u64 (z : Z) : Z := z mod 2 ^ 64.

(** Conversion of an arbitrary integer to [int] (two's complement). *)
Definition s32 (z : Z) : Z := (z + 2 ^ 31) mod 2 ^ 32 - 2 ^ 31.

Definition in_int (z : Z) : bool := (INT_MIN <=? z) && (z <=? INT_MAX).

(** The result of an arithmetic operation at type [int]: overflow is undefined. *)
Definition chk_int (z : Z) : outcome Z := if in_int z then Ret z else Ub.

(** ** Bytes *)

#[global] Instance byte_eq_dec : EqDecision byte := Byte.byte_eq_dec.

(** The value of a byte read as [unsigned char], and as the (signed) [char]. *)
Definition uchar (b : byte) : Z := Z.of_N (Byte.to_N b).
Definition schar (b : byte) : Z := if uchar b <? 128 then uchar b else uchar b - 256.

Definition NUL : byte := x00.
Definition beq (a b : byte) : bool := bool_decide (a = b).

(** Bytes of a string literal. *)
Definition bytes (s : String.string) : list byte := String.list_byte_of_string s.
Arguments bytes s%_string_scope.

(** ** Memory blocks

    A block is the list of its bytes; [None] is a byte never written since the
    block was obtained from [malloc]. *)

Abbreviation mem := (list (option byte)).

Definition msize (m : mem) : Z := Z.of_nat (length m).

Definition malloc_block (n : Z) : mem := replicate (Z.to_nat n) None.

Definition in_block (m : mem) (off n : Z) : bool :=
  (0 <=? off) && (0 <=? n) && (off + n <=? msize m).

(** [mem_load m off n]: the [n] bytes at offset [off]. *)
Definition mem_load (m : mem) (off n : Z) : outcome mem :=
  if in_block m off n
  then Ret (take (Z.to_nat n) (drop (Z.to_nat off) m))
  else Ub.

(** [mem_store m off bs]: [memcpy] of [bs] to offset [off]. *)
Definition mem_store (m : mem) (off : Z) (bs : mem) : outcome mem :=
  if in_block m off (msize bs)
  then Ret (take (Z.to_nat off) m ++ bs ++ drop (Z.to_nat off + length bs) m)
  else Ub.

Definition mem_read (m : mem) (off : Z) : outcome byte :=
  if in_block m off 1
  then deref (mjoin (m !! Z.to_nat off))
  else Ub.

(** Initialised bytes as a block, and back. *)
Definition init (bs : list byte) : mem := Some <$> bs.

(** The C string that starts at the head of a block: bytes up to the first NUL.
    Running off the block or over an uninitialised byte is undefined. *)
Fixpoint cstr_of (m : mem) : outcome (list byte) :=
  match m with
  | [] => Ub
  | None :: _ => Ub
  | Some b :: m' =>
      if beq b NUL then Ret []
      else bs ← cstr_of m'; Ret (b :: bs)
  end.

Definition mem_cstr (m : mem) (off : Z) : outcome (list byte) :=
  if in_block m off 0 then cstr_of (drop (Z.to_nat off) m) else Ub.

(** No NUL inside: what a C string argument satisfies. *)
Definition no_nul (bs : list byte) : bool := forallb (fun b => negb (beq b NUL)) bs.

(** [toupper] and [isprint] of the C locale. *)
Definition toupper (b : byte) : byte :=
  let c := uchar b in
  if (97 <=? c) && (c <=? 122)
  then match Byte.of_N (Z.to_N (c - 32)) with Some b' => b' | None => b end
  else b.
Definition isprint (c : Z) : bool := (32 <=? c) && (c <=? 126).

(** Decimal text of a non-negative integer, most significant digit first; the
    fuel is the number of digits produced at most. *)
Definition digit (d : Z) : byte :=
  match Byte.of_N (Z.to_N (48 + d)) with Some b => b | None => NUL end.

Fixpoint dec_aux (fuel : nat) (n : Z) (acc : list byte) : list byte :=
  match fuel with
  | O => acc
  | S f =>
      let acc' := digit (n mod 10) :: acc in
      if n / 10 =? 0 then acc' else dec_aux f (n / 10) acc'
  end.

(** ["%d"] of an [int]: at most ten digits and a sign. *)
Definition fmt_d (n : Z) : list byte :=
  if n <? 0 then x2d :: dec_aux 10 (- n) [] else dec_aux 10 n [].

(** Length as an integer. *)
Definition Zlen {A} (l : list A) : Z := Z.of_nat (length l).

(** ** Tactics and hints *)

Create HintDb chttp.

(** Turn the boolean comparisons of hypotheses and goal into propositions. *)
Ltac bool_prop :=
  repeat match goal with
  | H : (_ && _)%bool = true |- _ => apply andb_true_iff in H; destruct H
  | H : (_ || _)%bool = false |- _ => apply orb_false_iff in H; destruct H
  | H : negb _ = true |- _ => apply negb_true_iff in H
  | H : negb _ = false |- _ => apply negb_false_iff in H
  | H : (_ <=? _)%Z = true |- _ => apply Z.leb_le in H
  | H : (_ <=? _)%Z = false |- _ => apply Z.leb_gt in H
  | H : (_ <? _)%Z = true |- _ => apply Z.ltb_lt in H
  | H : (_ <? _)%Z = false |- _ => apply Z.ltb_ge in H
  | H : (_ =? _)%Z = true |- _ => apply Z.eqb_eq in H
  | H : (_ =? _)%Z = false |- _ => apply Z.eqb_neq in H
  | |- (_ && _)%bool = true => apply andb_true_iff; split
  | |- (_ <=? _)%Z = true => apply Z.leb_le
  | |- (_ <=? _)%Z = false => apply Z.leb_gt
  | |- (_ <? _)%Z = true => apply Z.ltb_lt
  | |- (_ <? _)%Z = false => apply Z.ltb_ge
  | |- (_ =? _)%Z = true => apply Z.eqb_eq
  | |- (_ =? _)%Z = false => apply Z.eqb_neq
  end.

(** Decide a boolean guard of the goal by linear arithmetic. *)
Ltac guard_true b := replace b with true by (symmetry; bool_prop; lia).
Ltac guard_false b := replace b with false by (symmetry; bool_prop; lia).

(** Split on the first conditional guard of the goal. *)
Ltac split_if :=
  match goal with
  | |- context [if ?b then _ else _] =>
      lazymatch b with
      | context [if _ then _ else _] => fail
      | _ => let E := fresh "E" in destruct b eqn:E; bool_prop
      end
  end.

(** Decompose a successful monadic computation in a hypothesis. *)
Ltac inv_bind H :=
  lazymatch type of H with
  | (_ ← ?m; _) = Ret _ =>
      let E := fresh "E" in
      destruct m eqn:E; cbn in H; try discriminate H
  | (if ?b then _ else _) = Ret _ =>
      let E := fresh "E" in
      destruct b eqn:E; cbn in H; try discriminate H; bool_prop
  end.
Ltac inv_binds H := repeat (inv_bind H); try (injection H as H); subst.

(** A function that is given the address of its object as the argument: another pointer is
    not this object. *)
Definition on_self {A S} `{EqDecision A} (self : A) (k : S → outcome S) (a : option A) (s : S) : outcome S :=
  if decide (a = Some self) then k s else Ub.
Lemma on_self_eq {A S} `{EqDecision A} (self : A) (k : S → outcome S) s : on_self self k (Some self) s = k s.
Proof. unfold on_self. by rewrite decide_True. Qed.

(** ** Monad laws *)

Lemma bind_ret_l {A B} (a : A) (f : A → outcome B) : (x ← Ret a; f x) = f a.
Proof. reflexivity. Qed.

Lemma bind_assoc {A B C} (m : outcome A) (f : A → outcome B) (g : B → outcome C) :
  (y ← (x ← m; f x); g y) = (x ← m; y ← f x; g y).
Proof. by destruct m. Qed.

Lemma bind_ret_r {A} (m : outcome A) : (x ← m; Ret x) = m.
Proof. by destruct m. Qed.

(** The parts of a computation that succeeds. *)
Lemma bind_ret_inv {A B} (m : outcome A) (f : A → outcome B) b :
  (x ← m; f x) = Ret b → ∃ a, m = Ret a ∧ f a = Ret b.
Proof. destruct m; [|done..]. intros H. by eexists. Qed.

Lemma assert_true b : b = true → c_assert b = Ret ().
Proof. by intros ->. Qed.

Lemma assert_false b : b = false → c_assert b = AssertFail.
Proof. by intros ->. Qed.

Lemma refines_bind {A B A' B'} (R : A → B → Prop) (R' : A' → B' → Prop) m n f g :
  refines R m n → (∀ a b, m = Ret a → n = Ret b → R a b → refines R' (f a) (g b)) →
  refines R' (m ≫= f) (n ≫= g).
Proof. destruct n; cbn; [intros (x & -> & ?) HR; eauto|by intros -> _..]. Qed.

Lemma refines_same {A B C} (R : A → B → Prop) (m : outcome C) f g :
  (∀ c, m = Ret c → refines R (f c) (g c)) → refines R (m ≫= f) (m ≫= g).
Proof. destruct m; cbn; eauto. Qed.

(** ** Integers *)

Lemma chk_int_ok z : INT_MIN ≤ z ≤ INT_MAX → chk_int z = Ret z.
Proof.
  intros. unfold chk_int, in_int.
  by rewrite (proj2 (Z.leb_le _ _)), (proj2 (Z.leb_le _ _)) by lia.
Qed.

Lemma chk_int_inv z v : chk_int z = Ret v → v = z ∧ INT_MIN ≤ z ≤ INT_MAX.
Proof.
  unfold chk_int, in_int. intros H.
  destruct ((INT_MIN <=? z) && (z <=? INT_MAX)) eqn:E; [|done].
  apply andb_true_iff in E as [?%Z.leb_le ?%Z.leb_le]. by injection H as ->.
Qed.

Lemma u16_small z : 0 ≤ z < 65536 → u16 z = z.
Proof. intros. by apply Z.mod_small. Qed.
Lemma u32_small z : 0 ≤ z < 2 ^ 32 → u32 z = z.
Proof. intros. by apply Z.mod_small. Qed.
Lemma u64_small z : 0 ≤ z < 2 ^ 64 → u64 z = z.
Proof. intros. by apply Z.mod_small. Qed.

Lemma s32_small z : INT_MIN ≤ z ≤ INT_MAX → s32 z = z.
Proof. unfold INT_MIN, INT_MAX, s32. intros. rewrite Z.mod_small; lia. Qed.

(** Positions of a ring less than one turn apart are different slots. *)
Lemma ring_slot_inj m a i j :
  0 < m → 0 ≤ i < m → 0 ≤ j < m → (a + i) mod m = (a + j) mod m → i = j.
Proof.
  intros Hm Hi Hj He.
  assert (∀ x y, (a + x) mod m = (a + y) mod m → (x - y) mod m = 0) as Hd.
  { intros x y Hxy. replace (x - y) with ((a + x) - (a + y)) by lia.
    rewrite Zminus_mod, Hxy, Z.sub_diag. apply Zmod_0_l. }
  pose proof (Hd i j He) as H1. pose proof (Hd j i (eq_sym He)) as H2.
  destruct (Z.le_ge_cases i j); [rewrite Z.mod_small in H2|rewrite Z.mod_small in H1]; lia.
Qed.

(** ** Lengths *)

Lemma Zlen_nonneg {A} (l : list A) : 0 ≤ Zlen l.
Proof. unfold Zlen. lia. Qed.
Lemma Zlen_app {A} (a b : list A) : Zlen (a ++ b) = Zlen a + Zlen b.
Proof. unfold Zlen. rewrite length_app. lia. Qed.
Lemma Zlen_cons {A} (x : A) l : Zlen (x :: l) = 1 + Zlen l.
Proof. unfold Zlen. cbn. lia. Qed.
Lemma Zlen_nil_iff {A} (l : list A) : Zlen l = 0 ↔ l = [].
Proof. unfold Zlen. destruct l; cbn; split; (done || lia). Qed.

(** ** Bytes *)

Lemma uchar_range b : 0 ≤ uchar b < 256.
Proof.
  unfold uchar. pose proof (Byte.to_N_bounded b). lia.
Qed.

Lemma uchar_inj a b : uchar a = uchar b → a = b.
Proof.
  unfold uchar. intros H%N2Z.inj.
  pose proof (Byte.of_to_N a) as Ha. pose proof (Byte.of_to_N b) as Hb.
  rewrite H in Ha. congruence.
Qed.

Lemma schar_inj a b : schar a = schar b → a = b.
Proof.
  unfold schar. intros H. apply uchar_inj.
  pose proof (uchar_range a). pose proof (uchar_range b).
  destruct (uchar a <? 128) eqn:?, (uchar b <? 128) eqn:?; bool_prop; lia.
Qed.

Lemma beq_true a b : beq a b = true ↔ a = b.
Proof. unfold beq. apply bool_decide_eq_true. Qed.

Lemma beq_false a b : beq a b = false ↔ a ≠ b.
Proof. unfold beq. apply bool_decide_eq_false. Qed.

Lemma beq_refl b : beq b b = true.
Proof. by apply beq_true. Qed.

Lemma toupper_idemp b : toupper (toupper b) = toupper b.
Proof. by destruct b. Qed.

Lemma toupper_nul b : toupper b = NUL ↔ b = NUL.
Proof. by destruct b. Qed.

(** ** Memory blocks *)

Lemma msize_nonneg m : 0 ≤ msize m.
Proof. unfold msize. lia. Qed.

Lemma msize_app m1 m2 : msize (m1 ++ m2) = msize m1 + msize m2.
Proof. unfold msize. rewrite length_app. lia. Qed.

Lemma msize_init bs : msize (init bs) = Z.of_nat (length bs).
Proof. unfold msize, init. by rewrite length_fmap. Qed.

Lemma msize_malloc n : 0 ≤ n → msize (malloc_block n) = n.
Proof. intros. unfold msize, malloc_block. rewrite length_replicate. lia. Qed.

Lemma init_app a b : init (a ++ b) = init a ++ init b.
Proof. apply fmap_app. Qed.

Lemma in_block_true m off n :
  in_block m off n = true ↔ 0 ≤ off ∧ 0 ≤ n ∧ off + n ≤ msize m.
Proof. unfold in_block. rewrite !andb_true_iff, !Z.leb_le. tauto. Qed.

Lemma in_block_false m off n :
  in_block m off n = false ↔ off < 0 ∨ n < 0 ∨ msize m < off + n.
Proof.
  destruct (in_block m off n) eqn:E.
  - apply in_block_true in E. split; [done|lia].
  - split; [|done]. intros _.
    destruct (decide (0 ≤ off)); [|lia]. destruct (decide (0 ≤ n)); [|lia].
    destruct (decide (off + n ≤ msize m)); [|lia].
    rewrite (proj2 (in_block_true _ _ _)) in E; [done|lia].
Qed.

Lemma mem_load_ok m off n :
  0 ≤ off → 0 ≤ n → off + n ≤ msize m →
  mem_load m off n = Ret (take (Z.to_nat n) (drop (Z.to_nat off) m)).
Proof. intros. unfold mem_load. by rewrite (proj2 (in_block_true _ _ _)). Qed.

Lemma mem_load_all bs : mem_load (init bs) 0 (Z.of_nat (length bs)) = Ret (init bs).
Proof.
  rewrite mem_load_ok by (rewrite ?msize_init; lia).
  rewrite Nat2Z.id. change (Z.to_nat 0) with 0%nat. rewrite drop_0, take_ge; [done|].
  unfold init. by rewrite length_fmap.
Qed.

Lemma mem_store_ok m off bs :
  0 ≤ off → off + msize bs ≤ msize m →
  mem_store m off bs =
    Ret (take (Z.to_nat off) m ++ bs ++ drop (Z.to_nat off + length bs) m).
Proof.
  intros. unfold mem_store. rewrite (proj2 (in_block_true _ _ _)); [done|].
  pose proof (msize_nonneg bs). lia.
Qed.

Lemma mem_store_ub m off bs :
  off < 0 ∨ msize m < off + msize bs → mem_store m off bs = Ub.
Proof.
  intros. unfold mem_store.
  rewrite (proj2 (in_block_false _ _ _)); [done|]. lia.
Qed.

Lemma msize_one (x : option byte) : msize [x] = 1.
Proof. done. Qed.

Lemma mem_store_ret m off bs :
  0 ≤ off → off + msize bs ≤ msize m → ∃ m', mem_store m off bs = Ret m'.
Proof. intros. rewrite mem_store_ok by lia. eauto. Qed.

Lemma mem_store_size m off bs m' : mem_store m off bs = Ret m' → msize m' = msize m.
Proof.
  unfold mem_store. split_if; [|done]. intros [= <-].
  apply in_block_true in E. unfold msize in *.
  rewrite !length_app, length_take, length_drop. lia.
Qed.

(** What a store leaves below the stored range, in it and above it. *)
Lemma mem_store_below m off bs m' n :
  mem_store m off bs = Ret m' → (n ≤ Z.to_nat off)%nat → take n m' = take n m.
Proof.
  unfold mem_store. split_if; [|done]. intros [= <-] ?.
  apply in_block_true in E. unfold msize in *.
  rewrite take_app_le by (rewrite length_take; lia).
  rewrite take_take. f_equal. lia.
Qed.

Lemma mem_store_range m off bs m' :
  mem_store m off bs = Ret m' →
  take (length bs) (drop (Z.to_nat off) m') = bs.
Proof.
  unfold mem_store. split_if; [|done]. intros [= <-].
  apply in_block_true in E. unfold msize in *.
  rewrite drop_app_length' by (rewrite length_take; lia).
  by rewrite take_app_length.
Qed.

Lemma mem_store_prefix m off bs m' :
  mem_store m off bs = Ret m' →
  take (Z.to_nat off + length bs) m' = take (Z.to_nat off) m ++ bs.
Proof.
  unfold mem_store. split_if; [|done]. intros [= <-].
  apply in_block_true in E. unfold msize in *.
  rewrite app_assoc, take_app_length'; [done|].
  rewrite length_app, length_take. lia.
Qed.

Lemma mem_store_lookup m off bs m' i :
  mem_store m off bs = Ret m' →
  m' !! i = if decide (Z.to_nat off ≤ i < Z.to_nat off + length bs)%nat
            then bs !! (i - Z.to_nat off)%nat else m !! i.
Proof.
  unfold mem_store. split_if; [|done]. intros [= <-].
  apply in_block_true in E. unfold msize in *.
  destruct (decide (i < Z.to_nat off)%nat) as [Hlt|Hge].
  - rewrite decide_False by lia.
    rewrite lookup_app_l by (rewrite length_take; lia).
    by rewrite lookup_take_lt by lia.
  - rewrite lookup_app_r by (rewrite length_take; lia).
    rewrite length_take_le by lia. case_decide.
    + rewrite lookup_app_l by lia. done.
    + rewrite lookup_app_r by lia. rewrite lookup_drop. f_equal. lia.
Qed.

Lemma mem_store_app m off a b :
  0 ≤ off →
  mem_store m off (a ++ b) = (m1 ← mem_store m off a; mem_store m1 (off + msize a) b).
Proof.
  intros Hoff. pose proof (msize_nonneg a). pose proof (msize_nonneg b).
  destruct (decide (off + msize a + msize b ≤ msize m)) as [Hle|Hgt].
  - destruct (mem_store_ret m off (a ++ b)) as [m' E]; [done|rewrite msize_app; lia|].
    destruct (mem_store_ret m off a) as [m1 E1]; [lia..|].
    pose proof (mem_store_size _ _ _ _ E1).
    destruct (mem_store_ret m1 (off + msize a) b) as [m2 E2]; [lia..|].
    rewrite E, E1, bind_ret_l, E2. f_equal. apply list_eq. intros i.
    rewrite (mem_store_lookup _ _ _ _ _ E), (mem_store_lookup _ _ _ _ _ E2),
      (mem_store_lookup _ _ _ _ _ E1). rewrite length_app. unfold msize in *.
    repeat case_decide; try lia; try done.
    + rewrite lookup_app_r by lia. f_equal. lia.
    + by rewrite lookup_app_l by lia.
  - rewrite mem_store_ub by (rewrite msize_app; lia).
    destruct (mem_store m off a) as [m1| |] eqn:E1; [|exfalso|done].
    + rewrite bind_ret_l, mem_store_ub; [done|].
      rewrite (mem_store_size _ _ _ _ E1). lia.
    + revert E1. unfold mem_store. by split_if.
Qed.

Lemma mem_store_idemp m off bs m' :
  mem_store m off bs = Ret m' → mem_store m' off bs = Ret m'.
Proof.
  intros E. pose proof (mem_store_size _ _ _ _ E) as Hs.
  assert (0 ≤ off ∧ off + msize bs ≤ msize m) as [? ?].
  { revert E. unfold mem_store. split_if; [|done]. apply in_block_true in E. lia. }
  destruct (mem_store_ret m' off bs) as [m2 E2]; [lia..|]. rewrite E2. f_equal.
  apply list_eq. intros i.
  rewrite (mem_store_lookup _ _ _ _ _ E2). case_decide as Hd; [|done].
  rewrite (mem_store_lookup _ _ _ _ _ E). by rewrite decide_True.
Qed.

(** Reading back a C string stored with its terminator. *)
Lemma cstr_of_init bs rest :
  no_nul bs = true → cstr_of (init bs ++ Some NUL :: rest) = Ret bs.
Proof.
  induction bs as [|b bs IH]; [done|].
  cbn [no_nul forallb]. intros [Hb Hbs]%andb_true_iff. apply negb_true_iff in Hb.
  change (init (b :: bs)) with (Some b :: init bs).
  cbn [app cstr_of]. by rewrite Hb, IH.
Qed.

Lemma no_nul_app a b : no_nul (a ++ b) = no_nul a && no_nul b.
Proof. apply forallb_app. Qed.

#[export] Hint Resolve msize_nonneg uchar_range Zlen_nonneg : chttp.
#[export] Hint Rewrite @Zlen_app @Zlen_cons msize_app msize_init init_app @length_app @length_take
  @length_drop @length_replicate : chttp.

Lemma mapM_init bs : mapM id (init bs) = Some bs.
Proof. induction bs as [|c bs IH]; [done|]. change (init (c :: bs)) with (Some c :: init bs). cbn. by rewrite IH. Qed.
