(* ===== verification/SocketFunctions.v ===== *)
(** * SocketFunctions: helpers around the socket calls (src/common/socket_functions.c)

    The calls of the kernel are a record of functions on a [world]; a result of -1 comes
    with an error number. An address is the port and the dotted host; a name lookup gives
    the family and address of the host. *)

From S2P Require Import Prelude.
Open Scope Z_scope.

Definition AF_INET : Z := 2.
Definition PF_INET : Z := 2.
Definition SOCK_STREAM : Z := 1.
Definition IPPROTO_TCP : Z := 6.
Definition SOL_SOCKET : Z := 1.
Definition SO_REUSEADDR : Z := 2.
Definition SO_LINGER : Z := 13.
Definition SO_REUSEPORT : Z := 15.
Definition SO_RCVTIMEO : Z := 20.
Definition SOMAXCONN : Z := 4096.
Definition O_NONBLOCK : Z := 2048.
Definition SHUT_RD : Z := 0.
Definition SOCK_EAGAIN : Z := 11.
Definition SOCK_EINTR : Z := 4.
Definition SOCKET_STATUS_GOOD : Z := 0.
Definition SOCKET_STATUS_EOF : Z := -1001.
Definition SOCKET_STATUS_ERROR : Z := -1002.
Definition SOCKET_STATUS_EAGAIN : Z := -1003.

(** The argument of [setsockopt]. *)
Inductive optval := OptInt (n : Z) | OptTime (sec usec : Z).

Record net (W addr : Type) := mkNet {
  socket : Z → Z → Z → W → W * Z;
  setsockopt : Z → Z → Z → optval → W → W * Z;
  inet_addr : list byte → addr;
  gethostbyname : list byte → W → option (Z * addr);
  bind : Z → Z → Z → addr → W → W * Z;
  listen : Z → Z → W → W * Z;
  connect : Z → Z → Z → addr → W → W * Z;
  fcntl_getfl : Z → W → Z;
  fcntl_setfl : Z → Z → W → W * Z;
  shutdown : Z → Z → W → W * Z;
  (** [read] and [write]: the result and the error number *)
  sys_read : Z → Z → W → W * Z * Z * list byte;
  sys_write : Z → list byte → W → W * Z * Z;
  sys_close : Z → W → W * Z
}.
Arguments socket {W addr}.
Arguments setsockopt {W addr}.
Arguments inet_addr {W addr}.
Arguments gethostbyname {W addr}.
Arguments bind {W addr}.
Arguments listen {W addr}.
Arguments connect {W addr}.
Arguments fcntl_getfl {W addr}.
Arguments fcntl_setfl {W addr}.
Arguments shutdown {W addr}.
Arguments sys_read {W addr}.
Arguments sys_write {W addr}.
Arguments sys_close {W addr}.

Section Sockets.
Context {W addr : Type}.
Variable N : net W addr.

Definition localhost : list byte := bytes "127.0.0.1".

(** A call whose failure (any result but 0) ends the program. *)
Definition must (r : W * Z) : outcome W := let '(w, rc) := r in c_assert (rc =? 0);; Ret w.

(** Ports go through [htons], a 16-bit conversion; the address keeps the port. *)
Definition create_bound_socket (port : Z) (host : list byte) (w : W) : outcome (W * Z) :=
  let '(w, s) := socket N AF_INET SOCK_STREAM 0 w in
  c_assert (negb (s =? -1));;
  w ← must (setsockopt N s SOL_SOCKET SO_REUSEPORT (OptInt 1) w);
  w ← must (setsockopt N s SOL_SOCKET SO_REUSEADDR (OptInt 1) w);
  w ← must (bind N s AF_INET (u16 port) (inet_addr N localhost) w);
  Ret (w, s).

Definition create_and_connect_socket (host_ip : list byte) (port : Z) (w : W) : outcome (W * Z) :=
  let '(w, lfd) := socket N AF_INET SOCK_STREAM 0 w in
  let '(w, status) := connect N lfd AF_INET (u16 port) (inet_addr N host_ip) w in
  c_assert (status =? 0);;
  Ret (w, lfd).

Definition create_listener_socket (port : Z) (host : list byte) (w : W) : outcome (W * Z) :=
  let '(w, s) := socket N PF_INET SOCK_STREAM IPPROTO_TCP w in
  c_assert (negb (s =? -1));;
  w ← must (setsockopt N s SOL_SOCKET SO_REUSEPORT (OptInt 1) w);
  w ← must (bind N s AF_INET (u16 port) (inet_addr N localhost) w);
  w ← must (listen N s SOMAXCONN w);
  Ret (w, s).

(** It reports the error and fails its assertion. *)
Definition socket_throw_error {A} : outcome A := AssertFail.

Definition socket_create_listener_on_port (port : Z) (w : W) : outcome (W * Z) :=
  let '(w, s) := socket N PF_INET SOCK_STREAM IPPROTO_TCP w in
  _ ← (if s =? -1 then socket_throw_error else Ret ());
  let '(w, r) := setsockopt N s SOL_SOCKET SO_REUSEADDR (OptInt 1) w in
  _ ← (if negb (r =? 0) then socket_throw_error else Ret ());
  let '(w, r) := bind N s AF_INET (u16 port) (inet_addr N localhost) w in
  _ ← (if negb (r =? 0) then socket_throw_error else Ret ());
  let '(w, r) := listen N s SOMAXCONN w in
  _ ← (if negb (r =? 0) then socket_throw_error else Ret ());
  Ret (w, s).

(** The descriptor and what is stored in [status]. *)
Definition socket_connect_host_port (hostname : list byte) (port : Z) (w : W) : outcome (W * Z * Z) :=
  match gethostbyname N hostname w with
  | None => socket_throw_error
  | Some (family, a) =>
      let '(w, sockfd) := socket N family SOCK_STREAM 0 w in
      if sockfd <? 0 then socket_throw_error else
      let '(w, r) := connect N sockfd family (u16 port) a w in
      if r <? 0 then socket_throw_error else Ret (w, sockfd, 0)
  end.

Definition socket_is_blocking (s : Z) (w : W) : outcome bool :=
  let val := fcntl_getfl N s w in
  if val <? 0 then socket_throw_error else Ret (Z.land val O_NONBLOCK =? 0).

Definition socket_set_blocking (s : Z) (w : W) : outcome W :=
  let flags := fcntl_getfl N s w in
  let '(w, fres) := fcntl_setfl N s (Z.land flags (Z.lnot O_NONBLOCK)) w in
  if fres <? 0 then socket_throw_error else Ret w.
Definition socket_set_non_blocking (s : Z) (w : W) : outcome W :=
  let flags := fcntl_getfl N s w in
  let '(w, fres) := fcntl_setfl N s (Z.lor flags O_NONBLOCK) w in
  if fres <? 0 then socket_throw_error else Ret w.

Definition socket_shutdown_read (s : Z) (w : W) : W := fst (shutdown N s SHUT_RD w).
Definition socket_shutdown_write (s : Z) (w : W) : W := fst (shutdown N s SHUT_RD w).

(** The option value is an [int], too short for SO_LINGER. *)
Definition socket_set_option (s : Z) (w : W) : outcome W :=
  let '(w, r) := setsockopt N s SOL_SOCKET SO_LINGER (OptInt 1) w in
  let result := r <? 0 in
  if negb result then socket_throw_error else Ret w.

Definition socket_set_reuse_addr (s : Z) (w : W) : W :=
  fst (setsockopt N s SOL_SOCKET SO_REUSEADDR (OptInt 1) w).

Definition socket_set_recvtimeout (s time_interval_seconds : Z) (w : W) : outcome W :=
  let '(w, status) := setsockopt N s SOL_SOCKET SO_RCVTIMEO (OptTime time_interval_seconds 0) w in
  c_assert (negb (status <? 0));; Ret w.

Definition socket_write_data (s : Z) (buffer : list byte) (w : W) : outcome (W * bool) :=
  let '(w, r, errno) := sys_write N s buffer w in
  let res := s32 r in
  if (0 <? res) && (res =? Zlen buffer) then Ret (w, true)
  else if (0 <? res) && (res <? Zlen buffer) then AssertFail
  else socket_throw_error.

(** The result, the bytes read and what is stored in [status]. *)
Definition socket_read_data (s buffer_length : Z) (w : W) : outcome (W * Z * list byte * Z) :=
  let '(w, r, errno, bs) := sys_read N s buffer_length w in
  let howMuch := s32 r in
  let isError := (howMuch =? -1) && negb (errno =? SOCK_EAGAIN) && negb (errno =? SOCK_EINTR) in
  if 0 <? howMuch then Ret (w, howMuch, bs, SOCKET_STATUS_GOOD)
  else if (howMuch =? 0) && negb isError then Ret (w, howMuch, bs, SOCKET_STATUS_EOF)
  else socket_throw_error.

Definition socket_close (s : Z) (w : W) : W := fst (sys_close N s w).

(** ** Specification *)

(** The documented behaviour of fcntl on a descriptor that is open: the flags that are
    set are the ones read afterwards, and no other descriptor is affected. *)
Record fcntl_laws (open : Z → W → Prop) : Prop := {
  fl_get : ∀ s w, open s w → 0 ≤ fcntl_getfl N s w;
  fl_set : ∀ s m w, open s w → 0 ≤ m →
    ∃ w', fcntl_setfl N s m w = (w', 0) ∧ (∀ s', open s' w' ↔ open s' w) ∧
      ∀ s', fcntl_getfl N s' w' = if decide (s' = s) then m else fcntl_getfl N s' w;
  fl_closed : ∀ s m w, ¬ open s w → fcntl_getfl N s w = -1 ∧ fcntl_setfl N s m w = (w, -1)
}.

(** ** Facts that contradict the names or the comments *)

Lemma create_listener_socket_ignores_host port h1 h2 w :
  create_listener_socket port h1 w = create_listener_socket port h2 w.
Proof. done. Qed.

Lemma socket_shutdown_write_shuts_reading s w : socket_shutdown_write s w = fst (shutdown N s SHUT_RD w).
Proof. done. Qed.

(** The test is the wrong way round: the call that succeeds ends the program. *)
Lemma socket_set_option_inverted s w w' r :
  setsockopt N s SOL_SOCKET SO_LINGER (OptInt 1) w = (w', r) →
  socket_set_option s w = if 0 <=? r then AssertFail else Ret w'.
Proof.
  intros E. unfold socket_set_option. rewrite E.
  destruct (r <? 0) eqn:Er; bool_prop; [rewrite (proj2 (Z.leb_gt _ _)) by done|rewrite (proj2 (Z.leb_le _ _)) by done]; done.
Qed.

(** A read that would block or is interrupted ends the program: the status for it is
    never stored. *)
Lemma socket_read_data_eagain s n w w' bs :
  sys_read N s n w = (w', -1, SOCK_EAGAIN, bs) → socket_read_data s n w = AssertFail.
Proof. intros E. unfold socket_read_data. by rewrite E. Qed.

(** ** Properties *)

(** Blocking modes. On an open socket, setting non-blocking mode makes the socket
    report that it is not blocking, setting blocking mode that it is; every other flag
    of the socket and every other descriptor keep their flags; one after the other gives
    back the flags the socket started with when it was blocking. On a closed descriptor
    each of the three functions aborts. *)
Theorem socket_blocking_modes open s w :
  fcntl_laws open →
  (open s w →
    ∃ w1 w2, socket_set_non_blocking s w = Ret w1 ∧ socket_is_blocking s w1 = Ret false ∧
      socket_set_blocking s w1 = Ret w2 ∧ socket_is_blocking s w2 = Ret true ∧
      (∀ k, 0 ≤ k → k ≠ 11 → Z.testbit (fcntl_getfl N s w1) k = Z.testbit (fcntl_getfl N s w) k) ∧
      (∀ s', s' ≠ s → fcntl_getfl N s' w2 = fcntl_getfl N s' w) ∧
      (socket_is_blocking s w = Ret true → fcntl_getfl N s w2 = fcntl_getfl N s w)) ∧
  (¬ open s w → socket_set_non_blocking s w = AssertFail ∧ socket_set_blocking s w = AssertFail ∧
    socket_is_blocking s w = AssertFail).
Proof.
  intros HL. split.
  - intros Ho. pose proof (fl_get _ HL s w Ho) as Hf.
    destruct (fl_set _ HL s (Z.lor (fcntl_getfl N s w) O_NONBLOCK) w Ho) as (w1 & E1 & Ho1 & G1);
      [apply Z.lor_nonneg; by split|].
    destruct (fl_set _ HL s (Z.land (fcntl_getfl N s w1) (Z.lnot O_NONBLOCK)) w1) as (w2 & E2 & Ho2 & G2);
      [by apply Ho1|apply Z.land_nonneg; left; apply (fl_get _ HL); by apply Ho1|].
    assert (fcntl_getfl N s w1 = Z.lor (fcntl_getfl N s w) O_NONBLOCK) as F1 by (by rewrite G1, decide_True).
    assert (fcntl_getfl N s w2 = Z.land (fcntl_getfl N s w1) (Z.lnot O_NONBLOCK)) as F2 by (by rewrite G2, decide_True).
    exists w1, w2. unfold socket_set_non_blocking, socket_set_blocking, socket_is_blocking. rewrite E1, E2, F1.
    split_and!; try done.
    + rewrite (proj2 (Z.ltb_ge _ _)) by (apply Z.lor_nonneg; by split). f_equal. apply Z.eqb_neq. intros Hz.
      apply (f_equal (fun z => Z.testbit z 11)) in Hz. by rewrite Z.land_spec, Z.lor_spec, orb_true_r in Hz.
    + rewrite F2, F1. rewrite (proj2 (Z.ltb_ge _ _)) by (apply Z.land_nonneg; left; apply Z.lor_nonneg; by split).
      rewrite <- Z.land_assoc, (Z.land_comm (Z.lnot _)), Z.land_lnot_diag, Z.land_0_r. done.
    + intros k Hk Hne. rewrite Z.lor_spec. change O_NONBLOCK with (2 ^ 11).
      rewrite Z.pow2_bits_false by done. apply orb_false_r.
    + intros s' Hs'. rewrite G2, decide_False by done. by rewrite G1, decide_False by done.
    + rewrite F2, F1. destruct (fcntl_getfl N s w <? 0); [done|]. intros [= Hz]. bool_prop.
      apply Z.bits_inj'. intros k Hk. rewrite Z.land_spec, Z.lor_spec, Z.lnot_spec by done.
      assert (Z.testbit (Z.land (fcntl_getfl N s w) O_NONBLOCK) k = false) as Hb by (by rewrite Hz, Z.bits_0).
      rewrite Z.land_spec in Hb. destruct (Z.testbit (fcntl_getfl N s w) k), (Z.testbit O_NONBLOCK k); done.
  - intros Hc. unfold socket_set_non_blocking, socket_set_blocking, socket_is_blocking.
    destruct (fl_closed _ HL s (Z.lor (fcntl_getfl N s w) O_NONBLOCK) w Hc) as [F E1].
    destruct (fl_closed _ HL s (Z.land (fcntl_getfl N s w) (Z.lnot O_NONBLOCK)) w Hc) as [_ E2].
    rewrite E1, E2, F. done.
Qed.
End Sockets.

(** ** Witness: a kernel that keeps the flags of its open descriptors *)

Definition ex_getfl (s : Z) (w : gmap Z Z) : Z :=
  match w !! s with Some f => if 0 <=? f then f else -1 | None => -1 end.
Definition ex_net : net (gmap Z Z) unit := mkNet _ _
  (fun _ _ _ w => (w, 5)) (fun _ _ _ _ w => (w, 0)) (fun _ => ()) (fun _ _ => None)
  (fun _ _ _ _ w => (w, 0)) (fun _ _ w => (w, 0)) (fun _ _ _ _ w => (w, 0))
  ex_getfl
  (fun s m w => if ex_getfl s w =? -1 then (w, -1) else (<[s := m]> w, 0))
  (fun _ _ w => (w, 0)) (fun _ _ w => (w, 0, 0, [])) (fun _ _ w => (w, 0, 0)) (fun _ w => (w, 0)).

Lemma ex_fcntl_laws : fcntl_laws ex_net (fun s w => ex_getfl s w ≠ -1).
Proof.
  assert (∀ s w, ex_getfl s w ≠ -1 → 0 ≤ ex_getfl s w) as Hpos.
  { intros s w. unfold ex_getfl. destruct (w !! s) as [f|]; [|done]. destruct (0 <=? f) eqn:E; bool_prop; lia. }
  constructor; cbn [ex_net fcntl_getfl fcntl_setfl].
  - apply Hpos.
  - intros s m w Ho Hm. rewrite (proj2 (Z.eqb_neq _ _)) by done. eexists. split; [done|].
    assert (∀ s', ex_getfl s' (<[s := m]> w) = if decide (s' = s) then m else ex_getfl s' w) as Hg.
    { intros s'. unfold ex_getfl. destruct (decide (s' = s)) as [->|Hne].
      - rewrite lookup_insert_eq. by rewrite (proj2 (Z.leb_le _ _)).
      - by rewrite lookup_insert_ne by done. }
    split; [|done]. intros s'. rewrite Hg. case_decide; [subst; split; [done|lia]|done].
  - intros s m w Hc. destruct (decide (ex_getfl s w = -1)) as [E|]; [|exfalso; tauto].
    by rewrite E.
Qed.

Lemma socket_blocking_modes_witness :
  ∃ w1 w2, socket_set_non_blocking ex_net 5 {[5 := 2]} = Ret w1 ∧ socket_is_blocking ex_net 5 w1 = Ret false ∧
    socket_set_blocking ex_net 5 w1 = Ret w2 ∧ fcntl_getfl ex_net 5 w2 = 2.
Proof.
  destruct (socket_blocking_modes ex_net (fun s w => ex_getfl s w ≠ -1) 5 {[5 := 2]} ex_fcntl_laws) as [H _].
  destruct H as (w1 & w2 & H1 & H2 & H3 & _ & _ & _ & H7); [discriminate|].
  exists w1, w2. split_and!; [exact H1|exact H2|exact H3|exact (H7 eq_refl)].
Defined.
