(* ===== verification/Cbuffer.v ===== *)
(** * Cbuffer: the growable contiguous buffer (src/common/cbuffer.c)

    A [Cbuffer] owns one heap block.  [m_memPtr] and [m_cPtr] always point at
    the start of that block, so the record keeps the block once; pointers into
    it are offsets.  [size_t] arithmetic wraps at 64 bits. *)

From S2P Require Import Prelude.
Open Scope Z_scope.

Definition max_of_two (a b : Z) : Z := if b <=? a then a else b.
Definition min_of_two (a b : Z) : Z := if a <=? b then a else b.

Record BufferStrategy := { m_min_size : Z; m_max_size : Z }.

Definition common_strategy : BufferStrategy :=
  {| m_min_size := 256; m_max_size := 1024 * 1024 |}.

Record Cbuffer := mkCbuffer {
  m_memPtr : mem;         (** the block; [m_cPtr] is the same pointer *)
  m_length : Z;
  m_capacity : Z;
  m_size : Z;
  m_strategy : BufferStrategy
}.

Definition BufferStrategy_allocate (bs : BufferStrategy) (required_size : Z) : outcome mem :=
  c_assert (negb (m_max_size bs <? required_size));;
  Ret (malloc_block (max_of_two required_size (m_min_size bs))).

Definition BufferStrategy_reallocate_size
    (bs : BufferStrategy) (current_capacity requested_new_size : Z) : outcome Z :=
  c_assert (negb (m_max_size bs <? requested_new_size));;
  Ret (max_of_two requested_new_size
         (min_of_two (m_max_size bs) (u64 (2 * current_capacity)))).

(** [realloc] keeps the old bytes up to the smaller size; the rest is uninitialised. *)
Definition BufferStrategy_reallocate
    (bs : BufferStrategy) (current_memptr : mem) (new_size : Z) : outcome mem :=
  c_assert (negb (m_max_size bs <? new_size));;
  Ret (take (Z.to_nat new_size) current_memptr ++
       malloc_block (new_size - msize current_memptr)).

Definition Cbuffer_new : outcome Cbuffer :=
  let strategy := common_strategy in
  let tmp_cap := m_min_size strategy in
  p ← BufferStrategy_allocate strategy tmp_cap;
  Ret (mkCbuffer p 0 tmp_cap 0 strategy).

(** Object lifetimes: [None] is a freed object, freeing it again is undefined. *)
Definition Cbuffer_free (this : option Cbuffer) : outcome (option Cbuffer) :=
  match this with Some _ => Ret None | None => Ub end.

Definition Cbuffer_size (cbuf : Cbuffer) : Z := m_length cbuf.
Definition Cbuffer_capacity (cbuf : Cbuffer) : Z := m_capacity cbuf.

(** The returned pointers, as offsets into the block. *)
Definition Cbuffer_data (cbuf : Cbuffer) : Z := 0.
Definition Cbuffer_next_available (cbuf : Cbuffer) : Z := m_length cbuf.

(** The assertion reads the byte at [m_size]; the result is the C string at the
    start of the block. *)
Definition Cbuffer_cstr (this : Cbuffer) : outcome (list byte) :=
  b ← mem_read (m_memPtr this) (m_size this);
  c_assert (beq b NUL);;
  mem_cstr (m_memPtr this) 0.

Definition Cbuffer_toString (cbuf : Cbuffer) : outcome (list byte) :=
  mem_cstr (m_memPtr cbuf) 0.

Definition Cbuffer_clear (cbuf : Cbuffer) : outcome Cbuffer :=
  m ← mem_store (m_memPtr cbuf) 0 [Some NUL];
  Ret (mkCbuffer m 0 (m_capacity cbuf) (m_size cbuf) (m_strategy cbuf)).

(** The growth step of [Cbuffer_append]. *)
Definition Cbuffer_grow (cbuf : Cbuffer) (len : Z) : outcome Cbuffer :=
  if m_capacity cbuf <=? u64 (m_length cbuf + len) then
    new_capacity ← BufferStrategy_reallocate_size (m_strategy cbuf) (m_capacity cbuf)
                     (u64 (m_length cbuf + len));
    tmp ← BufferStrategy_reallocate (m_strategy cbuf) (m_memPtr cbuf) new_capacity;
    Ret (mkCbuffer tmp (m_length cbuf) new_capacity (m_size cbuf) (m_strategy cbuf))
  else Ret cbuf.

Definition Cbuffer_append (cbuf : Cbuffer) (data : mem) (len : Z) : outcome Cbuffer :=
  if len =? 0 then Ret cbuf else
  cbuf ← Cbuffer_grow cbuf len;
  let na := Cbuffer_next_available cbuf in
  src ← mem_load data 0 len;
  m ← mem_store (m_memPtr cbuf) na src;
  let new_length := u64 (m_length cbuf + len) in
  m ← mem_store m new_length [Some NUL];
  Ret (mkCbuffer m new_length (m_capacity cbuf) new_length (m_strategy cbuf)).

(** A C string argument: the bytes before its NUL. *)
Definition Cbuffer_append_cstr (cbuf : Cbuffer) (cstr : list byte) : outcome Cbuffer :=
  Cbuffer_append cbuf (init cstr) (Z.of_nat (length cstr)).

Definition Cbuffer_from_cstring (c_str : list byte) : outcome Cbuffer :=
  cbuf ← Cbuffer_new;
  Cbuffer_append cbuf (init c_str) (Z.of_nat (length c_str)).

Definition Cbuffer_setSize (cbuf : Cbuffer) (n : Z) : Cbuffer :=
  mkCbuffer (m_memPtr cbuf) n (m_capacity cbuf) n (m_strategy cbuf).

(** Returns the new [(dest, src)]. *)
Definition Cbuffer_move (dest src : Cbuffer) : outcome (Cbuffer * Cbuffer) :=
  dest ← Cbuffer_clear dest;
  let tmp := dest in
  let dest := src in
  let src := tmp in
  src ← Cbuffer_clear src;
  Ret (dest, src).

(** [ptr] as an offset from the start of the block. *)
Definition Cbuffer_contains_charptr (cbuf : Cbuffer) (ptr : Z) : bool :=
  (ptr <=? m_capacity cbuf) && (0 <=? ptr).
Definition Cbuffer_contains_voidptr (cbuf : Cbuffer) (ptr : Z) : bool :=
  Cbuffer_contains_charptr cbuf ptr.

(** ** Specification *)

(** The bytes the buffer holds. *)
Definition cb_bytes (cb : Cbuffer) : mem := take (Z.to_nat (m_length cb)) (m_memPtr cb).

(** The well-formedness every operation keeps: the block has the recorded
    capacity and the used portion leaves room for the terminator. *)
Record cb_ok (cb : Cbuffer) : Prop := {
  ok_block : msize (m_memPtr cb) = m_capacity cb;
  ok_strategy : m_strategy cb = common_strategy;
  ok_cap : 256 ≤ m_capacity cb ≤ 1048576;
  ok_len : 0 ≤ m_length cb < m_capacity cb
}.

(** The documented invariant: the used portion is followed by a NUL. *)
Definition cb_terminated (cb : Cbuffer) : Prop :=
  m_memPtr cb !! Z.to_nat (m_length cb) = Some (Some NUL).

(** The byte at [m_size] is a NUL, which [Cbuffer_cstr] asserts. *)
Definition cb_size_nul (cb : Cbuffer) : Prop :=
  0 ≤ m_size cb < m_capacity cb ∧ m_memPtr cb !! Z.to_nat (m_size cb) = Some (Some NUL).

(** Where [Cbuffer_append] puts the end of the data and what block it has. *)
Definition cb_fits (cb : Cbuffer) (len : Z) : Prop :=
  m_length cb + len < m_capacity cb ∨
  m_length cb + len < Z.min 1048576 (2 * m_capacity cb).

(** ** Lemmas *)

Lemma max_of_two_max a b : max_of_two a b = Z.max a b.
Proof. unfold max_of_two. split_if; lia. Qed.
Lemma min_of_two_min a b : min_of_two a b = Z.min a b.
Proof. unfold min_of_two. split_if; lia. Qed.

Lemma cb_fits_dec cb len : Decision (cb_fits cb len).
Proof. unfold cb_fits. apply _. Qed.

Section Append.
Context (cb : Cbuffer) (Hok : cb_ok cb).

(** The capacity after the growth step. *)
Definition grown_cap (len : Z) : Z :=
    if m_length cb + len <? m_capacity cb then m_capacity cb
    else Z.max (m_length cb + len) (Z.min 1048576 (2 * m_capacity cb)).

Lemma grow_ok len :
    0 < len → m_length cb + len ≤ 1048576 →
    ∃ m, Cbuffer_grow cb len =
           Ret (mkCbuffer m (m_length cb) (grown_cap len) (m_size cb) common_strategy) ∧
         msize m = grown_cap len ∧
         take (length (m_memPtr cb)) m = m_memPtr cb.
Proof.
    destruct Hok as [Hb Hs Hc Hl]. intros Hlen Hmax.
    unfold Cbuffer_grow, grown_cap. rewrite u64_small by lia.
    destruct (m_capacity cb <=? m_length cb + len) eqn:E; bool_prop.
    - rewrite (proj2 (Z.ltb_ge _ _)) by lia.
      unfold BufferStrategy_reallocate_size, BufferStrategy_reallocate.
      rewrite Hs. cbn [common_strategy m_max_size].
      change (1024 * 1024) with 1048576.
      rewrite max_of_two_max, min_of_two_min, u64_small by lia.
      rewrite (proj2 (Z.ltb_ge 1048576 (m_length cb + len))) by lia. cbn [negb].
      rewrite assert_true by done. cbn -[Z.mul Z.max Z.min take].
      rewrite (proj2 (Z.ltb_ge 1048576 _)) by lia.
      cbn -[Z.mul Z.max Z.min take].
      eexists. split; [done|]. unfold msize in *. split.
      + rewrite length_app, length_take. unfold malloc_block.
        rewrite length_replicate. lia.
      + rewrite take_app_le by (rewrite length_take; lia).
        rewrite take_take. rewrite take_ge; [done|lia].
    - rewrite (proj2 (Z.ltb_lt _ _)) by lia. exists (m_memPtr cb).
      split; [|split; [lia|by rewrite take_ge]].
      destruct cb; cbn in *; by subst.
Qed.

(** An append below the maximum copies the data and then stores the terminator. *)
Lemma append_step (data : mem) :
    data ≠ [] → m_length cb + msize data ≤ 1048576 →
    ∃ m1, msize m1 = grown_cap (msize data) ∧
      take (Z.to_nat (m_length cb + msize data)) m1 = cb_bytes cb ++ data ∧
      Cbuffer_append cb data (msize data) =
        (m2 ← mem_store m1 (m_length cb + msize data) [Some NUL];
         Ret (mkCbuffer m2 (m_length cb + msize data) (grown_cap (msize data))
                (m_length cb + msize data) common_strategy)).
Proof.
    intros Hne Hmax.
    assert (0 < msize data) by (unfold msize; destruct data; cbn; [done|lia]).
    destruct (grow_ok (msize data)) as (m & Hg & Hm & Htk); [done..|].
    destruct Hok as [Hb Hs Hc Hl].
    assert (m_length cb + msize data ≤ grown_cap (msize data)) as Hroom.
    { unfold grown_cap. split_if; lia. }
    destruct (mem_store_ret m (m_length cb) data) as [m1 E1]; [lia..|].
    exists m1. rewrite (mem_store_size _ _ _ _ E1). split_and!; [done| |].
    - replace (Z.to_nat (m_length cb + msize data))
        with (Z.to_nat (m_length cb) + length data)%nat by (unfold msize in *; lia).
      rewrite (mem_store_prefix _ _ _ _ E1). f_equal. unfold cb_bytes.
      rewrite <- Htk, take_take. f_equal. unfold msize in *. lia.
    - unfold Cbuffer_append. rewrite (proj2 (Z.eqb_neq _ _)) by lia. rewrite Hg.
      cbn [mbind outcome_bind m_memPtr m_length m_capacity m_size m_strategy
           Cbuffer_next_available].
      rewrite mem_load_ok by lia. cbn [mbind outcome_bind].
      change (Z.to_nat 0) with 0%nat.
      rewrite drop_0, (take_ge data), E1 by (unfold msize; lia).
      cbn [mbind outcome_bind]. by rewrite u64_small by lia.
Qed.

Lemma append_fits (data : mem) :
    data ≠ [] → m_length cb + msize data ≤ 1048576 → cb_fits cb (msize data) →
    ∃ cb', Cbuffer_append cb data (msize data) = Ret cb' ∧ cb_ok cb' ∧
           cb_bytes cb' = cb_bytes cb ++ data ∧
           m_length cb' = m_length cb + msize data ∧
           m_size cb' = m_length cb' ∧
           cb_terminated cb'.
Proof.
    intros Hne Hmax Hfit.
    destruct (append_step data) as (m1 & Hm1 & Htk & ->); [done..|].
    destruct Hok as [Hb Hs Hc Hl]. pose proof (msize_nonneg data).
    assert (m_length cb + msize data < grown_cap (msize data) ∧
            m_capacity cb ≤ grown_cap (msize data) ≤ 1048576) as [Hroom Hcap].
    { unfold grown_cap, cb_fits in *. split_if; lia. }
    destruct (mem_store_ret m1 (m_length cb + msize data) [Some NUL]) as [m2 E2];
      [lia | rewrite msize_one; lia |].
    rewrite E2. cbn [mbind outcome_bind]. eexists. split; [reflexivity|].
    split_and!; cbn; try done.
    - constructor; cbn; [rewrite (mem_store_size _ _ _ _ E2); done|done|lia|lia].
    - unfold cb_bytes at 1; cbn. by rewrite (mem_store_below _ _ _ _ _ E2) by lia.
    - unfold cb_terminated; cbn.
      rewrite (mem_store_lookup _ _ _ _ _ E2), decide_True by (cbn; lia).
      by rewrite Nat.sub_diag.
Qed.

(** The terminator falls outside the block. *)
Lemma append_overflows (data : mem) :
    data ≠ [] → m_length cb + msize data ≤ 1048576 → ¬ cb_fits cb (msize data) →
    Cbuffer_append cb data (msize data) = Ub.
Proof.
    intros Hne Hmax Hfit.
    destruct (append_step data) as (m1 & Hm1 & Htk & ->); [done..|].
    destruct Hok as [Hb Hs Hc Hl].
    rewrite mem_store_ub; [done|]. rewrite msize_one.
    unfold grown_cap, cb_fits in *. revert Hm1. split_if; lia.
Qed.

Lemma append_too_big (data : mem) :
    1048576 < m_length cb + msize data < 2 ^ 64 →
    Cbuffer_append cb data (msize data) = AssertFail.
Proof.
    destruct Hok as [Hb Hs Hc Hl]. intros Hbig.
    unfold Cbuffer_append. rewrite (proj2 (Z.eqb_neq _ _)) by lia.
    unfold Cbuffer_grow. rewrite u64_small by lia.
    rewrite (proj2 (Z.leb_le (m_capacity cb) _)) by lia.
    unfold BufferStrategy_reallocate_size. rewrite Hs. cbn [common_strategy m_max_size].
    rewrite (proj2 (Z.ltb_lt _ _)) by lia. done.
Qed.
End Append.

(** ** The empty buffer, clearing and reading back *)

Lemma Cbuffer_new_ret :
  Cbuffer_new = Ret (mkCbuffer (malloc_block 256) 0 256 0 common_strategy).
Proof. done. Qed.

Lemma new_ok : cb_ok (mkCbuffer (malloc_block 256) 0 256 0 common_strategy).
Proof. by constructor; cbn. Qed.

(** A first append below 512 bytes fits the grown block of a new buffer. *)
Lemma new_append_ok (d : list byte) :
  (length d < 512)%nat → d ≠ [] →
  ∃ cb', Cbuffer_append (mkCbuffer (malloc_block 256) 0 256 0 common_strategy) (init d) (Zlen d) = Ret cb' ∧
    cb_ok cb' ∧ cb_bytes cb' = init d ∧ m_length cb' = Zlen d ∧ m_size cb' = m_length cb' ∧
    cb_terminated cb'.
Proof.
  intros Hl Hne. unfold Zlen. rewrite <- msize_init.
  destruct (append_fits _ new_ok (init d)) as (cb' & ? & ? & ? & ? & ? & ?).
  - by destruct d.
  - rewrite msize_init. cbn. lia.
  - right. rewrite msize_init. cbn. lia.
  - exists cb'. by split_and!.
Qed.

Lemma clear_ok cb :
  cb_ok cb → ∃ cb', Cbuffer_clear cb = Ret cb' ∧ cb_ok cb' ∧ cb_bytes cb' = [] ∧
                    m_length cb' = 0 ∧ m_size cb' = m_size cb ∧
                    m_capacity cb' = m_capacity cb ∧
                    (cb_size_nul cb → cb_size_nul cb') ∧
                    m_memPtr cb' !! 0%nat = Some (Some NUL).
Proof.
  intros [Hb Hs Hc Hl]. unfold Cbuffer_clear.
  destruct (mem_store_ret (m_memPtr cb) 0 [Some NUL]) as [m E]; [lia|rewrite msize_one; lia|].
  rewrite E. cbn [mbind outcome_bind]. eexists. split; [done|].
  split_and!; try done.
  - constructor; cbn; try done; [|lia]. by rewrite (mem_store_size _ _ _ _ E).
  - unfold cb_size_nul; cbn. intros [? Hn]. split; [done|].
    rewrite (mem_store_lookup _ _ _ _ _ E). case_decide; [|done].
    replace (Z.to_nat (m_size cb) - Z.to_nat 0)%nat with 0%nat by (cbn in *; lia). done.
  - cbn. by rewrite (mem_store_lookup _ _ _ _ _ E).
Qed.

(** A block whose first [length bs] bytes are [bs] and whose next byte is NUL. *)
Lemma mem_cstr_terminated (m : mem) bs :
  take (length bs) m = init bs → m !! length bs = Some (Some NUL) → no_nul bs = true →
  mem_cstr m 0 = Ret bs.
Proof.
  intros Htk Hn Hnn. unfold mem_cstr.
  rewrite (proj2 (in_block_true _ _ _)) by (pose proof (msize_nonneg m); lia).
  change (Z.to_nat 0) with 0%nat. rewrite drop_0.
  rewrite <- (take_drop (length bs) m), Htk, (drop_S _ (Some NUL)) by done.
  by apply cstr_of_init.
Qed.

Lemma mem_read_ok m off b :
  0 ≤ off < msize m → m !! Z.to_nat off = Some (Some b) → mem_read m off = Ret b.
Proof.
  intros ? Hl. unfold mem_read. rewrite (proj2 (in_block_true _ _ _)) by lia. by rewrite Hl.
Qed.

Lemma cstr_ok cb bs :
  cb_ok cb → cb_size_nul cb → cb_terminated cb → cb_bytes cb = init bs → no_nul bs = true →
  Cbuffer_cstr cb = Ret bs.
Proof.
  intros [Hb Hs Hc Hl] [Hsz Hn] Ht Hbs Hnn. unfold Cbuffer_cstr.
  rewrite (mem_read_ok _ _ NUL) by (done || lia). cbn.
  assert (length bs = Z.to_nat (m_length cb)) as Hlen.
  { apply (f_equal length) in Hbs. unfold cb_bytes, init, msize in *.
    rewrite length_take, length_fmap in Hbs. lia. }
  apply mem_cstr_terminated; rewrite ?Hlen; done.
Qed.

(** ** Sequences of appends *)

Definition append_all (cb : Cbuffer) (chunks : list (list byte)) : outcome Cbuffer :=
  foldl (fun r c => cb ← r; Cbuffer_append_cstr cb c) (Ret cb) chunks.

Definition total_len (chunks : list (list byte)) : Z := Z.of_nat (length (concat chunks)).

Lemma small_fits cb len :
  cb_ok cb → 0 ≤ len ≤ 256 → m_length cb + len < 1048576 → cb_fits cb len.
Proof. intros [] ? ?. right. lia. Qed.

Lemma append_cstr_small cb c :
  cb_ok cb → (length c ≤ 256)%nat → m_length cb + Z.of_nat (length c) < 1048576 →
  ∃ cb', Cbuffer_append_cstr cb c = Ret cb' ∧ cb_ok cb' ∧
         cb_bytes cb' = cb_bytes cb ++ init c ∧
         m_length cb' = m_length cb + Z.of_nat (length c) ∧
         (c = [] → cb' = cb) ∧
         (c ≠ [] → m_size cb' = m_length cb' ∧ cb_terminated cb').
Proof.
  intros Hok Hc Htot. destruct (decide (c = [])) as [->|Hne].
  - exists cb. unfold Cbuffer_append_cstr, Cbuffer_append. cbn.
    rewrite app_nil_r. split_and!; try done. lia.
  - unfold Cbuffer_append_cstr. rewrite <- msize_init in Htot |- *.
    destruct (append_fits cb Hok (init c)) as (cb' & ? & ? & ? & ? & ? & ?).
    + by destruct c.
    + lia.
    + apply small_fits; [done| |lia]. rewrite msize_init. lia.
    + exists cb'. split_and!; done.
Qed.

Lemma append_all_ok chunks : ∀ cb,
  cb_ok cb → Forall (fun c => (length c ≤ 256)%nat) chunks →
  m_length cb + total_len chunks < 1048576 →
  ∃ cb', append_all cb chunks = Ret cb' ∧ cb_ok cb' ∧
         cb_bytes cb' = cb_bytes cb ++ init (concat chunks) ∧
         (concat chunks ≠ [] → cb_size_nul cb' ∧ cb_terminated cb') ∧
         (concat chunks = [] → cb' = cb).
Proof.
  unfold append_all, total_len.
  induction chunks as [|c chunks IH] using rev_ind; intros cb Hok Hsm Htot.
  - exists cb. cbn in *. rewrite app_nil_r. split_and!; done.
  - rewrite concat_app, foldl_app in *. cbn [concat foldl] in *.
    rewrite app_nil_r, length_app in *.
    apply Forall_app in Hsm as [Hsm Hc]. rewrite Forall_singleton in Hc.
    destruct (IH cb) as (cb1 & -> & Hok1 & Hb1 & Hne1 & He1); [done..|lia|].
    cbn [mbind outcome_bind].
    assert (m_length cb1 = m_length cb + Z.of_nat (length (concat chunks))) as Hl1.
    { destruct Hok, Hok1. apply (f_equal length) in Hb1. revert Hb1. unfold cb_bytes, init, msize in *.
      rewrite length_app, length_fmap, !length_take. lia. }
    destruct (append_cstr_small cb1 c) as (cb2 & -> & Hok2 & Hb2 & Hl2 & He2 & Hn2); [done..|lia|].
    exists cb2. split_and!; [done..| | |].
    + by rewrite Hb2, Hb1, init_app, app_assoc.
    + intros Hne. destruct (decide (c = [])) as [->|Hc0].
      * rewrite He2 by done. rewrite app_nil_r in Hne. auto.
      * destruct (Hn2 Hc0) as [Hs Ht]. split; [|done].
        destruct Hok2. split; [lia|]. by rewrite Hs.
    + intros [He3 ->]%app_nil. rewrite He2 by done. auto.
Qed.

(** ** Properties *)

(** C34: Complete behaviour of [Cbuffer_append] on a well-formed buffer and a
    non-empty block: if the new end stays below the grown capacity the bytes
    are appended, the buffer stays well formed, [m_size] equals [m_length] and
    the used portion is followed by a NUL; if the new end reaches the grown
    capacity (it is at least the smaller of twice the old capacity and 1 MiB)
    the terminator is stored one byte past the block; beyond 1 MiB the
    strategy's assertion fails. *)
Theorem Cbuffer_append_behaviour cb data :
  cb_ok cb → data ≠ [] → m_length cb + msize data < 2 ^ 64 →
  (m_length cb + msize data ≤ 1048576 → cb_fits cb (msize data) →
     ∃ cb', Cbuffer_append cb data (msize data) = Ret cb' ∧ cb_ok cb' ∧
            cb_bytes cb' = cb_bytes cb ++ data ∧
            m_size cb' = m_length cb' ∧ cb_terminated cb') ∧
  (m_length cb + msize data ≤ 1048576 → ¬ cb_fits cb (msize data) →
     Cbuffer_append cb data (msize data) = Ub) ∧
  (1048576 < m_length cb + msize data →
     Cbuffer_append cb data (msize data) = AssertFail).
Proof.
  intros Hok Hne Hlt. split_and!.
  - intros Hm Hf. destruct (append_fits cb Hok data Hne Hm Hf) as (cb' & ? & ? & ? & _ & ? & ?).
    by exists cb'.
  - intros. by apply append_overflows.
  - intros. by apply append_too_big.
Qed.

Lemma Cbuffer_append_behaviour_witness :
  let cb := mkCbuffer (malloc_block 256) 0 256 0 common_strategy in
  Cbuffer_append cb (replicate 512 (Some x41)) 512 = Ub.
Proof.
  apply (Cbuffer_append_behaviour _ (replicate 512 (Some x41)) new_ok).
  - done.
  - done.
  - done.
  - intros H. assert (cb_fits (mkCbuffer (malloc_block 256) 0 256 0 common_strategy) 512) as [H'|H']
      by exact H; cbn in H'; lia.
Defined.

(** Round trip through the buffer: starting from [Cbuffer_new], appending
    any sequence of NUL-free C strings of at most 256 bytes each, of total
    length between 1 and 1 MiB - 1, always succeeds, and [Cbuffer_cstr] then
    returns their concatenation. *)
Theorem Cbuffer_append_all_roundtrip chunks :
  Forall (fun c => (length c ≤ 256)%nat) chunks →
  no_nul (concat chunks) = true → concat chunks ≠ [] → total_len chunks < 1048576 →
  (cb ← Cbuffer_new; cb ← append_all cb chunks; Cbuffer_cstr cb) = Ret (concat chunks).
Proof.
  intros Hsm Hnn Hne Htot. rewrite Cbuffer_new_ret, bind_ret_l.
  destruct (append_all_ok chunks _ new_ok Hsm) as (cb' & -> & Hok & Hb & Hs & _); [done|].
  rewrite bind_ret_l. destruct (Hs Hne). by apply cstr_ok.
Qed.

Lemma Cbuffer_append_all_roundtrip_witness :
  (cb ← Cbuffer_new; cb ← append_all cb [bytes "GET "; []; bytes "/index"]; Cbuffer_cstr cb)
  = Ret (bytes "GET /index").
Proof.
  apply (Cbuffer_append_all_roundtrip [bytes "GET "; []; bytes "/index"]);
    [repeat constructor; cbn; lia | done | done | done].
Defined.

(** [Cbuffer_move] keeps every byte: both buffers stay well formed, [dest]
    becomes the old [src] and [src] becomes an empty buffer on [dest]'s old
    block, whose C string is empty when [dest] was terminated at [m_size]. *)
Theorem Cbuffer_move_swaps dest src :
  cb_ok dest → cb_ok src →
  ∃ src', Cbuffer_move dest src = Ret (src, src') ∧ cb_ok src' ∧
          cb_bytes src' = [] ∧ m_capacity src' = m_capacity dest ∧
          (cb_size_nul dest → Cbuffer_cstr src' = Ret []).
Proof.
  intros Hd Hs. unfold Cbuffer_move.
  destruct (clear_ok dest Hd) as (d1 & -> & Hd1 & _ & _ & _ & Hc1 & Hn1 & _).
  rewrite bind_ret_l.
  destruct (clear_ok d1 Hd1) as (d2 & -> & Hd2 & Hb2 & Hl2 & _ & Hc2 & Hn2 & Hz2).
  rewrite bind_ret_l. exists d2. split_and!; [done..|lia|].
  intros. apply cstr_ok; auto. unfold cb_terminated. by rewrite Hl2.
Qed.

Lemma Cbuffer_move_swaps_witness :
  let a := mkCbuffer (Some x41 :: Some NUL :: malloc_block 254) 1 256 1 common_strategy in
  let b := mkCbuffer (malloc_block 256) 0 256 0 common_strategy in
  ∃ b', Cbuffer_move b a = Ret (a, b') ∧ cb_bytes b' = [].
Proof.
  cbn zeta. destruct (Cbuffer_move_swaps (mkCbuffer (malloc_block 256) 0 256 0 common_strategy)
    (mkCbuffer (Some x41 :: Some NUL :: malloc_block 254) 1 256 1 common_strategy))
    as (b' & ? & ? & ? & _).
  - exact new_ok.
  - by constructor; cbn.
  - by exists b'.
Defined.

(** The header says the used portion is always NUL terminated, but a buffer
    fresh from [Cbuffer_new] is not: [Cbuffer_cstr] reads uninitialised memory
    there, and only after a [Cbuffer_clear] or a non-empty append is it a valid
    C string. *)
Theorem Cbuffer_new_unterminated :
  (cb ← Cbuffer_new; Cbuffer_cstr cb) = Ub ∧
  (cb ← Cbuffer_new; Cbuffer_toString cb) = Ub ∧
  (cb ← Cbuffer_new; cb ← Cbuffer_clear cb; Cbuffer_cstr cb) = Ret [].
Proof. by vm_compute. Qed.
