(* ===== verification/IOBuffer.v ===== *)
(** * IOBuffer: the fixed-capacity I/O buffer (src/common/iobuffer.c)

    [mem_p] is the block; [char_p] and [buffer_ptr] are pointers into it and
    kept as offsets.  The capacity fields are C [int]s. *)

From S2P Require Import Prelude Cbuffer.
Open Scope Z_scope.

Record IOBuffer := mkIOBuffer {
  mem_p : mem;
  char_p : Z;
  allocated_capacity : Z;
  buffer_capacity : Z;
  buffer_ptr : Z;
  buffer_length : Z;
  buffer_remaining : Z
}.

(** What a constructor that can run out of memory hands back. *)
Inductive ref (A : Type) : Type :=
| NullRef
| Dangling
| Live (a : A).
Arguments NullRef {A}.
Arguments Dangling {A}.
Arguments Live {A} a.

(** [malloc] of an [int] size: a negative size becomes a huge [size_t] and fails. *)
Definition malloc_int (ok : bool) (n : Z) : option mem :=
  if ok && (0 <=? n) then Some (malloc_block n) else None.

(** [ok] tells whether [malloc] succeeds; [None] is the NULL result. *)
Definition IOBuffer_init (ok : bool) (capacity : Z) : outcome (option IOBuffer) :=
  alloc ← chk_int (capacity + 1);
  match malloc_int ok alloc with
  | None => Ret None
  | Some m => Ret (Some (mkIOBuffer m 0 alloc capacity 0 capacity 0))
  end.

(** Both allocations explicit: the struct ([ok1]) and the block ([ok2]). *)
Definition IOBuffer_alloc (ok1 ok2 : bool) (capacity : Z) : outcome (ref IOBuffer) :=
  if negb ok1 then Ret NullRef else
  r ← IOBuffer_init ok2 capacity;
  match r with
  | None => Ret Dangling          (* [free(pcref)] and then [return pcref] *)
  | Some iob => Ret (Live iob)
  end.

(** The constructor as its callers use it: the result is dereferenced untested. *)
Definition IOBuffer_new_with_capacity (capacity : Z) : outcome IOBuffer :=
  r ← IOBuffer_alloc true true capacity;
  match r with Live iob => Ret iob | _ => Ub end.

Definition IOBUFFER_DEFAULT_CAPACITY : Z := 4 * 1024.

Definition IOBuffer_new : outcome IOBuffer :=
  IOBuffer_new_with_capacity IOBUFFER_DEFAULT_CAPACITY.

Definition IOBuffer_expand_and_reset (iob : IOBuffer) (new_capacity : Z) : outcome IOBuffer :=
  if buffer_capacity iob <? new_capacity then
    r ← IOBuffer_init true new_capacity;
    match r with
    | Some iob' => Ret iob'
    | None => Ub
    end
  else Ret iob.

(** Offsets of the active data and of the free space. *)
Definition IOBuffer_data (this : IOBuffer) : Z := buffer_ptr this.
Definition IOBuffer_data_len (this : IOBuffer) : Z := buffer_remaining this.
Definition IOBuffer_space (this : IOBuffer) : Z := buffer_ptr this + buffer_remaining this.
Definition IOBuffer_space_len (this : IOBuffer) : Z :=
  s32 (buffer_capacity this - (buffer_ptr this + buffer_remaining this)).
Definition IOBuffer_memptr (this : IOBuffer) : Z := 0.

Definition IOBuffer_cstr (this : IOBuffer) : outcome (list byte) :=
  mem_cstr (mem_p this) (buffer_ptr this).

Definition IOBuffer_commit (this : IOBuffer) (bytes_used : Z) : outcome IOBuffer :=
  c_assert (0 <? bytes_used);;
  rem ← chk_int (buffer_remaining this + bytes_used);
  m ← mem_store (mem_p this) rem [Some NUL];
  Ret (mkIOBuffer m (char_p this) (allocated_capacity this) (buffer_capacity this)
         (buffer_ptr this) (buffer_length this) rem).

(** The caller's bytes land in the free space (a [memcpy], a [read]). *)
Definition IOBuffer_fill (this : IOBuffer) (bs : mem) : outcome IOBuffer :=
  m ← mem_store (mem_p this) (IOBuffer_space this) bs;
  Ret (mkIOBuffer m (char_p this) (allocated_capacity this) (buffer_capacity this)
         (buffer_ptr this) (buffer_length this) (buffer_remaining this)).

Definition IOBuffer_data_add (this : IOBuffer) (p : mem) (len : Z) : outcome IOBuffer :=
  let mem_len := IOBuffer_space_len this in
  c_assert (len <=? mem_len);;
  src ← mem_load p 0 len;
  this ← IOBuffer_fill this src;
  IOBuffer_commit this len.

Definition IOBuffer_consume (this : IOBuffer) (byte_count : Z) : outcome IOBuffer :=
  let ptr := buffer_ptr this + byte_count in
  c_assert (ptr <=? buffer_capacity this);;
  rem ← chk_int (buffer_remaining this - byte_count);
  c_assert (0 <=? rem);;
  Ret (mkIOBuffer (mem_p this) (char_p this) (allocated_capacity this) (buffer_capacity this)
         (if rem =? 0 then 0 else ptr) (buffer_length this) rem).

Definition IOBuffer_from_cbuffer (cbuf : Cbuffer) : outcome IOBuffer :=
  let cap := s32 (Cbuffer_size cbuf) in
  cap2 ← chk_int (cap * 2);
  this ← IOBuffer_new_with_capacity cap2;
  src ← mem_load (m_memPtr cbuf) (Cbuffer_data cbuf) cap;
  this ← IOBuffer_fill this src;
  IOBuffer_commit this cap.

Definition IOBuffer_from_buf (buf : mem) (len : Z) : outcome IOBuffer :=
  cap2 ← chk_int (len * 2);
  this ← IOBuffer_new_with_capacity cap2;
  src ← mem_load buf 0 len;
  this ← IOBuffer_fill this src;
  IOBuffer_commit this len.

Definition IOBuffer_from_cstring (cstr : list byte) : outcome IOBuffer :=
  IOBuffer_from_buf (init cstr) (s32 (Z.of_nat (length cstr))).

Definition IOBuffer_dup (this : IOBuffer) : outcome IOBuffer :=
  new ← IOBuffer_new_with_capacity (buffer_capacity this);
  src ← mem_load (mem_p this) 0 (allocated_capacity this);
  m ← mem_store (mem_p new) 0 src;
  Ret (mkIOBuffer m (buffer_ptr this) (allocated_capacity this) (buffer_capacity this)
         (buffer_ptr this) (buffer_length new) (buffer_remaining this)).

Definition IOBuffer_consolidate_space (this : IOBuffer) : outcome IOBuffer :=
  tmp ← IOBuffer_new_with_capacity (buffer_capacity this);
  tmp ← IOBuffer_data_add tmp (drop (Z.to_nat (IOBuffer_data this)) (mem_p this))
          (IOBuffer_data_len this);
  Ret (mkIOBuffer (mem_p tmp) 0 (allocated_capacity tmp) (buffer_capacity tmp)
         (buffer_ptr tmp) (buffer_length this) (buffer_remaining tmp)).

(** Lifetimes: [None] is a freed object. *)
Definition IOBuffer_free (this : option IOBuffer) : outcome (option IOBuffer) :=
  match this with Some _ => Ret None | None => Ub end.

Definition IOBuffer_reset (this : IOBuffer) : IOBuffer :=
  mkIOBuffer (mem_p this) (char_p this) (allocated_capacity this) (buffer_capacity this)
    0 (buffer_length this) 0.

Definition IOBuffer_empty (this : IOBuffer) : bool := buffer_remaining this =? 0.

(** [strncmp(a, b, n) == 0]. *)
Fixpoint strncmp_eq (n : nat) (a b : mem) : outcome bool :=
  match n with
  | O => Ret true
  | S n' =>
      match a, b with
      | Some x :: a', Some y :: b' =>
          if beq x y then (if beq x NUL then Ret true else strncmp_eq n' a' b')
          else Ret false
      | _, _ => Ub
      end
  end.

Definition IOBuffer_equal (a b : IOBuffer) : outcome bool :=
  let lena := IOBuffer_data_len a in
  let lenb := IOBuffer_data_len b in
  if negb (lena =? lenb) then Ret false else
  strncmp_eq (Z.to_nat lena)
    (drop (Z.to_nat (IOBuffer_data a)) (mem_p a))
    (drop (Z.to_nat (IOBuffer_data b)) (mem_p b)).

Definition IOBuffer_consume_pop_front (iob : IOBuffer) : outcome (byte * IOBuffer) :=
  ch ← mem_read (mem_p iob) (IOBuffer_data iob);
  iob ← IOBuffer_consume iob 1;
  Ret (ch, iob).

Definition IOBuffer_commit_push_back (iob : IOBuffer) (ch : byte) : outcome IOBuffer :=
  IOBuffer_data_add iob [Some ch] 1.

(** [vsnprintf(buf, size, ...)] when the formatted text is [out]: at most
    [size - 1] bytes and a NUL are written at [off]; the length of the whole
    text is returned. *)
Definition vsnprintf (m : mem) (off size : Z) (out : list byte) : outcome (mem * Z) :=
  if size <=? 0 then Ret (m, Z.of_nat (length out)) else
  m ← mem_store m off (init (take (Z.to_nat (size - 1)) out) ++ [Some NUL]);
  Ret (m, Z.of_nat (length out)).

(** [buf] is computed before the buffer is expanded: when [expand_and_reset]
    frees the block, the second [vsnprintf] writes through a dangling pointer. *)
Definition IOBuffer_sprintf (iob : IOBuffer) (out : list byte) : outcome IOBuffer :=
  let buf := IOBuffer_space iob in
  let len1 := IOBuffer_space_len iob in
  r ← vsnprintf (mem_p iob) buf len1 out;
  let '(m, nchars1) := r in
  let iob := mkIOBuffer m (char_p iob) (allocated_capacity iob) (buffer_capacity iob)
               (buffer_ptr iob) (buffer_length iob) (buffer_remaining iob) in
  if len1 - 1 <? nchars1 then
    n2 ← chk_int (2 * nchars1);
    if buffer_capacity iob <? n2 then
      iob' ← IOBuffer_expand_and_reset iob n2;
      let len2 := IOBuffer_space_len iob' in
      if len2 <=? 0 then
        c_assert (Z.of_nat (length out) <? len2);; Ret iob'
      else Ub
    else
      let len2 := IOBuffer_space_len iob in
      r ← vsnprintf (mem_p iob) buf len2 out;
      let '(m, nchars2) := r in
      c_assert (nchars2 <? len2);;
      IOBuffer_commit
        (mkIOBuffer m (char_p iob) (allocated_capacity iob) (buffer_capacity iob)
           (buffer_ptr iob) (buffer_length iob) (buffer_remaining iob)) nchars2
  else IOBuffer_commit iob nchars1.

(** ** Specification *)

(** The active bytes. *)
Definition iob_data (b : IOBuffer) : mem :=
  take (Z.to_nat (buffer_remaining b)) (drop (Z.to_nat (buffer_ptr b)) (mem_p b)).

Record iob_ok (b : IOBuffer) : Prop := {
  iok_cap : 0 ≤ buffer_capacity b < INT_MAX;
  iok_alloc : allocated_capacity b = buffer_capacity b + 1;
  iok_block : msize (mem_p b) = allocated_capacity b;
  iok_length : buffer_length b = buffer_capacity b;
  iok_ptr : 0 ≤ buffer_ptr b;
  iok_rem : 0 ≤ buffer_remaining b;
  iok_end : buffer_ptr b + buffer_remaining b ≤ buffer_capacity b
}.

(** The active bytes after [IOBuffer_commit] has stored its terminator at
    [mem_p + buffer_remaining] instead of at the end of the data. *)
Definition commit_data (ptr : Z) (d : mem) : mem :=
  if (0 <? ptr) && (ptr <=? msize d)
  then <[Z.to_nat (msize d - ptr) := Some NUL]> d
  else d.

(** Rebuilding a buffer of capacity [cap] at offset 0 around a block. *)
Definition iob_at0 (m : mem) (cap rem : Z) : IOBuffer :=
  mkIOBuffer m 0 (cap + 1) cap 0 cap rem.

(** The text of a buffer that starts at offset 0: the data, then a NUL. *)
Definition iob_text (b : IOBuffer) (bs : list byte) : Prop :=
  iob_ok b ∧ buffer_ptr b = 0 ∧ iob_data b = init bs ∧
  mem_p b !! length bs = Some (Some NUL).

(** ** Lemmas *)

Lemma space_len_ok b :
  iob_ok b →
  IOBuffer_space_len b = buffer_capacity b - (buffer_ptr b + buffer_remaining b).
Proof.
  intros []. unfold IOBuffer_space_len. apply s32_small. unfold INT_MIN, INT_MAX in *. lia.
Qed.

Lemma iob_data_size b : iob_ok b → msize (iob_data b) = buffer_remaining b.
Proof.
  intros []. unfold msize, iob_data in *. rewrite length_take, length_drop. lia.
Qed.

Lemma new_with_capacity_ok cap :
  0 ≤ cap < INT_MAX →
  IOBuffer_new_with_capacity cap = Ret (iob_at0 (malloc_block (cap + 1)) cap 0).
Proof.
  intros. unfold IOBuffer_new_with_capacity, IOBuffer_alloc, IOBuffer_init, malloc_int.
  cbn [negb]. rewrite chk_int_ok by (unfold INT_MIN, INT_MAX in *; lia).
  cbn [mbind outcome_bind andb]. by rewrite (proj2 (Z.leb_le _ _)) by lia.
Qed.

Lemma new_iob_ok cap :
  0 ≤ cap < INT_MAX → iob_ok (iob_at0 (malloc_block (cap + 1)) cap 0).
Proof. intros. constructor; cbn; try lia. apply msize_malloc. lia. Qed.

(** Byte [i] of the active data extended by [bs] stored in the space. *)
Lemma filled_lookup b bs m1 i :
  iob_ok b → msize bs ≤ IOBuffer_space_len b →
  mem_store (mem_p b) (buffer_ptr b + buffer_remaining b) bs = Ret m1 →
  (i < Z.to_nat (buffer_remaining b + msize bs))%nat →
  m1 !! (Z.to_nat (buffer_ptr b) + i)%nat = (iob_data b ++ bs) !! i.
Proof.
  intros Hok Hroom E1 Hi. rewrite space_len_ok in Hroom by done.
  pose proof (iob_data_size b Hok) as Hds. destruct Hok.
  rewrite (mem_store_lookup _ _ _ _ _ E1). unfold msize in *. case_decide.
  - rewrite lookup_app_r by lia. f_equal. lia.
  - rewrite lookup_app_l by lia. unfold iob_data. by rewrite lookup_take_lt, lookup_drop by lia.
Qed.

(** The effect of the terminator store on [n] active bytes [d] at offset [ptr]. *)
Lemma commit_data_lookup m1 m2 ptr (d : mem) :
  0 ≤ ptr →
  (∀ i, (i < length d)%nat → m1 !! (Z.to_nat ptr + i)%nat = d !! i) →
  mem_store m1 (msize d) [Some NUL] = Ret m2 →
  ptr + msize d ≤ msize m1 →
  take (length d) (drop (Z.to_nat ptr) m2) = commit_data ptr d.
Proof.
  intros Hptr Hd E2 Hsz. pose proof (mem_store_size _ _ _ _ E2) as Hm2.
  apply list_eq. intros i. unfold commit_data, msize in *.
  destruct (decide (i < length d)%nat) as [Hi|Hi].
  - rewrite lookup_take_lt, lookup_drop by lia.
    rewrite (mem_store_lookup _ _ _ _ _ E2), Hd by done. cbn [length].
    destruct ((0 <? ptr) && (ptr <=? Z.of_nat (length d))) eqn:Eb.
    + bool_prop. rewrite list_lookup_insert. symmetry. case_decide as Hc.
      * rewrite decide_True by lia. replace (_ - _)%nat with 0%nat by lia. done.
      * rewrite decide_False by lia. done.
    + rewrite decide_False; [done|].
      apply andb_false_iff in Eb as [Eb|Eb]; bool_prop; lia.
  - rewrite (lookup_ge_None_2 (take _ _)) by (rewrite length_take; lia).
    symmetry. apply lookup_ge_None_2. split_if; rewrite ?length_insert; lia.
Qed.

(** Filling the space and committing it: the exact effect on the active bytes. *)
Lemma fill_commit_ok b bs :
  iob_ok b → 0 < msize bs → msize bs ≤ IOBuffer_space_len b →
  ∃ b', (b1 ← IOBuffer_fill b bs; IOBuffer_commit b1 (msize bs)) = Ret b' ∧ iob_ok b' ∧
        iob_data b' = commit_data (buffer_ptr b) (iob_data b ++ bs) ∧
        buffer_ptr b' = buffer_ptr b ∧
        buffer_capacity b' = buffer_capacity b ∧
        buffer_remaining b' = buffer_remaining b + msize bs ∧
        char_p b' = char_p b ∧
        mem_p b' !! Z.to_nat (buffer_remaining b + msize bs) = Some (Some NUL).
Proof.
  intros Hok Hpos Hroom. pose proof (space_len_ok b Hok) as Hsp.
  pose proof (iob_data_size b Hok) as Hds.
  pose proof (filled_lookup b bs) as Hfl.
  destruct Hok as [Hcap Hall Hblk Hlen Hptr Hrem Hend] eqn:HH.
  unfold IOBuffer_fill, IOBuffer_space.
  destruct (mem_store_ret (mem_p b) (buffer_ptr b + buffer_remaining b) bs) as [m1 E1]; [lia..|].
  rewrite E1. cbn [mbind outcome_bind]. unfold IOBuffer_commit.
  rewrite assert_true by (bool_prop; lia). cbn [mbind outcome_bind buffer_remaining mem_p].
  rewrite chk_int_ok by (unfold INT_MIN, INT_MAX in *; lia). cbn [mbind outcome_bind].
  pose proof (mem_store_size _ _ _ _ E1) as Hs1.
  destruct (mem_store_ret m1 (buffer_remaining b + msize bs) [Some NUL]) as [m2 E2];
    [lia|rewrite msize_one; lia|].
  rewrite E2. cbn [mbind outcome_bind]. pose proof (mem_store_size _ _ _ _ E2) as Hs2.
  assert (Z.of_nat (length (iob_data b ++ bs)) = buffer_remaining b + msize bs) as Hlen'.
  { rewrite length_app. unfold msize in *. lia. }
  eexists. split; [reflexivity|]. cbn. split_and!; try done.
  - constructor; cbn; lia.
  - unfold iob_data at 1; cbn. rewrite <- Hlen', Nat2Z.id.
    apply (commit_data_lookup m1); unfold msize in *; [lia| |by rewrite Hlen'|lia].
    intros i Hi. apply Hfl; [done|lia|done|lia].
  - rewrite (mem_store_lookup _ _ _ _ _ E2), decide_True by (cbn; lia).
    by rewrite Nat.sub_diag.
Qed.

Lemma data_add_eq b bs :
  IOBuffer_data_add b bs (msize bs) =
    (c_assert (msize bs <=? IOBuffer_space_len b);;
     b1 ← IOBuffer_fill b bs; IOBuffer_commit b1 (msize bs)).
Proof.
  unfold IOBuffer_data_add. rewrite mem_load_ok by (pose proof (msize_nonneg bs); lia).
  change (Z.to_nat 0) with 0%nat. rewrite drop_0, take_ge by (unfold msize; lia). done.
Qed.

Lemma commit_data_0 d : commit_data 0 d = d.
Proof. done. Qed.

Lemma data_add_ok b bs :
  iob_ok b → 0 < msize bs ≤ IOBuffer_space_len b →
  ∃ b', IOBuffer_data_add b bs (msize bs) = Ret b' ∧ iob_ok b' ∧
        iob_data b' = commit_data (buffer_ptr b) (iob_data b ++ bs) ∧
        buffer_ptr b' = buffer_ptr b ∧
        buffer_capacity b' = buffer_capacity b ∧
        buffer_remaining b' = buffer_remaining b + msize bs ∧
        mem_p b' !! Z.to_nat (buffer_remaining b + msize bs) = Some (Some NUL).
Proof.
  intros Hok [Hp Hr]. rewrite data_add_eq, assert_true by (bool_prop; lia).
  rewrite bind_ret_l. destruct (fill_commit_ok b bs Hok Hp Hr) as (b' & ? & ? & ? & ? & ? & ? & _ & ?).
  by exists b'.
Qed.

Lemma data_add_empty b : iob_ok b → IOBuffer_data_add b [] 0 = AssertFail.
Proof.
  intros Hok. change 0 with (msize []). rewrite data_add_eq.
  rewrite assert_true
    by (change (msize []) with 0; rewrite space_len_ok by done; destruct Hok; bool_prop; lia).
  rewrite bind_ret_l. unfold IOBuffer_fill.
  destruct (mem_store_ret (mem_p b) (IOBuffer_space b) []) as [m E].
  - destruct Hok. unfold IOBuffer_space. lia.
  - destruct Hok. unfold IOBuffer_space. change (msize []) with 0. lia.
  - by rewrite E.
Qed.

Lemma consume_ok b n :
  iob_ok b → 0 ≤ n ≤ buffer_remaining b →
  ∃ b', IOBuffer_consume b n = Ret b' ∧ iob_ok b' ∧
        iob_data b' = drop (Z.to_nat n) (iob_data b) ∧
        buffer_capacity b' = buffer_capacity b ∧
        buffer_remaining b' = buffer_remaining b - n ∧
        buffer_ptr b' = (if buffer_remaining b =? n then 0 else buffer_ptr b + n) ∧
        mem_p b' = mem_p b.
Proof.
  intros Hok Hn. pose proof (iob_data_size b Hok) as Hds. destruct Hok.
  unfold IOBuffer_consume.
  rewrite assert_true by (bool_prop; lia). rewrite bind_ret_l.
  rewrite chk_int_ok by (unfold INT_MIN, INT_MAX in *; lia). rewrite bind_ret_l.
  rewrite assert_true by (bool_prop; lia). rewrite bind_ret_l.
  eexists. split; [reflexivity|]. cbn.
  replace (buffer_remaining b - n =? 0) with (buffer_remaining b =? n)
    by (destruct (buffer_remaining b =? n) eqn:E; symmetry; bool_prop; lia).
  split_and!; try done.
  - constructor; cbn; try done; try lia; split_if; lia.
  - unfold iob_data at 1; cbn. destruct (buffer_remaining b =? n) eqn:E; bool_prop.
    + replace (Z.to_nat (buffer_remaining b - n)) with 0%nat by lia.
      rewrite (drop_ge (iob_data b)); [done|]. unfold msize in *. lia.
    + unfold iob_data. rewrite skipn_firstn_comm, drop_drop. f_equal; [lia|]. f_equal. lia.
Qed.

Lemma consume_too_much b n :
  iob_ok b → buffer_remaining b < n ≤ INT_MAX → IOBuffer_consume b n = AssertFail.
Proof.
  intros Hok Hn. destruct Hok. unfold IOBuffer_consume.
  destruct (buffer_ptr b + n <=? buffer_capacity b) eqn:E; [|done]. cbn. bool_prop.
  rewrite chk_int_ok by (unfold INT_MIN, INT_MAX in *; lia). rewrite bind_ret_l.
  by rewrite assert_false by (bool_prop; lia).
Qed.

(** Text buffers: what the callers that only write from offset 0 rely on. *)
Lemma text_add b bs new :
  iob_text b bs → (0 < length new)%nat →
  Z.of_nat (length bs) + Z.of_nat (length new) ≤ buffer_capacity b →
  ∃ b', IOBuffer_data_add b (init new) (Z.of_nat (length new)) = Ret b' ∧
        iob_text b' (bs ++ new) ∧ buffer_capacity b' = buffer_capacity b.
Proof.
  intros (Hok & Hp & Hd & _) Hpos Hcap. rewrite <- msize_init.
  pose proof (iob_data_size b Hok) as Hds. rewrite Hd, msize_init in Hds.
  destruct (data_add_ok b (init new)) as (b' & E & Hok' & Hd' & Hp' & Hc' & Hr' & Hn'); [done| |].
  { rewrite msize_init, space_len_ok, Hp by done. lia. }
  exists b'. split_and!; [done| |done]. split_and!; [done|by rewrite Hp'| |].
  - by rewrite Hd', Hp, commit_data_0, Hd, init_app.
  - rewrite length_app, <- Hn', msize_init. f_equal. lia.
Qed.

Lemma text_new cap :
  0 ≤ cap < INT_MAX →
  ∃ b, IOBuffer_new_with_capacity cap = Ret b ∧ iob_ok b ∧ buffer_ptr b = 0 ∧
       iob_data b = [] ∧ buffer_capacity b = cap ∧ buffer_remaining b = 0.
Proof.
  intros. rewrite new_with_capacity_ok by done. eexists. split; [reflexivity|].
  split; [by apply new_iob_ok|done].
Qed.

Lemma add_first b new :
  iob_ok b → buffer_ptr b = 0 → iob_data b = [] → (0 < length new)%nat →
  Z.of_nat (length new) ≤ buffer_capacity b →
  ∃ b', IOBuffer_data_add b (init new) (Z.of_nat (length new)) = Ret b' ∧
        iob_text b' new ∧ buffer_capacity b' = buffer_capacity b.
Proof.
  intros Hok Hp Hd Hpos Hcap. rewrite <- msize_init.
  pose proof (iob_data_size b Hok) as Hds. rewrite Hd in Hds. change (msize []) with 0 in Hds.
  destruct (data_add_ok b (init new)) as (b' & E & Hok' & Hd' & Hp' & Hc' & Hr' & Hn'); [done| |].
  { rewrite msize_init, space_len_ok, Hp by done. lia. }
  exists b'. split_and!; [done| |done]. split_and!; [done|by rewrite Hp'| |].
  - by rewrite Hd', Hp, commit_data_0, Hd.
  - rewrite <- Hn', msize_init. f_equal. lia.
Qed.

Lemma text_cstr b bs : iob_text b bs → no_nul bs = true → IOBuffer_cstr b = Ret bs.
Proof.
  intros (Hok & Hp & Hd & Hn) Hnn. unfold IOBuffer_cstr. rewrite Hp.
  apply mem_cstr_terminated; [|done|done].
  pose proof (iob_data_size b Hok) as Hds. rewrite Hd, msize_init in Hds.
  unfold iob_data in Hd. rewrite Hp in Hd. change (Z.to_nat 0) with 0%nat in Hd.
  rewrite drop_0 in Hd. rewrite <- Hd. f_equal. lia.
Qed.

(** [vsnprintf] into the space followed by a commit. *)
Lemma sprintf_fits b out :
  iob_ok b → buffer_ptr b = 0 → (0 < length out)%nat →
  Z.of_nat (length out) < IOBuffer_space_len b →
  ∃ b', IOBuffer_sprintf b out = Ret b' ∧ iob_ok b' ∧ buffer_ptr b' = 0 ∧
        iob_data b' = iob_data b ++ init out ∧
        buffer_capacity b' = buffer_capacity b ∧
        mem_p b' !! Z.to_nat (buffer_remaining b') = Some (Some NUL).
Proof.
  intros Hok Hp Hpos Hroom. pose proof (space_len_ok b Hok) as Hsp.
  destruct (fill_commit_ok b (init out)) as (b1 & E1 & Hok1 & Hd1 & Hp1 & Hc1 & Hr1 & Hch1 & Hn1);
    [done|rewrite msize_init; lia..|].
  revert E1. unfold IOBuffer_fill, IOBuffer_sprintf, vsnprintf.
  rewrite (proj2 (Z.leb_gt _ _)) by lia. rewrite take_ge by lia.
  destruct Hok as [Hcap Hall Hblk Hlen Hptr Hrem Hend].
  unfold IOBuffer_space in *. rewrite Hp in *. rewrite Z.add_0_l in *.
  rewrite mem_store_app, msize_init by lia.
  destruct (mem_store_ret (mem_p b) (buffer_remaining b) (init out)) as [ma Ea];
    [lia|rewrite msize_init; lia|].
  pose proof (mem_store_size _ _ _ _ Ea).
  destruct (mem_store_ret ma (buffer_remaining b + Z.of_nat (length out)) [Some NUL]) as [mb Eb];
    [lia|rewrite msize_one; lia|].
  rewrite Ea, !bind_ret_l, Eb, !bind_ret_l. rewrite (proj2 (Z.ltb_ge _ _)) by lia.
  unfold IOBuffer_commit. cbn [mem_p buffer_remaining char_p allocated_capacity
    buffer_capacity buffer_ptr buffer_length].
  rewrite assert_true by (bool_prop; lia). rewrite !bind_ret_l.
  rewrite chk_int_ok by (unfold INT_MIN, INT_MAX in *; lia). rewrite !bind_ret_l.
  rewrite Eb, (mem_store_idemp _ _ _ _ Eb), !bind_ret_l.
  intros E1. exists b1. rewrite Hr1, msize_init in *. split_and!; done.
Qed.

(** Text that does not fit never comes back: the retry writes through the
    freed block or fails the assertion. *)
Lemma sprintf_overflow b out :
  iob_ok b → IOBuffer_space_len b ≤ Z.of_nat (length out) →
  2 * Z.of_nat (length out) < INT_MAX →
  IOBuffer_sprintf b out =
    if decide (buffer_capacity b < 2 * Z.of_nat (length out)) then Ub else AssertFail.
Proof.
  intros Hok Hroom Hint. pose proof (space_len_ok b Hok) as Hsp.
  destruct Hok as [Hcap Hall Hblk Hlen Hptr Hrem Hend].
  assert (∃ m, vsnprintf (mem_p b) (IOBuffer_space b) (IOBuffer_space_len b) out =
               Ret (m, Z.of_nat (length out)) ∧ msize m = msize (mem_p b)) as (m & Ev & Hm).
  { unfold vsnprintf. split_if; [eauto|]. unfold IOBuffer_space.
    destruct (mem_store_ret (mem_p b) (buffer_ptr b + buffer_remaining b)
      (init (take (Z.to_nat (IOBuffer_space_len b - 1)) out) ++ [Some NUL])) as [m Em].
    - lia.
    - rewrite msize_app, msize_init, msize_one, length_take. lia.
    - rewrite Em, bind_ret_l. eauto using mem_store_size. }
  unfold IOBuffer_sprintf. rewrite Ev, bind_ret_l.
  rewrite (proj2 (Z.ltb_lt _ _)) by lia.
  rewrite chk_int_ok by (unfold INT_MIN, INT_MAX in *; lia). rewrite bind_ret_l.
  cbn [buffer_capacity mem_p]. case_decide as Hc.
  - rewrite (proj2 (Z.ltb_lt _ _)) by lia. unfold IOBuffer_expand_and_reset.
    cbn [buffer_capacity]. rewrite (proj2 (Z.ltb_lt _ _)) by lia.
    unfold IOBuffer_init, malloc_int. rewrite chk_int_ok by (unfold INT_MIN, INT_MAX in *; lia).
    rewrite bind_ret_l. rewrite (proj2 (Z.leb_le _ _)) by lia. cbn [andb].
    rewrite !bind_ret_l. unfold IOBuffer_space_len; cbn [buffer_capacity buffer_ptr buffer_remaining].
    rewrite s32_small by (unfold INT_MIN, INT_MAX in *; lia).
    by rewrite (proj2 (Z.leb_gt _ _)) by lia.
  - rewrite (proj2 (Z.ltb_ge _ _)) by lia.
    change (IOBuffer_space_len _) with (IOBuffer_space_len b) at 1.
    unfold vsnprintf. split_if.
    + rewrite bind_ret_l. rewrite assert_false by (bool_prop; unfold IOBuffer_space_len in *; cbn in *; lia). done.
    + destruct (mem_store_ret m (IOBuffer_space b)
        (init (take (Z.to_nat (IOBuffer_space_len b - 1)) out) ++ [Some NUL])) as [m2 Em].
      * unfold IOBuffer_space. lia.
      * unfold IOBuffer_space. rewrite msize_app, msize_init, msize_one, length_take. lia.
      * change (IOBuffer_space_len _) with (IOBuffer_space_len b).
        rewrite Em, !bind_ret_l. by rewrite assert_false by (bool_prop; lia).
Qed.

Lemma data_add_prefix b p len :
  0 ≤ len ≤ msize p →
  IOBuffer_data_add b p len = IOBuffer_data_add b (take (Z.to_nat len) p) len.
Proof.
  intros. unfold IOBuffer_data_add, msize in *.
  rewrite !mem_load_ok by (unfold msize; rewrite ?length_take; lia).
  change (Z.to_nat 0) with 0%nat. by rewrite !drop_0, take_take, Nat.min_id.
Qed.

Lemma consolidate_ok b :
  iob_ok b → 0 < buffer_remaining b →
  ∃ b', IOBuffer_consolidate_space b = Ret b' ∧ iob_ok b' ∧ iob_data b' = iob_data b ∧
        buffer_ptr b' = 0 ∧ buffer_capacity b' = buffer_capacity b ∧
        buffer_remaining b' = buffer_remaining b.
Proof.
  intros Hok Hpos. pose proof (iob_data_size b Hok) as Hds.
  destruct Hok as [Hcap Hall Hblk Hlen Hptr Hrem Hend].
  unfold IOBuffer_consolidate_space, IOBuffer_data, IOBuffer_data_len.
  destruct (text_new (buffer_capacity b)) as (t & -> & Htok & Htp & Htd & Htc & Htr); [lia|].
  rewrite bind_ret_l.
  rewrite data_add_prefix by (unfold msize in *; rewrite length_drop; lia).
  fold (iob_data b).
  replace (IOBuffer_data_add t (iob_data b) (buffer_remaining b))
    with (IOBuffer_data_add t (iob_data b) (msize (iob_data b))) by (by rewrite Hds).
  destruct (data_add_ok t (iob_data b)) as (t' & -> & Hok' & Hd' & Hp' & Hc' & Hr' & _);
    [done|rewrite space_len_ok by done; lia|].
  rewrite bind_ret_l. eexists. split; [reflexivity|].
  rewrite Htp, commit_data_0, Htd in Hd'. cbn in Hd'.
  destruct Hok'. split_and!; cbn; try lia.
  - constructor; cbn; lia.
  - exact Hd'.
Qed.

Lemma consolidate_empty b :
  iob_ok b → buffer_remaining b = 0 → IOBuffer_consolidate_space b = AssertFail.
Proof.
  intros [Hcap Hall Hblk Hlen Hptr Hrem Hend] Hz.
  unfold IOBuffer_consolidate_space, IOBuffer_data_len. rewrite Hz.
  destruct (text_new (buffer_capacity b)) as (t & -> & Htok & _); [lia|].
  rewrite bind_ret_l, data_add_prefix by (pose proof (msize_nonneg (drop (Z.to_nat (IOBuffer_data b)) (mem_p b))); lia).
  change (take (Z.to_nat 0) _) with (@nil (option byte)).
  by rewrite data_add_empty.
Qed.

(** ** The buffer as a byte queue

    Clients that add only while the data starts at offset 0 see a bounded FIFO
    of bytes.  [front] records that the data is known to start there. *)

Inductive iob_op :=
| OpAdd (bs : list byte)
| OpConsume (n : Z).

Definition iob_step (b : IOBuffer) (op : iob_op) : outcome IOBuffer :=
  match op with
  | OpAdd bs => IOBuffer_data_add b (init bs) (Z.of_nat (length bs))
  | OpConsume n => IOBuffer_consume b n
  end.

Definition iob_run (b : IOBuffer) (ops : list iob_op) : outcome IOBuffer :=
  foldl (fun r op => b ← r; iob_step b op) (Ret b) ops.

Record fifo := mkFifo { fq : list byte; front : bool }.

Definition fifo_step (cap : Z) (s : fifo) (op : iob_op) : option fifo :=
  match op with
  | OpAdd bs =>
      if front s && (0 <? Z.of_nat (length bs)) &&
         (Z.of_nat (length (fq s)) + Z.of_nat (length bs) <=? cap)
      then Some (mkFifo (fq s ++ bs) true) else None
  | OpConsume n =>
      if (0 <=? n) && (n <=? Z.of_nat (length (fq s)))
      then let q := drop (Z.to_nat n) (fq s) in
           Some (mkFifo q (bool_decide (q = []) || front s && (n =? 0)))
      else None
  end.

Definition fifo_run (cap : Z) (s : fifo) (ops : list iob_op) : option fifo :=
  foldl (fun r op => s ← r; fifo_step cap s op) (Some s) ops.

Definition fifo_rel (cap : Z) (b : IOBuffer) (s : fifo) : Prop :=
  iob_ok b ∧ buffer_capacity b = cap ∧ iob_data b = init (fq s) ∧
  (front s = true → buffer_ptr b = 0).

Lemma fifo_rel_len cap b s :
  fifo_rel cap b s → buffer_remaining b = Z.of_nat (length (fq s)).
Proof.
  intros (Hok & _ & Hd & _). by rewrite <- (iob_data_size b Hok), Hd, msize_init.
Qed.

Lemma fifo_step_sim cap b s op s' :
  fifo_rel cap b s → fifo_step cap s op = Some s' →
  ∃ b', iob_step b op = Ret b' ∧ fifo_rel cap b' s'.
Proof.
  intros Hrel Hst. pose proof (fifo_rel_len _ _ _ Hrel) as Hlen.
  destruct Hrel as (Hok & Hcap & Hd & Hf). destruct op as [bs|n]; cbn in *.
  - destruct (front s) eqn:Ef; cbn in Hst; [|done].
    destruct ((0 <? _) && _) eqn:E; [|done]. injection Hst as <-. bool_prop.
    specialize (Hf eq_refl). rewrite <- msize_init.
    destruct (data_add_ok b (init bs)) as (b' & ? & ? & Hd' & Hp' & Hc' & _); [done| |].
    { rewrite msize_init, space_len_ok, Hf by done. lia. }
    exists b'. split; [done|]. split_and!; [done|lia| |].
    + by rewrite Hd', Hf, commit_data_0, Hd, <- init_app.
    + intros _. by rewrite Hp'.
  - destruct ((0 <=? n) && _) eqn:E; [|done]. injection Hst as <-. bool_prop.
    destruct (consume_ok b n) as (b' & ? & ? & Hd' & Hc' & Hr' & Hp' & _); [done|lia|].
    exists b'. split; [done|]. split_and!; [done|lia| |]; cbn.
    + by rewrite Hd', Hd; unfold init; rewrite fmap_drop.
    + intros [He|[Hft ?%Z.eqb_eq]%andb_true_iff]%orb_true_iff.
      * apply bool_decide_eq_true in He. apply (f_equal length) in He.
        rewrite length_drop in He. cbn in He.
        rewrite Hp', (proj2 (Z.eqb_eq _ _)) by lia. done.
      * rewrite Hp'. split_if; [done|]. rewrite (Hf Hft). lia.
Qed.

(** [strncmp] on initialised data: equality of the parts before the first NUL. *)
Fixpoint cut_nul (bs : list byte) : list byte :=
  match bs with
  | [] => []
  | b :: bs' => if beq b NUL then [] else b :: cut_nul bs'
  end.

Lemma strncmp_init a : ∀ b ra rb,
  length a = length b →
  strncmp_eq (length a) (init a ++ ra) (init b ++ rb) =
    Ret (bool_decide (cut_nul a = cut_nul b)).
Proof.
  induction a as [|x a IH]; intros [|y b] ra rb Hl; try done.
  change (init (x :: a) ++ ra) with (Some x :: (init a ++ ra)).
  change (init (y :: b) ++ rb) with (Some y :: (init b ++ rb)).
  cbn [length strncmp_eq cut_nul]. destruct (beq x y) eqn:E.
  - apply beq_true in E as ->. destruct (beq y NUL); [by rewrite bool_decide_true|].
    rewrite IH by (by injection Hl). f_equal. apply bool_decide_ext. split; congruence.
  - apply beq_false in E. rewrite bool_decide_false; [done|].
    destruct (beq x NUL) eqn:Ex, (beq y NUL) eqn:Ey; try congruence.
    apply beq_true in Ex, Ey. congruence.
Qed.

Lemma cut_nul_id bs : no_nul bs = true → cut_nul bs = bs.
Proof.
  induction bs as [|b bs IH]; [done|]. cbn. intros [Hb Hbs]%andb_true_iff.
  apply negb_true_iff in Hb. by rewrite Hb, IH.
Qed.

Lemma equal_spec a b da db :
  iob_ok a → iob_ok b → iob_data a = init da → iob_data b = init db →
  IOBuffer_equal a b =
    Ret (bool_decide (length da = length db ∧ cut_nul da = cut_nul db)).
Proof.
  intros Ha Hb Hda Hdb. unfold IOBuffer_equal, IOBuffer_data_len, IOBuffer_data.
  pose proof (iob_data_size a Ha) as Hla. pose proof (iob_data_size b Hb) as Hlb.
  rewrite Hda, msize_init in Hla. rewrite Hdb, msize_init in Hlb.
  destruct (buffer_remaining a =? buffer_remaining b) eqn:E; bool_prop; cbn [negb].
  - unfold iob_data in *.
    rewrite <- (take_drop (Z.to_nat (buffer_remaining a)) (drop _ (mem_p a))), Hda.
    rewrite <- (take_drop (Z.to_nat (buffer_remaining b)) (drop _ (mem_p b))), Hdb.
    rewrite <- Hla at 1. rewrite Nat2Z.id, strncmp_init by lia.
    f_equal. apply bool_decide_ext. split; [|by intros []]. split; [lia|done].
  - rewrite bool_decide_false; [done|]. intros [? _]. lia.
Qed.

(** ** Properties *)

(** Exact behaviour of [IOBuffer_data_add] on a well-formed buffer: when the
    bytes fit in the space they are appended, except that the terminator that
    [IOBuffer_commit] stores at [mem_p + buffer_remaining] overwrites the active
    byte at index [buffer_remaining - offset] whenever the data does not start
    at offset 0 and is at least that long; adding nothing, or more than fits,
    fails an assertion. *)
Theorem IOBuffer_data_add_behaviour b bs :
  iob_ok b →
  (0 < msize bs ≤ IOBuffer_space_len b →
     ∃ b', IOBuffer_data_add b bs (msize bs) = Ret b' ∧ iob_ok b' ∧
           iob_data b' = commit_data (buffer_ptr b) (iob_data b ++ bs) ∧
           buffer_ptr b' = buffer_ptr b) ∧
  (bs = [] ∨ IOBuffer_space_len b < msize bs →
     IOBuffer_data_add b bs (msize bs) = AssertFail).
Proof.
  intros Hok. split.
  - intros Hr. destruct (data_add_ok b bs Hok Hr) as (b' & ? & ? & ? & ? & _). by exists b'.
  - intros [->|Hlt]; [by apply data_add_empty|].
    by rewrite data_add_eq, assert_false by (bool_prop; lia).
Qed.

(** A buffer holding [cdef] at offset 2, as left by adding [abcdef] and consuming 2. *)
Definition corrupt_example : IOBuffer :=
  mkIOBuffer (init (bytes "abcdef") ++ Some NUL :: malloc_block 10) 0 17 16 2 16 4.

Lemma IOBuffer_data_add_behaviour_witness :
  ∃ b', IOBuffer_data_add corrupt_example (init (bytes "ghi")) 3 = Ret b' ∧
        iob_data b' = init (bytes "cdefg") ++ Some NUL :: init (bytes "i").
Proof.
  destruct (IOBuffer_data_add_behaviour corrupt_example (init (bytes "ghi"))) as [H _].
  - by constructor; vm_compute.
  - destruct H as (b' & ? & _ & Hd & _); [by vm_compute|].
    exists b'. split; [done|]. rewrite Hd. by vm_compute.
Defined.

(** Exact behaviour of [IOBuffer_consume]: up to the active length the front
    bytes are dropped and the block is untouched, with the data moved back to
    offset 0 when it becomes empty; beyond the active length an assertion fails. *)
Theorem IOBuffer_consume_behaviour b n :
  iob_ok b →
  (0 ≤ n ≤ buffer_remaining b →
     ∃ b', IOBuffer_consume b n = Ret b' ∧ iob_ok b' ∧
           iob_data b' = drop (Z.to_nat n) (iob_data b) ∧ mem_p b' = mem_p b ∧
           (iob_data b' = [] → buffer_ptr b' = 0)) ∧
  (buffer_remaining b < n ≤ INT_MAX → IOBuffer_consume b n = AssertFail).
Proof.
  intros Hok. split; [|by apply consume_too_much].
  intros Hn. destruct (consume_ok b n Hok Hn) as (b' & ? & Hok' & Hd & _ & Hr & Hp & ?).
  exists b'. split_and!; try done. intros He. rewrite Hp.
  apply (f_equal msize) in He. rewrite iob_data_size, Hr in He by done.
  rewrite (proj2 (Z.eqb_eq _ _)); [done|]. change (msize []) with 0 in He. lia.
Qed.

Lemma IOBuffer_consume_behaviour_witness :
  ∃ b', IOBuffer_consume corrupt_example 4 = Ret b' ∧ buffer_ptr b' = 0.
Proof.
  destruct (IOBuffer_consume_behaviour corrupt_example 4) as [H _].
  - by constructor; vm_compute.
  - destruct H as (b' & ? & _ & Hd & _ & Hp); [by vm_compute|].
    exists b'. split; [done|]. apply Hp. rewrite Hd. by vm_compute.
Defined.

(** C35: Refinement: run from related states, every sequence of additions and
    consumptions the bounded byte queue accepts (additions only while the data
    starts at offset 0, within the capacity; consumptions within the queued
    bytes) succeeds on the [IOBuffer] and leaves exactly the queue's bytes. *)
Theorem IOBuffer_refines_fifo cap ops : ∀ b s s',
  fifo_rel cap b s → fifo_run cap s ops = Some s' →
  ∃ b', iob_run b ops = Ret b' ∧ fifo_rel cap b' s'.
Proof.
  unfold fifo_run, iob_run. induction ops as [|op ops IH] using rev_ind; intros b s s' Hrel Hrun.
  - cbn in *. injection Hrun as <-. eauto.
  - rewrite foldl_app in Hrun. rewrite foldl_app. cbn [foldl] in Hrun |- *.
    destruct (foldl _ (Some s) ops) as [s1|] eqn:E1; cbn in Hrun; [|done].
    destruct (IH b s s1 Hrel E1) as (b1 & -> & Hrel1). rewrite bind_ret_l.
    eauto using fifo_step_sim.
Qed.

Lemma IOBuffer_refines_fifo_witness :
  ∃ b b', IOBuffer_new_with_capacity 16 = Ret b ∧
          iob_run b [OpAdd (bytes "ab"); OpAdd (bytes "cd"); OpConsume 3; OpConsume 1;
                     OpAdd (bytes "xyz"); OpConsume 1] = Ret b' ∧
          iob_data b' = init (bytes "yz").
Proof.
  destruct (text_new 16) as (b & Hb & Hok & Hp & Hd & Hc & _); [done|].
  destruct (IOBuffer_refines_fifo 16
    [OpAdd (bytes "ab"); OpAdd (bytes "cd"); OpConsume 3; OpConsume 1; OpAdd (bytes "xyz"); OpConsume 1]
    b (mkFifo [] true) (mkFifo (bytes "yz") false)) as (b' & ? & _ & _ & ? & _).
  - by split_and!.
  - by vm_compute.
  - by exists b, b'.
Defined.

(** Complete behaviour of [IOBuffer_sprintf] with formatted text [out]: on a
    buffer whose data starts at offset 0, non-empty text shorter than the space
    is appended and NUL terminated; text that does not fit is never delivered:
    the retry after [IOBuffer_expand_and_reset] either writes through the
    pointer into the freed block or, when no expansion happens, fails the
    length assertion. *)
Theorem IOBuffer_sprintf_behaviour b out :
  iob_ok b →
  (buffer_ptr b = 0 → (0 < length out)%nat → Z.of_nat (length out) < IOBuffer_space_len b →
     ∃ b', IOBuffer_sprintf b out = Ret b' ∧ iob_ok b' ∧
           iob_data b' = iob_data b ++ init out ∧
           mem_p b' !! Z.to_nat (buffer_remaining b') = Some (Some NUL)) ∧
  (IOBuffer_space_len b ≤ Z.of_nat (length out) → 2 * Z.of_nat (length out) < INT_MAX →
     IOBuffer_sprintf b out =
       if decide (buffer_capacity b < 2 * Z.of_nat (length out)) then Ub else AssertFail).
Proof.
  intros Hok. split; [|by apply sprintf_overflow].
  intros Hp Hpos Hfit.
  destruct (sprintf_fits b out Hok Hp Hpos Hfit) as (b' & ? & ? & _ & ? & _ & ?). by exists b'.
Qed.

Lemma IOBuffer_sprintf_behaviour_witness :
  IOBuffer_sprintf (iob_at0 (malloc_block 5) 4 0) (bytes "hello") = Ub.
Proof.
  destruct (IOBuffer_sprintf_behaviour (iob_at0 (malloc_block 5) 4 0) (bytes "hello")) as [_ H].
  - by apply (new_iob_ok 4).
  - rewrite H; by vm_compute.
Defined.

(** [IOBuffer_consolidate_space] keeps the active bytes and the capacity,
    moves them to offset 0 and so makes all the remaining capacity available;
    on an empty buffer it fails the assertion in [IOBuffer_commit]. *)
Theorem IOBuffer_consolidate_behaviour b :
  iob_ok b →
  (0 < buffer_remaining b →
     ∃ b', IOBuffer_consolidate_space b = Ret b' ∧ iob_ok b' ∧ iob_data b' = iob_data b ∧
           buffer_ptr b' = 0 ∧
           IOBuffer_space_len b' = buffer_capacity b - buffer_remaining b) ∧
  (buffer_remaining b = 0 → IOBuffer_consolidate_space b = AssertFail).
Proof.
  intros Hok. split; [|by apply consolidate_empty].
  intros Hpos. destruct (consolidate_ok b Hok Hpos) as (b' & ? & ? & ? & ? & ? & ?).
  exists b'. split_and!; try done. rewrite space_len_ok by done. lia.
Qed.

Lemma IOBuffer_consolidate_behaviour_witness :
  ∃ b', IOBuffer_consolidate_space corrupt_example = Ret b' ∧
        iob_data b' = init (bytes "cdef") ∧ IOBuffer_space_len b' = 12.
Proof.
  destruct (IOBuffer_consolidate_behaviour corrupt_example) as [H _].
  - by constructor; vm_compute.
  - destruct H as (b' & ? & _ & Hd & _ & Hs); [done|].
    exists b'. split; [done|]. rewrite Hd, Hs. by vm_compute.
Defined.

(** [IOBuffer_equal] compares with [strncmp]: two buffers are reported equal
    exactly when their lengths agree and their bytes agree up to the first NUL,
    so it decides equality of NUL-free contents but not of contents with an
    embedded NUL. *)
Theorem IOBuffer_equal_behaviour a b da db :
  iob_ok a → iob_ok b → iob_data a = init da → iob_data b = init db →
  IOBuffer_equal a b = Ret (bool_decide (length da = length db ∧ cut_nul da = cut_nul db)) ∧
  (no_nul da = true → no_nul db = true → IOBuffer_equal a b = Ret (bool_decide (da = db))).
Proof.
  intros Ha Hb Hda Hdb. rewrite (equal_spec a b da db) by done. split; [done|].
  intros. rewrite !cut_nul_id by done. f_equal. apply bool_decide_ext.
  split; [by intros []|by intros ->].
Qed.

Lemma IOBuffer_equal_behaviour_witness :
  ∃ a b, iob_data a = init [x61; NUL; x62] ∧ iob_data b = init [x61; NUL; x63] ∧
         IOBuffer_equal a b = Ret true.
Proof.
  exists (iob_at0 (init [x61; NUL; x62; NUL]) 3 3), (iob_at0 (init [x61; NUL; x63; NUL]) 3 3).
  split_and!; [done..|].
  apply (IOBuffer_equal_behaviour _ _ [x61; NUL; x62] [x61; NUL; x63]);
    [by constructor; vm_compute | by constructor; vm_compute | done | done].
Defined.

(** Allocation failure: when the struct is allocated but its block is not,
    the constructor frees the struct and returns the freed pointer, never NULL,
    for every valid capacity. *)
Theorem IOBuffer_alloc_failure_dangling capacity :
  0 ≤ capacity < INT_MAX →
  IOBuffer_alloc true false capacity = Ret Dangling ∧
  IOBuffer_alloc false true capacity = Ret NullRef ∧
  IOBuffer_alloc true true capacity = Ret (Live (iob_at0 (malloc_block (capacity + 1)) capacity 0)).
Proof.
  intros. unfold IOBuffer_alloc, IOBuffer_init, malloc_int. cbn [negb andb].
  rewrite !chk_int_ok by (unfold INT_MIN, INT_MAX in *; lia). rewrite !bind_ret_l.
  by rewrite (proj2 (Z.leb_le _ _)) by lia.
Qed.

Lemma IOBuffer_alloc_failure_dangling_witness :
  IOBuffer_alloc true false 1024 = Ret Dangling.
Proof. by apply (IOBuffer_alloc_failure_dangling 1024). Defined.
