(* ===== verification/DemoMsg.v ===== *)
(** * DemoMsg: the two demonstration message formats

    src/apps/msg/demo_msg.c, demo_msg_parser.c (frames STX body ETX) and
    newline_msg.c, newline_msg_parser.c (one message per line).  Both parsers push the
    bytes of a message one at a time into the message's [IOBuffer] and hand the message
    to a callback; the messages handed over, in order, are what the operations below
    return.  A message owns the buffer that was set on it. *)

From S2P Require Import Prelude Cbuffer IOBuffer.
Open Scope Z_scope.

(** ** DemoMsg *)

(** [is_request] is never written nor read and is left out. *)
Record DemoMsg := mkDemo { body : option IOBuffer }.

Definition demo_msg_new : outcome DemoMsg :=
  b ← IOBuffer_new_with_capacity 1024;
  Ret (mkDemo (Some b)).

Definition demo_msg_new_request : outcome DemoMsg := demo_msg_new.
Definition demo_msg_new_response : outcome DemoMsg := demo_msg_new.

Definition get_body_first_char (msg_ref : DemoMsg) : outcome byte :=
  iob ← deref (body msg_ref);
  c_assert (1 <? IOBuffer_data_len iob);;
  mem_read (mem_p iob) (IOBuffer_data iob).

Definition demo_msg_get_is_request (this : DemoMsg) : outcome bool :=
  c ← get_body_first_char this;
  Ret (schar c =? 82).

Definition demo_msg_set_is_request (this : DemoMsg) (yn : bool) : DemoMsg := this.
Definition demo_msg_set_lrc (this : DemoMsg) (lrc : byte) : DemoMsg := this.
Definition demo_msg_set_content_length (this : DemoMsg) (length : Z) : outcome DemoMsg := AssertFail.

(** [None] is a freed message. *)
Definition demo_msg_free (this : DemoMsg) : outcome (option DemoMsg) :=
  _ ← IOBuffer_free (body this);
  Ret None.

Definition demo_msg_get_body (this : DemoMsg) : option IOBuffer := body this.
Definition demo_msg_get_content (msg_ref : DemoMsg) : option IOBuffer := body msg_ref.

Definition demo_msg_set_content (msg_ref : DemoMsg) (content : option IOBuffer) : outcome DemoMsg :=
  match body msg_ref with
  | None => Ret (mkDemo content)
  | Some b => _ ← IOBuffer_free (Some b); Ret (mkDemo content)
  end.
Definition demo_msg_set_body (this : DemoMsg) (iob : option IOBuffer) : outcome DemoMsg :=
  demo_msg_set_content this iob.

Definition CH_STX : byte := x02.
Definition CH_ETX : byte := x03.

Definition demo_msg_serialize (mref : DemoMsg) : outcome IOBuffer :=
  b ← deref (body mref);
  cap ← chk_int (IOBuffer_data_len b + 64);
  iob ← IOBuffer_new_with_capacity cap;
  s ← IOBuffer_cstr b;
  IOBuffer_sprintf iob (CH_STX :: s ++ [CH_ETX]).

(** ** The parser of frames *)

Inductive State :=
| STATE_IDLE | STATE_SOH_WAIT | STATE_OPCODE | STATE_STX_WAIT | STATE_BODY
| STATE_EXT_WAIT | STATE_LRC | STATE_EOT_WAIT | STATE_ERROR_RECOVERY.

#[global] Instance State_eq_dec : EqDecision State.
Proof. solve_decision. Defined.

Record DemoMsgParser := mkDP { m_state : State; m_current_message_ptr : option DemoMsg }.

Definition demo_msg_parser_new : DemoMsgParser := mkDP STATE_IDLE None.

Definition demo_msg_parser_initialize (this : DemoMsgParser) : DemoMsgParser :=
  mkDP (m_state this) None.

Definition demo_msg_parser_free (this : DemoMsgParser) : outcome (option DemoMsgParser) :=
  match m_current_message_ptr this with
  | Some m => _ ← demo_msg_free m; Ret None
  | None => Ret None
  end.

Definition demo_msg_parser_current_message (this : DemoMsgParser) : option DemoMsg :=
  m_current_message_ptr this.

(** The switch of the loop, with the messages passed to the callback.  [isprint] of a
    negative [char] is taken to be false, as the C library of the project has it. *)
Definition consume_char (i length : Z) (ch : Z) (c : byte) (parser : DemoMsgParser)
    : outcome (DemoMsgParser * list DemoMsg) :=
  let cur := m_current_message_ptr parser in
  match m_state parser with
  | STATE_IDLE =>
      Ret (mkDP (if ch =? schar CH_STX then STATE_BODY else STATE_IDLE) cur, [])
  | STATE_BODY =>
      if isprint ch then
        m ← deref cur;
        iobtmp ← deref (demo_msg_get_body m);
        iobtmp ← IOBuffer_commit_push_back iobtmp c;
        _ ← IOBuffer_cstr iobtmp;
        Ret (mkDP STATE_BODY (Some (mkDemo (Some iobtmp))), [])
      else if ch =? schar CH_ETX then
        m ← deref cur;   (* never NULL: the caller has created a message *)
        m' ← demo_msg_new;
        Ret (mkDP STATE_IDLE (Some m'), [m])
      else Ret (mkDP STATE_ERROR_RECOVERY cur, [])
  | STATE_ERROR_RECOVERY =>
      if (ch =? schar CH_STX) && (i <? length - 1) then Ret (mkDP STATE_BODY cur, [])
      else if i =? length - 1 then
        m ← deref cur;
        _ ← demo_msg_free m;
        m' ← demo_msg_new;
        Ret (mkDP STATE_ERROR_RECOVERY (Some m'), [])
      else Ret (parser, [])
  | _ => AssertFail
  end.

(** The loop; [n] is [length - i].  [charbuf] is the data pointer at the start. *)
Fixpoint consume_loop (n : nat) (i length charbuf : Z) (iob : IOBuffer) (parser : DemoMsgParser)
    : outcome (DemoMsgParser * IOBuffer * list DemoMsg) :=
  match n with
  | O => Ret (parser, iob, [])
  | S n =>
      c2 ← mem_read (mem_p iob) (IOBuffer_data iob);
      iob ← IOBuffer_consume iob 1;
      c ← mem_read (mem_p iob) (charbuf + i);
      c_assert (schar c =? schar c2);;
      '(parser, out) ← consume_char i length (schar c) c parser;
      '(parser, iob, out') ← consume_loop n (i + 1) length charbuf iob parser;
      Ret (parser, iob, out ++ out')
  end.

Definition demo_msg_parser_consume (parser : DemoMsgParser) (iob : IOBuffer)
    : outcome (DemoMsgParser * IOBuffer * list DemoMsg) :=
  let buf := IOBuffer_data iob in
  let length := IOBuffer_data_len iob in
  parser ← match m_current_message_ptr parser with
           | None => m ← demo_msg_new; Ret (mkDP (m_state parser) (Some m))
           | Some _ => Ret parser
           end;
  c_assert (negb (length =? 0));;
  consume_loop (Z.to_nat length) 0 length buf iob parser.

(** Successive buffers given to the parser by a reader. *)
Fixpoint demo_feed (parser : DemoMsgParser) (iobs : list IOBuffer)
    : outcome (DemoMsgParser * list DemoMsg) :=
  match iobs with
  | [] => Ret (parser, [])
  | iob :: iobs =>
      '(parser, _, out) ← demo_msg_parser_consume parser iob;
      '(parser, out') ← demo_feed parser iobs;
      Ret (parser, out ++ out')
  end.

(** ** NewLineMsg *)

Record NewLineMsg := mkNL { nl_iob : option IOBuffer }.

Definition newline_msg_init : outcome NewLineMsg :=
  b ← IOBuffer_new;
  Ret (mkNL (Some b)).
Definition newline_msg_new : outcome NewLineMsg := newline_msg_init.

Definition newline_msg_free (m : NewLineMsg) : outcome (option NewLineMsg) :=
  match nl_iob m with
  | Some b => _ ← IOBuffer_free (Some b); Ret None
  | None => Ret None
  end.

Definition newline_msg_serialize (msg : NewLineMsg) : outcome IOBuffer :=
  tmp ← IOBuffer_new;
  b ← deref (nl_iob msg);
  s ← IOBuffer_cstr b;
  IOBuffer_sprintf tmp (s ++ [x0a]).

Definition newline_msg_get_content (msg_ref : NewLineMsg) : option IOBuffer := nl_iob msg_ref.

Definition newline_msg_set_content (mr : NewLineMsg) (iob : option IOBuffer) : outcome NewLineMsg :=
  match nl_iob mr with
  | Some b => _ ← IOBuffer_free (Some b); Ret (mkNL iob)
  | None => Ret (mkNL iob)
  end.

(** ** The parser of lines *)

(** [line_buffer] is never used.  The two pointers are never NULL: every assignment to
    them is the result of a constructor that is dereferenced untested. *)
Record NewLineMsgParser := mkNP {
  nl_msg_ref : NewLineMsg;
  nlp_iob : IOBuffer;
  line_buffer_length : Z;
  line_buffer_max : Z
}.

(** [IOBuffer_new(1000)]: the argument of a function declared without parameters is ignored. *)
Definition newline_msg_parser_init : outcome NewLineMsgParser :=
  m ← newline_msg_new;
  b ← IOBuffer_new;
  Ret (mkNP m b 0 256).
Definition newline_msg_parser_new : outcome NewLineMsgParser := newline_msg_parser_init.

Definition newline_msg_parser_free (p : NewLineMsgParser) : outcome (option NewLineMsgParser) :=
  _ ← IOBuffer_free (Some (nlp_iob p));
  _ ← newline_msg_free (nl_msg_ref p);
  Ret None.

Definition nl_with_msg (mp : NewLineMsgParser) (m : NewLineMsg) : NewLineMsgParser :=
  mkNP m (nlp_iob mp) (line_buffer_length mp) (line_buffer_max mp).

(** The body of the loop for the character [ch]. *)
Definition newline_char (ch : byte) (mp : NewLineMsgParser)
    : outcome (NewLineMsgParser * list NewLineMsg) :=
  if (schar ch =? 10) || (schar ch =? 0) then
    m' ← newline_msg_new;
    Ret (nl_with_msg mp m', [nl_msg_ref mp])
  else
    b ← deref (newline_msg_get_content (nl_msg_ref mp));
    b ← IOBuffer_commit_push_back b ch;
    Ret (nl_with_msg mp (mkNL (Some b)), []).

(** The [while] loop; [None]: the fuel is spent. *)
Fixpoint newline_loop (fuel : nat) (mp : NewLineMsgParser) (iob : IOBuffer)
    : outcome (option (NewLineMsgParser * IOBuffer * list NewLineMsg)) :=
  match fuel with
  | O => Ret None
  | S fuel =>
      if IOBuffer_empty iob then Ret (Some (mp, iob, [])) else
      '(ch, iob) ← IOBuffer_consume_pop_front iob;
      '(mp, out) ← newline_char ch mp;
      r ← newline_loop fuel mp iob;
      match r with
      | None => Ret None
      | Some (mp, iob, out') => Ret (Some (mp, iob, out ++ out'))
      end
  end.

Definition newline_msg_parser_consume (fuel : nat) (mp : NewLineMsgParser) (iob_new_data : IOBuffer)
    : outcome (option (NewLineMsgParser * IOBuffer * list NewLineMsg)) :=
  newline_loop fuel mp iob_new_data.

(** ** Specification *)

(** A buffer of capacity [cap] that holds the text [bs] from offset 0 on. *)
Definition text_in (cap : Z) (b : IOBuffer) (bs : list byte) : Prop :=
  iob_ok b ∧ buffer_ptr b = 0 ∧ buffer_capacity b = cap ∧ iob_data b = init bs ∧
  (bs ≠ [] → mem_p b !! length bs = Some (Some NUL)).

(** A message with the text [bs]. *)
Definition demo_is (m : DemoMsg) (bs : list byte) : Prop :=
  ∃ b, body m = Some b ∧ text_in 1024 b bs.
Definition line_is (m : NewLineMsg) (bs : list byte) : Prop :=
  ∃ b, nl_iob m = Some b ∧ text_in 4096 b bs.

(** The frame format: a machine over bytes, with the text gathered so far.  [last]
    tells that the byte is the last one of the buffer given to the parser. *)
Inductive dmode := Outside | Inside | Skipping.

Definition frame_char (last : bool) (c : byte) (s : dmode * list byte)
    : outcome (dmode * list byte * list (list byte)) :=
  let '(mode, text) := s in
  match mode with
  | Outside => Ret (if beq c CH_STX then Inside else Outside, text, [])
  | Inside =>
      if isprint (schar c)
      then (c_assert (Zlen text <? 1024);; Ret (Inside, text ++ [c], []))
      else if beq c CH_ETX then Ret (Outside, [], [text])
      else Ret (Skipping, text, [])
  | Skipping =>
      if beq c CH_STX && negb last then Ret (Inside, text, [])
      else Ret (Skipping, if last then [] else text, [])
  end.

Fixpoint frame_run (cs : list byte) (s : dmode * list byte)
    : outcome (dmode * list byte * list (list byte)) :=
  match cs with
  | [] => Ret (s, [])
  | c :: cs =>
      '(s, out) ← frame_char (bool_decide (cs = [])) c s;
      '(s, out') ← frame_run cs s;
      Ret (s, out ++ out')
  end.

Fixpoint frame_feed (chunks : list (list byte)) (s : dmode * list byte)
    : outcome (dmode * list byte * list (list byte)) :=
  match chunks with
  | [] => Ret (s, [])
  | cs :: chunks =>
      '(s, out) ← frame_run cs s;
      '(s, out') ← frame_feed chunks s;
      Ret (s, out ++ out')
  end.

Definition mode_state (m : dmode) : State :=
  match m with Outside => STATE_IDLE | Inside => STATE_BODY | Skipping => STATE_ERROR_RECOVERY end.

(** The parser stands for a state of the machine: no message yet means no text. *)
Definition parser_is (p : DemoMsgParser) (s : dmode * list byte) : Prop :=
  m_state p = mode_state s.1 ∧
  match m_current_message_ptr p with
  | Some m => demo_is m s.2
  | None => s.2 = []
  end.

(** A frame, and the texts a frame can carry: printable characters. *)
Definition frame (text : list byte) : list byte := CH_STX :: text ++ [CH_ETX].
Definition printable (text : list byte) : bool := forallb (fun c => isprint (schar c)) text.

(** The lines of a text: what ends at a newline or a NUL, and the unfinished rest. *)
Definition line_end (c : byte) : bool := beq c x0a || beq c NUL.
Fixpoint split_lines (acc cs : list byte) : list (list byte) * list byte :=
  match cs with
  | [] => ([], acc)
  | c :: cs =>
      if line_end c then let '(ls, r) := split_lines [] cs in (acc :: ls, r)
      else split_lines (acc ++ [c]) cs
  end.

(** ** Text buffers *)

Lemma text_in_len cap b bs : text_in cap b bs → Zlen bs ≤ cap ∧ buffer_remaining b = Zlen bs.
Proof.
  intros (Hok & Hp & Hc & Hd & _). pose proof (iob_data_size b Hok) as Hs.
  rewrite Hd, msize_init in Hs. destruct Hok. unfold Zlen. lia.
Qed.

Lemma text_in_new cap :
  0 ≤ cap < INT_MAX → ∃ b, IOBuffer_new_with_capacity cap = Ret b ∧ text_in cap b [].
Proof.
  intros H. destruct (text_new cap H) as (b & E & Hok & Hp & Hd & Hc & _).
  exists b. by split_and!.
Qed.

Lemma text_push cap b bs c :
  text_in cap b bs →
  refines (text_in cap) (IOBuffer_commit_push_back b c)
    (c_assert (Zlen bs <? cap);; Ret (bs ++ [c])).
Proof.
  intros Ht. pose proof (text_in_len _ _ _ Ht) as [Hle Hr].
  destruct Ht as (Hok & Hp & Hc & Hd & _). unfold IOBuffer_commit_push_back.
  change 1 with (msize [Some c]). destruct (Zlen bs <? cap) eqn:E; bool_prop; cbn.
  - destruct (data_add_ok b [Some c]) as (b' & Eb & Hok' & Hd' & Hp' & Hc' & Hr' & Hn);
      [done|rewrite msize_one, space_len_ok by done; lia|].
    exists b'. rewrite Hp, commit_data_0, Hd in Hd'. split; [done|]. split_and!; try done; try lia.
    + by rewrite init_app.
    + intros _. rewrite <- Hn, Hr, msize_one. unfold Zlen. rewrite length_app. cbn. f_equal. lia.
  - rewrite data_add_eq, assert_false; [done|].
    bool_prop. rewrite msize_one, space_len_ok by done. lia.
Qed.

Lemma cstr_of_cut bs rest : cstr_of (init bs ++ Some NUL :: rest) = Ret (cut_nul bs).
Proof.
  induction bs as [|b bs IH]; [done|]. change (init (b :: bs)) with (Some b :: init bs).
  cbn [app cstr_of cut_nul]. destruct (beq b NUL); [done|]. by rewrite IH.
Qed.

Lemma text_in_cstr cap b bs :
  text_in cap b bs → bs ≠ [] → IOBuffer_cstr b = Ret (cut_nul bs).
Proof.
  intros Ht Hne. pose proof (text_in_len _ _ _ Ht) as [_ Hr].
  destruct Ht as (Hok & Hp & _ & Hd & Hn). specialize (Hn Hne).
  unfold IOBuffer_cstr. rewrite Hp. unfold mem_cstr.
  rewrite (proj2 (in_block_true _ _ _)) by (pose proof (msize_nonneg (mem_p b)); lia).
  change (Z.to_nat 0) with 0%nat. rewrite drop_0.
  rewrite <- (take_drop (length bs) (mem_p b)), (drop_S _ _ _ Hn).
  unfold iob_data in Hd. rewrite Hp, Hr in Hd. change (Z.to_nat 0) with 0%nat in Hd.
  rewrite drop_0 in Hd. replace (Z.to_nat (Zlen bs)) with (length bs) in Hd by (unfold Zlen; lia).
  rewrite Hd. apply cstr_of_cut.
Qed.

Lemma printable_no_nul bs : printable bs = true → no_nul bs = true.
Proof.
  unfold printable, no_nul. rewrite !forallb_forall. intros H c Hc%H.
  apply negb_true_iff, beq_false. intros ->. done.
Qed.

(** ** Reading a buffer byte by byte *)

Lemma data_read b cs k c :
  iob_ok b → iob_data b = init cs → cs !! k = Some c →
  mem_read (mem_p b) (buffer_ptr b + Z.of_nat k) = Ret c.
Proof.
  intros Hok Hd Hk. pose proof (iob_data_size b Hok) as Hs. rewrite Hd, msize_init in Hs.
  pose proof (lookup_lt_Some _ _ _ Hk). destruct Hok. unfold mem_read.
  rewrite (proj2 (in_block_true _ _ _)) by lia.
  assert (mem_p b !! Z.to_nat (buffer_ptr b + Z.of_nat k) = Some (Some c)) as ->; [|done].
  replace (Z.to_nat _) with (Z.to_nat (buffer_ptr b) + k)%nat by lia.
  rewrite <- lookup_drop, <- (lookup_take_lt _ (Z.to_nat (buffer_remaining b))) by lia.
  fold (iob_data b). rewrite Hd. unfold init. by rewrite list_lookup_fmap, Hk.
Qed.

Lemma consume_one b c cs :
  iob_ok b → iob_data b = init (c :: cs) →
  ∃ b', IOBuffer_consume b 1 = Ret b' ∧ iob_ok b' ∧ iob_data b' = init cs ∧ mem_p b' = mem_p b.
Proof.
  intros Hok Hd. pose proof (iob_data_size b Hok) as Hs. rewrite Hd, msize_init in Hs. cbn in Hs.
  destruct (consume_ok b 1) as (b' & E & Hok' & Hd' & _ & _ & _ & Hm); [done|lia|].
  exists b'. split_and!; try done. by rewrite Hd', Hd.
Qed.

Lemma pop_front_ok b c cs :
  iob_ok b → iob_data b = init (c :: cs) →
  ∃ b', IOBuffer_consume_pop_front b = Ret (c, b') ∧ iob_ok b' ∧ iob_data b' = init cs.
Proof.
  intros Hok Hd. destruct (consume_one b c cs Hok Hd) as (b' & E & ? & ? & _). exists b'.
  unfold IOBuffer_consume_pop_front, IOBuffer_data.
  pose proof (data_read b (c :: cs) 0 c Hok Hd eq_refl) as Hc. rewrite Z.add_0_r in Hc.
  by rewrite Hc, bind_ret_l, E.
Qed.

Lemma empty_spec b cs : iob_ok b → iob_data b = init cs → IOBuffer_empty b = bool_decide (cs = []).
Proof.
  intros Hok Hd. pose proof (iob_data_size b Hok) as Hs. rewrite Hd, msize_init in Hs.
  unfold IOBuffer_empty. rewrite <- Hs. by destruct cs.
Qed.

(** ** The frame parser refines the machine *)

Definition parser_live (p : DemoMsgParser) (s : dmode * list byte) : Prop :=
  m_state p = mode_state s.1 ∧ ∃ m, m_current_message_ptr p = Some m ∧ demo_is m s.2.

Lemma parser_live_is p s : parser_live p s → parser_is p s.
Proof. intros (? & m & Hm & ?). split; [done|]. by rewrite Hm. Qed.

Lemma demo_msg_new_ok : ∃ m, demo_msg_new = Ret m ∧ demo_is m [].
Proof.
  destruct (text_in_new 1024) as (b & E & Ht); [done|]. exists (mkDemo (Some b)).
  unfold demo_msg_new. rewrite E. split; [done|]. by exists b.
Qed.

Lemma schar_eqb a b : (schar a =? schar b) = beq a b.
Proof.
  destruct (beq a b) eqn:E.
  - apply beq_true in E as ->. bool_prop. done.
  - apply beq_false in E. bool_prop. intros ?%schar_inj. done.
Qed.

Lemma consume_char_refines i n c p s :
  parser_live p s → i < n →
  refines (fun x y => parser_live x.1 y.1 ∧ Forall2 demo_is x.2 y.2)
    (consume_char i n (schar c) c p) (frame_char (i =? n - 1) c s).
Proof.
  destruct s as [mode text]. intros (Hst & m & Hm & Hd) Hi. cbn in Hst, Hd.
  destruct demo_msg_new_ok as (m0 & Em0 & Hd0). unfold consume_char. rewrite Hst, Hm.
  destruct mode; cbn [frame_char mode_state].
  - rewrite schar_eqb. eexists. split; [done|]. split; [|done]. split; cbn; [|eauto].
    by destruct (beq c CH_STX).
  - destruct (isprint (schar c)) eqn:Ep; [|rewrite schar_eqb; destruct (beq c CH_ETX)].
    + destruct Hd as (b & Hb & Ht). cbn [deref mbind outcome_bind].
      unfold demo_msg_get_body. rewrite Hb. cbn [deref mbind outcome_bind].
      pose proof (text_push 1024 b text c Ht) as Hpush.
      destruct (Zlen text <? 1024); cbn in Hpush; [|by rewrite Hpush].
      destruct Hpush as (b' & -> & Ht'). cbn [mbind outcome_bind c_assert].
      rewrite (text_in_cstr _ _ _ Ht') by (by destruct text).
      eexists. split; [done|]. split; [|done]. split; [done|]. eexists. split; [done|].
      exists b'. done.
    + rewrite Em0. eexists. split; [done|]. split; [|by repeat constructor].
      split; [done|]. by eexists.
    + eexists. split; [done|]. split; [|done]. split; [done|]. by eexists.
  - rewrite schar_eqb. replace (i <? n - 1) with (negb (i =? n - 1))
      by (destruct (i =? n - 1) eqn:E; cbn; symmetry; bool_prop; lia).
    destruct (beq c CH_STX && negb (i =? n - 1)).
    + eexists. split; [done|]. split; [|done]. split; [done|]. by eexists.
    + destruct (i =? n - 1).
      * destruct Hd as (b & Hb & _). cbn [deref mbind outcome_bind]. unfold demo_msg_free. rewrite Hb, Em0.
        eexists. split; [done|]. split; [|done]. split; [done|]. by eexists.
      * eexists. split; [done|]. split; [|done]. split; [done|]. cbn. rewrite Hm. by eexists.
Qed.

(** A buffer given to a parser, and its bytes. *)
Definition holds (b : IOBuffer) (cs : list byte) : Prop := iob_ok b ∧ iob_data b = init cs.

Lemma consume_loop_refines cs : ∀ i n buf b p s,
  holds b cs → (∀ k c, cs !! k = Some c → mem_read (mem_p b) (buf + (i + Z.of_nat k)) = Ret c) →
  n = i + Zlen cs → parser_live p s →
  refines (fun x y => parser_live x.1.1 y.1 ∧ holds x.1.2 [] ∧ Forall2 demo_is x.2 y.2)
    (consume_loop (length cs) i n buf b p) (frame_run cs s).
Proof.
  induction cs as [|c cs IH]; intros i n buf b p s [Hok Hd] Hbuf Hn Hp.
  - eexists. split; [done|]. by split_and!.
  - rewrite Zlen_cons in Hn. pose proof (Zlen_nonneg cs).
    change (length (c :: cs)) with (S (length cs)). cbn [consume_loop frame_run].
    pose proof (data_read b (c :: cs) 0 c Hok Hd eq_refl) as Hc. rewrite Z.add_0_r in Hc.
    unfold IOBuffer_data. rewrite Hc, bind_ret_l.
    destruct (consume_one b c cs Hok Hd) as (b' & -> & Hok' & Hd' & Hm). rewrite bind_ret_l, Hm.
    pose proof (Hbuf 0%nat c eq_refl) as Hc'. rewrite Z.add_0_r in Hc'. rewrite Hc', bind_ret_l.
    rewrite assert_true by (by bool_prop). rewrite bind_ret_l.
    replace (bool_decide (cs = [])) with (i =? n - 1).
    2:{ case_bool_decide as Hcs; [subst cs; bool_prop; unfold Zlen in *; cbn in *; lia|].
        pose proof (proj1 (Zlen_nil_iff cs)). bool_prop. intros ->. apply Hcs. auto with lia. }
    eapply refines_bind; [apply consume_char_refines; [done|lia]|].
    intros [p1 o1] [s1 t1] _ _ [Hp1 Ho1]. cbn in Hp1, Ho1.
    eapply refines_bind.
    { apply IH; [done| |lia|done]. intros k x Hk. rewrite Hm, <- (Hbuf (S k) x Hk). f_equal. lia. }
    intros [[p2 b2] o2] [s2 t2] _ _ (Hp2 & Hb2 & Ho2). cbn in *.
    eexists. split; [done|]. split_and!; [done|done|]. by apply Forall2_app.
Qed.

Lemma consume_refines b cs p s :
  holds b cs → cs ≠ [] → parser_is p s →
  refines (fun x y => parser_is x.1.1 y.1 ∧ holds x.1.2 [] ∧ Forall2 demo_is x.2 y.2)
    (demo_msg_parser_consume p b) (frame_run cs s).
Proof.
  intros [Hok Hd] Hne [Hst Hm]. unfold demo_msg_parser_consume.
  pose proof (iob_data_size b Hok) as Hs. rewrite Hd, msize_init in Hs.
  assert (∃ p', match m_current_message_ptr p with
           | None => m ← demo_msg_new; Ret (mkDP (m_state p) (Some m))
           | Some _ => Ret p
           end = Ret p' ∧ parser_live p' s) as (p' & -> & Hlive).
  { destruct (m_current_message_ptr p) as [m|] eqn:E.
    - exists p. split; [done|]. split; [done|]. eauto.
    - destruct demo_msg_new_ok as (m & -> & Hdm). eexists. split; [done|].
      split; [done|]. exists m. by rewrite Hm. }
  rewrite bind_ret_l. unfold IOBuffer_data_len. rewrite <- Hs.
  rewrite assert_true by (destruct cs; [done|]; apply negb_true_iff; bool_prop; cbn; lia).
  rewrite bind_ret_l, Nat2Z.id.
  pose proof (consume_loop_refines cs 0 (Z.of_nat (length cs)) (IOBuffer_data b) b p' s) as H.
  refine (_ (H (conj Hok Hd) _ eq_refl Hlive)).
  - destruct (frame_run cs s) as [y| |]; [|done|done]. intros (x & -> & Hl & ? & ?).
    exists x. split_and!; try done. by apply parser_live_is.
  - intros k c Hk. by apply (data_read b cs).
Qed.

(** What a parser does to the buffer it is given: bytes are consumed, and a buffer whose
    last byte is consumed starts again from the front. *)
Definition consumed (b b' : IOBuffer) : Prop :=
  buffer_capacity b' = buffer_capacity b ∧ (buffer_remaining b' = 0 → buffer_ptr b' = 0).

Lemma consume_consumed b n b' : IOBuffer_consume b n = Ret b' → consumed b b'.
Proof.
  unfold IOBuffer_consume. intros H. inv_binds H. split; cbn; [done|]. intros ->. done.
Qed.
Lemma consumed_trans a b c : consumed a b → consumed b c → consumed a c.
Proof. intros [Hc _] [Hc' He]. split; [by rewrite Hc'|done]. Qed.

Lemma consume_loop_consumes n : ∀ i len charbuf b p p' b' out,
  consume_loop (S n) i len charbuf b p = Ret (p', b', out) → consumed b b'.
Proof.
  induction n as [|n IH]; intros i len charbuf b p p' b' out H; cbn [consume_loop] in H;
    apply bind_ret_inv in H as (c2 & _ & H); apply bind_ret_inv in H as (b1 & Hc%consume_consumed & H);
    apply bind_ret_inv in H as (c & _ & H); apply bind_ret_inv in H as (? & _ & H);
    apply bind_ret_inv in H as ([p1 o1] & _ & H); apply bind_ret_inv in H as ([[p2 b2] o2] & H2 & H);
    injection H as <- <- <-.
  - by injection H2 as <- <- <-.
  - eapply consumed_trans; [done|]. by eapply IH.
Qed.

Lemma demo_consumes p b p' b' out :
  demo_msg_parser_consume p b = Ret (p', b', out) → 0 < buffer_remaining b → consumed b b'.
Proof.
  intros H Hr. unfold demo_msg_parser_consume in H. apply bind_ret_inv in H as (p1 & _ & H).
  apply bind_ret_inv in H as (? & _ & H). unfold IOBuffer_data_len in H.
  destruct (Z.to_nat (buffer_remaining b)) as [|n] eqn:E; [lia|]. by eapply consume_loop_consumes.
Qed.

Lemma feed_refines chunks : ∀ iobs p s,
  Forall2 holds iobs chunks → Forall (.≠ []) chunks → parser_is p s →
  refines (fun x y => parser_is x.1 y.1 ∧ Forall2 demo_is x.2 y.2)
    (demo_feed p iobs) (frame_feed chunks s).
Proof.
  induction chunks as [|cs chunks IH]; intros iobs p s Hh Hne Hp.
  - inversion Hh; subst. eexists. by split_and!.
  - inversion Hh as [|b ? iobs' ? Hb Hh']; subst. inversion Hne; subst. cbn [demo_feed frame_feed].
    eapply refines_bind; [by apply consume_refines|].
    intros [[p1 b1] o1] [s1 t1] _ _ (Hp1 & _ & Ho1). cbn in Hp1, Ho1.
    eapply refines_bind; [by apply IH|].
    intros [p2 o2] [s2 t2] _ _ (Hp2 & Ho2). cbn in *.
    eexists. split; [done|]. split; [done|]. by apply Forall2_app.
Qed.

(** ** Streams without errors: the cutting into buffers does not matter *)

Definition clean_char (c : byte) (s : dmode * list byte)
    : option (dmode * list byte * list (list byte)) :=
  let '(mode, text) := s in
  match mode with
  | Outside => Some (if beq c CH_STX then Inside else Outside, text, [])
  | Inside =>
      if isprint (schar c) then
        if Zlen text <? 1024 then Some (Inside, text ++ [c], []) else None
      else if beq c CH_ETX then Some (Outside, [], [text]) else None
  | Skipping => None
  end.

Fixpoint clean_run (cs : list byte) (s : dmode * list byte)
    : option (dmode * list byte * list (list byte)) :=
  match cs with
  | [] => Some (s, [])
  | c :: cs =>
      '(s, out) ← clean_char c s;
      '(s, out') ← clean_run cs s;
      Some (s, out ++ out')
  end.

Lemma clean_char_ok last c s r : clean_char c s = Some r → frame_char last c s = Ret r.
Proof.
  destruct s as [[] text]; cbn; [congruence| |done].
  destruct (isprint (schar c)); [|destruct (beq c CH_ETX); [congruence|done]].
  destruct (Zlen text <? 1024); [|done]. cbn. congruence.
Qed.

Lemma clean_run_ok cs : ∀ s r, clean_run cs s = Some r → frame_run cs s = Ret r.
Proof.
  induction cs as [|c cs IH]; intros s r; cbn [clean_run frame_run]; [congruence|].
  destruct (clean_char c s) as [[s1 o1]|] eqn:E1; [|done]. cbn [mbind option_bind].
  destruct (clean_run cs s1) as [[s2 o2]|] eqn:E2; [|done]. cbn [mbind option_bind].
  intros [= <-]. rewrite (clean_char_ok _ _ _ _ E1), bind_ret_l. by rewrite (IH _ _ E2).
Qed.

Lemma clean_run_app a b s :
  clean_run (a ++ b) s =
    ('(s1, o1) ← clean_run a s; '(s2, o2) ← clean_run b s1; Some (s2, o1 ++ o2)).
Proof.
  revert s. induction a as [|c a IH]; intros s; cbn [app clean_run mbind option_bind].
  - by destruct (clean_run b s) as [[]|].
  - destruct (clean_char c s) as [[s1 o1]|]; [|done]. cbn [mbind option_bind]. rewrite IH.
    destruct (clean_run a s1) as [[s2 o2]|]; [|done]. cbn [mbind option_bind].
    destruct (clean_run b s2) as [[s3 o3]|]; [|done]. cbn. by rewrite app_assoc.
Qed.

Lemma clean_feed_ok chunks : ∀ s r, clean_run (concat chunks) s = Some r → frame_feed chunks s = Ret r.
Proof.
  induction chunks as [|cs chunks IH]; intros s r; cbn [concat frame_feed]; [cbn; congruence|].
  rewrite clean_run_app.
  destruct (clean_run cs s) as [[s1 o1]|] eqn:E1; [|done]. cbn [mbind option_bind].
  destruct (clean_run (concat chunks) s1) as [[s2 o2]|] eqn:E2; [|done]. cbn [mbind option_bind].
  intros [= <-]. rewrite (clean_run_ok _ _ _ E1), bind_ret_l. by rewrite (IH _ _ E2).
Qed.

Lemma clean_text text : ∀ acc,
  printable text = true → Zlen acc + Zlen text ≤ 1024 →
  clean_run text (Inside, acc) = Some (Inside, acc ++ text, []).
Proof.
  induction text as [|c text IH]; intros acc; cbn [clean_run]; [by rewrite app_nil_r|].
  cbn [printable forallb]. intros [Hc Ht]%andb_true_iff Hl. rewrite Zlen_cons in Hl.
  pose proof (Zlen_nonneg text). cbn [clean_char]. rewrite Hc, (proj2 (Z.ltb_lt _ _)) by lia.
  cbn [mbind option_bind]. rewrite IH; [|done|autorewrite with chttp; unfold Zlen in *; cbn; lia].
  cbn. by rewrite <- app_assoc.
Qed.

Lemma clean_frames texts :
  Forall (fun t => printable t = true ∧ Zlen t ≤ 1024) texts →
  clean_run (concat (frame <$> texts)) (Outside, []) = Some (Outside, [], texts).
Proof.
  induction 1 as [|t texts [Hp Hl] _ IH]; [done|]. cbn [fmap list_fmap concat].
  unfold frame at 1. cbn [app clean_run clean_char]. rewrite beq_refl. cbn [mbind option_bind].
  rewrite <- app_assoc, clean_run_app, clean_text by (done || (unfold Zlen; cbn; lia)).
  cbn [app mbind option_bind]. cbn [clean_run clean_char].
  change (isprint (schar CH_ETX)) with false. cbn match. rewrite beq_refl. cbn [mbind option_bind].
  by rewrite IH.
Qed.

(** ** Frames *)

(** Serialising needs the text only, whatever the size of its buffer. *)
Lemma demo_serialize_text cap m b t :
  body m = Some b → text_in cap b t → t ≠ [] → printable t = true → Zlen t ≤ 2 ^ 20 →
  ∃ b', demo_msg_serialize m = Ret b' ∧ holds b' (frame t).
Proof.
  intros Hb Ht Hne Hp Hlen. pose proof (text_in_len _ _ _ Ht) as [Hl Hr]. pose proof (Zlen_nonneg t).
  unfold demo_msg_serialize, IOBuffer_data_len. rewrite Hb. cbn [deref mbind outcome_bind].
  rewrite Hr, chk_int_ok by (unfold INT_MIN, INT_MAX; lia). rewrite bind_ret_l.
  destruct (text_new (Zlen t + 64)) as (b0 & -> & Hok & Hp0 & Hd0 & Hc0 & Hr0); [unfold INT_MAX; lia|].
  rewrite bind_ret_l, (text_in_cstr _ _ _ Ht Hne), bind_ret_l, (cut_nul_id t)
    by (by apply printable_no_nul).
  destruct (sprintf_fits b0 (frame t)) as (b1 & E & Hok1 & _ & Hd1 & _);
    [done|done|cbn; lia| |exists b1; split; [done|split; [done|by rewrite Hd1, Hd0]]].
  rewrite space_len_ok by done. rewrite Hc0, Hp0, Hr0. unfold frame, Zlen. cbn [length].
  rewrite length_app. cbn [length]. lia.
Qed.

Lemma demo_serialize_ok m t :
  demo_is m t → t ≠ [] → printable t = true →
  ∃ b, demo_msg_serialize m = Ret b ∧ holds b (frame t).
Proof.
  intros (b & Hb & Ht) Hne Hp. apply (demo_serialize_text 1024 m b t); try done.
  pose proof (text_in_len _ _ _ Ht) as [Hl _]. lia.
Qed.

(** A buffer made from a C string. *)
Lemma from_cstring_ok t :
  t ≠ [] → Zlen t ≤ 2 ^ 20 → ∃ iob, IOBuffer_from_cstring t = Ret iob ∧ text_in (Zlen t * 2) iob t.
Proof.
  intros Hne Hlen. assert (0 < Zlen t) as Hpos by (destruct t; [done|]; rewrite Zlen_cons; pose proof (Zlen_nonneg t); lia).
  unfold IOBuffer_from_cstring, IOBuffer_from_buf. fold (Zlen t).
  rewrite s32_small, chk_int_ok by (unfold INT_MIN, INT_MAX; lia). rewrite bind_ret_l.
  destruct (text_new (Zlen t * 2)) as (b0 & -> & Hok & Hp0 & Hd0 & Hc0 & Hr0); [unfold INT_MAX; lia|]. rewrite bind_ret_l.
  assert (msize (init t) = Zlen t) as Hm by apply msize_init.
  rewrite mem_load_ok by lia. rewrite bind_ret_l. change (Z.to_nat 0) with 0%nat. rewrite drop_0.
  rewrite take_ge by (unfold init, Zlen; rewrite length_fmap; lia).
  destruct (fill_commit_ok b0 (init t) Hok) as (b1 & Hf & Hok1 & Hd1 & Hp1 & Hc1 & Hr1 & _ & Hn);
    [lia|rewrite space_len_ok by done; rewrite Hc0, Hp0, Hr0; lia|].
  rewrite Hm in Hf, Hn. rewrite Hf. exists b1. split; [done|]. rewrite Hr0 in Hn. split_and!; [done|by rewrite Hp1|by rewrite Hc1| |].
  - rewrite Hd1, Hp0, Hd0. done.
  - intros _. rewrite <- Hn. f_equal. unfold Zlen. lia.
Qed.

Lemma serialize_all msgs texts :
  Forall2 demo_is msgs texts → Forall (fun t => t ≠ [] ∧ printable t = true) texts →
  ∃ wires, mapM demo_msg_serialize msgs = Ret wires ∧ Forall2 holds wires (frame <$> texts).
Proof.
  induction 1 as [|m t msgs texts Hm _ IH]; intros Hok.
  - exists []. done.
  - inversion Hok as [|? ? [Hne Hp] Hok']; subst. destruct (IH Hok') as (ws & E & Hws).
    destruct (demo_serialize_ok m t Hm Hne Hp) as (b & Eb & Hb).
    exists (b :: ws). split; [cbn; by rewrite Eb, bind_ret_l, E|]. by constructor.
Qed.

Lemma demo_is_len m t : demo_is m t → Zlen t ≤ 1024.
Proof. intros (b & _ & Ht). by apply text_in_len in Ht as []. Qed.

Lemma new_parser_is : parser_is demo_msg_parser_new (Outside, []).
Proof. done. Qed.

Lemma frame_inside text : ∀ acc rest,
  printable text = true → Zlen acc + Zlen text ≤ 1024 →
  frame_run (text ++ rest) (Inside, acc) = frame_run rest (Inside, acc ++ text).
Proof.
  induction text as [|c text IH]; intros acc rest; [by rewrite app_nil_r|].
  cbn [printable forallb app frame_run]. intros [Hc Ht]%andb_true_iff Hl. rewrite Zlen_cons in Hl.
  pose proof (Zlen_nonneg text). cbn [frame_char].
  rewrite Hc, assert_true, !bind_ret_l by (bool_prop; lia).
  rewrite IH; [|done|autorewrite with chttp; unfold Zlen in *; cbn; lia].
  rewrite <- app_assoc. cbn [app]. by destruct (frame_run rest _) as [[]| |].
Qed.

Lemma frame_skipping cs : ∀ text,
  Forall (.≠ CH_STX) cs → cs ≠ [] → frame_run cs (Skipping, text) = Ret (Skipping, [], []).
Proof.
  induction cs as [|c cs IH]; intros text Hs Hne; [done|]. inversion Hs as [|? ? Hc Hs']; subst.
  cbn [frame_run frame_char]. rewrite (proj2 (beq_false _ _) Hc). cbn [andb]. rewrite bind_ret_l.
  destruct cs as [|d cs]; [done|]. by rewrite IH.
Qed.

Lemma printable_no_stx text : printable text = true → Forall (.≠ CH_STX) text.
Proof.
  unfold printable. rewrite forallb_forall, Forall_forall. intros H c Hc%list_elem_of_In%H. by intros ->.
Qed.

(** ** Lines *)

Lemma newline_msg_new_ok : ∃ m, newline_msg_new = Ret m ∧ line_is m [].
Proof.
  destruct (text_in_new 4096) as (b & E & Ht); [done|]. exists (mkNL (Some b)).
  unfold newline_msg_new, newline_msg_init, IOBuffer_new. change IOBUFFER_DEFAULT_CAPACITY with 4096.
  rewrite E. split; [done|]. by exists b.
Qed.

(** The reference: the lines, unless one of them outgrows its buffer. *)
Definition fits (l : list byte) : bool := Zlen l <=? 4096.
Definition lines_spec (acc cs : list byte) : outcome (list (list byte) * list byte) :=
  let '(ls, r) := split_lines acc cs in
  c_assert (forallb fits (ls ++ [r]));; Ret (ls, r).

Lemma split_lines_long acc cs :
  4096 < Zlen acc → lines_spec acc cs = AssertFail.
Proof.
  unfold lines_spec. revert acc. induction cs as [|c cs IH]; intros acc Hl; cbn [split_lines].
  - cbn. unfold fits. by rewrite (proj2 (Z.leb_gt _ _)) by lia.
  - destruct (line_end c).
    + destruct (split_lines [] cs) as [ls r]. cbn. unfold fits at 1.
      by rewrite (proj2 (Z.leb_gt _ _)) by lia.
    + apply IH. rewrite Zlen_app. unfold Zlen in *. cbn. lia.
Qed.

Lemma line_end_schar c : (schar c =? 10) || (schar c =? 0) = line_end c.
Proof.
  unfold line_end. rewrite <- !schar_eqb. reflexivity.
Qed.

Lemma lines_spec_end acc c cs :
  line_end c = true → Zlen acc ≤ 4096 →
  lines_spec acc (c :: cs) = ('(ls, r) ← lines_spec [] cs; Ret (acc :: ls, r)).
Proof.
  intros Hc Hl. unfold lines_spec. cbn [split_lines]. rewrite Hc.
  destruct (split_lines [] cs) as [ls r]. cbn [app forallb]. unfold fits at 1.
  rewrite (proj2 (Z.leb_le _ _)) by lia. cbn [andb]. by destruct (forallb fits (ls ++ [r])).
Qed.

Lemma newline_consumes fuel : ∀ mp b mp' b' out,
  newline_loop fuel mp b = Ret (Some (mp', b', out)) → IOBuffer_empty b = false → consumed b b'.
Proof.
  induction fuel as [|fuel IH]; intros mp b mp' b' out H He; cbn [newline_loop] in H; [done|]. rewrite He in H.
  apply bind_ret_inv in H as ([ch b1] & Hc & H). unfold IOBuffer_consume_pop_front in Hc.
  apply bind_ret_inv in Hc as (? & _ & Hc). apply bind_ret_inv in Hc as (b2 & Hc%consume_consumed & Hb).
  injection Hb as _ <-. apply bind_ret_inv in H as ([mp1 o1] & _ & H). apply bind_ret_inv in H as ([[[mp2 b3] o2]|] & H2 & H); [|done].
  injection H as <- <- <-. destruct (IOBuffer_empty b2) eqn:E.
  - destruct fuel as [|fuel]; cbn [newline_loop] in H2; [done|]. rewrite E in H2. by injection H2 as <- <- <-.
  - eapply consumed_trans; [done|]. by eapply IH.
Qed.

Lemma newline_loop_refines cs : ∀ fuel mp b acc,
  holds b cs → line_is (nl_msg_ref mp) acc → (length cs < fuel)%nat →
  refines (fun x y => ∃ mp' b' out, x = Some (mp', b', out) ∧ line_is (nl_msg_ref mp') y.2 ∧
             holds b' [] ∧ Forall2 line_is out y.1)
    (newline_loop fuel mp b) (lines_spec acc cs).
Proof.
  induction cs as [|c cs IH]; intros [|fuel] mp b acc [Hok Hd] Hm Hf; cbn in Hf; try lia;
    cbn [newline_loop]; rewrite (empty_spec b _ Hok Hd).
  - destruct Hm as (bm & Hbm & Ht). pose proof (text_in_len _ _ _ Ht) as [Hl _].
    unfold lines_spec. cbn. unfold fits. rewrite (proj2 (Z.leb_le _ _)) by lia. cbn.
    eexists. split; [done|]. do 3 eexists. split; [done|]. split_and!; [by exists bm|done|done].
  - rewrite bool_decide_false by done.
    destruct (pop_front_ok b c cs Hok Hd) as (b' & -> & Hb'). rewrite bind_ret_l.
    unfold newline_char. rewrite line_end_schar.
    destruct (line_end c) eqn:Ec.
    + destruct newline_msg_new_ok as (m0 & -> & Hm0). rewrite !bind_ret_l.
      destruct Hm as (bm & Hbm & Ht). pose proof (text_in_len _ _ _ Ht) as [Hl _].
      rewrite lines_spec_end by done.
      eapply refines_bind; [by apply (IH fuel (nl_with_msg mp m0) b' []); [| |lia]|].
      intros x [ls r] _ _ (mp2 & b2 & out & -> & Hm2 & Hb2 & Ho). cbn in Hm2, Ho.
      eexists. split; [done|]. do 3 eexists. split; [done|]. split_and!; [done|done|].
      constructor; [by exists bm|done].
    + destruct Hm as (bm & Hbm & Ht). unfold newline_msg_get_content. rewrite Hbm.
      cbn [deref]. rewrite bind_ret_l.
      pose proof (text_push 4096 bm acc c Ht) as Hpush.
      destruct (Zlen acc <? 4096) eqn:El; bool_prop; cbn in Hpush.
      * destruct Hpush as (bm' & -> & Ht'). rewrite !bind_ret_l.
        change (lines_spec acc (c :: cs)) with (let '(ls, r) := split_lines acc (c :: cs) in
          c_assert (forallb fits (ls ++ [r]));; Ret (ls, r)).
        cbn [split_lines]. rewrite Ec. fold (lines_spec (acc ++ [c]) cs).
        assert (∀ m : outcome (option (NewLineMsgParser * IOBuffer * list NewLineMsg)),
          (r ← m; match r with None => Ret None | Some (mp, iob, out') => Ret (Some (mp, iob, [] ++ out')) end) = m)
          as -> by (by intros [[[[]]|]| |]).
        apply IH; [done|by exists bm'|lia].
      * rewrite Hpush. cbn. unfold lines_spec. cbn [split_lines]. rewrite Ec.
        fold (lines_spec (acc ++ [c]) cs). rewrite split_lines_long; [done|].
        rewrite Zlen_app. unfold Zlen in *. cbn. lia.
Qed.

(** ** Properties *)

(** A buffer that holds [cs] from offset 0 on, for the examples. *)
Definition filled (cap : Z) (cs : list byte) : IOBuffer :=
  mkIOBuffer (init cs ++ replicate (Z.to_nat (cap + 1 - Zlen cs)) (Some NUL)) 0 (cap + 1) cap 0 cap
    (Zlen cs).

Lemma filled_text cap cs : Zlen cs ≤ cap < INT_MAX → text_in cap (filled cap cs) cs.
Proof.
  intros H. pose proof (Zlen_nonneg cs).
  split_and!; [constructor; cbn; try lia|done|done| |].
  - rewrite msize_app, msize_init. unfold msize, Zlen in *. rewrite length_replicate. lia.
  - unfold iob_data, filled. cbn [mem_p buffer_ptr buffer_remaining].
    change (Z.to_nat 0) with 0%nat. rewrite drop_0, take_app_length'; [done|].
    unfold init, Zlen. rewrite length_fmap. lia.
  - intros _. unfold filled; cbn [mem_p]. unfold init.
    rewrite lookup_app_r by (rewrite length_fmap; lia). rewrite length_fmap, Nat.sub_diag.
    unfold Zlen in *. by replace (Z.to_nat (cap + 1 - Z.of_nat (length cs)))
      with (S (Z.to_nat (cap - Z.of_nat (length cs)))) by lia.
Qed.

Lemma filled_holds cap cs : Zlen cs ≤ cap < INT_MAX → holds (filled cap cs) cs.
Proof. intros (? & _ & _ & ? & _)%filled_text. by split. Qed.

(** C25: Round trip of the demonstration protocol: serialise any messages with non-empty
    printable bodies, which gives a frame STX body ETX for each; send the frames one
    after the other and cut the stream into buffers anywhere: a fresh parser delivers
    messages with exactly these bodies, in order, and is idle again. *)
Theorem demo_frames_roundtrip msgs texts :
  Forall2 demo_is msgs texts → Forall (fun t => t ≠ [] ∧ printable t = true) texts →
  ∃ wires, mapM demo_msg_serialize msgs = Ret wires ∧ Forall2 holds wires (frame <$> texts) ∧
    ∀ iobs chunks, concat chunks = concat (frame <$> texts) →
      Forall (.≠ []) chunks → Forall2 holds iobs chunks →
      ∃ p out, demo_feed demo_msg_parser_new iobs = Ret (p, out) ∧ Forall2 demo_is out texts ∧
        m_state p = STATE_IDLE.
Proof.
  intros Hm Hok. destruct (serialize_all msgs texts Hm Hok) as (ws & E & Hw).
  exists ws. split_and!; [done|done|]. intros iobs chunks Hc Hne Hi.
  assert (frame_feed chunks (Outside, []) = Ret (Outside, [], texts)) as Hf.
  { apply clean_feed_ok. rewrite Hc. apply clean_frames, Forall_forall. intros t Ht.
    rewrite Forall_forall in Hok. split; [by apply Hok|].
    apply list_elem_of_lookup in Ht as [i Hi'].
    destruct (Forall2_lookup_r _ _ _ _ _ Hm Hi') as (m & _ & Hd). by apply demo_is_len in Hd. }
  pose proof (feed_refines chunks iobs _ _ Hi Hne new_parser_is) as H. rewrite Hf in H.
  destruct H as ([p out] & Ep & [Hp _] & Ho). exists p, out. by split_and!.
Qed.

Lemma demo_frames_roundtrip_witness :
  ∃ p out, demo_feed demo_msg_parser_new
    (filled 64 <$> [frame (bytes "ab") ++ [CH_STX]; bytes "c"; [CH_ETX]]) = Ret (p, out) ∧
    Forall2 demo_is out [bytes "ab"; bytes "c"].
Proof.
  destruct (demo_frames_roundtrip
    [mkDemo (Some (filled 1024 (bytes "ab"))); mkDemo (Some (filled 1024 (bytes "c")))]
    [bytes "ab"; bytes "c"]) as (ws & _ & _ & H).
  - repeat constructor; eexists; (split; [done|]); by apply filled_text.
  - by repeat constructor.
  - destruct (H (filled 64 <$> [frame (bytes "ab") ++ [CH_STX]; bytes "c"; [CH_ETX]])
      [frame (bytes "ab") ++ [CH_STX]; bytes "c"; [CH_ETX]]) as (p & out & Hp & Ho & _).
    + done.
    + by repeat constructor.
    + cbn [fmap list_fmap]. repeat constructor; by apply filled_holds.
    + by exists p, out.
Defined.

(** C26: The frame parser on every input: fed with non-empty buffers of arbitrary bytes, it
    behaves as the byte machine of the specification, from any state the two share:
    same mode afterwards, the text gathered so far in the current message, the same
    texts delivered in the same order; and it aborts exactly when the machine does,
    on the 1025th character of a text. *)
Theorem demo_parser_refines_machine iobs chunks p s :
  Forall2 holds iobs chunks → Forall (.≠ []) chunks → parser_is p s →
  refines (fun x y => parser_is x.1 y.1 ∧ Forall2 demo_is x.2 y.2)
    (demo_feed p iobs) (frame_feed chunks s).
Proof. apply feed_refines. Qed.

Lemma demo_parser_refines_machine_witness :
  frame_feed [bytes "x" ++ [CH_STX; x61; x09]; [CH_STX; x62; CH_ETX]] (Outside, []) =
    Ret (Outside, [], [[x61; x62]]) ∧
  ∃ p out, demo_feed demo_msg_parser_new
    (filled 64 <$> [bytes "x" ++ [CH_STX; x61; x09]; [CH_STX; x62; CH_ETX]]) = Ret (p, out) ∧
    Forall2 demo_is out [[x61; x62]].
Proof.
  split; [by vm_compute|].
  pose proof (demo_parser_refines_machine
    (filled 64 <$> [bytes "x" ++ [CH_STX; x61; x09]; [CH_STX; x62; CH_ETX]])
    [bytes "x" ++ [CH_STX; x61; x09]; [CH_STX; x62; CH_ETX]]
    demo_msg_parser_new (Outside, [])) as H.
  destruct H as ([p out] & E & _ & Ho).
  - cbn [fmap list_fmap]. repeat constructor; by apply filled_holds.
  - by repeat constructor.
  - done.
  - by exists p, out.
Defined.

(** Error recovery of the frame parser.  When a frame breaks off at a control
    character, the text read so far is kept: if the next frame is in the same buffer,
    the message delivered is the broken text followed by the text of that frame.  If
    the buffer ends right after the STX of the next frame, that frame is lost: nothing
    is delivered and the parser goes on skipping. *)
Theorem demo_recovery_keeps_broken_text p g e t b b1 b2 :
  parser_is p (Outside, []) → printable g = true → printable t = true →
  Zlen g + Zlen t ≤ 1024 → isprint (schar e) = false → e ≠ CH_ETX →
  holds b (CH_STX :: g ++ e :: frame t) →
  holds b1 (CH_STX :: g ++ [e; CH_STX]) → holds b2 (t ++ [CH_ETX]) →
  (∃ p' m, demo_feed p [b] = Ret (p', [m]) ∧ demo_is m (g ++ t) ∧ m_state p' = STATE_IDLE) ∧
  (∃ p', demo_feed p [b1; b2] = Ret (p', []) ∧ m_state p' = STATE_ERROR_RECOVERY).
Proof.
  intros Hp Hg Ht Hl He Hx Hb Hb1 Hb2. pose proof (Zlen_nonneg t).
  assert (∀ r, frame_run (CH_STX :: g ++ r) (Outside, []) = frame_run r (Inside, g)) as Hin.
  { intros r. cbn [frame_run frame_char]. rewrite beq_refl, bind_ret_l.
    rewrite frame_inside by (done || (unfold Zlen in *; cbn; lia)).
    cbn [app]. by destruct (frame_run r (Inside, g)) as [[]| |]. }
  assert (∀ r, frame_run (e :: r) (Inside, g) = frame_run r (Skipping, g)) as Hsk.
  { intros r. cbn [frame_run frame_char]. rewrite He, (proj2 (beq_false _ _) Hx), bind_ret_l.
    by destruct (frame_run r (Skipping, g)) as [[]| |]. }
  split.
  - pose proof (feed_refines [CH_STX :: g ++ e :: frame t] [b] p (Outside, [])
      ltac:(constructor; [done|constructor])) as H1.
    refine (_ (H1 _ Hp)); [|by repeat constructor]. clear H1. cbn [frame_feed]. rewrite Hin, Hsk.
    unfold frame. cbn [frame_run frame_char]. rewrite beq_refl, bool_decide_false by (by destruct t).
    cbn [negb andb]. rewrite bind_ret_l, frame_inside by done.
    cbn [frame_run frame_char]. change (isprint (schar CH_ETX)) with false. rewrite beq_refl. cbn.
    intros ([p' out] & E & [Hst _] & Ho). cbn in *. inversion Ho as [|m ? out' ? Hm Ho']; subst.
    inversion Ho'; subst. exists p', m. by split_and!.
  - pose proof (feed_refines [CH_STX :: g ++ [e; CH_STX]; t ++ [CH_ETX]] [b1; b2] p (Outside, [])
      ltac:(constructor; [done|constructor; [done|constructor]])) as H1.
    refine (_ (H1 _ Hp)); [|repeat constructor; by destruct t]. clear H1.
    cbn [frame_feed]. rewrite Hin, Hsk. cbn [frame_run]. rewrite bool_decide_true by done.
    cbn [frame_char negb]. rewrite andb_false_r, !bind_ret_l. rewrite frame_skipping;
      [|apply Forall_app; split; [by apply printable_no_stx|by repeat constructor]|by destruct t].
    cbn. intros ([p' out] & E & [Hst _] & Ho). cbn in *. inversion Ho; subst. by exists p'.
Qed.

Lemma demo_recovery_keeps_broken_text_witness :
  ∃ p' m, demo_feed demo_msg_parser_new [filled 64 (CH_STX :: bytes "ab" ++ x00 :: frame (bytes "c"))] =
    Ret (p', [m]) ∧ demo_is m (bytes "abc").
Proof.
  destruct (demo_recovery_keeps_broken_text demo_msg_parser_new (bytes "ab") x00 (bytes "c")
    (filled 64 (CH_STX :: bytes "ab" ++ x00 :: frame (bytes "c")))
    (filled 64 (CH_STX :: bytes "ab" ++ [x00; CH_STX])) (filled 64 (bytes "c" ++ [CH_ETX])))
    as [(p' & m & E & Hm & _) _]; [done..|by apply filled_holds|by apply filled_holds|by apply filled_holds|].
  exists p', m. split; [exact E|exact Hm].
Defined.

(** C32: The line parser on every input: its loop ends after as many rounds as the buffer
    has bytes (the fuel is one more), leaves the buffer empty, and delivers exactly the
    lines of the text, ended by a newline or a NUL, the first one continuing what the
    parser held and the unfinished rest staying in the parser; it aborts exactly when
    a line, finished or not, is longer than 4096 bytes. *)
Theorem newline_parser_splits_lines mp b acc cs :
  holds b cs → line_is (nl_msg_ref mp) acc →
  let '(ls, r) := split_lines acc cs in
  if forallb fits (ls ++ [r]) then
    ∃ mp' b' out, newline_msg_parser_consume (S (length cs)) mp b = Ret (Some (mp', b', out)) ∧
      Forall2 line_is out ls ∧ line_is (nl_msg_ref mp') r ∧ holds b' []
  else newline_msg_parser_consume (S (length cs)) mp b = AssertFail.
Proof.
  intros Hb Hm. pose proof (newline_loop_refines cs (S (length cs)) mp b acc Hb Hm) as H.
  unfold newline_msg_parser_consume, lines_spec in *. destruct (split_lines acc cs) as [ls r].
  specialize (H ltac:(lia)). destruct (forallb fits (ls ++ [r])); [|exact H].
  destruct H as (x & E & mp' & b' & out & -> & ? & ? & ?). by exists mp', b', out.
Qed.

Lemma newline_parser_splits_lines_witness :
  ∃ mp' b' out,
    newline_msg_parser_consume 7 (mkNP (mkNL (Some (filled 4096 (bytes "x")))) (filled 4096 []) 0 256)
      (filled 64 (bytes "ab" ++ [x0a; x0a] ++ bytes "cd")) = Ret (Some (mp', b', out)) ∧
    Forall2 line_is out [bytes "xab"; []].
Proof.
  pose proof (newline_parser_splits_lines
    (mkNP (mkNL (Some (filled 4096 (bytes "x")))) (filled 4096 []) 0 256)
    (filled 64 (bytes "ab" ++ [x0a; x0a] ++ bytes "cd")) (bytes "x")
    (bytes "ab" ++ [x0a; x0a] ++ bytes "cd")) as H.
  refine (_ (H _ _)).
  - vm_compute (split_lines _ _). cbn match. vm_compute (forallb _ _). cbn match.
    intros (mp' & b' & out & E & Ho & _). exists mp', b', out. by split.
  - by apply filled_holds.
  - eexists. split; [done|]. by apply filled_text.
Defined.
