(* ===== verification/MsgFormat.v ===== *)
(** * MsgFormat: the interface between the message streams and the message formats
    (src/apps/msg/msg_selection_header.h)

    The macros MSG_REF, MSG_SERIALIZE, MSG_PARSER_CONSUME ... choose a format at compile
    time; here they are the operations of a class, what the streams rely on are its laws,
    and the two formats of [DemoMsg] are instances. *)

From S2P Require Import Prelude Cbuffer IOBuffer DemoMsg.
Open Scope Z_scope.

Class MsgOps (M P : Type) := {
  MSG_NEW : outcome M;
  MSG_FREE : M → outcome (option M);
  MSG_SET_CONTENT : M → option IOBuffer → outcome M;
  MSG_GET_CONTENT : M → option IOBuffer;
  (** the message whose content, a buffer it owns, was changed through the pointer to it *)
  MSG_CONTENT_CHANGED : M → IOBuffer → M;
  MSG_SERIALIZE : M → outcome IOBuffer;
  MSG_PARSER_NEW : outcome P;
  MSG_PARSER_FREE : P → outcome (option P);
  (** the parser, the buffer left over, and the messages given to the callback *)
  MSG_PARSER_CONSUME : P → IOBuffer → outcome (P * IOBuffer * list M)
}.

(** A buffer emptied by the parser, whose whole room can be used again. *)
Definition empty_of (b b' : IOBuffer) : Prop :=
  holds b' [] ∧ buffer_ptr b' = 0 ∧ buffer_capacity b' = buffer_capacity b.

Lemma empty_of_consumed b b' : holds b' [] → consumed b b' → empty_of b b'.
Proof.
  intros Hb [Hc He]. pose proof Hb as [Hok Hd]. pose proof (iob_data_size b' Hok) as Hs. rewrite Hd, msize_init in Hs.
  split_and!; [done| |done]. by apply He.
Qed.

(** A format frames texts; a parser is in a state from which it takes any stream of well
    formed frames, however it is cut. *)
Class MsgLaws (M P S : Type) `{MsgOps M P} := {
  text_ok : list byte → Prop;
  wire : list byte → list byte;
  msg_text : M → list byte → Prop;
  state_is : P → S → Prop;
  start : S;
  parse : S → list byte → option (S * list (list byte));
  serialize_law m t : msg_text m t → text_ok t → ∃ b, MSG_SERIALIZE m = Ret b ∧ holds b (wire t);
  (** the content as the applications print it, and a new message with a given content *)
  content_law m t : msg_text m t → text_ok t → ∃ b, MSG_GET_CONTENT m = Some b ∧ IOBuffer_cstr b = Ret t;
  respond_law t : text_ok t →
    ∃ iob m0 m b, IOBuffer_from_cstring t = Ret iob ∧ MSG_NEW = Ret m0 ∧ MSG_SET_CONTENT m0 (Some iob) = Ret m ∧
      MSG_SERIALIZE m = Ret b ∧ holds b (wire t);
  (** a new message with a content printed into its buffer *)
  print_law t : text_ok t → Zlen t < 1024 →
    ∃ m iob iob', MSG_NEW = Ret m ∧ MSG_GET_CONTENT m = Some iob ∧ IOBuffer_sprintf iob t = Ret iob' ∧
      msg_text (MSG_CONTENT_CHANGED m iob') t;
  free_law m t : msg_text m t → ∃ r, MSG_FREE (P := P) m = Ret r;
  wire_nonempty t : wire t ≠ [];
  parser_new_law : ∃ p, MSG_PARSER_NEW = Ret p ∧ state_is p start;
  parser_free_law p s : state_is p s → ∃ r, MSG_PARSER_FREE p = Ret r;
  parse_nil s : parse s [] = Some (s, []);
  parse_app s a b :
    parse s (a ++ b) = ('(s1, o1) ← parse s a; '(s2, o2) ← parse s1 b; Some (s2, o1 ++ o2));
  parse_wires ts : Forall text_ok ts → parse start (concat (wire <$> ts)) = Some (start, ts);
  consume_law p s b cs s' ts :
    state_is p s → holds b cs → cs ≠ [] → parse s cs = Some (s', ts) →
    ∃ p' b' out, MSG_PARSER_CONSUME p b = Ret (p', b', out) ∧ state_is p' s' ∧ empty_of b b' ∧ Forall2 msg_text out ts
}.
Arguments text_ok {M P S _ _}.
Arguments wire {M P S _ _}.
Arguments msg_text {M P S _ _}.
Arguments state_is {M P S _ _}.
Arguments start {M P S _ _}.
Arguments parse {M P S _ _}.

(** Text printed into an empty buffer. *)
Lemma text_printed cap b t :
  text_in cap b [] → t ≠ [] → Zlen t < cap → ∃ b', IOBuffer_sprintf b t = Ret b' ∧ text_in cap b' t.
Proof.
  intros Hb Hne Hl. pose proof (text_in_len _ _ _ Hb) as [_ Hr]. destruct Hb as (Hok & Hp & Hc & Hd & _).
  change (Zlen (A := byte) []) with 0 in Hr. unfold Zlen in Hl.
  destruct (sprintf_fits b t Hok Hp) as (b' & E & Hok' & Hp' & Hd' & Hc' & Hn);
    [destruct t; [done|cbn; lia]|rewrite space_len_ok by done; lia|].
  exists b'. rewrite Hd in Hd'. change (iob_data b' = init t) in Hd'. split; [done|]. split_and!; [done|done|by rewrite Hc'|done|]. intros _.
  pose proof (iob_data_size b' Hok') as Hs. rewrite Hd', msize_init in Hs. by rewrite <- Hs, Nat2Z.id in Hn.
Qed.

(** ** The demonstration protocol *)

#[global] Instance demo_ops : MsgOps DemoMsg DemoMsgParser := {|
  MSG_NEW := demo_msg_new;
  MSG_FREE := demo_msg_free;
  MSG_SET_CONTENT := demo_msg_set_content;
  MSG_GET_CONTENT := demo_msg_get_content;
  MSG_CONTENT_CHANGED _ b := mkDemo (Some b);
  MSG_SERIALIZE := demo_msg_serialize;
  MSG_PARSER_NEW := Ret demo_msg_parser_new;
  MSG_PARSER_FREE := demo_msg_parser_free;
  MSG_PARSER_CONSUME := demo_msg_parser_consume
|}.

#[global] Instance demo_laws : MsgLaws DemoMsg DemoMsgParser (dmode * list byte).
Proof.
  refine {|
    text_ok t := t ≠ [] ∧ printable t = true ∧ Zlen t ≤ 1024;
    wire := frame;
    msg_text := demo_is;
    state_is := parser_is;
    start := (Outside, []);
    parse s cs := clean_run cs s
  |}.
  - intros m t Hm (Hne & Hp & _). by apply demo_serialize_ok.
  - intros m t (b & Hb & Ht) (Hne & Hp & _). exists b. split; [done|].
    rewrite (text_in_cstr _ _ _ Ht Hne), (cut_nul_id t); [done|by apply printable_no_nul].
  - intros t (Hne & Hp & Hl). destruct (from_cstring_ok t Hne) as (iob & Hi & Ht); [lia|].
    destruct demo_msg_new_ok as (m0 & Hm0 & b0 & Hb0 & _).
    destruct (demo_serialize_text (Zlen t * 2) (mkDemo (Some iob)) iob t eq_refl Ht Hne Hp) as (b & Hs & Hb); [lia|].
    exists iob, m0, (mkDemo (Some iob)), b. split_and!; try done. cbn. unfold demo_msg_set_content. by rewrite Hb0.
  - intros t (Hne & _ & _) Hl. destruct demo_msg_new_ok as (m0 & Hm0 & b0 & Hb0 & Ht0).
    destruct (text_printed 1024 b0 t Ht0 Hne Hl) as (b & Hs & Ht). exists m0, b0, b. split_and!; try done. by exists b.
  - intros m t (b & Hb & _). cbn. unfold demo_msg_free. rewrite Hb. by eexists.
  - done.
  - exists demo_msg_parser_new. split; [done|apply new_parser_is].
  - intros p s [_ Hm]. cbn. unfold demo_msg_parser_free, demo_msg_free. destruct (m_current_message_ptr p) as [m|]; [|by eexists].
    destruct Hm as (b & -> & _). by eexists.
  - done.
  - intros s a b. apply clean_run_app.
  - intros ts Hts. apply clean_frames. eapply Forall_impl; [exact Hts|]. by intros t (_ & ? & ?).
  - intros p s b cs s' ts Hp Hb Hne Hrun. apply clean_run_ok in Hrun.
    pose proof (consume_refines b cs p s Hb Hne Hp) as Hc. rewrite Hrun in Hc.
    destruct Hc as ([[p' b'] out] & E & ? & ? & ?). exists p', b', out. split_and!; try done.
    eapply empty_of_consumed; [done|]. eapply demo_consumes; [exact E|]. destruct Hb as [Hok Hd].
    pose proof (iob_data_size b Hok) as Hs. rewrite Hd, msize_init in Hs. destruct cs; [done|]. cbn in Hs. lia.
Defined.

(** ** Lines *)

(** The parser's loop with fuel for every byte of the buffer. *)
Definition newline_consume (p : NewLineMsgParser) (b : IOBuffer)
    : outcome (NewLineMsgParser * IOBuffer * list NewLineMsg) :=
  r ← newline_msg_parser_consume (S (Z.to_nat (IOBuffer_data_len b))) p b;
  deref r.

#[global] Instance newline_ops : MsgOps NewLineMsg NewLineMsgParser := {|
  MSG_NEW := newline_msg_new;
  MSG_FREE := newline_msg_free;
  MSG_SET_CONTENT := newline_msg_set_content;
  MSG_GET_CONTENT := newline_msg_get_content;
  MSG_CONTENT_CHANGED _ b := mkNL (Some b);
  MSG_SERIALIZE := newline_msg_serialize;
  MSG_PARSER_NEW := newline_msg_parser_new;
  MSG_PARSER_FREE := newline_msg_parser_free;
  MSG_PARSER_CONSUME := newline_consume
|}.

(** The lines of a text, as long as none outgrows its buffer. *)
Fixpoint line_run (acc cs : list byte) : option (list byte * list (list byte)) :=
  match cs with
  | [] => Some (acc, [])
  | c :: cs =>
      if line_end c then '(r, ls) ← line_run [] cs; Some (r, acc :: ls)
      else if Zlen acc <? 4096 then line_run (acc ++ [c]) cs else None
  end.

Lemma line_run_spec cs : ∀ acc r ls,
  Zlen acc ≤ 4096 → line_run acc cs = Some (r, ls) → lines_spec acc cs = Ret (ls, r).
Proof.
  induction cs as [|c cs IH]; intros acc r ls Hl; cbn [line_run].
  - intros [= <- <-]. unfold lines_spec. cbn. unfold fits. by rewrite (proj2 (Z.leb_le _ _)).
  - destruct (line_end c) eqn:Ec.
    + rewrite lines_spec_end by done. destruct (line_run [] cs) as [[r' ls']|] eqn:E; [|done].
      cbn [mbind option_bind]. intros [= <- <-]. by rewrite (IH [] r' ls').
    + destruct (Zlen acc <? 4096) eqn:El; [|done]. bool_prop. intros Hrun.
      assert (lines_spec acc (c :: cs) = lines_spec (acc ++ [c]) cs) as ->
        by (unfold lines_spec; cbn [split_lines]; by rewrite Ec).
      apply IH; [|done]. rewrite Zlen_app. unfold Zlen in *. cbn. lia.
Qed.

Lemma line_run_app a : ∀ acc b,
  line_run acc (a ++ b) = ('(s1, o1) ← line_run acc a; '(s2, o2) ← line_run s1 b; Some (s2, o1 ++ o2)).
Proof.
  induction a as [|c a IH]; intros acc b; cbn [app line_run mbind option_bind].
  - by destruct (line_run acc b) as [[]|].
  - destruct (line_end c).
    + rewrite IH. destruct (line_run [] a) as [[s1 o1]|]; [|done]. cbn [mbind option_bind].
      by destruct (line_run s1 b) as [[s2 o2]|].
    + destruct (Zlen acc <? 4096); [apply IH|done].
Qed.

(** A text without line ends. *)
Definition plain (t : list byte) : bool := forallb (fun c => negb (line_end c)) t.

Lemma line_run_plain t : ∀ acc,
  plain t = true → Zlen acc + Zlen t ≤ 4096 → line_run acc t = Some (acc ++ t, []).
Proof.
  induction t as [|c t IH]; intros acc; cbn [line_run]; [by rewrite app_nil_r|].
  cbn [plain forallb]. intros [Hc Ht]%andb_true_iff Hl. apply negb_true_iff in Hc. rewrite Zlen_cons in Hl.
  pose proof (Zlen_nonneg t). rewrite Hc, (proj2 (Z.ltb_lt _ _)) by lia.
  rewrite IH; [by rewrite <- app_assoc|done|]. rewrite Zlen_app. unfold Zlen in *. cbn. lia.
Qed.

Lemma line_runs ts :
  Forall (fun t => t ≠ [] ∧ plain t = true ∧ Zlen t < 4095) ts →
  line_run [] (concat ((fun t => t ++ [x0a]) <$> ts)) = Some ([], ts).
Proof.
  induction 1 as [|t ts (_ & Hp & Hl) _ IH]; [done|]. cbn [fmap list_fmap concat].
  rewrite <- app_assoc, line_run_app, line_run_plain by (done || (unfold Zlen in *; cbn; lia)).
  cbn [mbind option_bind app]. cbn [line_run]. change (line_end x0a) with true. cbn iota. by rewrite IH.
Qed.

Lemma plain_no_nul t : plain t = true → no_nul t = true.
Proof.
  unfold plain, no_nul. rewrite !forallb_forall. intros H c Hc%H. apply negb_true_iff in Hc.
  unfold line_end in Hc. apply orb_false_iff in Hc as [_ Hc]. by rewrite Hc.
Qed.

Lemma newline_serialize_text cap m b t :
  nl_iob m = Some b → text_in cap b t → t ≠ [] → plain t = true → Zlen t < 4095 →
  ∃ b', newline_msg_serialize m = Ret b' ∧ holds b' (t ++ [x0a]).
Proof.
  intros Hb Ht Hne Hp Hl. unfold newline_msg_serialize, IOBuffer_new.
  change IOBUFFER_DEFAULT_CAPACITY with 4096.
  destruct (text_new 4096) as (b0 & -> & Hok & Hp0 & Hd0 & Hc0 & Hr0); [done|]. rewrite bind_ret_l, Hb.
  cbn [deref]. rewrite bind_ret_l, (text_in_cstr _ _ _ Ht Hne), bind_ret_l, (cut_nul_id t) by (by apply plain_no_nul).
  destruct (sprintf_fits b0 (t ++ [x0a])) as (b1 & E & Hok1 & _ & Hd1 & _);
    [done|done|rewrite length_app; cbn; lia| |exists b1; split; [done|split; [done|by rewrite Hd1, Hd0]]].
  rewrite space_len_ok by done. rewrite Hc0, Hp0, Hr0. unfold Zlen in Hl. rewrite length_app. cbn [length]. lia.
Qed.

#[global] Instance newline_laws : MsgLaws NewLineMsg NewLineMsgParser (list byte).
Proof.
  refine {|
    text_ok t := t ≠ [] ∧ plain t = true ∧ Zlen t < 4095;
    wire t := t ++ [x0a];
    msg_text := line_is;
    state_is p acc := line_is (nl_msg_ref p) acc;
    start := [];
    parse := line_run
  |}.
  - intros m t (b & Hb & Ht) (Hne & Hp & Hl). by apply (newline_serialize_text 4096 m b t).
  - intros m t (b & Hb & Ht) (Hne & Hp & _). exists b. split; [done|].
    rewrite (text_in_cstr _ _ _ Ht Hne), (cut_nul_id t); [done|by apply plain_no_nul].
  - intros t (Hne & Hp & Hl). destruct (from_cstring_ok t Hne) as (iob & Hi & Ht); [lia|].
    destruct newline_msg_new_ok as (m0 & Hm0 & b0 & Hb0 & _).
    destruct (newline_serialize_text (Zlen t * 2) (mkNL (Some iob)) iob t eq_refl Ht Hne Hp Hl) as (b & Hs & Hb).
    exists iob, m0, (mkNL (Some iob)), b. split_and!; try done. cbn. unfold newline_msg_set_content. by rewrite Hb0.
  - intros t (Hne & _ & _) Hl. destruct newline_msg_new_ok as (m0 & Hm0 & b0 & Hb0 & Ht0).
    destruct (text_printed 4096 b0 t Ht0 Hne) as (b & Hs & Ht); [lia|]. exists m0, b0, b. split_and!; try done. by exists b.
  - intros m t (b & Hb & _). cbn. unfold newline_msg_free. rewrite Hb. by eexists.
  - intros t. by destruct t.
  - destruct newline_msg_new_ok as (m & Hm & Hl). destruct (text_in_new 4096) as (b & Hb & _); [done|].
    eexists. cbn [MSG_PARSER_NEW newline_ops]. unfold newline_msg_parser_new, newline_msg_parser_init, IOBuffer_new.
    change IOBUFFER_DEFAULT_CAPACITY with 4096. rewrite Hm, bind_ret_l, Hb, bind_ret_l. by split.
  - intros p acc (b & Hb & _). cbn. unfold newline_msg_parser_free, newline_msg_free. cbn [IOBuffer_free]. rewrite bind_ret_l, Hb. by eexists.
  - done.
  - intros s a b. apply line_run_app.
  - apply line_runs.
  - intros p acc b cs r ls Hp Hb Hne Hrun.
    assert (Zlen acc ≤ 4096) as Hl by (destruct Hp as (bb & _ & Ht); by apply text_in_len in Ht as []).
    apply line_run_spec in Hrun; [|done].
    pose proof (newline_loop_refines cs (S (Z.to_nat (IOBuffer_data_len b))) p b acc Hb Hp) as Hc.
    rewrite Hrun in Hc. destruct Hc as (x & E & p' & b' & out & -> & ? & ? & ?).
    { destruct Hb as [Hok Hd]. pose proof (iob_data_size b Hok) as Hs. rewrite Hd, msize_init in Hs.
      unfold IOBuffer_data_len. lia. }
    exists p', b', out. cbn [MSG_PARSER_CONSUME newline_ops]. unfold newline_consume, newline_msg_parser_consume. rewrite E.
    split_and!; try done. eapply empty_of_consumed; [done|]. eapply newline_consumes; [exact E|].
    destruct Hb as [Hok Hd]. rewrite (empty_spec b cs Hok Hd). by apply bool_decide_false.
Defined.
