(* ===== verification/MStream.v ===== *)
(** * MStream: the blocking message stream (src/apps/mstream/mstream.c)

    A client of a message format: it writes one message and reads one message at a time on
    a blocking socket. Proved against the interface of [MsgFormat], whatever the format. *)

From S2P Require Import Prelude Cbuffer IOBuffer DemoMsg MsgFormat SocketFunctions.
Open Scope Z_scope.

Section MStream.
Context {W addr M P S : Type} `{!MsgOps M P}.
Variable N : net W addr.

Record MStream := mkMS {
  m_host : list byte;
  m_port : Z;
  m_fd : Z;
  input_msg_list : list M
}.

Definition m_with_input (st : MStream) (ms : list M) : MStream := mkMS (m_host st) (m_port st) (m_fd st) ms.

(** The callback given to the parser. *)
Definition new_msg_cb (st : MStream) (out : list M) : MStream := m_with_input st (input_msg_list st ++ out).

Definition mstream_init (host : list byte) (port : Z) (w : W) : outcome (MStream * W) :=
  '(w, fd) ← create_and_connect_socket N host port w;
  Ret (mkMS host port fd [], w).
Definition mstream_new (host : list byte) (port : Z) (w : W) : outcome (MStream * W) := mstream_init host port w.

(** Anything but a complete write ends the program. *)
Definition mstream_write (st : MStream) (msg : M) (w : W) : outcome W :=
  send_iob ← MSG_SERIALIZE (P := P) msg;
  let out_len := IOBuffer_data_len send_iob in
  m ← mem_load (mem_p send_iob) (IOBuffer_data send_iob) out_len;
  out ← deref (mapM id m);
  let '(w, nw, _) := sys_write N (m_fd st) out w in
  c_assert (nw =? out_len);; Ret w.

(** The loop of [mstream_read], with fuel for its rounds; [None] is its end. The result of
    [read] is kept in a [size_t]: an error is a huge number, and the commit of -1 bytes
    fails its assertion. *)
Fixpoint mstream_read (fuel : nat) (st : MStream) (parser : P) (w : W)
    : outcome (option (MStream * P * W * M)) :=
  match fuel with
  | O => Ret None
  | Datatypes.S fuel =>
      match input_msg_list st with
      | m :: ms => Ret (Some (m_with_input st ms, parser, w, m))
      | [] =>
          iob ← IOBuffer_new;
          let '(w, r, _, bs) := sys_read N (m_fd st) (IOBuffer_space_len iob) w in
          let rn := u64 r in
          if rn <=? 0 then AssertFail
          else
            iob ← IOBuffer_fill iob (init bs);
            iob ← IOBuffer_commit iob (s32 rn);
            '(parser, _, out) ← MSG_PARSER_CONSUME parser iob;
            mstream_read fuel (new_msg_cb st out) parser w
      end
  end.

Fixpoint free_msgs (ms : list M) : outcome () :=
  match ms with [] => Ret () | m :: ms => _ ← MSG_FREE (P := P) m; free_msgs ms end.
Definition mstream_free (st : MStream) (w : W) : outcome W :=
  let '(w, _) := sys_close N (m_fd st) w in
  _ ← free_msgs (input_msg_list st);
  Ret w.

(** ** Specification *)

Context `{!MsgLaws M P S}.

(** The socket gives the chunks in order. *)
Fixpoint sends (fd : Z) (chunks : list (list byte)) (w : W) : Prop :=
  match chunks with
  | [] => True
  | bs :: chunks =>
      let '(w', n, _, bs') := sys_read N fd 4096 w in bs' = bs ∧ n = Zlen bs ∧ 0 < n ≤ 4096 ∧ sends fd chunks w'
  end.

(** Reading [n] messages one after the other. *)
Fixpoint read_all (fuel n : nat) (st : MStream) (parser : P) (w : W) : outcome (option (MStream * P * W * list M)) :=
  match n with
  | O => Ret (Some (st, parser, w, []))
  | Datatypes.S n =>
      r ← mstream_read fuel st parser w;
      match r with
      | None => Ret None
      | Some (st, parser, w, m) =>
          r ← read_all fuel n st parser w;
          match r with None => Ret None | Some (st, parser, w, ms) => Ret (Some (st, parser, w, m :: ms)) end
      end
  end.

(** Where a stream stands: the messages queued hold [q], the parser is in state [s], and
    the chunks still to come will make it deliver [rest]. *)
Record stands (st : MStream) (parser : P) (w : W) (q rest : list (list byte)) (s : S) (chunks : list (list byte)) : Prop := {
  sd_queue : Forall2 msg_text (input_msg_list st) q;
  sd_parser : state_is parser s;
  sd_sends : sends (m_fd st) chunks w;
  sd_rest : ∃ s', parse s (concat chunks) = Some (s', rest)
}.

(** ** Lemmas *)

Lemma fresh_iob bs :
  0 < Zlen bs ≤ 4096 →
  ∃ iob b, IOBuffer_new = Ret iob ∧ IOBuffer_space_len iob = 4096 ∧
    (iob ← IOBuffer_fill iob (init bs); IOBuffer_commit iob (Zlen bs)) = Ret b ∧ holds b bs.
Proof.
  intros Hl. unfold IOBuffer_new. change IOBUFFER_DEFAULT_CAPACITY with 4096. rewrite new_with_capacity_ok by done.
  pose proof (new_iob_ok 4096 ltac:(done)) as Hok. set (b := iob_at0 _ _ _) in *. unfold Zlen in *. rewrite <- msize_init in *.
  destruct (fill_commit_ok b (init bs) Hok) as (b' & E & Hok' & Hd & _); [lia| |].
  { rewrite space_len_ok by done. cbn. lia. }
  exists b, b'. split_and!; try done.
Qed.

(** One round with an empty queue: one [read], given to the parser. *)
Lemma mstream_round fuel st parser w s bs w' er s1 o1 :
  input_msg_list st = [] → state_is parser s → sys_read N (m_fd st) 4096 w = (w', Zlen bs, er, bs) → 0 < Zlen bs ≤ 4096 →
  parse s bs = Some (s1, o1) →
  ∃ p' out, mstream_read (Datatypes.S fuel) st parser w = mstream_read fuel (new_msg_cb st out) p' w' ∧
    state_is p' s1 ∧ Forall2 msg_text out o1.
Proof.
  intros Hl Hp Er Hlen E1. destruct (fresh_iob bs Hlen) as (iob & b & Hnew & Hsp & Hfill & Hb).
  destruct (consume_law parser s b bs s1 o1 Hp Hb) as (p' & b' & out & Hc & Hp' & _ & Ho); [intros ->; unfold Zlen in Hlen; cbn in Hlen; lia|done|].
  exists p', out. split; [|done]. cbn [mstream_read]. rewrite Hl, Hnew, bind_ret_l, Hsp, Er, u64_small, (proj2 (Z.leb_gt _ _)) by lia.
  rewrite s32_small by (unfold INT_MIN, INT_MAX; lia).
  destruct (IOBuffer_fill iob (init bs)) as [iob1| |]; [|done..]. rewrite !bind_ret_l in *. rewrite Hfill, bind_ret_l.
  by rewrite Hc.
Qed.

Lemma read_chunk fuel st parser w rest s bs chunks :
  stands st parser w [] rest s (bs :: chunks) →
  ∃ st' parser' w' q' rest' s',
    mstream_read (Datatypes.S fuel) st parser w = mstream_read fuel st' parser' w' ∧
    rest = q' ++ rest' ∧ stands st' parser' w' q' rest' s' chunks.
Proof.
  intros [Hq Hp Hs (s' & Hr)]. inversion Hq as [Hl|]; subst. cbn [sends concat] in *.
  destruct (sys_read N (m_fd st) 4096 w) as [[[w' n] er] bs'] eqn:Er. destruct Hs as (-> & -> & Hlen & Hs).
  rewrite parse_app in Hr. destruct (parse s bs) as [[s1 o1]|] eqn:E1; [|done]. cbn [mbind option_bind] in Hr.
  destruct (parse s1 (concat chunks)) as [[s2 o2]|] eqn:E2; [|done]. cbn [mbind option_bind] in Hr. injection Hr as -> <-.
  destruct (mstream_round fuel st parser w s bs w' er s1 o1) as (p' & out & E & Hp' & Ho); [done..|].
  exists (new_msg_cb st out), p', w', o1, o2, s1. split_and!; [done|done|].
  constructor; [|done|done|by exists s']. unfold new_msg_cb. cbn [m_with_input input_msg_list]. by rewrite <- Hl.
Qed.

Lemma read_one chunks : ∀ fuel st parser w q rest s t ts,
  stands st parser w q rest s chunks → q ++ rest = t :: ts → (length chunks < fuel)%nat →
  ∃ st' parser' w' q' rest' s' chunks' m,
    mstream_read fuel st parser w = Ret (Some (st', parser', w', m)) ∧ msg_text m t ∧
    q' ++ rest' = ts ∧ stands st' parser' w' q' rest' s' chunks' ∧ (length chunks' ≤ length chunks)%nat.
Proof.
  induction chunks as [|bs chunks IH]; intros [|fuel] st parser w q rest s t ts Hst Hqr Hf; cbn [length] in Hf; try lia.
  - destruct Hst as [Hq Hp Hs (s' & Hr)]. cbn [concat] in Hr. rewrite parse_nil in Hr. injection Hr as <- <-.
    rewrite app_nil_r in Hqr. subst q. inversion Hq as [|m ? ms ? Hm Hq' Hl]; subst.
    exists (m_with_input st ms), parser, w, ts, [], s, [], m. cbn [mstream_read]. rewrite <- Hl.
    split_and!; [done|done|apply app_nil_r| |done]. constructor; [done|done|done|]. exists s. apply parse_nil.
  - destruct q as [|t' q].
    + destruct (read_chunk fuel st parser w rest s bs chunks Hst) as (st1 & p1 & w1 & q1 & rest1 & s1 & -> & Hr & Hst1).
      cbn [app] in Hqr. rewrite Hr in Hqr.
      destruct (IH fuel st1 p1 w1 q1 rest1 s1 t ts Hst1 Hqr) as (st' & p' & w' & q' & rest' & s' & ch' & m & H1 & H2 & H3 & H4 & H5);
        [lia|]. exists st', p', w', q', rest', s', ch', m. split_and!; try done. cbn. lia.
    + cbn [app] in Hqr. injection Hqr as -> <-. destruct Hst as [Hq Hp Hs Hr]. inversion Hq as [|m ? ms ? Hm Hq' Hl]; subst.
      exists (m_with_input st ms), parser, w, q, rest, s, (bs :: chunks), m. cbn [mstream_read]. rewrite <- Hl.
      split_and!; try done.
Qed.

Lemma read_all_ok ts : ∀ fuel st parser w q rest s chunks,
  stands st parser w q rest s chunks → q ++ rest = ts → (length chunks < fuel)%nat →
  ∃ st' parser' w' ms, read_all fuel (length ts) st parser w = Ret (Some (st', parser', w', ms)) ∧ Forall2 msg_text ms ts.
Proof.
  induction ts as [|t ts IH]; intros fuel st parser w q rest s chunks Hst Hqr Hf; cbn [length read_all].
  - by exists st, parser, w, [].
  - destruct (read_one chunks fuel st parser w q rest s t ts Hst Hqr Hf)
      as (st1 & p1 & w1 & q1 & rest1 & s1 & ch1 & m & -> & Hm & Hqr1 & Hst1 & Hlen). rewrite bind_ret_l.
    destruct (IH fuel st1 p1 w1 q1 rest1 s1 ch1 Hst1 Hqr1) as (st' & p' & w' & ms & -> & Hms); [lia|].
    rewrite bind_ret_l. exists st', p', w', (m :: ms). split; [done|]. by constructor.
Qed.

Lemma write_ok st m t w w' er :
  msg_text m t → text_ok t → sys_write N (m_fd st) (wire t) w = (w', Zlen (wire t), er) → mstream_write st m w = Ret w'.
Proof.
  intros Hm Ht Hw. destruct (serialize_law m t Hm Ht) as (b & E & Hok & Hd).
  unfold mstream_write. rewrite E, bind_ret_l. pose proof (iob_data_size b Hok) as Hs. rewrite Hd, msize_init in Hs.
  unfold IOBuffer_data_len, IOBuffer_data. destruct Hok. rewrite mem_load_ok by lia. rewrite bind_ret_l. fold (iob_data b).
  rewrite Hd, mapM_init. cbn [deref]. rewrite bind_ret_l, Hw, <- Hs. unfold Zlen. by rewrite Z.eqb_refl.
Qed.

(** ** Properties *)

(** C27: Messages get across: whatever the format, if the peer has written messages with the
    texts [ts], which a socket that takes whole frames accepts, and their frames reach
    this end cut into reads of at most 4096 bytes anywhere, then a new stream with a new
    parser returns messages with exactly these texts, in order, one for each
    [mstream_read]; each of them ends within as many rounds as there are reads to come. *)
Theorem mstream_delivers sender st parser msgs ts w chunks fuel :
  Forall2 msg_text msgs ts → Forall text_ok ts →
  (∀ t w, t ∈ ts → ∃ w' er, sys_write N (m_fd sender) (wire t) w = (w', Zlen (wire t), er)) →
  input_msg_list st = [] → state_is parser start → concat chunks = concat (wire <$> ts) →
  sends (m_fd st) chunks w → (length chunks < fuel)%nat →
  (∀ m w, m ∈ msgs → ∃ w', mstream_write sender m w = Ret w') ∧
  ∃ st' parser' w' ms, read_all fuel (length ts) st parser w = Ret (Some (st', parser', w', ms)) ∧ Forall2 msg_text ms ts.
Proof.
  intros Hms Hok Hw Hi Hp Hc Hs Hf. split.
  - intros m w0 Hm. apply list_elem_of_lookup in Hm as [i Hm].
    destruct (Forall2_lookup_l _ _ _ _ _ Hms Hm) as (t & Ht & Hmt).
    apply list_elem_of_lookup_2 in Ht as Hin. destruct (Hw t w0 Hin) as (w' & er & E). exists w'.
    eapply write_ok; [done| |done]. rewrite Forall_forall in Hok. by apply Hok.
  - apply (read_all_ok ts fuel st parser w [] ts start chunks); [|done|done].
    constructor; [by rewrite Hi|done|done|]. exists start. rewrite Hc. by apply parse_wires.
Qed.

(** The end of the connection and an error of [read] abort the reading program, when no
    message is queued: an end is an assertion, an error the commit of -1 bytes. *)
Theorem mstream_read_end_aborts fuel st parser w w' n er bs :
  input_msg_list st = [] → sys_read N (m_fd st) 4096 w = (w', n, er, bs) → -1 ≤ n ≤ 0 → (n < 0 → bs = []) →
  mstream_read (Datatypes.S fuel) st parser w = AssertFail.
Proof.
  intros Hi Hr Hn Hb. cbn [mstream_read]. rewrite Hi. unfold IOBuffer_new. change IOBUFFER_DEFAULT_CAPACITY with 4096.
  rewrite new_with_capacity_ok by done. rewrite bind_ret_l.
  change (IOBuffer_space_len (iob_at0 (malloc_block (4096 + 1)) 4096 0)) with 4096. rewrite Hr.
  destruct (decide (n = 0)) as [->|]; [done|]. assert (n = -1) as -> by lia. rewrite Hb by lia. done.
Qed.
End MStream.
Arguments MStream : clear implicits.

(** ** Witnesses: a socket that gives its chunks and takes everything *)

Definition ex_msock : net (list (list byte)) unit := mkNet _ _
  (fun _ _ _ w => (w, 5)) (fun _ _ _ _ w => (w, 0)) (fun _ => ()) (fun _ _ => None)
  (fun _ _ _ _ w => (w, 0)) (fun _ _ w => (w, 0)) (fun _ _ _ _ w => (w, 0))
  (fun _ _ => 0) (fun _ _ w => (w, 0)) (fun _ _ w => (w, 0))
  (fun _ _ w => match w with [] => ([], 0, 0, []) | bs :: w => (w, Zlen bs, 0, bs) end)
  (fun _ out w => (w, Zlen out, 0)) (fun _ w => (w, 0)).
Definition ex_mstream (M : Type) : MStream M := mkMS (bytes "127.0.0.1") 9001 5 [].

(** Two messages of the demonstration protocol, in three reads. *)
Lemma mstream_delivers_witness :
  ∃ st p w ms,
    read_all ex_msock 4 2 (ex_mstream DemoMsg) demo_msg_parser_new
      [frame (bytes "ab") ++ [CH_STX]; bytes "c"; [CH_ETX]] = Ret (Some (st, p, w, ms)) ∧
    Forall2 demo_is ms [bytes "ab"; bytes "c"].
Proof.
  destruct (mstream_delivers ex_msock (ex_mstream DemoMsg) (ex_mstream DemoMsg) demo_msg_parser_new
    [mkDemo (Some (filled 1024 (bytes "ab"))); mkDemo (Some (filled 1024 (bytes "c")))] [bytes "ab"; bytes "c"]
    [frame (bytes "ab") ++ [CH_STX]; bytes "c"; [CH_ETX]] [frame (bytes "ab") ++ [CH_STX]; bytes "c"; [CH_ETX]] 4)
    as [_ H].
  - repeat constructor; eexists; (split; [done|]); by apply filled_text.
  - repeat constructor; done.
  - intros t w _. by eexists _, _.
  - done.
  - apply new_parser_is.
  - done.
  - cbn. done.
  - cbn. lia.
  - exact H.
Defined.

Lemma mstream_read_end_aborts_witness :
  mstream_read ex_msock 1 (ex_mstream DemoMsg) demo_msg_parser_new [] = AssertFail.
Proof. apply (mstream_read_end_aborts ex_msock 0 (ex_mstream DemoMsg) demo_msg_parser_new [] [] 0 0 []); done. Defined.
