(* ===== verification/LinkedList.v ===== *)
(** * LinkedList: the doubly linked list (src/common/list.c)

    Nodes live in an explicit heap, a finite map from addresses to nodes; NULL
    is [None].  Every operation threads the heap, so that dangling pointers,
    double frees and sharing with other lists in the same heap are visible. *)

From S2P Require Import Prelude.
Open Scope Z_scope.

Section List.
Context {A : Type} `{EqDecision A}.

Abbreviation loc := positive.
(** A [void*] item: [None] is the NULL pointer. *)
Abbreviation void_ptr := (option A).

Record ListNode := mkNode {
  forward : option loc;
  backward : option loc;
  item : void_ptr
}.

Record List_s := mkList {
  count : Z;
  lhead : option loc;
  ltail : option loc
}.

Abbreviation heap := (gmap loc ListNode).

(** [malloc] of a node: an address outside the heap. *)
Definition ListNode_new (h : heap) (content : void_ptr) (prev next : option loc) : heap * loc :=
  let n := fresh (dom h) in
  (<[n := mkNode next prev content]> h, n).

(** [free(NULL)] does nothing; freeing an address not allocated is undefined. *)
Definition ListNode_free (h : heap) (p : option loc) : outcome heap :=
  match p with
  | None => Ret h
  | Some p => match h !! p with Some _ => Ret (delete p h) | None => Ub end
  end.

(** Field access through a pointer. *)
Definition node_at (h : heap) (p : option loc) : outcome ListNode :=
  deref (p ≫= fun q => h !! q).

Definition set_forward (h : heap) (p v : option loc) : outcome heap :=
  match p with
  | None => Ub
  | Some q =>
      nd ← node_at h (Some q);
      Ret (<[q := mkNode v (backward nd) (item nd)]> h)
  end.
Definition set_backward (h : heap) (p v : option loc) : outcome heap :=
  match p with
  | None => Ub
  | Some q =>
      nd ← node_at h (Some q);
      Ret (<[q := mkNode (forward nd) v (item nd)]> h)
  end.

Definition List_init : List_s := mkList 0 None None.
Definition List_new : List_s := List_init.
Definition List_size (l : List_s) : Z := count l.

(** The loop of [List_safe_deinit]; the last component collects the items handed
    to [item_free], in order. Every round frees a node, so a heap of [n] nodes
    is left after at most [n] rounds. *)
Fixpoint deinit_loop (fuel : nat) (h : heap) (t : option loc) (freed : list void_ptr)
    : outcome (heap * list void_ptr) :=
  match fuel with
  | O => Ub
  | S f =>
      match t with
      | None => Ret (h, freed)
      | Some _ =>
          nd ← node_at h t;
          h ← ListNode_free h t;
          deinit_loop f h (forward nd) (freed ++ [item nd])
      end
  end.

Definition List_safe_deinit (h : heap) (this : List_s) (item_free : bool)
    : outcome (heap * List_s * list void_ptr) :=
  if count this =? 0 then Ret (h, this, []) else
  c_assert item_free;;
  r ← deinit_loop (S (size h)) h (lhead this) [];
  let '(h, freed) := r in
  Ret (h, mkList 0 None None, freed).

(** Lifetimes: [None] is the freed list header. *)
Definition List_free (l : option List_s) : outcome (option List_s) :=
  l ← deref l;
  c_assert (count l =? 0);;
  Ret None.

Definition List_safe_free (h : heap) (this : List_s) (item_free : bool)
    : outcome (heap * option List_s * list void_ptr) :=
  r ← List_safe_deinit h this item_free;
  let '(h, this, freed) := r in
  l ← List_free (Some this);
  Ret (h, l, freed).

(** The search loop; it visits a node per round. *)
Fixpoint find_loop (fuel : nat) (h : heap) (iter : option loc) (needle : void_ptr)
    : outcome (option loc) :=
  match fuel with
  | O => Ub
  | S f =>
      match iter with
      | None => Ret None
      | Some p =>
          nd ← node_at h (Some p);
          if bool_decide (item nd = needle) then Ret (Some p)
          else find_loop f h (forward nd) needle
      end
  end.
Definition List_find (h : heap) (this : List_s) (needle : void_ptr) : outcome (option loc) :=
  find_loop (S (Z.to_nat (count this))) h (lhead this) needle.

Definition List_add_front (h : heap) (l : List_s) (content : void_ptr) : outcome (heap * List_s) :=
  let '(h, n) := ListNode_new h content None None in
  c ← chk_int (count l + 1);
  if count l =? 0 then Ret (h, mkList c (Some n) (Some n))
  else
    h ← set_forward h (Some n) (lhead l);
    h ← set_backward h (Some n) None;
    h ← set_backward h (lhead l) (Some n);
    Ret (h, mkList c (Some n) (ltail l)).

Definition List_add_back (h : heap) (l : List_s) (content : void_ptr) : outcome (heap * List_s) :=
  let '(h, n) := ListNode_new h content None (lhead l) in
  c ← chk_int (count l + 1);
  if count l =? 0 then Ret (h, mkList c (Some n) (Some n))
  else
    h ← set_backward h (Some n) (ltail l);
    h ← set_forward h (Some n) None;
    h ← set_forward h (ltail l) (Some n);
    Ret (h, mkList c (lhead l) (Some n)).

Definition List_first (h : heap) (l : List_s) : outcome void_ptr :=
  match lhead l with
  | None => Ret None
  | Some _ => nd ← node_at h (lhead l); Ret (item nd)
  end.

Definition List_last (h : heap) (l : List_s) : outcome void_ptr :=
  match ltail l with
  | None => Ret None
  | Some _ => nd ← node_at h (ltail l); Ret (item nd)
  end.

Definition List_remove_first (h : heap) (l : List_s) : outcome (heap * List_s * void_ptr) :=
  if count l =? 0 then Ret (h, l, None)
  else if count l =? 1 then
    nd ← node_at h (lhead l);
    h ← ListNode_free h (lhead l);
    Ret (h, mkList (count l - 1) None None, item nd)
  else
    first ← node_at h (lhead l);
    h ← set_backward h (forward first) None;
    h ← ListNode_free h (lhead l);
    Ret (h, mkList (count l - 1) (forward first) (ltail l), item first).

Definition List_remove_last (h : heap) (l : List_s) : outcome (heap * List_s * void_ptr) :=
  if count l =? 0 then Ret (h, l, None)
  else if count l =? 1 then
    nd ← node_at h (lhead l);
    h ← ListNode_free h (lhead l);
    Ret (h, mkList (count l - 1) None None, item nd)
  else
    last ← node_at h (ltail l);
    h ← set_forward h (backward last) None;
    h ← ListNode_free h (ltail l);
    Ret (h, mkList (count l - 1) (lhead l) (backward last), item last).

Definition List_iterator (l : List_s) : option loc := lhead l.

Definition List_itr_next (h : heap) (l : List_s) (itr : option loc) : outcome (option loc) :=
  c_assert (bool_decide (itr ≠ None));;
  nd ← node_at h itr;
  Ret (forward nd).

Definition List_itr_unpack (h : heap) (l : List_s) (itr : option loc) : outcome void_ptr :=
  c_assert (bool_decide (itr ≠ None));;
  nd ← node_at h itr;
  Ret (item nd).

Definition List_itr_remove (h : heap) (l : List_s) (itr : option loc) : outcome (heap * List_s) :=
  c_assert (bool_decide (itr ≠ None));;
  if count l =? 0 then Ret (h, l)
  else if count l =? 1 then
    c_assert (bool_decide (itr = lhead l));;
    h ← ListNode_free h itr;
    Ret (h, mkList 0 None None)
  else
    nd ← node_at h itr;
    r ← (if bool_decide (lhead l = itr) then
           h ← set_backward h (forward nd) (backward nd);
           Ret (h, forward nd, ltail l)
         else if bool_decide (ltail l = itr) then
           h ← set_forward h (backward nd) (forward nd);
           Ret (h, lhead l, backward nd)
         else
           h ← set_backward h (forward nd) (backward nd);
           h ← set_forward h (backward nd) (forward nd);
           Ret (h, lhead l, ltail l));
    let '(h, hd, tl) := r in
    h ← ListNode_free h itr;
    Ret (h, mkList (count l - 1) hd tl).

(** ** Representation *)

(** The address before position [i]. *)
Definition prv (locs : list loc) (i : nat) : option loc :=
  match i with O => None | S j => locs !! j end.

(** [h] holds, at the addresses [locs], a chain of nodes for the items [xs]. *)
Record dll (h : heap) (l : List_s) (locs : list loc) (xs : list void_ptr) : Prop := {
  dll_nodup : NoDup locs;
  dll_len : length locs = length xs;
  dll_count : count l = Z.of_nat (length xs);
  dll_head : lhead l = locs !! 0%nat;
  dll_tail : ltail l = locs !! pred (length locs);
  dll_node : ∀ i p x, locs !! i = Some p → xs !! i = Some x →
                      h !! p = Some (mkNode (locs !! S i) (prv locs i) x)
}.

(** Nothing outside the addresses [ps] changes. *)
Definition frame (ps : list loc) (h h' : heap) : Prop :=
  ∀ p, p ∉ ps → h' !! p = h !! p.

(** ** Lemmas *)

Lemma dll_new h : dll h List_new [] [].
Proof. constructor; try done. constructor. Qed.

Section Op.
Context {h : heap} {l : List_s} {locs : list loc} {xs : list void_ptr}.
Hypothesis Hdll : dll h l locs xs.

Lemma dll_lookup i p :
    locs !! i = Some p →
    ∃ x, xs !! i = Some x ∧ h !! p = Some (mkNode (locs !! S i) (prv locs i) x).
  Proof.
    intros Hp. destruct Hdll. assert (i < length xs)%nat as [x Hx]%lookup_lt_is_Some
      by (rewrite <- dll_len0; by eapply lookup_lt_Some).
    eauto.
  Qed.

Lemma dll_pos i : (i < length xs)%nat → ∃ p x, locs !! i = Some p ∧ xs !! i = Some x ∧
    h !! p = Some (mkNode (locs !! S i) (prv locs i) x).
  Proof.
    intros Hi. destruct (lookup_lt_is_Some_2 locs i) as [p Hp];
      [destruct Hdll; lia|]. destruct (dll_lookup i p Hp) as (x & ? & ?). eauto 6.
  Qed.

Lemma dll_inj i j p : locs !! i = Some p → locs !! j = Some p → i = j.
  Proof. destruct Hdll. by apply NoDup_lookup. Qed.

Lemma dll_in_heap p : p ∈ locs → is_Some (h !! p).
  Proof. intros [i Hi]%list_elem_of_lookup. destruct (dll_lookup _ _ Hi) as (x & _ & ->). eauto. Qed.

Lemma fresh_not_in : fresh (dom h) ∉ locs.
  Proof.
    intros Hin. apply (is_fresh (dom h)). apply elem_of_dom. by apply dll_in_heap.
  Qed.

Lemma fresh_none : h !! fresh (dom h) = None.
  Proof. apply not_elem_of_dom. apply is_fresh. Qed.

  (** Two cells that are neighbours of one another stay distinct. *)
Lemma dll_ne i j p q : locs !! i = Some p → locs !! j = Some q → i ≠ j → p ≠ q.
  Proof. intros ? ? ? ->. eauto using dll_inj. Qed.

  (** The state after the cell at position [k] has been unlinked. *)
Lemma dll_remove k h' l' :
    (k < length locs)%nat →
    count l' = Z.of_nat (length xs) - 1 →
    lhead l' = delete k locs !! 0%nat →
    ltail l' = delete k locs !! pred (length (delete k locs)) →
    (∀ i p x, locs !! i = Some p → xs !! i = Some x → i ≠ k →
       h' !! p = Some (mkNode
         (if decide (S i = k) then locs !! S k else locs !! S i)
         (if decide (i = S k) then prv locs k else prv locs i) x)) →
    dll h' l' (delete k locs) (delete k xs).
  Proof.
    intros Hk Hc Hh Ht Hn. destruct Hdll as [Hnd Hlen Hcnt Hhd Htl Hnode].
    assert (length (delete k xs) = length xs - 1)%nat as Hlx
      by (apply length_delete, lookup_lt_is_Some; lia).
    assert (length (delete k locs) = length locs - 1)%nat as Hll
      by (by apply length_delete, lookup_lt_is_Some).
    constructor; try done.
    - by eapply sublist_NoDup, sublist_delete.
    - lia.
    - lia.
    - intros i p x. rewrite !list_lookup_delete. intros Hp Hx.
      rewrite (Hn _ _ _ Hp Hx) by (case_decide; lia). f_equal. f_equal.
      + repeat case_decide; try lia; f_equal; lia.
      + unfold prv. destruct i as [|i]; cbn in *.
        * repeat case_decide; try lia; destruct k; done.
        * rewrite list_lookup_delete. repeat case_decide; try lia; try done.
          destruct k; [lia|]. f_equal. lia.
  Qed.
End Op.

Lemma node_at_some h p nd : h !! p = Some nd → node_at h (Some p) = Ret nd.
Proof. unfold node_at. cbn. by intros ->. Qed.

Lemma set_forward_some h p nd v : h !! p = Some nd →
  set_forward h (Some p) v = Ret (<[p := mkNode v (backward nd) (item nd)]> h).
Proof. unfold set_forward, node_at. cbn. by intros ->. Qed.

Lemma set_backward_some h p nd v : h !! p = Some nd →
  set_backward h (Some p) v = Ret (<[p := mkNode (forward nd) v (item nd)]> h).
Proof. unfold set_backward, node_at. cbn. by intros ->. Qed.

Lemma free_some h p nd : h !! p = Some nd → ListNode_free h (Some p) = Ret (delete p h).
Proof. unfold ListNode_free. by intros ->. Qed.

Lemma add_front_ok {h l locs xs} c :
  dll h l locs xs → Z.of_nat (length xs) < INT_MAX →
  ∃ h' l' n, List_add_front h l c = Ret (h', l') ∧ dll h' l' (n :: locs) (c :: xs) ∧
             h !! n = None ∧ frame (n :: locs) h h'.
Proof.
  intros Hdll Hmax. pose proof (fresh_not_in Hdll) as Hf. pose proof (@fresh_none h) as Hnone.
  set (n := fresh (dom h)) in *.
  assert (NoDup (n :: locs)) as Hnd by (constructor; [done|apply Hdll]).
  pose proof Hdll as [_ Hlen Hcnt Hhd Htl Hnode].
  unfold List_add_front, ListNode_new. fold n.
  rewrite chk_int_ok by (unfold INT_MIN; lia). rewrite bind_ret_l.
  destruct locs as [|p locs']; destruct xs as [|x xs']; try done.
  - rewrite Hcnt. cbn [length Z.of_nat Z.eqb].
    eexists _, _, n. split; [done|]. split; [|split; [done|]].
    + constructor; try done. intros [|i] q y; [|done]. cbn. intros [= <-] [= <-].
      by rewrite lookup_insert_eq.
    + intros q Hq. rewrite lookup_insert_ne; [done|]. set_solver.
  - replace (count l =? 0) with false by (symmetry; bool_prop; cbn in Hcnt; lia).
    pose proof (Hnode 0%nat p x eq_refl eq_refl) as Hp. cbn in Hhd. rewrite Hhd.
    assert (n ≠ p) by set_solver.
    unfold set_forward, set_backward, node_at. cbn [mbind option_bind].
    repeat (rewrite ?lookup_insert_eq, ?lookup_insert_ne by done; rewrite ?Hp; cbn).
    eexists _, _, n. split; [done|]. split; [|split; [done|]].
    + constructor; cbn in *; try done; [lia|lia|].
      intros [|i] q y; cbn; [intros [= <-] [= <-]|].
      { rewrite lookup_insert_ne, lookup_insert_eq by done. done. }
      intros Hq Hy. assert (q ≠ n) by (intros ->; by apply list_elem_of_lookup_2 in Hq).
      rewrite lookup_insert. case_decide as Hpq.
      * subst q. assert (i = 0)%nat as -> by (eapply (dll_inj Hdll); eauto). cbn in *. by injection Hy as <-.
      * rewrite !lookup_insert_ne by done. rewrite (Hnode i q y) by done.
        destruct i; [|done]. cbn in Hq. congruence.
    + intros q Hq. rewrite !lookup_insert_ne; [done|set_solver..].
Qed.

Lemma add_back_ok {h l locs xs} c :
  dll h l locs xs → Z.of_nat (length xs) < INT_MAX →
  ∃ h' l' n, List_add_back h l c = Ret (h', l') ∧ dll h' l' (locs ++ [n]) (xs ++ [c]) ∧
             h !! n = None ∧ frame (n :: locs) h h'.
Proof.
  intros Hdll Hmax. pose proof (fresh_not_in Hdll) as Hf. pose proof (@fresh_none h) as Hnone.
  set (n := fresh (dom h)) in *.
  assert (NoDup (locs ++ [n])) as Hnd.
  { apply NoDup_app. split; [apply Hdll|]. split; [|apply NoDup_singleton].
  intros q Hq ->%list_elem_of_singleton. done. }
  pose proof Hdll as [_ Hlen Hcnt Hhd Htl Hnode].
  unfold List_add_back, ListNode_new. fold n.
  rewrite chk_int_ok by (unfold INT_MIN; lia). rewrite bind_ret_l.
  destruct (decide (xs = [])) as [->|Hne].
  - destruct locs; [|done]. rewrite Hcnt. cbn [length Z.of_nat Z.eqb].
    eexists _, _, n. split; [done|]. split; [|split; [done|]].
    + constructor; try done. intros [|i] q y; [|done]. cbn. intros [= <-] [= <-].
      by rewrite lookup_insert_eq, Hhd.
    + intros q Hq. rewrite lookup_insert_ne; [done|]. set_solver.
  - assert (0 < length xs)%nat as Hpos by (destruct xs; [done|cbn; lia]).
    replace (count l =? 0) with false by (symmetry; bool_prop; lia).
    destruct (dll_pos Hdll (pred (length xs))) as (p & x & Hlp & Hlx & Hp); [lia|].
    assert (n ≠ p) by (intros ->; by apply list_elem_of_lookup_2 in Hlp).
    rewrite Htl, Hlen, Hlp.
    unfold set_forward, set_backward, node_at. cbn [mbind option_bind].
    repeat (rewrite ?lookup_insert_eq, ?lookup_insert_ne by done; rewrite ?Hp; cbn).
    eexists _, _, n. split; [done|]. split; [|split; [done|]].
    + constructor; cbn; rewrite ?length_app; cbn; try lia; try done.
      { rewrite lookup_app_l by lia. done. }
      { symmetry. apply list_lookup_middle. lia. }
      intros i q y [Hq|[Hge Hq]]%lookup_app_Some [Hy|[Hge' Hy]]%lookup_app_Some;
        try (apply lookup_lt_Some in Hq as Hi; apply lookup_lt_Some in Hy as Hi'; cbn in *; lia).
      * assert (q ≠ n) by (intros ->; by apply list_elem_of_lookup_2 in Hq).
        pose proof (lookup_lt_Some _ _ _ Hq).
        assert (prv (locs ++ [n]) i = prv locs i) as ->
          by (destruct i; [done|]; cbn; by rewrite lookup_app_l by lia).
        rewrite lookup_insert. case_decide as Hpq.
        -- subst q. assert (i = pred (length xs))%nat as -> by (eapply (dll_inj Hdll); eauto).
           rewrite lookup_app_r, Hlen by lia. rewrite Hlx in Hy. injection Hy as <-.
           replace (S (pred (length xs)) - length xs)%nat with 0%nat by lia. done.
        -- rewrite !lookup_insert_ne by done. rewrite (Hnode i q y) by done.
           assert (i ≠ pred (length xs)) by congruence.
           by rewrite lookup_app_l by lia.
      * assert (i = length locs) as -> by (apply lookup_lt_Some in Hq; cbn in *; lia).
        rewrite Nat.sub_diag in Hq. injection Hq as <-.
        rewrite <- Hlen, Nat.sub_diag in Hy. rewrite Hlen in Hge. injection Hy as <-.
        rewrite lookup_insert_ne, lookup_insert_eq by done.
        rewrite lookup_ge_None_2 by (rewrite length_app; cbn; lia). f_equal. f_equal.
        rewrite Hlen. unfold prv. destruct (length xs) as [|m] eqn:Em; [lia|].
        cbn in Hlp. by rewrite lookup_app_l by lia.
    + apply list_elem_of_lookup_2 in Hlp. intros q Hq.
      rewrite !lookup_insert_ne; [done|set_solver..].
Qed.

(** Unlinking the cell at position [k], as one update of the heap: the
    neighbours are joined and the cell is freed. *)
Definition alter_fwd (o v : option loc) (h : heap) : heap :=
  match o with
  | Some q => alter (fun nd => mkNode v (backward nd) (item nd)) q h
  | None => h
  end.
Definition alter_bwd (o v : option loc) (h : heap) : heap :=
  match o with
  | Some q => alter (fun nd => mkNode (forward nd) v (item nd)) q h
  | None => h
  end.
Definition unlink (locs : list loc) (k : nat) (p : loc) (h : heap) : heap :=
  delete p (alter_fwd (prv locs k) (locs !! S k) (alter_bwd (locs !! S k) (prv locs k) h)).

Lemma set_forward_alter h q v : is_Some (h !! q) →
  set_forward h (Some q) v = Ret (alter_fwd (Some q) v h).
Proof.
  intros [nd Hq]. rewrite (set_forward_some _ _ _ _ Hq). f_equal. cbn. apply map_eq. intros i.
  rewrite lookup_insert, lookup_alter. case_decide; [|done]. subst. by rewrite Hq.
Qed.

Lemma set_backward_alter h q v : is_Some (h !! q) →
  set_backward h (Some q) v = Ret (alter_bwd (Some q) v h).
Proof.
  intros [nd Hq]. rewrite (set_backward_some _ _ _ _ Hq). f_equal. cbn. apply map_eq. intros i.
  rewrite lookup_insert, lookup_alter. case_decide; [|done]. subst. by rewrite Hq.
Qed.

Lemma lookup_alter_fwd h o v q :
  alter_fwd o v h !! q =
  (fun nd => mkNode (if decide (o = Some q) then v else forward nd) (backward nd) (item nd)) <$> h !! q.
Proof.
  destruct o as [r|]; cbn.
  - rewrite lookup_alter. case_decide; case_decide; try congruence; try done.
    by destruct (h !! q) as [[]|].
  - by destruct (h !! q) as [[]|].
Qed.

Lemma lookup_alter_bwd h o v q :
  alter_bwd o v h !! q =
  (fun nd => mkNode (forward nd) (if decide (o = Some q) then v else backward nd) (item nd)) <$> h !! q.
Proof.
  destruct o as [r|]; cbn.
  - rewrite lookup_alter. case_decide; case_decide; try congruence; try done.
    by destruct (h !! q) as [[]|].
  - by destruct (h !! q) as [[]|].
Qed.

Lemma prv_some locs k q : prv locs k = Some q → ∃ j, k = S j ∧ locs !! j = Some q.
Proof. destruct k; [done|]. eauto. Qed.

(** What the unlinked heap represents, for any header with the right ends. *)
Lemma unlink_dll {h l locs xs} k p hd tl :
  dll h l locs xs → locs !! k = Some p →
  hd = delete k locs !! 0%nat → tl = delete k locs !! pred (length (delete k locs)) →
  dll (unlink locs k p h) (mkList (count l - 1) hd tl) (delete k locs) (delete k xs) ∧
  unlink locs k p h !! p = None ∧ frame locs h (unlink locs k p h).
Proof.
  intros Hdll Hp -> ->. pose proof (lookup_lt_Some _ _ _ Hp).
  split; [|split].
  - apply (dll_remove Hdll); cbn; try done; [by rewrite (dll_count _ _ _ _ Hdll)|].
    intros i q x Hq Hx Hik. unfold unlink.
    rewrite lookup_delete_ne, lookup_alter_fwd, lookup_alter_bwd by
      (intros ->; apply Hik; eapply (dll_inj Hdll); eauto).
    rewrite (dll_node _ _ _ _ Hdll i q x) by done. cbn. f_equal. f_equal.
    + destruct (decide (prv locs k = Some q)) as [(j & -> & Hj)%prv_some|Hn].
      * rewrite decide_True; [done|]. f_equal. eapply (dll_inj Hdll); eauto.
      * rewrite decide_False; [done|]. intros <-. by cbn in Hn.
    + destruct (decide (locs !! S k = Some q)) as [Hj|Hn].
      * rewrite decide_True; [done|]. eapply (dll_inj Hdll); eauto.
      * rewrite decide_False; [done|]. by intros ->.
  - apply lookup_delete_eq.
  - intros q Hq. unfold unlink.
    rewrite lookup_delete_ne, lookup_alter_fwd, lookup_alter_bwd
      by (intros ->; by apply list_elem_of_lookup_2 in Hp).
    destruct (h !! q) as [[]|]; [|done]. cbn.
    rewrite decide_False, decide_False; [done| |].
    + intros Hn. by apply list_elem_of_lookup_2 in Hn.
    + intros (j & -> & Hj)%prv_some. by apply list_elem_of_lookup_2 in Hj.
Qed.

Lemma dll_one {h l locs xs} :
  dll h l locs xs → length xs = 1%nat → ∃ p x, locs = [p] ∧ xs = [x].
Proof.
  intros Hd H. pose proof (dll_len _ _ _ _ Hd).
  destruct xs as [|x [|]], locs as [|p [|]]; try done. eauto.
Qed.

(** The ends of a list that lost position [k]. *)
Lemma head_delete (locs : list loc) k :
  delete k locs !! 0%nat = if decide (k = 0%nat) then locs !! 1%nat else locs !! 0%nat.
Proof. rewrite list_lookup_delete. repeat case_decide; try lia; done. Qed.

Lemma tail_delete (locs : list loc) k :
  (k < length locs)%nat →
  delete k locs !! pred (length (delete k locs)) =
  if decide (S k = length locs) then prv locs k else locs !! pred (length locs).
Proof.
  intros Hk. rewrite length_delete by (by apply lookup_lt_is_Some).
  rewrite list_lookup_delete. repeat case_decide; try lia.
  - destruct k; cbn; [lia|]. f_equal. lia.
  - destruct k; cbn; [|lia]. apply lookup_ge_None_2. lia.
  - f_equal. lia.
Qed.

Lemma free_alter h p o1 v1 o2 v2 : is_Some (h !! p) →
  ListNode_free (alter_fwd o1 v1 (alter_bwd o2 v2 h)) (Some p) =
  Ret (delete p (alter_fwd o1 v1 (alter_bwd o2 v2 h))).
Proof.
  intros [nd Hp]. eapply free_some. by rewrite lookup_alter_fwd, lookup_alter_bwd, Hp.
Qed.

Lemma free_bwd h p o v : is_Some (h !! p) →
  ListNode_free (alter_bwd o v h) (Some p) = Ret (delete p (alter_bwd o v h)).
Proof. exact (free_alter h p None None o v). Qed.
Lemma free_fwd h p o v : is_Some (h !! p) →
  ListNode_free (alter_fwd o v h) (Some p) = Ret (delete p (alter_fwd o v h)).
Proof. exact (free_alter h p o v None None). Qed.

(** The neighbours of a node of a list of two or more nodes exist. *)
Lemma dll_next {h l locs xs} k :
  dll h l locs xs → (S k < length locs)%nat → ∃ q, locs !! S k = Some q ∧ is_Some (h !! q).
Proof.
  intros Hd Hk. destruct (dll_pos Hd (S k)) as (q & x & ? & _ & ?);
    [rewrite <- (dll_len _ _ _ _ Hd); lia|]. eauto.
Qed.
Lemma dll_prev {h l locs xs} k :
  dll h l locs xs → (0 < k < length locs)%nat → ∃ q, prv locs k = Some q ∧ is_Some (h !! q).
Proof.
  intros Hd Hk. destruct k as [|k]; [lia|]. destruct (dll_pos Hd k) as (q & x & ? & _ & ?);
    [rewrite <- (dll_len _ _ _ _ Hd); lia|]. eauto.
Qed.

Lemma itr_remove_ok {h l locs xs} k p :
  dll h l locs xs → locs !! k = Some p →
  ∃ h' l', List_itr_remove h l (Some p) = Ret (h', l') ∧
    dll h' l' (delete k locs) (delete k xs) ∧ h' !! p = None ∧ frame locs h h'.
Proof.
  intros Hdll Hp. pose proof Hdll as [Hnd Hlen Hcnt Hhd Htl Hnode].
  pose proof (lookup_lt_Some _ _ _ Hp) as Hk.
  destruct (dll_lookup Hdll _ _ Hp) as (x & Hx & Hpx).
  unfold List_itr_remove. rewrite (bool_decide_true (Some p ≠ None)) by done.
  cbn [c_assert]. rewrite bind_ret_l.
  replace (count l =? 0) with false by (symmetry; bool_prop; lia).
  destruct (count l =? 1) eqn:E1; bool_prop.
  - destruct (dll_one Hdll) as (q & y & -> & ->); [lia|]. destruct k; [|done].
    injection Hp as ->. rewrite Hhd. rewrite bool_decide_true by done.
    cbn [c_assert]. rewrite bind_ret_l, (free_some _ _ _ Hpx), bind_ret_l.
    eexists _, _. split; [done|]. split; [by constructor; [constructor|..]|].
    split; [apply lookup_delete_eq|]. intros q Hq. apply lookup_delete_ne. set_solver.
  - rewrite (node_at_some _ _ _ Hpx), bind_ret_l. cbn [forward backward].
    pose proof (unlink_dll k p _ _ Hdll Hp eq_refl eq_refl) as Hun.
    rewrite head_delete, tail_delete in Hun by done.
    eexists _, _. split; [|exact Hun]. clear Hun.
    unfold unlink. rewrite Hhd, Htl.
    destruct (decide (k = 0%nat)) as [->|Hk0]; [|destruct (decide (S k = length locs)) as [Hkl|Hkl]].
    + rewrite bool_decide_true by done. rewrite decide_False by lia.
      destruct (dll_next 0 Hdll) as (q & Hq & Hqs); [lia|]. rewrite Hq.
      rewrite set_backward_alter, !bind_ret_l by done.
      by rewrite free_bwd by eauto.
    + rewrite bool_decide_false by (intros Heq; apply Hk0; eapply (dll_inj Hdll); eauto).
      rewrite <- Hkl, bool_decide_true by done.
      destruct (dll_prev k Hdll) as (q & Hq & Hqs); [lia|]. rewrite Hq.
      rewrite (lookup_ge_None_2 locs (S k)) by lia.
      rewrite set_forward_alter, !bind_ret_l by done.
      by rewrite free_fwd by eauto.
    + rewrite bool_decide_false by (intros Heq; apply Hk0; eapply (dll_inj Hdll); eauto).
      rewrite bool_decide_false by
        (intros Heq; apply Hkl; enough (pred (length locs) = k) by lia; eapply (dll_inj Hdll); eauto).
      destruct (dll_prev k Hdll) as (q & Hq & Hqs); [lia|].
      destruct (dll_next k Hdll) as (r & Hr & Hrs); [lia|]. rewrite Hq, Hr.
      rewrite set_backward_alter, bind_ret_l by done.
      rewrite set_forward_alter, !bind_ret_l.
      * by rewrite free_alter by eauto.
      * rewrite lookup_alter_bwd. by destruct Hqs as [? ->].
Qed.

Lemma remove_first_ok {h l p locs x xs} :
  dll h l (p :: locs) (x :: xs) →
  ∃ h' l', List_remove_first h l = Ret (h', l', x) ∧
    dll h' l' locs xs ∧ h' !! p = None ∧ frame (p :: locs) h h'.
Proof.
  intros Hdll. pose proof Hdll as [Hnd Hlen Hcnt Hhd Htl Hnode].
  pose proof (Hnode 0%nat p x eq_refl eq_refl) as Hpx.
  unfold List_remove_first. cbn in Hcnt, Hhd. rewrite Hhd.
  replace (count l =? 0) with false by (symmetry; bool_prop; lia).
  rewrite (node_at_some _ _ _ Hpx), bind_ret_l. cbn [forward backward item].
  destruct (count l =? 1) eqn:E1; bool_prop.
  - rewrite (free_some _ _ _ Hpx), bind_ret_l. eexists _, _. split; [done|].
    destruct xs; [|cbn in *; lia]. destruct locs; [|done].
    split; [constructor; cbn; try done; [constructor|lia]|].
    split; [apply lookup_delete_eq|]. intros q Hq. apply lookup_delete_ne. set_solver.
  - pose proof (unlink_dll 0 p _ _ Hdll eq_refl eq_refl eq_refl) as Hun.
    rewrite head_delete, tail_delete in Hun by (cbn; lia). cbn -[prv unlink] in Hun.
    eexists _, _. split; [|exact Hun]. clear Hun. unfold unlink. rewrite Htl.
    destruct (dll_next 0 Hdll) as (q & Hq & Hqs); [cbn in *; lia|]. cbn in Hq.
    cbn -[ListNode_free set_backward]. rewrite !Hq, set_backward_alter, !bind_ret_l by done.
    rewrite decide_True, decide_False by (cbn in *; lia).
    by rewrite free_bwd by eauto.
Qed.

Lemma remove_last_ok {h l p locs x xs} :
  dll h l (locs ++ [p]) (xs ++ [x]) →
  ∃ h' l', List_remove_last h l = Ret (h', l', x) ∧
    dll h' l' locs xs ∧ h' !! p = None ∧ frame (locs ++ [p]) h h'.
Proof.
  intros Hdll. pose proof Hdll as [Hnd Hlen Hcnt Hhd Htl Hnode].
  rewrite !length_app in *. cbn in Hlen, Hcnt, Htl.
  assert (length locs = length xs) as Hl by lia.
  assert ((locs ++ [p]) !! length locs = Some p) as Hp by (by apply list_lookup_middle).
  assert ((xs ++ [x]) !! length locs = Some x) as Hx by (by apply list_lookup_middle).
  pose proof (Hnode _ p x Hp Hx) as Hpx.
  replace (pred (length locs + 1)) with (length locs) in Htl by lia.
  unfold List_remove_last. rewrite Htl, Hp.
  replace (count l =? 0) with false by (symmetry; bool_prop; lia).
  destruct (count l =? 1) eqn:E1; bool_prop.
  - destruct xs; [|cbn in *; lia]. destruct locs; [|done]. cbn in *. rewrite Hhd.
    rewrite (node_at_some _ _ _ Hpx), bind_ret_l, (free_some _ _ _ Hpx), bind_ret_l.
    eexists _, _. split; [done|].
    split; [constructor; cbn; try done; [constructor|lia]|].
    split; [apply lookup_delete_eq|]. intros q Hq. apply lookup_delete_ne. set_solver.
  - rewrite (node_at_some _ _ _ Hpx), bind_ret_l. cbn [backward item].
    pose proof (unlink_dll _ p _ _ Hdll Hp eq_refl eq_refl) as Hun.
    rewrite head_delete, tail_delete in Hun by (rewrite length_app; cbn; lia).
    rewrite Hl, delete_middle, <- Hl, delete_middle, !app_nil_r in Hun.
    eexists _, _. split; [|exact Hun]. clear Hun. unfold unlink. rewrite Hhd.
    destruct (dll_prev (length locs) Hdll) as (q & Hq & Hqs); [rewrite length_app; cbn; lia|].
    rewrite Hq, (lookup_ge_None_2 _ (S (length locs))) by (rewrite length_app; cbn; lia).
    rewrite set_forward_alter, !bind_ret_l by done.
    rewrite decide_False by lia. rewrite decide_True by (rewrite length_app; cbn; lia).
    by rewrite free_fwd by eauto.
Qed.

(** The search, from any position of the chain. *)
Lemma find_loop_ok {h l locs xs} needle :
  dll h l locs xs → ∀ m k fuel, length locs = (k + m)%nat → (m < fuel)%nat →
  find_loop fuel h (locs !! k) needle =
    Ret (match list_find (fun y => y = needle) (drop k xs) with
         | Some (j, _) => locs !! (k + j)%nat
         | None => None
         end).
Proof.
  intros Hdll. pose proof (dll_len _ _ _ _ Hdll) as Hlen.
  induction m as [|m IH]; intros k [|fuel] Hk Hf; try lia; cbn [find_loop].
  - rewrite lookup_ge_None_2, drop_ge by lia. done.
  - destruct (dll_pos Hdll k) as (p & x & Hp & Hx & Hpx); [lia|].
    rewrite Hp, (node_at_some _ _ _ Hpx), bind_ret_l. cbn [item forward].
    rewrite (drop_S _ _ _ Hx). cbn [list_find].
    destruct (decide (x = needle)) as [->|Hne].
    + rewrite bool_decide_true by done. by rewrite Nat.add_0_r, Hp.
    + rewrite bool_decide_false by done. rewrite IH by lia.
      destruct (list_find _ _) as [[j y]|]; [|done]. cbn. do 2 f_equal. lia.
Qed.

(** The freeing loop, from any position, on a heap that holds the rest. *)
Lemma deinit_loop_ok m : ∀ k (h : heap) locs xs fuel freed,
  NoDup locs → length locs = length xs → length locs = (k + m)%nat → (m < fuel)%nat →
  (∀ i p x, (k ≤ i)%nat → locs !! i = Some p → xs !! i = Some x →
     ∃ b, h !! p = Some (mkNode (locs !! S i) b x)) →
  ∃ h', deinit_loop fuel h (locs !! k) freed = Ret (h', freed ++ drop k xs) ∧
    (∀ p, p ∈ drop k locs → h' !! p = None) ∧ frame (drop k locs) h h'.
Proof.
  induction m as [|m IH]; intros k h locs xs [|fuel] freed Hnd Hlen Hk Hf Hn; try lia;
    cbn [deinit_loop].
  - rewrite lookup_ge_None_2, !drop_ge, app_nil_r by lia. exists h.
    split; [done|]. split; [set_solver|done].
  - destruct (lookup_lt_is_Some_2 locs k) as [p Hp]; [lia|].
    destruct (lookup_lt_is_Some_2 xs k) as [x Hx]; [lia|].
    destruct (Hn k p x) as [b Hpx]; [lia|done..|].
    rewrite Hp, (node_at_some _ _ _ Hpx), bind_ret_l, (free_some _ _ _ Hpx), bind_ret_l.
    cbn [forward item]. rewrite (drop_S _ _ _ Hp), (drop_S _ _ _ Hx).
    assert (p ∉ drop (S k) locs) as Hpn.
    { intros [i Hi]%list_elem_of_lookup. rewrite lookup_drop in Hi.
      pose proof (NoDup_lookup _ _ _ _ Hnd Hp Hi). lia. }
    destruct (IH (S k) (delete p h) locs xs fuel (freed ++ [x])) as (h' & -> & Hall & Hfr);
      try done; try lia.
    { intros i q y Hi Hq Hy. destruct (Hn i q y) as [b' Hb]; [lia|done..|]. exists b'.
      rewrite lookup_delete_ne; [done|]. intros ->.
      pose proof (NoDup_lookup _ _ _ _ Hnd Hp Hq). lia. }
    exists h'. rewrite <- app_assoc. split; [done|]. split.
    + intros q [->|Hq]%elem_of_cons; [|by apply Hall].
      rewrite Hfr by done. apply lookup_delete_eq.
    + intros q Hq. rewrite Hfr by set_solver. apply lookup_delete_ne. set_solver.
Qed.

(** The nodes of a list are that many entries of the heap. *)
Lemma dll_size {h l locs xs} : dll h l locs xs → (length locs ≤ size h)%nat.
Proof.
  intros Hd. rewrite <- size_dom.
  rewrite <- (size_list_to_set (C := gset loc) locs) by apply Hd.
  apply subseteq_size. intros p Hp%elem_of_list_to_set. apply elem_of_dom.
  by apply (dll_in_heap Hd).
Qed.

(** ** The deque specification *)

(** A client's operations; [RemoveAt k] walks an iterator [k] steps and removes
    the node it reached. *)
Inductive list_op :=
| AddFront (c : void_ptr)
| AddBack (c : void_ptr)
| RemoveFirst
| RemoveLast
| RemoveAt (k : nat).

Fixpoint walk (k : nat) (h : heap) (l : List_s) (itr : option loc) : outcome (option loc) :=
  match k with
  | O => Ret itr
  | S k => itr ← List_itr_next h l itr; walk k h l itr
  end.

Definition list_step (h : heap) (l : List_s) (o : list_op) : outcome (heap * List_s * void_ptr) :=
  match o with
  | AddFront c => r ← List_add_front h l c; Ret (r, None)
  | AddBack c => r ← List_add_back h l c; Ret (r, None)
  | RemoveFirst => List_remove_first h l
  | RemoveLast => List_remove_last h l
  | RemoveAt k =>
      itr ← walk k h l (List_iterator l);
      x ← List_itr_unpack h l itr;
      r ← List_itr_remove h l itr;
      Ret (r, x)
  end.

Fixpoint list_run (h : heap) (l : List_s) (os : list list_op)
    : outcome (heap * List_s * list void_ptr) :=
  match os with
  | [] => Ret (h, l, [])
  | o :: os =>
      r ← list_step h l o;
      let '(h, l, x) := r in
      r ← list_run h l os;
      let '(h, l, out) := r in
      Ret (h, l, x :: out)
  end.

Definition deque_step (xs : list void_ptr) (o : list_op) : list void_ptr * void_ptr :=
  match o with
  | AddFront c => (c :: xs, None)
  | AddBack c => (xs ++ [c], None)
  | RemoveFirst => (tail xs, mjoin (xs !! 0%nat))
  | RemoveLast => (delete (pred (length xs)) xs, mjoin (xs !! pred (length xs)))
  | RemoveAt k => (delete k xs, mjoin (xs !! k))
  end.

Fixpoint deque_run (xs : list void_ptr) (os : list list_op) : list void_ptr * list void_ptr :=
  match os with
  | [] => (xs, [])
  | o :: os =>
      let '(xs, x) := deque_step xs o in
      let '(xs, out) := deque_run xs os in (xs, x :: out)
  end.

(** Positions used by [RemoveAt] exist when they are used. *)
Fixpoint ops_ok (n : nat) (os : list list_op) : bool :=
  match os with
  | [] => true
  | o :: os =>
      match o with
      | AddFront _ | AddBack _ => ops_ok (S n) os
      | RemoveFirst | RemoveLast => ops_ok (pred n) os
      | RemoveAt k => (k <? n)%nat && ops_ok (pred n) os
      end
  end.

(** Memory is accounted for exactly: an address outside the new list holds what it
    held, or nothing if it was a node of the old list, and the nodes taken were
    free. *)
Definition exact (h : heap) (locs : list loc) (h' : heap) (locs' : list loc) : Prop :=
  (∀ p, p ∉ locs' → h' !! p = if decide (p ∈ locs) then None else h !! p) ∧
  (∀ p, p ∉ locs → is_Some (h !! p) → p ∉ locs').

Lemma exact_trans h locs h1 locs1 h2 locs2 :
  exact h locs h1 locs1 → exact h1 locs1 h2 locs2 → exact h locs h2 locs2.
Proof.
  intros [A1 A2] [B1 B2]. split.
  - intros p Hp. rewrite (B1 p Hp). destruct (decide (p ∈ locs1)) as [Hin|Hin].
    + destruct (decide (p ∈ locs)) as [|Hn]; [done|].
      destruct (h !! p) eqn:E; [|done]. exfalso. eapply A2; eauto.
    + by apply A1.
  - intros p Hp Hs. assert (p ∉ locs1) by (by apply A2). apply B2; [done|].
    rewrite A1, decide_False by done. done.
Qed.

Lemma exact_refl h l locs xs : dll h l locs xs → exact h locs h locs.
Proof.
  intros Hd. split; [|done]. intros p Hp. by rewrite decide_False.
Qed.

Lemma exact_add h locs n locs' h' :
  frame (n :: locs) h h' → h !! n = None → (∀ p, p ∈ locs' ↔ p = n ∨ p ∈ locs) →
  exact h locs h' locs'.
Proof.
  intros Hf Hn Hl. split.
  - intros p Hp. rewrite Hl in Hp. rewrite Hf by set_solver. rewrite decide_False by tauto. done.
  - intros p Hp [? Hs]. rewrite Hl. intros [->|?]; congruence.
Qed.

Lemma exact_remove h l locs xs h' k p :
  dll h l locs xs → locs !! k = Some p → frame locs h h' → h' !! p = None →
  exact h locs h' (delete k locs).
Proof.
  intros Hd Hk Hf Hp. split.
  - intros q Hq. case_decide as Hin; [|by apply Hf].
    destruct (decide (q = p)) as [->|Hne]; [done|]. destruct Hq.
    apply list_elem_of_lookup in Hin as [i Hi]. apply list_elem_of_lookup.
    destruct (decide (i < k)%nat).
    + exists i. by rewrite list_lookup_delete, decide_True.
    + exists (pred i). assert (i ≠ k) by congruence.
      rewrite list_lookup_delete, decide_False by lia.
      by replace (S (pred i)) with i by lia.
  - intros q Hq _ Hin. apply Hq. eapply sublist_subseteq, Hin. apply sublist_delete.
Qed.

Lemma walk_ok {h l locs xs} :
  dll h l locs xs → ∀ k j, (k + j < length locs)%nat →
  walk k h l (locs !! j) = Ret (locs !! (k + j)%nat).
Proof.
  intros Hd. induction k as [|k IH]; intros j Hj; [done|]. cbn [walk].
  destruct (dll_pos Hd j) as (p & x & Hp & Hx & Hpx); [rewrite <- (dll_len _ _ _ _ Hd); lia|].
  unfold List_itr_next. rewrite Hp, bool_decide_true by done. cbn [c_assert]. rewrite bind_ret_l.
  rewrite (node_at_some _ _ _ Hpx), !bind_ret_l. cbn [forward]. rewrite IH by lia.
  do 2 f_equal. lia.
Qed.

Lemma unpack_ok {h l locs xs} k p :
  dll h l locs xs → locs !! k = Some p → List_itr_unpack h l (Some p) = Ret (mjoin (xs !! k)).
Proof.
  intros Hd Hp. destruct (dll_lookup Hd _ _ Hp) as (x & Hx & Hpx).
  unfold List_itr_unpack. rewrite bool_decide_true by done. cbn [c_assert]. rewrite bind_ret_l.
  by rewrite (node_at_some _ _ _ Hpx), bind_ret_l, Hx.
Qed.

Lemma list_step_ok {h l locs xs} o :
  dll h l locs xs → Z.of_nat (length xs) < INT_MAX → ops_ok (length xs) [o] = true →
  ∃ h' l' locs', list_step h l o = Ret (h', l', (deque_step xs o).2) ∧
    dll h' l' locs' (deque_step xs o).1 ∧ exact h locs h' locs'.
Proof.
  intros Hd Hmax Hok. pose proof (dll_len _ _ _ _ Hd) as Hlen.
  destruct o as [c|c| | |k]; cbn [list_step deque_step fst snd].
  - destruct (add_front_ok c Hd Hmax) as (h' & l' & n & -> & Hd' & Hn & Hf).
    eexists _, _, _. split; [done|]. split; [done|].
    eapply exact_add; [done..|]. intros. by rewrite elem_of_cons.
  - destruct (add_back_ok c Hd Hmax) as (h' & l' & n & -> & Hd' & Hn & Hf).
    eexists _, _, _. split; [done|]. split; [done|].
    eapply exact_add; [done..|]. intros.
    rewrite elem_of_app, list_elem_of_singleton. tauto.
  - destruct xs as [|x xs], locs as [|p locs]; try done.
    + unfold List_remove_first. rewrite (dll_count _ _ _ _ Hd). cbn.
      eexists _, _, _. split; [done|]. split; [done|]. by eapply exact_refl.
    + destruct (remove_first_ok Hd) as (h' & l' & -> & Hd' & Hp & Hf).
      eexists _, _, _. split; [done|]. split; [done|].
      by apply (exact_remove _ _ _ _ _ 0 p Hd).
  - destruct xs as [|x xs _] using rev_ind; destruct locs as [|p locs _] using rev_ind;
      rewrite ?length_app in Hlen; cbn in Hlen; try lia.
    + unfold List_remove_last. rewrite (dll_count _ _ _ _ Hd). cbn.
      eexists _, _, _. split; [done|]. split; [done|]. by eapply exact_refl.
    + destruct (remove_last_ok Hd) as (h' & l' & -> & Hd' & Hp & Hf).
      rewrite length_app. cbn [length]. replace (pred (length xs + 1)) with (length xs) by lia.
      rewrite list_lookup_middle, delete_middle, app_nil_r by done.
      eexists _, _, _. split; [done|]. split; [done|].
      assert (length locs = length xs) as Hl by lia.
      replace locs with (delete (length locs) (locs ++ [p])) at 2
        by (by rewrite delete_middle, app_nil_r).
      apply (exact_remove _ _ _ _ _ _ p Hd); [|done..]. by apply list_lookup_middle.
  - cbn in Hok. rewrite andb_true_r in Hok. apply Nat.ltb_lt in Hok.
    destruct (lookup_lt_is_Some_2 locs k) as [p Hp]; [lia|].
    unfold List_iterator. rewrite (dll_head _ _ _ _ Hd), (walk_ok Hd) by lia.
    rewrite Nat.add_0_r, Hp, bind_ret_l, (unpack_ok k p Hd), bind_ret_l by done.
    destruct (itr_remove_ok k p Hd Hp) as (h' & l' & -> & Hd' & Hpn & Hf). cbn.
    eexists _, _, _. split; [done|]. split; [done|]. by eapply exact_remove.
Qed.

Lemma deque_step_length xs o os :
  ops_ok (length xs) (o :: os) = true →
  ops_ok (length xs) [o] = true ∧ ops_ok (length (deque_step xs o).1) os = true ∧
  (length (deque_step xs o).1 ≤ S (length xs))%nat.
Proof.
  intros Hok. destruct o as [c|c| | |k]; cbn [ops_ok deque_step fst] in *.
  - cbn. by repeat split.
  - rewrite length_app. cbn. rewrite Nat.add_1_r. repeat split; [done|lia].
  - destruct xs; cbn in *; repeat split; try done; lia.
  - destruct xs as [|x xs]; [cbn in *; repeat split; (done || lia)|].
    rewrite length_delete by (apply lookup_lt_is_Some; cbn; lia).
    cbn in *. rewrite Nat.sub_0_r. repeat split; [done|lia].
  - apply andb_true_iff in Hok as [Hk Hok]. rewrite Hk. apply Nat.ltb_lt in Hk.
    rewrite length_delete by (by apply lookup_lt_is_Some).
    rewrite Nat.sub_1_r. repeat split; [done|lia].
Qed.

(** ** Properties *)

(** C14: Refinement of the linked list by a double-ended queue: any sequence of
    front and back insertions, front and back removals and removals through an
    iterator, run on a heap that holds a well-formed list, never aborts nor
    touches invalid memory, returns exactly the items the abstract queue
    returns, leaves a well-formed list of the abstract contents, and accounts
    for memory exactly: every node removed is freed, every node added was free,
    and all other memory (other lists of the heap) is unchanged. *)
Theorem List_refines_deque os (h : heap) l locs xs :
  dll h l locs xs → Z.of_nat (length xs + length os) ≤ INT_MAX →
  ops_ok (length xs) os = true →
  ∃ h' l' locs', list_run h l os = Ret (h', l', (deque_run xs os).2) ∧
    dll h' l' locs' (deque_run xs os).1 ∧ exact h locs h' locs'.
Proof.
  revert h l locs xs. induction os as [|o os IH]; intros h l locs xs Hd Hmax Hok.
  - eexists _, _, _. split; [done|]. split; [done|]. by eapply exact_refl.
  - cbn in Hmax. apply deque_step_length in Hok as (Ho & Hos & Hl).
    destruct (list_step_ok o Hd) as (h1 & l1 & locs1 & Hs & Hd1 & He1); [lia|done|].
    cbn [list_run deque_run]. rewrite Hs, bind_ret_l.
    destruct (deque_step xs o) as [xs1 x1]. cbn [fst snd] in *.
    destruct (IH _ _ _ _ Hd1) as (h2 & l2 & locs2 & Hr & Hd2 & He2); [lia|done|].
    rewrite Hr, bind_ret_l. destruct (deque_run xs1 os) as [xs2 out]. cbn [fst snd] in *.
    eexists _, _, _. split; [done|]. split; [done|]. by eapply exact_trans.
Qed.

(** [List_find] returns the node of the first item that is the needle, and
    NULL when the list does not hold it; the search always ends. *)
Theorem List_find_first (h : heap) l locs xs needle :
  dll h l locs xs →
  List_find h l needle =
    Ret (match list_find (fun y => y = needle) xs with
         | Some (j, _) => locs !! j
         | None => None
         end).
Proof.
  intros Hd. unfold List_find. rewrite (dll_head _ _ _ _ Hd), (dll_count _ _ _ _ Hd).
  rewrite (find_loop_ok needle Hd (length locs)).
  - by rewrite drop_0.
  - done.
  - rewrite (dll_len _ _ _ _ Hd). lia.
Qed.

(** [List_safe_deinit] with a free function hands every item to it once, from
    head to tail, releases every node, leaves the rest of the heap alone and an
    empty list behind; without one it refuses a list that is not empty. *)
Theorem List_safe_deinit_frees_all (h : heap) l locs xs :
  dll h l locs xs →
  (∃ h', List_safe_deinit h l true = Ret (h', List_init, xs) ∧
         (∀ p, p ∈ locs → h' !! p = None) ∧ frame locs h h') ∧
  (xs ≠ [] → List_safe_deinit h l false = AssertFail).
Proof.
  intros Hd. pose proof Hd as [Hnd Hlen Hcnt Hhd Htl Hnode]. unfold List_safe_deinit.
  destruct xs as [|x xs].
  - split; [|done]. rewrite Hcnt. cbn. destruct locs; [|done]. exists h. destruct l; cbn in *.
    subst. split; [done|]. split; [|done]. intros p Hp. by apply not_elem_of_nil in Hp.
  - replace (count l =? 0) with false by (symmetry; bool_prop; cbn in *; lia). split; [|done].
    cbn [c_assert]. rewrite bind_ret_l, Hhd.
    destruct (deinit_loop_ok (length locs) 0 h locs (x :: xs) (S (size h)) [])
      as (h' & -> & Hall & Hf); try done.
    + pose proof (dll_size Hd). lia.
    + eauto.
    + rewrite drop_0 in Hall, Hf. cbn. eauto 6.
Qed.
End List.

Arguments ListNode : clear implicits.
Arguments list_op : clear implicits.

(** ** Witnesses *)

Definition ex_ops : list (list_op Z) :=
  [AddBack (Some 1); AddBack (Some 2); AddFront (Some 3); RemoveAt 1; AddBack (Some 4)].

Lemma List_refines_deque_witness :
  ∃ h' l' locs', list_run ∅ List_new ex_ops = Ret (h', l', [None; None; None; Some 1; None]) ∧
    dll h' l' locs' [Some 3; Some 2; Some 4] ∧ exact ∅ [] h' locs'.
Proof. apply (List_refines_deque ex_ops ∅ List_new [] []); [apply dll_new|done|done]. Defined.

(** A two element list, for the queries. *)
Definition ex_heap : gmap positive (ListNode Z) :=
  {[ 1%positive := mkNode (Some 2%positive) None (Some 7);
     2%positive := mkNode None (Some 1%positive) (Some 9) ]}.
Definition ex_list : List_s := mkList 2 (Some 1%positive) (Some 2%positive).

Lemma ex_dll : dll ex_heap ex_list [1%positive; 2%positive] [Some 7; Some 9].
Proof.
  constructor; try reflexivity.
  - apply (bool_decide_unpack _). reflexivity.
  - intros [|[|i]] p x; cbn; intros [= <-] [= <-]; reflexivity.
Qed.

Lemma List_find_first_witness :
  List_find ex_heap ex_list (Some 9) = Ret (Some 2%positive).
Proof. rewrite (List_find_first _ _ _ _ _ ex_dll). reflexivity. Defined.

Lemma List_safe_deinit_frees_all_witness :
  List_safe_deinit ex_heap ex_list false = AssertFail.
Proof. apply (List_safe_deinit_frees_all _ _ _ _ ex_dll). discriminate. Defined.
