(* ===== verification/Queue.v ===== *)
(** * Queue: the bounded inter-thread queue of sockets (src/common/queue.c)

    The circular variant is the one compiled ([QUEUE_CIRCULAR] and
    [QUEUE_DYN_CAPACITY] are defined).  The fields are [uint32_t].  Everything
    between taking the mutex and releasing it (or waiting) is one atomic section;
    the condition variables appear as sets of waiting threads in a step relation
    over any number of threads. *)

From S2P Require Import Prelude.
From stdpp Require Import relations.
Open Scope Z_scope.

(** A slot never written is [None]. *)
Record Queue := mkQueue {
  q : list (option Z);
  size : Z;
  max_size : Z;
  next : Z;
  first : Z;
  full : bool
}.

Definition QUEUE_DEFAULT_SIZE : Z := 10000.

Definition q_size (q : Queue) : Z :=
  if first q <=? next q then u32 (next q - first q)
  else u32 (u32 (next q + max_size q) - first q).
Definition is_full (q : Queue) : bool := (first q =? next q) && (0 <? size q).
Definition is_empty (q : Queue) : bool := (first q =? next q) && (size q =? 0).

Definition set_full (qr : Queue) : Queue :=
  mkQueue (q qr) (size qr) (max_size qr) (next qr) (first qr) (is_full qr).
Definition q_full (qref : Queue) : bool * Queue := (is_full qref, set_full qref).

(** [a % b] at [uint32_t]; a zero divisor is undefined. *)
Definition umod (a b : Z) : outcome Z := if b =? 0 then Ub else Ret (a mod b).

Definition advance_next_pointer (qr : Queue) : outcome Queue :=
  c_assert (negb (is_full qr));;
  n ← umod (u32 (next qr + 1)) (max_size qr);
  Ret (set_full (mkQueue (q qr) (size qr) (max_size qr) n (first qr) (full qr))).
Definition advance_first_pointer (qr : Queue) : outcome Queue :=
  c_assert (negb (is_empty qr));;
  f ← umod (u32 (first qr + 1)) (max_size qr);
  Ret (set_full (mkQueue (q qr) (size qr) (max_size qr) (next qr) f (full qr))).

Definition Queue_new_with_capacity (capacity : Z) : Queue :=
  let m := u32 capacity in
  mkQueue (replicate (Z.to_nat m) None) 0 m 0 0 false.
Definition Queue_new : Queue :=
  mkQueue (replicate (Z.to_nat QUEUE_DEFAULT_SIZE) None) 0 QUEUE_DEFAULT_SIZE 0 0 false.
(** The slot array is not freed. *)
Definition Queue_free (qref : option Queue) : outcome (option Queue) :=
  match qref with Some _ => Ret None | None => Ub end.

Definition set_size (qr : Queue) (n : Z) : Queue :=
  mkQueue (q qr) n (max_size qr) (next qr) (first qr) (full qr).
Definition load_slot (qr : Queue) (i : Z) : outcome Z :=
  if 0 <=? i then deref (mjoin (q qr !! Z.to_nat i)) else Ub.
Definition store_slot (qr : Queue) (i v : Z) : outcome Queue :=
  if (0 <=? i) && (Z.to_nat i <? length (q qr))%nat
  then Ret (mkQueue (<[Z.to_nat i := Some v]> (q qr)) (size qr) (max_size qr) (next qr) (first qr) (full qr))
  else Ub.

(** [Queue_remove] from the point where it holds the mutex: [None] when it has to wait
    on [not_empty_cv]; otherwise the item, the queue, and whether it broadcasts
    [not_full_cv]. *)
Definition Queue_remove (qref : Queue) : outcome (option (Z * Queue * bool)) :=
  if is_empty qref then Ret None else
  r ← load_slot qref (first qref);
  qref ← advance_first_pointer qref;
  let qref := set_size qref (u32 (size qref - 1)) in
  Ret (Some (r, qref, size qref <? max_size qref)).

(** [Queue_add] likewise: [None] when it has to wait on [not_full_cv]. *)
Definition Queue_add (qref : Queue) (sock : Z) : outcome (option (Queue * bool)) :=
  if size qref =? max_size qref then Ret None else
  qref ← store_slot qref (next qref) sock;
  qref ← advance_next_pointer qref;
  let qref := set_size qref (u32 (size qref + 1)) in
  Ret (Some (qref, size qref =? 1)).

Definition Queue_size (this : Queue) : Z := size this.
Definition Queue_capacity (this : Queue) : Z := max_size this.

(** ** Threads *)

(** What a thread is doing: nothing, competing for the mutex inside one of the two
    functions (first entry or woken), or waiting on a condition variable. *)
Inductive tstate :=
| Idle
| WantRemove
| WantAdd (v : Z)
| WaitNotEmpty
| WaitNotFull (v : Z).

Record cfg := mkCfg {
  cq : Queue;
  threads : gmap nat tstate;
  added : list Z;      (** values whose [Queue_add] has completed, in order *)
  removed : list Z     (** values returned by [Queue_remove], in order *)
}.

(** [pthread_cond_broadcast]. *)
Definition wake_not_empty (s : tstate) : tstate := match s with WaitNotEmpty => WantRemove | _ => s end.
Definition wake_not_full (s : tstate) : tstate := match s with WaitNotFull v => WantAdd v | _ => s end.
Definition broadcast (b : bool) (f : tstate → tstate) (ts : gmap nat tstate) : gmap nat tstate :=
  if b then f <$> ts else ts.

Inductive step : cfg → cfg → Prop :=
| step_call_remove c t :
    threads c !! t = Some Idle →
    step c (mkCfg (cq c) (<[t := WantRemove]> (threads c)) (added c) (removed c))
| step_call_add c t v :
    threads c !! t = Some Idle →
    step c (mkCfg (cq c) (<[t := WantAdd v]> (threads c)) (added c) (removed c))
| step_remove c t v q' b :
    threads c !! t = Some WantRemove → Queue_remove (cq c) = Ret (Some (v, q', b)) →
    step c (mkCfg q' (<[t := Idle]> (broadcast b wake_not_full (threads c))) (added c) (removed c ++ [v]))
| step_remove_wait c t :
    threads c !! t = Some WantRemove → Queue_remove (cq c) = Ret None →
    step c (mkCfg (cq c) (<[t := WaitNotEmpty]> (threads c)) (added c) (removed c))
| step_add c t v q' b :
    threads c !! t = Some (WantAdd v) → Queue_add (cq c) v = Ret (Some (q', b)) →
    step c (mkCfg q' (<[t := Idle]> (broadcast b wake_not_empty (threads c))) (added c ++ [v]) (removed c))
| step_add_wait c t v :
    threads c !! t = Some (WantAdd v) → Queue_add (cq c) v = Ret None →
    step c (mkCfg (cq c) (<[t := WaitNotFull v]> (threads c)) (added c) (removed c))
| step_spurious_remove c t :
    threads c !! t = Some WaitNotEmpty →
    step c (mkCfg (cq c) (<[t := WantRemove]> (threads c)) (added c) (removed c))
| step_spurious_add c t v :
    threads c !! t = Some (WaitNotFull v) →
    step c (mkCfg (cq c) (<[t := WantAdd v]> (threads c)) (added c) (removed c)).

Definition start (capacity : Z) (n : nat) : cfg :=
  mkCfg (Queue_new_with_capacity capacity) (set_to_map (fun t => (t, Idle)) (set_seq 0 n : gset nat)) [] [].

(** ** Representation *)

(** The ring holds the values [xs], oldest first. *)
Record ring (qr : Queue) (xs : list Z) : Prop := {
  rg_max : 0 < max_size qr < 2 ^ 31;
  rg_len : Zlen (q qr) = max_size qr;
  rg_first : 0 ≤ first qr < max_size qr;
  rg_size : size qr = Zlen xs;
  rg_cap : Zlen xs ≤ max_size qr;
  rg_next : next qr = (first qr + Zlen xs) mod max_size qr;
  rg_at : ∀ i x, xs !! i = Some x →
            q qr !! Z.to_nat ((first qr + Z.of_nat i) mod max_size qr) = Some (Some x)
}.

(** ** Lemmas *)

Lemma mod_range a m : 0 < m → 0 ≤ a mod m < m.
Proof. intros. by apply Z.mod_pos_bound. Qed.

Lemma ring_empty qr xs : ring qr xs → is_empty qr = bool_decide (xs = []).
Proof.
  intros [Hm Hl Hf Hs Hc Hn Ha]. unfold is_empty. rewrite Hs.
  destruct (decide (xs = [])) as [->|Hne].
  - rewrite bool_decide_true by done. rewrite Hn. change (Zlen (@nil Z)) with 0.
    rewrite Z.add_0_r, Z.mod_small, Z.eqb_refl by lia. done.
  - rewrite bool_decide_false by done. rewrite (proj2 (Z.eqb_neq (Zlen xs) 0)), andb_false_r; [done|].
    by rewrite Zlen_nil_iff.
Qed.

Lemma ring_not_full qr xs : ring qr xs → Zlen xs < max_size qr → is_full qr = false.
Proof.
  intros [Hm Hl Hf Hs Hc Hn Ha] Hlt. unfold is_full. rewrite Hs.
  destruct (0 <? Zlen xs) eqn:E; [|by rewrite andb_false_r]. bool_prop.
  rewrite andb_true_r. apply Z.eqb_neq. rewrite Hn. intros He.
  assert (0 = Zlen xs); [|lia].
  apply (ring_slot_inj (max_size qr) (first qr)); [lia..|]. rewrite Z.add_0_r, <- He. apply Z.mod_small. lia.
Qed.

Lemma new_ring capacity : 0 < capacity < 2 ^ 31 → ring (Queue_new_with_capacity capacity) [].
Proof.
  intros. unfold Queue_new_with_capacity. rewrite u32_small by lia.
  constructor; cbn [q size max_size next first set_size set_full]; try done; unfold Zlen;
    rewrite ?length_replicate; cbn [length]; lia.
Qed.

Lemma ring_add qr xs v :
  ring qr xs → Zlen xs < max_size qr →
  ∃ qr', Queue_add qr v = Ret (Some (qr', bool_decide (xs = []))) ∧ ring qr' (xs ++ [v]) ∧
         max_size qr' = max_size qr.
Proof.
  intros Hr Hlt. pose proof (ring_not_full _ _ Hr Hlt) as Hnf.
  pose proof Hr as [Hm Hl Hf Hs Hc Hn Ha]. unfold Queue_add.
  rewrite (proj2 (Z.eqb_neq _ _)) by lia. unfold store_slot.
  pose proof (mod_range (first qr + Zlen xs) (max_size qr)). pose proof (Zlen_nonneg xs).
  rewrite (proj2 (Z.leb_le _ _)) by lia.
  rewrite (proj2 (Nat.ltb_lt _ _)) by (unfold Zlen in *; lia). cbn [andb]. rewrite bind_ret_l.
  unfold advance_next_pointer. cbn [next first max_size q size full].
  assert (is_full (mkQueue (<[Z.to_nat (next qr) := Some v]> (q qr)) (size qr) (max_size qr) (next qr)
    (first qr) (full qr)) = false) as -> by exact Hnf.
  cbn [negb c_assert]. rewrite bind_ret_l. unfold umod. rewrite (proj2 (Z.eqb_neq _ _)) by lia.
  rewrite !bind_ret_l. cbn [size set_full set_size max_size q next first full].
  rewrite (u32_small (size qr + 1)) by lia. rewrite (u32_small (next qr + 1)) by lia.
  eexists. split.
  { f_equal. f_equal. f_equal. rewrite Hs. destruct (decide (xs = [])) as [->|Hne]; [done|].
    rewrite bool_decide_false by done. apply Z.eqb_neq. rewrite <- Zlen_nil_iff in Hne. lia. }
  split; [|done]. constructor; cbn [q size max_size next first set_size set_full]; rewrite ?Zlen_app; try done;
    try (change (Zlen [v]) with 1; lia).
  - unfold Zlen in *. by rewrite length_insert.
  - change (Zlen [v]) with 1. rewrite Hn, Z.add_assoc. rewrite Zplus_mod_idemp_l. done.
  - intros i x Hi. assert (Z.of_nat i ≤ Zlen xs) as Hil.
    { apply lookup_lt_Some in Hi. rewrite length_app in Hi. cbn in Hi. unfold Zlen. lia. }
    rewrite list_lookup_insert. pose proof (mod_range (first qr + Z.of_nat i) (max_size qr)). case_decide as Hd.
    + assert (Z.of_nat i = Zlen xs) as He.
      { apply (ring_slot_inj (max_size qr) (first qr)); [lia..|]. rewrite <- Hn. lia. }
      assert (i = length xs) as -> by (unfold Zlen in *; lia).
      rewrite list_lookup_middle in Hi by done. by injection Hi as <-.
    + apply Ha. rewrite lookup_app_l in Hi; [done|].
      destruct (decide (i = length xs)) as [->|]; [|unfold Zlen in *; lia].
      exfalso. apply Hd. split; [|unfold Zlen in *; lia]. rewrite Hn. done.
Qed.

Lemma ring_remove qr x xs :
  ring qr (x :: xs) →
  ∃ qr', Queue_remove qr = Ret (Some (x, qr', true)) ∧ ring qr' xs ∧ max_size qr' = max_size qr.
Proof.
  intros Hr. pose proof (ring_empty _ _ Hr) as He. rewrite bool_decide_false in He by done.
  pose proof Hr as [Hm Hl Hf Hs Hc Hn Ha]. unfold Queue_remove. rewrite He.
  unfold load_slot. rewrite (proj2 (Z.leb_le _ _)) by lia.
  pose proof (Ha 0%nat x eq_refl) as H0. rewrite Z.add_0_r, Z.mod_small in H0 by lia.
  rewrite H0. cbn [mjoin option_join deref]. rewrite bind_ret_l.
  unfold advance_first_pointer. rewrite He. cbn [negb c_assert]. rewrite bind_ret_l.
  unfold umod. rewrite (proj2 (Z.eqb_neq _ _)) by lia. rewrite !bind_ret_l.
  cbn [size set_full set_size max_size q next first full]. rewrite Zlen_cons in *.
  pose proof (Zlen_nonneg xs).
  rewrite (u32_small (size qr - 1)) by lia. rewrite (u32_small (first qr + 1)) by lia.
  rewrite (proj2 (Z.ltb_lt _ _)) by lia.
  eexists. split; [done|]. split; [|done].
  constructor; cbn [q size max_size next first set_size set_full]; try done; try lia.
  - apply mod_range. lia.
  - rewrite Hn, Zplus_mod_idemp_l. f_equal. lia.
  - intros i y Hi. rewrite Zplus_mod_idemp_l. rewrite <- (Ha (S i) y Hi). do 3 f_equal. lia.
Qed.

(** The invariant of every reachable configuration. *)
Record inv (capacity : Z) (c : cfg) : Prop := {
  iv_ring : ∃ xs, ring (cq c) xs ∧ added c = removed c ++ xs;
  iv_max : max_size (cq c) = capacity;
  iv_not_empty : ∀ t, threads c !! t = Some WaitNotEmpty → size (cq c) = 0;
  iv_not_full : ∀ t v, threads c !! t = Some (WaitNotFull v) → size (cq c) = max_size (cq c)
}.

Lemma broadcast_lookup b f ts t : broadcast b f ts !! t = (if b then f else id) <$> ts !! t.
Proof. destruct b; cbn; [apply lookup_fmap|]. by destruct (ts !! t). Qed.

(** Waiting threads after a thread's own state has been overwritten. *)
Lemma insert_other (ts : gmap nat tstate) t s t' s' :
  s ≠ s' → <[t := s]> ts !! t' = Some s' → ts !! t' = Some s'.
Proof.
  intros Hne. rewrite lookup_insert. case_decide; [|done]. intros [= ->]. done.
Qed.

Lemma woken_not_full (ts : gmap nat tstate) t s : wake_not_full <$> ts !! t = Some s →
  (∀ v, s ≠ WaitNotFull v) ∧ (s = WaitNotEmpty → ts !! t = Some WaitNotEmpty).
Proof. destruct (ts !! t) as [[]|]; cbn; intros [= <-]; split; intros; congruence. Qed.

Lemma woken_not_empty (ts : gmap nat tstate) t s : wake_not_empty <$> ts !! t = Some s →
  s ≠ WaitNotEmpty ∧ (∀ v, s = WaitNotFull v → ts !! t = Some (WaitNotFull v)).
Proof. destruct (ts !! t) as [[]|]; cbn; intros [= <-]; split; intros; congruence. Qed.

Lemma remove_wait_empty qr xs : ring qr xs → Queue_remove qr = Ret None → xs = [].
Proof.
  intros Hr. destruct xs as [|x xs]; [done|]. destruct (ring_remove _ _ _ Hr) as (? & -> & _). done.
Qed.

Lemma add_wait_full qr xs v : ring qr xs → Queue_add qr v = Ret None → Zlen xs = max_size qr.
Proof.
  intros Hr Hn. destruct (decide (Zlen xs < max_size qr)) as [Hlt|].
  - destruct (ring_add _ _ v Hr Hlt) as (? & He & _). congruence.
  - destruct Hr. lia.
Qed.

Lemma step_inv capacity c c' : inv capacity c → step c c' → inv capacity c'.
Proof.
  intros [(xs & Hr & Ha) Hm Hne Hnf] Hst. pose proof (rg_max _ _ Hr) as Hpos.
  destruct Hst as [c t Ht|c t v Ht|c t v q' b Ht Hq|c t Ht Hq|c t v q' b Ht Hq|c t v Ht Hq|c t Ht|c t v Ht].
  - constructor; cbn; [by eauto|done| |].
    + intros t' Ht'%insert_other; [by eauto|done].
    + intros t' v' Ht'%insert_other; [by eauto|done].
  - constructor; cbn; [by eauto|done| |].
    + intros t' Ht'%insert_other; [by eauto|done].
    + intros t' v' Ht'%insert_other; [by eauto|done].
  - destruct xs as [|x xs].
    { unfold Queue_remove in Hq. by rewrite (ring_empty _ _ Hr) in Hq. }
    destruct (ring_remove _ _ _ Hr) as (q1 & Hq1 & Hr1 & Hm1). rewrite Hq1 in Hq. injection Hq as <- <- <-.
    constructor; cbn [cq threads added removed]; [|by rewrite Hm1| |].
    + exists xs. split; [done|]. by rewrite <- app_assoc.
    + intros t' Ht'%insert_other; [|done]. rewrite broadcast_lookup in Ht'.
      apply woken_not_full in Ht' as [_ Ht']. specialize (Hne t' (Ht' eq_refl)).
      rewrite (rg_size _ _ Hr), Zlen_cons in Hne. pose proof (Zlen_nonneg xs). lia.
    + intros t' v' Ht'%insert_other; [|done]. rewrite broadcast_lookup in Ht'.
      apply woken_not_full in Ht' as [Ht' _]. by destruct (Ht' v').
  - apply (remove_wait_empty _ _ Hr) in Hq. subst xs. constructor; cbn; [by eauto|done| |].
    + intros t' _. apply (rg_size _ _ Hr).
    + intros t' v' Ht'%insert_other; [by eauto|done].
  - destruct (decide (Zlen xs < max_size (cq c))) as [Hlt|Hge].
    2:{ unfold Queue_add in Hq. rewrite (proj2 (Z.eqb_eq _ _)) in Hq; [done|]. destruct Hr. lia. }
    destruct (ring_add _ _ v Hr Hlt) as (q1 & Hq1 & Hr1 & Hm1). rewrite Hq1 in Hq. injection Hq as <- <-.
    constructor; cbn [cq threads added removed]; [|by rewrite Hm1| |].
    + exists (xs ++ [v]). split; [done|]. by rewrite Ha, <- app_assoc.
    + intros t' Ht'%insert_other; [|done]. rewrite broadcast_lookup in Ht'.
      destruct (decide (xs = [])) as [Hx|Hx].
      * rewrite bool_decide_true in Ht' by done. by apply woken_not_empty in Ht' as [? _].
      * rewrite bool_decide_false in Ht' by done. rewrite option_fmap_id in Ht'.
        specialize (Hne t' Ht'). rewrite (rg_size _ _ Hr) in Hne. by apply Zlen_nil_iff in Hne.
    + intros t' v' Ht'%insert_other; [|done]. rewrite broadcast_lookup in Ht'.
      assert (threads c !! t' = Some (WaitNotFull v')) as Hw.
      { destruct (bool_decide (xs = [])).
        - apply woken_not_empty in Ht' as [_ Ht']. by apply Ht'.
        - by rewrite option_fmap_id in Ht'. }
      specialize (Hnf t' v' Hw). rewrite (rg_size _ _ Hr) in Hnf. lia.
  - apply (add_wait_full _ _ _ Hr) in Hq. constructor; cbn; [by eauto|done| |].
    + intros t' Ht'%insert_other; [by eauto|done].
    + intros t' v' _. by rewrite (rg_size _ _ Hr).
  - constructor; cbn; [by eauto|done| |].
    + intros t' Ht'%insert_other; [by eauto|done].
    + intros t' v' Ht'%insert_other; [by eauto|done].
  - constructor; cbn; [by eauto|done| |].
    + intros t' Ht'%insert_other; [by eauto|done].
    + intros t' v' Ht'%insert_other; [by eauto|done].
Qed.

Lemma start_idle capacity n t s : threads (start capacity n) !! t = Some s → s = Idle.
Proof.
  cbn. intros Hs. by apply lookup_set_to_map in Hs as (x & _ & [= _ ->]).
Qed.

Lemma start_inv capacity n : 0 < capacity < 2 ^ 31 → inv capacity (start capacity n).
Proof.
  intros Hc. constructor.
  - exists []. split; [by apply new_ring|done].
  - cbn. apply u32_small. lia.
  - intros t Ht. by apply start_idle in Ht.
  - intros t v Ht. by apply start_idle in Ht.
Qed.

Lemma reachable_inv capacity n c :
  0 < capacity < 2 ^ 31 → rtc step (start capacity n) c → inv capacity c.
Proof.
  intros Hc. assert (∀ a, rtc step a c → inv capacity a → inv capacity c) as H.
  { intros a. induction 1; [done|]. eauto using step_inv. }
  intros Hr. eapply H; [done|]. by apply start_inv.
Qed.

(** ** Properties *)

(** C9: The concurrent queue is a bounded FIFO with no lost wake-up: in every
    configuration reachable by any number of threads calling [Queue_add] and
    [Queue_remove] in any interleaving (spurious wake-ups included), the values
    returned so far followed by the queue's contents are exactly the values added,
    in order; there are never more than [capacity] of them; a thread waits in
    [Queue_remove] only while the queue is empty and in [Queue_add] only while it is
    full, so the two kinds of waiters never coexist. *)
Theorem Queue_concurrent_fifo capacity n c :
  0 < capacity < 2 ^ 31 → rtc step (start capacity n) c →
  (∃ xs, added c = removed c ++ xs ∧ Queue_size (cq c) = Zlen xs ∧ Zlen xs ≤ capacity) ∧
  (∀ t, threads c !! t = Some WaitNotEmpty → Queue_size (cq c) = 0) ∧
  (∀ t v, threads c !! t = Some (WaitNotFull v) → Queue_size (cq c) = capacity).
Proof.
  intros Hc Hr. destruct (reachable_inv capacity n c Hc Hr) as [(xs & Hrg & Ha) Hm Hne Hnf].
  split_and!.
  - exists xs. split_and!; [done|apply Hrg|]. rewrite <- Hm. apply Hrg.
  - done.
  - intros t v Ht. unfold Queue_size. rewrite (Hnf t v Ht). done.
Qed.

(** C13: No thread is stuck and no assertion fails: in every reachable configuration a
    thread that has the mutex in [Queue_add] or [Queue_remove] completes its section;
    [Queue_remove] waits only if the queue is empty and otherwise returns the oldest
    value, [Queue_add] waits only if it is full, and whenever some thread waits for
    one condition, a thread of the other kind can proceed without waiting. *)
Theorem Queue_progress capacity n c v :
  0 < capacity < 2 ^ 31 → rtc step (start capacity n) c →
  ∃ xs, added c = removed c ++ xs ∧
    (if bool_decide (xs = []) then Queue_remove (cq c) = Ret None
     else ∃ q' b, Queue_remove (cq c) = Ret (Some (default 0 (head xs), q', b))) ∧
    (if capacity =? Zlen xs then Queue_add (cq c) v = Ret None
     else ∃ q' b, Queue_add (cq c) v = Ret (Some (q', b))) ∧
    ((∃ t, threads c !! t = Some WaitNotEmpty) → ∃ q' b, Queue_add (cq c) v = Ret (Some (q', b))) ∧
    ((∃ t w, threads c !! t = Some (WaitNotFull w)) →
       ∃ x q' b, Queue_remove (cq c) = Ret (Some (x, q', b))).
Proof.
  intros Hc Hr. destruct (reachable_inv capacity n c Hc Hr) as [(xs & Hrg & Ha) Hm Hne Hnf].
  pose proof Hrg as [Hpos _ _ Hs Hcap _ _]. rewrite Hm in Hcap, Hpos. exists xs. split; [done|].
  assert (Zlen xs < capacity → ∃ q' b, Queue_add (cq c) v = Ret (Some (q', b))) as Hadd.
  { intros Hlt. destruct (ring_add _ _ v Hrg) as (q' & ? & _); [by rewrite Hm|eauto]. }
  split_and!.
  - destruct xs as [|x xs]; cbn.
    + unfold Queue_remove. by rewrite (ring_empty _ _ Hrg).
    + destruct (ring_remove _ _ _ Hrg) as (q' & ? & _). eauto.
  - destruct (capacity =? Zlen xs) eqn:E; bool_prop.
    + unfold Queue_add. by rewrite Hs, Hm, (proj2 (Z.eqb_eq _ _)).
    + apply Hadd. lia.
  - intros [t Ht]. specialize (Hne t Ht). apply Hadd. lia.
  - intros (t & w & Ht). specialize (Hnf t w Ht). destruct xs as [|x xs].
    + change (Zlen (@nil Z)) with 0 in Hs. lia.
    + destruct (ring_remove _ _ _ Hrg) as (q' & ? & _). eauto.
Qed.

(** ** Witnesses *)

(** Two threads: one waits on the empty queue, the other adds and wakes it. *)
Definition ex_cfg : cfg :=
  mkCfg (Queue_new_with_capacity 2) {[ 0%nat := WaitNotEmpty; 1%nat := Idle ]} [] [].
Lemma ex_reach : rtc step (start 2 2) ex_cfg.
Proof.
  eapply rtc_l; [apply (step_call_remove (start 2 2) 0%nat); reflexivity|].
  eapply rtc_l; [apply (step_remove_wait _ 0%nat); reflexivity|].
  match goal with |- rtc _ ?a ?b => replace a with b; [apply rtc_refl|] end.
  reflexivity.
Qed.

Lemma Queue_concurrent_fifo_witness :
  (∃ xs, added ex_cfg = removed ex_cfg ++ xs ∧ Queue_size (cq ex_cfg) = Zlen xs ∧ Zlen xs ≤ 2) ∧
  (∀ t, threads ex_cfg !! t = Some WaitNotEmpty → Queue_size (cq ex_cfg) = 0) ∧
  (∀ t v, threads ex_cfg !! t = Some (WaitNotFull v) → Queue_size (cq ex_cfg) = 2).
Proof. apply (Queue_concurrent_fifo 2 2 ex_cfg); [split; reflexivity|exact ex_reach]. Defined.

Lemma Queue_progress_witness :
  ∃ xs, added ex_cfg = removed ex_cfg ++ xs ∧
    (if bool_decide (xs = []) then Queue_remove (cq ex_cfg) = Ret None
     else ∃ q' b, Queue_remove (cq ex_cfg) = Ret (Some (default 0 (head xs), q', b))) ∧
    (if 2 =? Zlen xs then Queue_add (cq ex_cfg) 7 = Ret None
     else ∃ q' b, Queue_add (cq ex_cfg) 7 = Ret (Some (q', b))) ∧
    ((∃ t, threads ex_cfg !! t = Some WaitNotEmpty) →
       ∃ q' b, Queue_add (cq ex_cfg) 7 = Ret (Some (q', b))) ∧
    ((∃ t w, threads ex_cfg !! t = Some (WaitNotFull w)) →
       ∃ x q' b, Queue_remove (cq ex_cfg) = Ret (Some (x, q', b))).
Proof. apply (Queue_progress 2 2 ex_cfg 7); [split; reflexivity|exact ex_reach]. Defined.
