(* ===== verification/BufferChain.v ===== *)
(** * BufferChain: a chain of I/O buffers (src/common/buffer_chain.c)

    The chain's list is used here through its specification: LinkedList.v shows
    that the linked list behaves as the sequence of its items, so [m_chain] is
    that sequence, and an iterator is a position in it ([None] is NULL). *)

From S2P Require Import Prelude Cbuffer IOBuffer.
Open Scope Z_scope.

Record BufferChain := mkChain {
  m_chain : list IOBuffer;
  m_size : Z
}.

Definition BufferChain_new : BufferChain := mkChain [] 0.

(** Every buffer of the chain is freed, then the list and the chain. *)
Fixpoint free_buffers (l : list IOBuffer) : outcome unit :=
  match l with
  | [] => Ret ()
  | iob :: l => _ ← IOBuffer_free (Some iob); free_buffers l
  end.
Definition BufferChain_free (this : option BufferChain) : outcome (option BufferChain) :=
  this ← deref this;
  free_buffers (m_chain this);;
  Ret None.

Definition replace_last (l : list IOBuffer) (x : IOBuffer) : list IOBuffer :=
  <[pred (length l) := x]> l.

(** The new tail buffer of [BufferChain_append]. *)
Definition append_new (this : BufferChain) (buf : mem) (len : Z) : outcome BufferChain :=
  required_len ← (if 256 * 4 * 8 <? len then chk_int (len + 100) else Ret (256 * 4 * 8));
  new_iob ← IOBuffer_new_with_capacity required_len;
  new_iob ← IOBuffer_data_add new_iob buf len;
  sz ← chk_int (m_size this + len);
  Ret (mkChain (m_chain this ++ [new_iob]) sz).

Definition BufferChain_append (this : BufferChain) (buf : mem) (len : Z) : outcome BufferChain :=
  if 0 <? m_size this then
    last_iob ← deref (last (m_chain this));
    if len <=? IOBuffer_space_len last_iob then
      last_iob ← IOBuffer_data_add last_iob buf len;
      sz ← chk_int (m_size this + len);
      Ret (mkChain (replace_last (m_chain this) last_iob) sz)
    else append_new this buf len
  else append_new this buf len.

Definition BufferChain_append_IOBuffer (this : BufferChain) (iobuf : IOBuffer) : outcome BufferChain :=
  BufferChain_append this (drop (Z.to_nat (IOBuffer_data iobuf)) (mem_p iobuf)) (IOBuffer_data_len iobuf).

Definition BufferChain_append_cstr (this : BufferChain) (cstr : list byte) : outcome BufferChain :=
  BufferChain_append this (init cstr) (s32 (Zlen cstr)).

Definition BufferChain_clear (bchain : BufferChain) : outcome BufferChain := AssertFail.

Definition BufferChain_size (this : BufferChain) : Z := m_size this.

Fixpoint compact_loop (iob_final : IOBuffer) (l : list IOBuffer) : outcome IOBuffer :=
  match l with
  | [] => Ret iob_final
  | tmp :: l =>
      iob_final ← IOBuffer_data_add iob_final
                    (drop (Z.to_nat (IOBuffer_data tmp)) (mem_p tmp)) (IOBuffer_data_len tmp);
      compact_loop iob_final l
  end.
Definition BufferChain_compact (this : BufferChain) : outcome IOBuffer :=
  iob_final ← IOBuffer_new_with_capacity (BufferChain_size this);
  compact_loop iob_final (m_chain this).

(** Comparison with the C string [cstr]; reading past its NUL is undefined. *)
Fixpoint eq_buf (sz : nat) (data : mem) (cstr : list byte) (cstr_index : nat) : outcome (option nat) :=
  match sz with
  | O => Ret (Some cstr_index)
  | S sz =>
      match data with
      | Some d :: data =>
          c ← deref ((cstr ++ [NUL]) !! cstr_index);
          if beq c d then eq_buf sz data cstr (S cstr_index) else Ret None
      | _ => Ub
      end
  end.
Fixpoint eq_loop (l : list IOBuffer) (cstr : list byte) (cstr_index : nat) : outcome bool :=
  match l with
  | [] => Ret true
  | tmp :: l =>
      r ← eq_buf (Z.to_nat (IOBuffer_data_len tmp))
            (drop (Z.to_nat (IOBuffer_data tmp)) (mem_p tmp)) cstr cstr_index;
      match r with None => Ret false | Some i => eq_loop l cstr i end
  end.
Definition BufferChain_eq_cstr (this : BufferChain) (cstr : list byte) : outcome bool :=
  eq_loop (m_chain this) cstr 0.

(** Iterators. *)
Definition BufferChain_iterator (this : BufferChain) : option nat :=
  match m_chain this with [] => None | _ => Some 0%nat end.
Definition BufferChain_iter_next (this : BufferChain) (iter : option nat) : outcome (option nat) :=
  match iter with
  | None => AssertFail
  | Some i => Ret (if (S i <? length (m_chain this))%nat then Some (S i) else None)
  end.
Definition BufferChain_unpack_iter (this : BufferChain) (iter : option nat) : outcome IOBuffer :=
  match iter with
  | None => AssertFail
  | Some i => deref (m_chain this !! i)
  end.
Definition BufferChain_remove_iter (this : BufferChain) (iter : option nat) : outcome BufferChain :=
  match iter with
  | None => AssertFail
  | Some i => Ret (mkChain (delete i (m_chain this)) (m_size this))
  end.

Definition BufferChain_add_front (this : BufferChain) (iobuf : IOBuffer) : BufferChain :=
  mkChain (iobuf :: m_chain this) (IOBuffer_data_len iobuf).

Definition BufferChain_add_back (this : BufferChain) (iobuf : IOBuffer) : outcome BufferChain :=
  sz ← chk_int (m_size this + IOBuffer_data_len iobuf);
  Ret (mkChain (m_chain this ++ [iobuf]) sz).

Definition BufferChain_pop_front (this : BufferChain) : outcome (option IOBuffer * BufferChain) :=
  match m_chain this with
  | [] => Ret (None, this)
  | front :: rest =>
      sz ← chk_int (m_size this - IOBuffer_data_len front);
      Ret (Some front, mkChain rest sz)
  end.

Definition BufferChain_front (this : BufferChain) : option IOBuffer := head (m_chain this).

(** [other] is another chain; its buffers are duplicated. *)
Fixpoint append_chain_loop (this : BufferChain) (l : list IOBuffer) : outcome BufferChain :=
  match l with
  | [] => Ret this
  | iob :: l =>
      iob_dup ← IOBuffer_dup iob;
      this ← BufferChain_add_back this iob_dup;
      append_chain_loop this l
  end.
Definition BufferChain_append_bufferchain (this other : BufferChain) : outcome BufferChain :=
  append_chain_loop this (m_chain other).

(** Each round pops a buffer of [other], so as many rounds as it has buffers and
    the one that finds it empty. *)
Fixpoint steal_loop (fuel : nat) (this other : BufferChain) : outcome (BufferChain * BufferChain) :=
  match fuel with
  | O => Ub
  | S f =>
      r ← BufferChain_pop_front other;
      let '(iob, other) := r in
      match iob with
      | None => Ret (this, other)
      | Some iob =>
          this ← BufferChain_add_back this iob;
          steal_loop f this other
      end
  end.
Definition BufferChain_steal_bufferchain (this other : BufferChain) : outcome (BufferChain * BufferChain) :=
  steal_loop (S (length (m_chain other))) this other.

(** ** Specification *)

(** The chain holds the text [bs], in buffers none of which is empty, and the size
    field counts it. *)
Record bc_text (c : BufferChain) (bs : list byte) : Prop := {
  bt_texts : ∃ texts, Forall2 iob_text (m_chain c) texts ∧
               Forall (fun t => t ≠ []) texts ∧ concat texts = bs;
  bt_size : m_size c = Zlen bs
}.

(** ** Lemmas *)

Lemma text_len b bs : iob_text b bs → buffer_remaining b = Zlen bs.
Proof.
  intros (Hok & _ & Hd & _). rewrite <- (iob_data_size b Hok), Hd, msize_init. done.
Qed.

Lemma text_prefix b bs : iob_text b bs → take (length bs) (mem_p b) = init bs.
Proof.
  intros Ht. pose proof (text_len b bs Ht) as Hl. destruct Ht as (Hok & Hp & Hd & _).
  unfold iob_data in Hd. rewrite Hp, Hl in Hd. unfold Zlen in Hd. rewrite Nat2Z.id in Hd.
  exact Hd.
Qed.

Lemma text_data_add fin b bs :
  iob_text b bs →
  IOBuffer_data_add fin (drop (Z.to_nat (IOBuffer_data b)) (mem_p b)) (IOBuffer_data_len b) =
  IOBuffer_data_add fin (init bs) (Zlen bs).
Proof.
  intros Ht. pose proof (text_len b bs Ht) as Hl. pose proof (text_prefix b bs Ht) as Hpre.
  destruct Ht as (Hok & Hp & Hd & _). unfold IOBuffer_data, IOBuffer_data_len. rewrite Hp, Hl.
  change (Z.to_nat 0) with 0%nat. rewrite drop_0, data_add_prefix.
  - unfold Zlen. by rewrite Nat2Z.id, Hpre.
  - apply (f_equal length) in Hpre. unfold init, Zlen, msize in *. rewrite length_take, length_fmap in Hpre. lia.
Qed.

Lemma new_chain_text : bc_text BufferChain_new [].
Proof. constructor; [|done]. exists []. by repeat constructor. Qed.

Lemma add_back_text c bs iob t :
  bc_text c bs → iob_text iob t → t ≠ [] → Zlen bs + Zlen t ≤ INT_MAX →
  ∃ c', BufferChain_add_back c iob = Ret c' ∧ bc_text c' (bs ++ t) ∧ m_chain c' = m_chain c ++ [iob].
Proof.
  intros [(texts & Hf & Hne & <-) Hs] Hi Ht Hm. unfold BufferChain_add_back, IOBuffer_data_len.
  pose proof (Zlen_nonneg (concat texts)). pose proof (Zlen_nonneg t).
  rewrite (text_len _ _ Hi), Hs, chk_int_ok by (unfold INT_MIN; lia).
  eexists. split; [done|]. split; [|done]. constructor; [|by rewrite Zlen_app].
  exists (texts ++ [t]). split; [apply Forall2_app; [done|constructor; [done|constructor]]|]. split.
  - apply Forall_app. split; [done|]. by repeat constructor.
  - rewrite concat_app. cbn. by rewrite app_nil_r.
Qed.

Lemma append_new_text c bs new :
  bc_text c bs → new ≠ [] → Zlen bs + Zlen new + 100 < INT_MAX →
  ∃ c', append_new c (init new) (Zlen new) = Ret c' ∧ bc_text c' (bs ++ new).
Proof.
  intros Hc Hne Hm. unfold append_new. pose proof (Zlen_nonneg bs). pose proof (Zlen_nonneg new).
  assert (0 < length new)%nat by (destruct new; [done|cbn; lia]).
  assert (∃ cap, (if 256 * 4 * 8 <? Zlen new then chk_int (Zlen new + 100) else Ret (256 * 4 * 8)) = Ret cap
    ∧ Zlen new ≤ cap < INT_MAX) as (cap & -> & Hcap).
  { split_if.
    - rewrite chk_int_ok by (unfold INT_MIN; lia). eexists. split; [done|]. lia.
    - eexists. split; [done|]. unfold INT_MAX. lia. }
  rewrite bind_ret_l. destruct (text_new cap) as (b & -> & Hok & Hp & Hd & Hcb & Hr); [lia|].
  rewrite bind_ret_l. destruct (add_first b new) as (b' & Hb' & Ht & _); [done..|unfold Zlen in *; lia|].
  fold (Zlen new) in Hb'. rewrite Hb', bind_ret_l.
  destruct (add_back_text c bs b' new Hc Ht Hne) as (c' & Hc' & ? & _); [lia|].
  unfold BufferChain_add_back, IOBuffer_data_len in Hc'. rewrite (text_len _ _ Ht) in Hc'. eauto.
Qed.

Lemma last_split {A} (l : list A) x : last l = Some x → ∃ l', l = l' ++ [x].
Proof. intros H. by apply last_Some in H. Qed.

Lemma append_text c bs new :
  bc_text c bs → new ≠ [] → Zlen bs + Zlen new + 100 < INT_MAX →
  ∃ c', BufferChain_append c (init new) (Zlen new) = Ret c' ∧ bc_text c' (bs ++ new).
Proof.
  intros Hc Hne Hm. unfold BufferChain_append.
  assert (0 < length new)%nat by (destruct new; [done|cbn; lia]).
  destruct (0 <? m_size c) eqn:E0; bool_prop; [|by apply append_new_text].
  pose proof Hc as [(texts & Hf & Hnt & Hbs) Hs].
  destruct (m_chain c) as [|b bufs _] eqn:Ech using rev_ind.
  { inv Hf. rewrite Hs in E0. by cbn in E0. }
  rewrite last_snoc. cbn [deref]. rewrite bind_ret_l.
  apply Forall2_app_inv_l in Hf as (t1 & t2 & Hf1 & Hf2 & ->).
  apply Forall2_cons_inv_l in Hf2 as (t & t2' & Hb & Hf2 & ->). inv Hf2.
  pose proof (text_len _ _ Hb) as Hbl. pose proof Hb as (Hok & Hp & Hd & Hn).
  destruct (Zlen new <=? IOBuffer_space_len b) eqn:Esp; bool_prop; [|by apply append_new_text].
  rewrite space_len_ok, Hp, Hbl in Esp by done.
  destruct (text_add b t new Hb) as (b' & Hb' & Ht' & _); [done|unfold Zlen in *; lia|].
  fold (Zlen new) in Hb'. rewrite Hb', bind_ret_l.
  pose proof (Zlen_nonneg (concat (t1 ++ [t]))). pose proof (Zlen_nonneg new).
  rewrite chk_int_ok by (unfold INT_MIN; rewrite Hs; lia). rewrite bind_ret_l.
  eexists. split; [done|]. constructor; cbn [m_chain m_size].
  - exists (t1 ++ [t ++ new]). unfold replace_last. rewrite length_app. cbn [length].
    replace (pred (length bufs + 1)) with (length bufs + 0)%nat by lia.
    rewrite insert_app_r. cbn. split; [|split].
    + apply Forall2_app; [done|]. constructor; [done|constructor].
    + apply Forall_app in Hnt as [? _]. apply Forall_app. split; [done|]. constructor; [|done].
      intros [_ ?]%app_eq_nil. done.
    + rewrite !concat_app. cbn. by rewrite !app_nil_r, app_assoc.
  - rewrite Hs, !Zlen_app. done.
Qed.

Lemma compact_loop_text l : ∀ texts fin pre,
  Forall2 iob_text l texts → Forall (fun t => t ≠ []) texts →
  (iob_text fin pre ∨ (pre = [] ∧ iob_ok fin ∧ buffer_ptr fin = 0 ∧ iob_data fin = [])) →
  Zlen pre + Zlen (concat texts) ≤ buffer_capacity fin → pre ++ concat texts ≠ [] →
  ∃ b, compact_loop fin l = Ret b ∧ iob_text b (pre ++ concat texts).
Proof.
  induction l as [|b l IH]; intros texts fin pre Hf Hne Hfin Hcap Hn0.
  - inv Hf. cbn in *. rewrite app_nil_r in *. destruct Hfin as [?|[? _]]; [eauto|done].
  - apply Forall2_cons_inv_l in Hf as (t & texts' & Hb & Hf & ->). inv Hne.
    cbn [compact_loop concat]. rewrite (text_data_add _ _ _ Hb). cbn [concat] in Hcap.
    rewrite Zlen_app in Hcap. pose proof (Zlen_nonneg (concat texts')).
    assert (0 < length t)%nat by (destruct t; [done|cbn; lia]).
    assert (∃ fin', IOBuffer_data_add fin (init t) (Zlen t) = Ret fin' ∧
      iob_text fin' (pre ++ t) ∧ buffer_capacity fin' = buffer_capacity fin) as (fin' & -> & Ht' & Hc').
    { destruct Hfin as [Hfin|(-> & Hok & Hp & Hd)].
      - apply text_add; [done..|]. unfold Zlen in *. lia.
      - apply add_first; [done..|]. change ([] ++ t) with t. unfold Zlen in *. lia. }
    rewrite bind_ret_l, app_assoc. apply IH; auto.
    + rewrite Zlen_app, Hc'. lia.
    + intros [[_ ->]%app_eq_nil _]%app_eq_nil. done.
Qed.

Lemma compact_text c bs :
  bc_text c bs → bs ≠ [] → Zlen bs < INT_MAX →
  ∃ b, BufferChain_compact c = Ret b ∧ iob_text b bs.
Proof.
  intros [(texts & Hf & Hnt & Heq) Hs] Hne Hm. pose proof (Zlen_nonneg bs).
  destruct (text_new (m_size c)) as (b0 & Hb0 & Hok & Hp & Hd & Hcap & _); [lia|].
  destruct (compact_loop_text (m_chain c) texts b0 [] Hf Hnt) as (b & Hb & Htb).
  - right. done.
  - rewrite Hcap, Hs, Heq. done.
  - by rewrite Heq.
  - unfold BufferChain_compact, BufferChain_size. rewrite Hb0, bind_ret_l, Hb.
    rewrite Heq in Htb. eauto.
Qed.

(** Comparison of the text [bs], from position [i], with the string. *)
Lemma eq_buf_text bs : ∀ rest cstr i,
  no_nul bs = true → no_nul cstr = true → (i ≤ length cstr)%nat →
  eq_buf (length bs) (init bs ++ rest) cstr i =
  Ret (if decide (bs `prefix_of` drop i cstr) then Some (i + length bs)%nat else None).
Proof.
  induction bs as [|b bs IH]; intros rest cstr i Hb Hc Hi; cbn [length eq_buf].
  - rewrite decide_True by apply prefix_nil. by rewrite Nat.add_0_r.
  - cbn [init fmap list_fmap app]. change (list_fmap _ _ Some bs) with (init bs).
    cbn [no_nul forallb] in Hb. apply andb_true_iff in Hb as [Hb0 Hb].
    destruct (decide (i = length cstr)) as [->|Hlt].
    + rewrite list_lookup_middle by done. cbn [deref]. rewrite bind_ret_l.
      assert (beq NUL b = false) as ->.
      { apply beq_false. intros <-. by rewrite beq_refl in Hb0. }
      rewrite drop_all, decide_False; [done|]. by intros ?%prefix_nil_not.
    + destruct (lookup_lt_is_Some_2 cstr i) as [c Hci]; [lia|].
      rewrite lookup_app_l, Hci by lia. cbn [deref]. rewrite bind_ret_l, (drop_S _ _ _ Hci).
      destruct (beq c b) eqn:Ecb.
      * apply beq_true in Ecb. subst c. rewrite IH by (done || lia). do 2 f_equal.
        destruct (decide (bs `prefix_of` drop (S i) cstr)).
        -- rewrite decide_True by (by apply prefix_cons). f_equal. lia.
        -- rewrite decide_False; [done|]. by intros ?%prefix_cons_inv_2.
      * apply beq_false in Ecb. rewrite decide_False; [done|]. by intros ->%prefix_cons_inv_1.
Qed.

Lemma prefix_app_drop {A} (a b l : list A) :
  a `prefix_of` l → (a ++ b) `prefix_of` l ↔ b `prefix_of` drop (length a) l.
Proof.
  intros [k ->]. rewrite drop_app_length. split.
  - apply prefix_app_inv.
  - apply prefix_app.
Qed.

Lemma eq_loop_text l : ∀ texts cstr i,
  Forall2 iob_text l texts → no_nul (concat texts) = true → no_nul cstr = true →
  (i ≤ length cstr)%nat →
  eq_loop l cstr i = Ret (bool_decide (concat texts `prefix_of` drop i cstr)).
Proof.
  induction l as [|b l IH]; intros texts cstr i Hf Hn Hc Hi.
  - inv Hf. cbn. by rewrite bool_decide_true by apply prefix_nil.
  - apply Forall2_cons_inv_l in Hf as (t & texts' & Hb & Hf & ->). cbn [concat] in *.
    rewrite no_nul_app in Hn. apply andb_true_iff in Hn as [Hn1 Hn2]. cbn [eq_loop].
    pose proof (text_len _ _ Hb) as Hl. pose proof (text_prefix _ _ Hb) as Hpre.
    unfold IOBuffer_data, IOBuffer_data_len. destruct Hb as (Hok & Hp & _). rewrite Hp, Hl.
    change (Z.to_nat 0) with 0%nat. rewrite drop_0. unfold Zlen. rewrite Nat2Z.id.
    rewrite <- (take_drop (length t) (mem_p b)), Hpre, eq_buf_text, bind_ret_l by done.
    case_decide as Hd.
    + assert (i + length t ≤ length cstr)%nat.
      { apply prefix_length in Hd. rewrite length_drop in Hd. lia. }
      rewrite (IH texts') by (done || lia). f_equal. apply bool_decide_ext.
      rewrite (prefix_app_drop _ _ _ Hd), drop_drop. done.
    + rewrite bool_decide_false; [done|]. intros Hp'. apply Hd. by eapply prefix_app_l.
Qed.

Lemma steal_loop_text fuel : ∀ this other bs texts,
  bc_text this bs → Forall2 iob_text (m_chain other) texts → Forall (fun t => t ≠ []) texts →
  m_size other = Zlen (concat texts) → (length (m_chain other) < fuel)%nat →
  Zlen bs + Zlen (concat texts) ≤ INT_MAX →
  ∃ this', steal_loop fuel this other = Ret (this', BufferChain_new) ∧ bc_text this' (bs ++ concat texts) ∧
    m_chain this' = m_chain this ++ m_chain other.
Proof.
  induction fuel as [|fuel IH]; intros this [bufs sz] bs texts Ht Hf Hne Hs Hl Hm; [lia|].
  cbn [m_chain m_size] in *. cbn [steal_loop]. unfold BufferChain_pop_front. cbn [m_chain].
  destruct bufs as [|b bufs].
  - inv Hf. exists this. rewrite !app_nil_r. done.
  - apply Forall2_cons_inv_l in Hf as (t & texts' & Hb & Hf & ->). inv Hne. cbn [concat] in *.
    rewrite Zlen_app in *. pose proof (Zlen_nonneg t). pose proof (Zlen_nonneg (concat texts')).
    pose proof (Zlen_nonneg bs). unfold IOBuffer_data_len. rewrite (text_len _ _ Hb).
    cbn [m_size]. rewrite chk_int_ok by (unfold INT_MIN; lia). rewrite bind_ret_l.
    cbn [mbind outcome_bind].
    destruct (add_back_text this bs b t) as (this1 & -> & Ht1 & Hc1); [done..|lia|].
    rewrite bind_ret_l.
    destruct (IH this1 (mkChain bufs (Zlen t + Zlen (concat texts') - Zlen t)) (bs ++ t) texts')
      as (this' & -> & Ht' & Hc'); try done; cbn [m_chain m_size]; rewrite ?Zlen_app; try lia.
    { cbn in Hl. lia. }
    exists this'. rewrite app_assoc. split; [done|]. split; [done|].
    rewrite Hc', Hc1, <- app_assoc. done.
Qed.

Definition chain_append_all (c : BufferChain) (chunks : list (list byte)) : outcome BufferChain :=
  foldl (fun r x => c ← r; BufferChain_append c (init x) (Zlen x)) (Ret c) chunks.

Lemma append_all_text chunks : ∀ c bs,
  bc_text c bs → Forall (fun x => x ≠ []) chunks →
  Zlen bs + Zlen (concat chunks) + 100 < INT_MAX →
  ∃ c', chain_append_all c chunks = Ret c' ∧ bc_text c' (bs ++ concat chunks).
Proof.
  unfold chain_append_all.
  induction chunks as [|x chunks IH]; intros c bs Hc Hne Hm; cbn [foldl concat].
  - rewrite app_nil_r. eauto.
  - inv Hne. cbn [concat] in Hm. rewrite Zlen_app in Hm. pose proof (Zlen_nonneg (concat chunks)).
    destruct (append_text c bs x) as (c1 & Hc1 & Ht1); [done..|lia|]. rewrite bind_ret_l, Hc1.
    rewrite app_assoc. apply IH; try done. rewrite Zlen_app. lia.
Qed.

(** A chain of one buffer. *)
Definition ex_iob : IOBuffer := iob_at0 (init (bytes "hi") ++ [Some NUL]) 2 2.
Definition ex_chain : BufferChain := mkChain [ex_iob] 2.

Lemma ex_iob_text : iob_text ex_iob (bytes "hi").
Proof. split; [|done]. constructor; cbn; unfold INT_MAX; lia || done. Qed.
Lemma ex_chain_text : bc_text ex_chain (bytes "hi").
Proof.
  constructor; [|done]. exists [bytes "hi"].
  split; [constructor; [exact ex_iob_text|constructor]|]. split; [constructor; [discriminate|constructor]|done].
Qed.

(** ** Properties *)

(** Appending any sequence of non-empty blocks to a new chain never aborts, the
    chain's size is the total length, compacting it gives one buffer with exactly
    the concatenation (NUL-terminated), however the blocks were spread over the
    chain's buffers, and the comparison with a C string answers whether the text
    is a prefix of that string. *)
Theorem BufferChain_append_roundtrip chunks cstr :
  Forall (fun x => x ≠ []) chunks → chunks ≠ [] →
  Zlen (concat chunks) + 100 < INT_MAX → no_nul (concat chunks) = true → no_nul cstr = true →
  ∃ c b, chain_append_all BufferChain_new chunks = Ret c ∧
    BufferChain_size c = Zlen (concat chunks) ∧
    BufferChain_compact c = Ret b ∧ IOBuffer_cstr b = Ret (concat chunks) ∧
    BufferChain_eq_cstr c cstr = Ret (bool_decide (concat chunks `prefix_of` cstr)).
Proof.
  intros Hne Hn0 Hm Hnn Hcs.
  destruct (append_all_text chunks BufferChain_new [] new_chain_text) as (c & Hc & Ht); [done..|].
  assert (concat chunks ≠ []) as Hct.
  { destruct chunks as [|x xs]; [done|]. inv Hne. by intros [-> _]%app_eq_nil. }
  destruct (compact_text c (concat chunks) Ht) as (b & Hb & Htb); [done|unfold INT_MAX in *; lia|].
  exists c, b. split_and!; [done|apply Ht|done|by apply text_cstr|].
  destruct Ht as [(texts & Hf & Hnt & Heq) Hs]. cbn [app] in Heq. unfold BufferChain_eq_cstr.
  rewrite (eq_loop_text _ texts) by (done || rewrite ?Heq; done || lia).
  by rewrite Heq, drop_0.
Qed.

Lemma BufferChain_append_roundtrip_witness :
  ∃ c b, chain_append_all BufferChain_new [bytes "abc"; bytes "de"] = Ret c ∧
    BufferChain_size c = 5 ∧
    BufferChain_compact c = Ret b ∧ IOBuffer_cstr b = Ret (bytes "abcde") ∧
    BufferChain_eq_cstr c (bytes "abcdefg") = Ret true.
Proof.
  apply (BufferChain_append_roundtrip [bytes "abc"; bytes "de"] (bytes "abcdefg"));
    try reflexivity; [|discriminate]. repeat constructor; discriminate.
Defined.

(** [BufferChain_steal_bufferchain] terminates and moves every buffer of the other
    chain, in order, to the end of this one: this chain holds the concatenation of
    both texts with the right size, the other is an empty chain. *)
Theorem BufferChain_steal_moves this other a b :
  bc_text this a → bc_text other b → Zlen a + Zlen b ≤ INT_MAX →
  ∃ this', BufferChain_steal_bufferchain this other = Ret (this', BufferChain_new) ∧
    bc_text this' (a ++ b) ∧ m_chain this' = m_chain this ++ m_chain other.
Proof.
  intros Ht [(texts & Hf & Hne & <-) Hs] Hm. apply steal_loop_text; try done; lia.
Qed.

Lemma BufferChain_steal_moves_witness :
  ∃ this', BufferChain_steal_bufferchain ex_chain ex_chain = Ret (this', BufferChain_new) ∧
    bc_text this' (bytes "hihi") ∧ m_chain this' = [ex_iob; ex_iob].
Proof.
  apply (BufferChain_steal_moves ex_chain ex_chain (bytes "hi") (bytes "hi"));
    [exact ex_chain_text|exact ex_chain_text|discriminate].
Defined.

(** [BufferChain_add_front] loses the size of what the chain held: for any chain
    and buffer the size becomes the new buffer's own length, so it agrees with the
    contents only when the chain was empty of data. *)
Theorem BufferChain_add_front_loses_size c bs iob t :
  bc_text c bs → iob_text iob t →
  BufferChain_size (BufferChain_add_front c iob) = Zlen t ∧
  (bs ≠ [] → BufferChain_size (BufferChain_add_front c iob) ≠ Zlen (t ++ bs)).
Proof.
  intros Hc Ht. unfold BufferChain_size, BufferChain_add_front, IOBuffer_data_len. cbn [m_size].
  rewrite (text_len _ _ Ht). split; [done|]. intros Hne. rewrite Zlen_app.
  intros He. apply Hne, Zlen_nil_iff. lia.
Qed.

Lemma BufferChain_add_front_loses_size_witness :
  BufferChain_size (BufferChain_add_front ex_chain ex_iob) = 2 ∧
  (bytes "hi" ≠ [] → BufferChain_size (BufferChain_add_front ex_chain ex_iob) ≠ 4).
Proof.
  exact (BufferChain_add_front_loses_size ex_chain (bytes "hi") ex_iob (bytes "hi")
           ex_chain_text ex_iob_text).
Defined.
