(* ===== verification/UrlParser.v ===== *)
(** * UrlParser: the URL parser (src/common/url_parser.c) and [Url_new] (src/common/url.c)

    The build leaves [C_HTTP_URL_PARSER_STRICT] at 1, so the strict branch of
    each conditional is modelled.  Offsets and lengths are [uint16_t] and wrap. *)

From S2P Require Import Prelude Cbuffer.
Open Scope Z_scope.

(** ** Character classes *)

(** The bit table of the characters allowed in a path, query or fragment; the
    initialiser gives sixteen of its thirty-two bytes, the rest are zero. *)
Definition normal_url_char : list Z :=
  [0; 0; 0; 0;
   Z.lor 2 (Z.lor 4 (Z.lor 16 (Z.lor 32 (Z.lor 64 128))));
   255; 255;
   Z.lor 1 (Z.lor 2 (Z.lor 4 (Z.lor 8 (Z.lor 16 (Z.lor 32 64)))));
   255; 255; 255; 255; 255; 255; 255;
   Z.lor 1 (Z.lor 2 (Z.lor 4 (Z.lor 8 (Z.lor 16 (Z.lor 32 64)))))]
  ++ replicate 16 0.

Definition BIT_AT (a : list Z) (i : Z) : bool :=
  negb (Z.land (nth (Z.to_nat (Z.shiftr i 3)) a 0) (Z.shiftl 1 (Z.land i 7)) =? 0).

Definition LOWER (c : byte) : Z := Z.lor (uchar c) 32.
Definition IS_ALPHA (c : byte) : bool := (97 <=? LOWER c) && (LOWER c <=? 122).
Definition IS_NUM (c : byte) : bool := (48 <=? schar c) && (schar c <=? 57).
Definition IS_ALPHANUM (c : byte) : bool := IS_ALPHA c || IS_NUM c.
Definition IS_HEX (c : byte) : bool := IS_NUM c || ((97 <=? LOWER c) && (LOWER c <=? 102)).
Definition one_of (c : byte) (s : String.string) : bool := existsb (beq c) (bytes s).
Arguments one_of c s%_string_scope.
Definition IS_MARK (c : byte) : bool := one_of c "-_.!~*'()".
Definition IS_USERINFO_CHAR (c : byte) : bool :=
  IS_ALPHANUM c || IS_MARK c || one_of c "%;:&=+$,".
Definition IS_URL_CHAR (c : byte) : bool := BIT_AT normal_url_char (uchar c).
Definition IS_HOST_CHAR (c : byte) : bool := IS_ALPHANUM c || one_of c ".-".

(** ** States *)

(** The states of [enum state] that the URL parser uses. *)
Inductive state :=
| s_dead
| s_req_spaces_before_url
| s_req_schema
| s_req_schema_slash
| s_req_schema_slash_slash
| s_req_server_start
| s_req_server
| s_req_server_with_at
| s_req_path
| s_req_query_string_start
| s_req_query_string
| s_req_fragment_start
| s_req_fragment.

Inductive http_host_state :=
| s_http_host_dead
| s_http_userinfo_start
| s_http_userinfo
| s_http_host_start
| s_http_host_v6_start
| s_http_host
| s_http_host_v6
| s_http_host_v6_end
| s_http_host_v6_zone_start
| s_http_host_v6_zone
| s_http_host_port_start
| s_http_host_port.

#[global] Instance state_eq_dec : EqDecision state.
Proof. solve_decision. Defined.
#[global] Instance http_host_state_eq_dec : EqDecision http_host_state.
Proof. solve_decision. Defined.

Definition parse_server_char (ch : byte) : state :=
  if beq ch "/" then s_req_path
  else if beq ch "?" then s_req_query_string_start
  else if beq ch "@" then s_req_server_with_at
  else if IS_USERINFO_CHAR ch || beq ch "[" || beq ch "]" then s_req_server
  else s_dead.

Definition parse_url_char (s : state) (ch : byte) : state :=
  if beq ch " " || beq ch x0d || beq ch x0a then s_dead
  else if beq ch x09 || beq ch x0c then s_dead
  else match s with
  | s_req_spaces_before_url =>
      if beq ch "/" || beq ch "*" then s_req_path
      else if IS_ALPHA ch then s_req_schema
      else s_dead
  | s_req_schema =>
      if IS_ALPHA ch then s
      else if beq ch ":" then s_req_schema_slash
      else s_dead
  | s_req_schema_slash => if beq ch "/" then s_req_schema_slash_slash else s_dead
  | s_req_schema_slash_slash => if beq ch "/" then s_req_server_start else s_dead
  | s_req_server_with_at => if beq ch "@" then s_dead else parse_server_char ch
  | s_req_server_start | s_req_server => parse_server_char ch
  | s_req_path =>
      if IS_URL_CHAR ch then s
      else if beq ch "?" then s_req_query_string_start
      else if beq ch "#" then s_req_fragment_start
      else s_dead
  | s_req_query_string_start | s_req_query_string =>
      if IS_URL_CHAR ch then s_req_query_string
      else if beq ch "?" then s_req_query_string
      else if beq ch "#" then s_req_fragment_start
      else s_dead
  | s_req_fragment_start =>
      if IS_URL_CHAR ch then s_req_fragment
      else if beq ch "?" then s_req_fragment
      else if beq ch "#" then s
      else s_dead
  | s_req_fragment =>
      if IS_URL_CHAR ch then s
      else if beq ch "?" || beq ch "#" then s
      else s_dead
  | s_dead => s_dead
  end.

Definition c_http_parse_host_char (s : http_host_state) (ch : byte) : http_host_state :=
  match s with
  | s_http_userinfo | s_http_userinfo_start =>
      if beq ch "@" then s_http_host_start
      else if IS_USERINFO_CHAR ch then s_http_userinfo
      else s_http_host_dead
  | s_http_host_start =>
      if beq ch "[" then s_http_host_v6_start
      else if IS_HOST_CHAR ch then s_http_host
      else s_http_host_dead
  | s_http_host =>
      if IS_HOST_CHAR ch then s_http_host
      else if beq ch ":" then s_http_host_port_start
      else s_http_host_dead
  | s_http_host_v6_end =>
      if beq ch ":" then s_http_host_port_start else s_http_host_dead
  | s_http_host_v6 =>
      if beq ch "]" then s_http_host_v6_end
      else if IS_HEX ch || beq ch ":" || beq ch "." then s_http_host_v6
      else if beq ch "%" then s_http_host_v6_zone_start
      else s_http_host_dead
  | s_http_host_v6_start =>
      if IS_HEX ch || beq ch ":" || beq ch "." then s_http_host_v6
      else s_http_host_dead
  | s_http_host_v6_zone =>
      if beq ch "]" then s_http_host_v6_end
      else if IS_ALPHANUM ch || one_of ch "%.-_~" then s_http_host_v6_zone
      else s_http_host_dead
  | s_http_host_v6_zone_start =>
      if IS_ALPHANUM ch || one_of ch "%.-_~" then s_http_host_v6_zone
      else s_http_host_dead
  | s_http_host_port | s_http_host_port_start =>
      if IS_NUM ch then s_http_host_port else s_http_host_dead
  | s_http_host_dead => s_http_host_dead
  end.

(** ** The result structure *)

(** [enum c_http_parser_url_fields]; [UF_MAX] is [None] where it is used as a value. *)
Inductive url_field :=
| UF_SCHEMA | UF_HOST | UF_PORT | UF_PATH | UF_QUERY | UF_FRAGMENT | UF_USERINFO.

#[global] Instance url_field_eq_dec : EqDecision url_field.
Proof. solve_decision. Defined.

Definition uf_index (f : url_field) : Z :=
  match f with
  | UF_SCHEMA => 0 | UF_HOST => 1 | UF_PORT => 2 | UF_PATH => 3
  | UF_QUERY => 4 | UF_FRAGMENT => 5 | UF_USERINFO => 6
  end.

Record span := mkSpan { off : Z; len : Z }.

(** The array [field_data[UF_MAX]], an element per enumerator in their order. *)
Record spans := mkSpans {
  d_schema : span; d_host : span; d_port : span; d_path : span;
  d_query : span; d_fragment : span; d_userinfo : span
}.
Definition get (d : spans) (f : url_field) : span :=
  match f with
  | UF_SCHEMA => d_schema d | UF_HOST => d_host d | UF_PORT => d_port d | UF_PATH => d_path d
  | UF_QUERY => d_query d | UF_FRAGMENT => d_fragment d | UF_USERINFO => d_userinfo d
  end.
Definition put (d : spans) (f : url_field) (x : span) : spans :=
  let '(mkSpans a b c p q r u) := d in
  match f with
  | UF_SCHEMA => mkSpans x b c p q r u | UF_HOST => mkSpans a x c p q r u
  | UF_PORT => mkSpans a b x p q r u | UF_PATH => mkSpans a b c x q r u
  | UF_QUERY => mkSpans a b c p x r u | UF_FRAGMENT => mkSpans a b c p q x u
  | UF_USERINFO => mkSpans a b c p q r x
  end.

Record parser_url := mkUrl {
  field_set : Z;
  port : Z;
  field_data : spans
}.

Definition c_http_parser_url_init : parser_url :=
  let z := mkSpan 0 0 in mkUrl 0 0 (mkSpans z z z z z z z).

Definition bit (f : url_field) : Z := Z.shiftl 1 (uf_index f).
Definition has_field (u : parser_url) (f : url_field) : bool :=
  negb (Z.land (field_set u) (bit f) =? 0).

Definition upd (u : parser_url) (f : url_field) (sp : span) : parser_url :=
  mkUrl (field_set u) (port u) (put (field_data u) f sp).
Definition set_off (u : parser_url) (f : url_field) (o : Z) : parser_url :=
  upd u f (mkSpan (u16 o) (len (get (field_data u) f))).
Definition set_len (u : parser_url) (f : url_field) (n : Z) : parser_url :=
  upd u f (mkSpan (off (get (field_data u) f)) n).
Definition incr_len (u : parser_url) (f : url_field) : parser_url :=
  set_len u f (u16 (len (get (field_data u) f) + 1)).
Definition mark_set (u : parser_url) (f : url_field) : parser_url :=
  mkUrl (Z.lor (field_set u) (bit f)) (port u) (field_data u).
Definition set_port (u : parser_url) (v : Z) : parser_url :=
  mkUrl (field_set u) (u16 v) (field_data u).

(** [*p] for [p = buf + i]. *)
Definition char_at (buf : list byte) (i : Z) : outcome byte :=
  if 0 <=? i then deref (buf !! Z.to_nat i) else Ub.

(** ** Host *)

(** The switch on the new state in the loop of [c_http_parse_host]. *)
Definition host_update (u : parser_url) (s new_s : http_host_state) (p : Z) : parser_url :=
  match new_s with
  | s_http_host =>
      incr_len (if decide (s ≠ s_http_host) then set_off u UF_HOST p else u) UF_HOST
  | s_http_host_v6 =>
      incr_len (if decide (s ≠ s_http_host_v6) then set_off u UF_HOST p else u) UF_HOST
  | s_http_host_v6_zone_start | s_http_host_v6_zone => incr_len u UF_HOST
  | s_http_host_port =>
      incr_len (if decide (s ≠ s_http_host_port)
                then mark_set (set_len (set_off u UF_PORT p) UF_PORT 0) UF_PORT else u) UF_PORT
  | s_http_userinfo =>
      incr_len (if decide (s ≠ s_http_userinfo)
                then mark_set (set_len (set_off u UF_USERINFO p) UF_USERINFO 0) UF_USERINFO
                else u) UF_USERINFO
  | _ => u
  end.

(** The loop; [n] is the number of characters left, [inl] an early [return 1]. *)
Fixpoint parse_host_loop (n : nat) (buf : list byte) (p : Z) (s : http_host_state)
    (u : parser_url) : outcome (parser_url + http_host_state * parser_url) :=
  match n with
  | O => Ret (inr (s, u))
  | S n =>
      ch ← char_at buf p;
      let new_s := c_http_parse_host_char s ch in
      if decide (new_s = s_http_host_dead) then Ret (inl u)
      else parse_host_loop n buf (p + 1) new_s (host_update u s new_s p)
  end.

Definition host_end_bad (s : http_host_state) : bool :=
  match s with
  | s_http_host_start | s_http_host_v6_start | s_http_host_v6 | s_http_host_v6_zone_start
  | s_http_host_v6_zone | s_http_host_port_start | s_http_userinfo | s_http_userinfo_start => true
  | _ => false
  end.

Definition c_http_parse_host (buf : list byte) (u : parser_url) (found_at : bool)
    : outcome (Z * parser_url) :=
  let '(mkSpan o l) := get (field_data u) UF_HOST in
  let buflen := o + l in
  c_assert (has_field u UF_HOST);;
  let u := set_len u UF_HOST 0 in
  let s := if found_at then s_http_userinfo_start else s_http_host_start in
  r ← parse_host_loop (Z.to_nat (buflen - o)) buf o s u;
  match r with
  | inl u => Ret (1, u)
  | inr (s, u) => Ret (if host_end_bad s then (1, u) else (0, u))
  end.

(** ** The parser *)

(** The field a state belongs to, and whether the character is a delimiter
    ([continue]) or the state is one the switch does not expect. *)
Inductive next_field := NfDead | NfSkip | NfField (f : url_field) | NfUnexpected.
Definition field_of_state (s : state) : next_field :=
  match s with
  | s_dead => NfDead
  | s_req_schema_slash | s_req_schema_slash_slash | s_req_server_start
  | s_req_query_string_start | s_req_fragment_start => NfSkip
  | s_req_schema => NfField UF_SCHEMA
  | s_req_server_with_at | s_req_server => NfField UF_HOST
  | s_req_path => NfField UF_PATH
  | s_req_query_string => NfField UF_QUERY
  | s_req_fragment => NfField UF_FRAGMENT
  | s_req_spaces_before_url => NfUnexpected
  end.

Fixpoint parse_url_loop (n : nat) (buf : list byte) (p : Z) (s : state)
    (old_uf : option url_field) (found_at : bool) (u : parser_url)
    : outcome (parser_url + bool * parser_url) :=
  match n with
  | O => Ret (inr (found_at, u))
  | S n =>
      ch ← char_at buf p;
      let s := parse_url_char s ch in
      let found_at := found_at || bool_decide (s = s_req_server_with_at) in
      match field_of_state s with
      | NfDead => Ret (inl u)
      | NfSkip => parse_url_loop n buf (p + 1) s old_uf found_at u
      | NfUnexpected => AssertFail
      | NfField uf =>
          if decide (old_uf = Some uf)
          then parse_url_loop n buf (p + 1) s old_uf found_at (incr_len u uf)
          else parse_url_loop n buf (p + 1) s (Some uf) found_at
                 (mark_set (set_len (set_off u uf p) uf 1) uf)
      end
  end.

(** The port number loop; [None] is the [return 1] on a value above 0xffff. *)
Fixpoint port_loop (n : nat) (buf : list byte) (p v : Z) : outcome (option Z) :=
  match n with
  | O => Ret (Some v)
  | S n =>
      ch ← char_at buf p;
      let v := u64 (u64 (v * 10) + (schar ch - 48)) in
      if 65535 <? v then Ret None else port_loop n buf (p + 1) v
  end.

Definition parse_port (buf : list byte) (buflen : Z) (u : parser_url) : outcome (Z * parser_url) :=
  if has_field u UF_PORT then
    let '(mkSpan o l) := get (field_data u) UF_PORT in
    c_assert (o + l <=? buflen);;
    v ← port_loop (Z.to_nat l) buf o 0;
    match v with
    | None => Ret (1, u)
    | Some v => Ret (0, set_port u v)
    end
  else Ret (0, u).

Definition c_http_parser_parse_url (buf : list byte) (buflen : Z) (is_connect : bool)
    (u : parser_url) : outcome (Z * parser_url) :=
  if buflen =? 0 then Ret (1, u) else
  let u := mkUrl 0 0 (field_data u) in
  let s := if is_connect then s_req_server_start else s_req_spaces_before_url in
  r ← parse_url_loop (Z.to_nat buflen) buf 0 s None false u;
  match r with
  | inl u => Ret (1, u)
  | inr (found_at, u) =>
      if has_field u UF_SCHEMA && negb (has_field u UF_HOST) then Ret (1, u) else
      r ← (if has_field u UF_HOST then c_http_parse_host buf u found_at else Ret (0, u));
      let '(rc, u) := r in
      if negb (rc =? 0) then Ret (1, u) else
      if is_connect && negb (field_set u =? Z.lor (bit UF_HOST) (bit UF_PORT))
      then Ret (1, u)
      else parse_port buf buflen u
  end.

(** ** [Url] *)

Record Url := mkUrlObj {
  scheme : Cbuffer;
  host : Cbuffer;
  path : Cbuffer;
  uport : Cbuffer;
  fragement : Cbuffer;
  query : Cbuffer;
  user_info : Cbuffer
}.

(** A fresh buffer with the field's characters appended when its length is not 0. *)
Definition url_component (url : list byte) (u : parser_url) (f : url_field) : outcome Cbuffer :=
  let '(mkSpan o l) := get (field_data u) f in
  cb ← Cbuffer_new;
  if l =? 0 then Ret cb
  else d ← mem_load (init url) o l; Cbuffer_append cb d l.

(** [url] is the C string; the parser's return code is not looked at. *)
Definition Url_new (url : list byte) : outcome Url :=
  r ← c_http_parser_parse_url url (Z.of_nat (length url)) false c_http_parser_url_init;
  let '(_, u) := r in
  sc ← url_component url u UF_SCHEMA;
  ui ← url_component url u UF_USERINFO;
  ho ← url_component url u UF_HOST;
  pa ← url_component url u UF_PATH;
  po ← url_component url u UF_PORT;
  fr ← url_component url u UF_FRAGMENT;
  qu ← url_component url u UF_QUERY;
  Ret (mkUrlObj sc ho pa po fr qu ui).

(** [None] is the freed object. [Url_dispose] clears only its local copy of the
    pointer, so the caller's [*this_ptr] is left as it was. *)
Definition ulr_free (this : option Url) : outcome (option Url) :=
  t ← deref this;
  _ ← Cbuffer_free (Some (scheme t)); _ ← Cbuffer_free (Some (host t));
  _ ← Cbuffer_free (Some (uport t)); _ ← Cbuffer_free (Some (fragement t));
  _ ← Cbuffer_free (Some (path t)); _ ← Cbuffer_free (Some (query t));
  _ ← Cbuffer_free (Some (user_info t));
  Ret None.
Definition Url_dispose (this_ptr : option Url) : outcome (option Url) := ulr_free this_ptr.

(** ** Lemmas: the result structure *)

Lemma get_put d f g x : get (put d f x) g = if decide (g = f) then x else get d g.
Proof. by destruct d, f, g. Qed.

Lemma get_put_eq d f x : get (put d f x) f = x.
Proof. rewrite get_put. by rewrite decide_True. Qed.

Lemma put_put d f x y : put (put d f x) f y = put d f y.
Proof. by destruct d, f. Qed.

Lemma has_mark u f g :
  has_field (mark_set u f) g = bool_decide (f = g) || has_field u g.
Proof.
  unfold has_field, mark_set. cbn [field_set].
  rewrite Z.land_comm, Z.land_lor_distr_r, (Z.land_comm (bit g)), (Z.land_comm (bit g) (bit f)).
  destruct (decide (f = g)) as [->|Hne].
  - rewrite bool_decide_true by done. cbn. apply negb_true_iff, Z.eqb_neq.
    rewrite Z.land_diag, Z.lor_eq_0_iff. destruct g; by intros [_ [=]].
  - rewrite bool_decide_false by done.
    replace (Z.land (bit f) (bit g)) with 0 by (by destruct f, g). by rewrite Z.lor_0_r.
Qed.

(** A field recorded at [o], [l] characters long. *)
Definition record (u : parser_url) (f : url_field) (o l : Z) : parser_url :=
  mark_set (upd u f (mkSpan o l)) f.

Lemma record_has u f g o l :
  has_field (record u f o l) g = bool_decide (f = g) || has_field u g.
Proof. exact (has_mark (upd u f (mkSpan o l)) f g). Qed.

Lemma record_get u f g o l :
  get (field_data (record u f o l)) g = if decide (g = f) then mkSpan o l else get (field_data u) g.
Proof. apply get_put. Qed.

Lemma incr_record u f o l :
  0 ≤ l < 65535 → incr_len (record u f o l) f = record u f o (l + 1).
Proof.
  intros. unfold incr_len, set_len, record, mark_set, upd. cbn.
  rewrite get_put_eq, put_put. cbn. by rewrite u16_small by lia.
Qed.

Lemma set_off_len u f o n : set_len (set_off u f o) f n = upd u f (mkSpan (u16 o) n).
Proof. unfold set_len, set_off, upd. cbn. by rewrite get_put_eq, put_put. Qed.

Lemma start_record u f o :
  0 ≤ o < 65536 → mark_set (set_len (set_off u f o) f 1) f = record u f o 1.
Proof. intros. by rewrite set_off_len, u16_small. Qed.

Lemma char_at_app (pre post : list byte) c :
  char_at (pre ++ c :: post) (Z.of_nat (length pre)) = Ret c.
Proof.
  unfold char_at. rewrite (proj2 (Z.leb_le _ _)) by lia.
  by rewrite Nat2Z.id, list_lookup_middle.
Qed.

(** ** Lemmas: safety of the loops *)

(** The spans lie in the first [p] characters: those of the recorded fields, and
    with [all] those of every field (as they do from a cleared structure). *)
Definition inb (sp : span) (p : Z) : Prop := 0 ≤ off sp ∧ 0 ≤ len sp ∧ off sp + len sp ≤ p.
Definition spans_in (all : bool) (u : parser_url) (p : Z) : Prop :=
  ∀ f, all = true ∨ has_field u f = true → inb (get (field_data u) f) p.

Lemma u16_le z : 0 ≤ z → 0 ≤ u16 z ≤ z.
Proof. intros. unfold u16. split; [apply Z.mod_pos_bound|apply Z.mod_le]; lia. Qed.

Lemma spans_in_mono all u p q : spans_in all u p → p ≤ q → spans_in all u q.
Proof. intros H ? f Hf. destruct (H f Hf) as (? & ? & ?). unfold inb. lia. Qed.

(** Replacing a span by one in range. *)
Lemma spans_in_upd all u f sp p :
  spans_in all u p → inb sp p → spans_in all (upd u f sp) p.
Proof.
  intros H Hsp g Hg. unfold upd. cbn [field_data]. rewrite get_put.
  case_decide; [done|]. by apply H.
Qed.

Lemma spans_in_mark all u f p :
  spans_in all u p → inb (get (field_data u) f) p → spans_in all (mark_set u f) p.
Proof.
  intros H Hsp g Hg. rewrite has_mark in Hg. cbn.
  destruct (decide (f = g)) as [<-|]; [done|]. rewrite bool_decide_false in Hg by done. by apply H.
Qed.

Lemma incr_len_in all u f p :
  spans_in all u p → inb (get (field_data u) f) p → spans_in all (incr_len u f) (p + 1).
Proof.
  intros H (? & ? & ?). unfold incr_len, set_len.
  apply spans_in_upd; [eapply spans_in_mono; [done|lia]|].
  pose proof (u16_le (len (get (field_data u) f) + 1)). unfold inb. cbn. lia.
Qed.

Lemma char_at_in buf p : 0 ≤ p < Z.of_nat (length buf) → ∃ c, char_at buf p = Ret c.
Proof.
  intros. unfold char_at. rewrite (proj2 (Z.leb_le _ _)) by lia.
  destruct (lookup_lt_is_Some_2 buf (Z.to_nat p)) as [c ->]; [lia|]. by exists c.
Qed.

Lemma url_char_expected s ch : field_of_state (parse_url_char s ch) ≠ NfUnexpected.
Proof.
  unfold parse_url_char, parse_server_char.
  repeat case_match; try done; subst; cbn in *; done.
Qed.

Lemma url_loop_safe all n : ∀ buf p s old fa u,
  0 ≤ p → p + Z.of_nat n ≤ Z.of_nat (length buf) → spans_in all u p →
  (∀ f, old = Some f → has_field u f = true) →
  ∃ r, parse_url_loop n buf p s old fa u = Ret r ∧
    match r with
    | inl u' => spans_in all u' (p + Z.of_nat n)
    | inr (_, u') => spans_in all u' (p + Z.of_nat n)
    end.
Proof.
  induction n as [|n IH]; intros buf p s old fa u Hp Hn Hu Hold; cbn [parse_url_loop].
  - rewrite Z.add_0_r. eauto.
  - destruct (char_at_in buf p) as [c ->]; [lia|]. rewrite bind_ret_l.
    pose proof (url_char_expected s c) as Hexp.
    replace (p + Z.of_nat (S n)) with (p + 1 + Z.of_nat n) in * by lia.
    destruct (field_of_state (parse_url_char s c)) as [| |f|]; [| | |done].
    + eexists. split; [done|]. eapply spans_in_mono; [done|lia].
    + apply IH; try lia; [eapply spans_in_mono; [done|lia]|done].
    + case_decide as Hf.
      * apply IH; try lia; [|by intros g Hg; cbn; apply Hold].
        apply incr_len_in; [done|]. apply Hu. auto.
      * pose proof (u16_le p). rewrite set_off_len. apply IH; try lia.
        -- apply spans_in_mark; [apply spans_in_upd|]; cbn; rewrite ?get_put_eq;
             [eapply spans_in_mono; [done|lia]|unfold inb; cbn; lia..].
        -- intros g [= <-]. rewrite has_mark. by rewrite bool_decide_true.
Qed.

(** The states of the host loop before any host character has been counted. *)
Definition host_pending (s : http_host_state) : bool :=
  match s with
  | s_http_userinfo_start | s_http_userinfo | s_http_host_start | s_http_host_v6_start => true
  | _ => false
  end.

(** At position [p] of a buffer of [q] characters. *)
Record host_inv (all : bool) (s : http_host_state) (u : parser_url) (p q : Z) : Prop := {
  hi_in : spans_in all u q;
  hi_host : inb (get (field_data u) UF_HOST) p;
  hi_has : has_field u UF_HOST = true;
  hi_zero : host_pending s = true → len (get (field_data u) UF_HOST) = 0;
  hi_port : s = s_http_host_port → inb (get (field_data u) UF_PORT) p;
  hi_user : s = s_http_userinfo → inb (get (field_data u) UF_USERINFO) p
}.

(** Which states a state can be entered from. *)
Lemma host_from s c :
  match c_http_parse_host_char s c with
  | s_http_host => s = s_http_host_start ∨ s = s_http_host
  | s_http_host_v6 => s = s_http_host_v6_start ∨ s = s_http_host_v6
  | s_http_host_v6_zone_start => s = s_http_host_v6
  | s_http_host_v6_zone => s = s_http_host_v6_zone_start ∨ s = s_http_host_v6_zone
  | s_http_userinfo => host_pending s = true
  | s_http_host_start | s_http_host_v6_start => host_pending s = true
  | s_http_userinfo_start => False
  | _ => True
  end.
Proof. destruct s; cbn; repeat case_match; try done; auto. Qed.

Lemma inb_incr u f p : inb (get (field_data u) f) p → inb (get (field_data (incr_len u f)) f) (p + 1).
Proof.
  intros (? & ? & ?). unfold incr_len, set_len, upd. cbn [field_data]. rewrite get_put_eq.
  pose proof (u16_le (len (get (field_data u) f) + 1)). unfold inb. cbn. lia.
Qed.

Lemma inb_mono sp p q : inb sp p → p ≤ q → inb sp q.
Proof. unfold inb. lia. Qed.

Lemma has_incr u f g : has_field (incr_len u f) g = has_field u g.
Proof. done. Qed.

Lemma get_incr_ne u f g : g ≠ f → get (field_data (incr_len u f)) g = get (field_data u) g.
Proof. intros. unfold incr_len, set_len, upd. cbn [field_data]. by rewrite get_put, decide_False. Qed.

Lemma incr_len_in' all u f p q :
  spans_in all u q → inb (get (field_data u) f) p → p + 1 ≤ q → spans_in all (incr_len u f) q.
Proof.
  intros H Hf%inb_incr Hq g Hg. destruct (decide (g = f)) as [->|].
  - by eapply inb_mono.
  - rewrite get_incr_ne by done. by apply H.
Qed.

(** A field started at [p]. *)
Definition started (u : parser_url) (f : url_field) (p : Z) : parser_url :=
  mark_set (set_len (set_off u f p) f 0) f.

Lemma started_eq u f p : started u f p = mark_set (upd u f (mkSpan (u16 p) 0)) f.
Proof. unfold started. by rewrite set_off_len. Qed.

Lemma started_inb u f p : 0 ≤ p → inb (get (field_data (started u f p)) f) p.
Proof.
  intros Hp. pose proof (u16_le p Hp). rewrite started_eq. unfold mark_set, upd. cbn [field_data].
  rewrite get_put_eq. unfold inb. cbn. lia.
Qed.

Lemma started_in all u f p q : 0 ≤ p ≤ q → spans_in all u q → spans_in all (started u f p) q.
Proof.
  intros Hp Hu. assert (inb (get (field_data (started u f p)) f) q) as Hs
    by (eapply inb_mono; [apply started_inb|]; lia).
  rewrite started_eq in *. apply spans_in_mark; [apply spans_in_upd; [done|]|done].
  unfold mark_set, upd in Hs. cbn [field_data] in Hs. by rewrite get_put_eq in Hs.
Qed.

Lemma get_started_ne u f g p : g ≠ f → get (field_data (started u f p)) g = get (field_data u) g.
Proof.
  intros. rewrite started_eq. unfold mark_set, upd. cbn [field_data].
  by rewrite get_put, decide_False.
Qed.

(** The host characters of a host that begins at [p]. *)
Lemma host_begin all u p q s :
  0 ≤ p → host_inv all s u p q → host_pending s = true →
  inb (get (field_data (set_off u UF_HOST p)) UF_HOST) p ∧
  (p ≤ q → spans_in all (set_off u UF_HOST p) q).
Proof.
  intros Hp [Hin Hho _ Hz _ _] Hs. pose proof (u16_le p Hp). unfold set_off. rewrite (Hz Hs).
  assert (inb (mkSpan (u16 p) 0) p) by (unfold inb; cbn; lia). split.
  - unfold upd. cbn [field_data]. by rewrite get_put_eq.
  - intros. apply spans_in_upd; [done|]. by eapply inb_mono.
Qed.

Lemma host_counted all s u p q :
  p + 1 ≤ q → spans_in all u q → inb (get (field_data u) UF_HOST) p → has_field u UF_HOST = true →
  host_pending s = false → s ≠ s_http_host_port → s ≠ s_http_userinfo →
  host_inv all s (incr_len u UF_HOST) (p + 1) q.
Proof.
  intros. constructor; try done; [|by apply inb_incr|congruence].
  by eapply incr_len_in'.
Qed.

Lemma host_update_inv all s u p q c :
  0 ≤ p → p + 1 ≤ q → host_inv all s u p q →
  host_inv all (c_http_parse_host_char s c)
    (host_update u s (c_http_parse_host_char s c) p) (p + 1) q.
Proof.
  intros Hp Hq Hi. pose proof Hi as [Hin Hho Hhas Hz Hpo Hus]. pose proof (host_from s c) as Hfrom.
  assert (inb (get (field_data u) UF_HOST) (p + 1)) by (eapply inb_mono; [done|lia]).
  destruct (c_http_parse_host_char s c); cbn [host_update] in *;
    try (constructor; try done; by auto); try tauto;
    try (by apply host_counted).
  - fold (started u UF_USERINFO p).
    constructor; try done; case_decide as Hs; rewrite ?get_incr_ne, ?get_started_ne by done;
      try (intros _; by apply Hz); try done.
    + eapply incr_len_in'; [apply started_in; [lia|done]|apply started_inb; lia|lia].
    + eapply incr_len_in'; [done|by apply Hus|lia].
    + rewrite has_incr. unfold started. by rewrite has_mark.
    + intros _. by apply inb_incr, started_inb.
    + intros _. by apply inb_incr, Hus.
  - case_decide as Hs; [|by apply host_counted].
    destruct (host_begin all u p q s) as [? ?]; try done; [by destruct Hfrom as [->| ->]|].
    apply host_counted; try done. auto with lia.
  - case_decide as Hs; [|by apply host_counted].
    destruct (host_begin all u p q s) as [? ?]; try done; [by destruct Hfrom as [->| ->]|].
    apply host_counted; try done. auto with lia.
  - fold (started u UF_PORT p).
    constructor; try done; case_decide as Hs; rewrite ?get_incr_ne, ?get_started_ne by done;
      try done.
    + eapply incr_len_in'; [apply started_in; [lia|done]|apply started_inb; lia|lia].
    + eapply incr_len_in'; [done|by apply Hpo|lia].
    + rewrite has_incr. unfold started. by rewrite has_mark.
    + intros _. by apply inb_incr, started_inb.
    + intros _. by apply inb_incr, Hpo.
Qed.

Lemma host_loop_safe all n : ∀ buf p q s u,
  0 ≤ p → p + Z.of_nat n ≤ q → q ≤ Z.of_nat (length buf) → host_inv all s u p q →
  ∃ r, parse_host_loop n buf p s u = Ret r ∧
    match r with inl u' => spans_in all u' q | inr (_, u') => spans_in all u' q end.
Proof.
  induction n as [|n IH]; intros buf p q s u Hp Hn Hq Hi; cbn [parse_host_loop].
  - eexists. split; [done|]. cbn. apply Hi.
  - destruct (char_at_in buf p) as [c ->]; [lia|]. rewrite bind_ret_l. case_decide.
    + eexists. split; [done|]. apply Hi.
    + apply IH; try lia. apply host_update_inv; [lia..|done].
Qed.

Lemma port_loop_safe n : ∀ buf p v,
  0 ≤ p → p + Z.of_nat n ≤ Z.of_nat (length buf) → 0 ≤ v ≤ 65535 →
  ∃ r, port_loop n buf p v = Ret r ∧ ∀ v', r = Some v' → 0 ≤ v' ≤ 65535.
Proof.
  induction n as [|n IH]; intros buf p v Hp Hn Hv; cbn [port_loop].
  - eexists. split; [done|]. by intros ? [= <-].
  - destruct (char_at_in buf p) as [c ->]; [lia|]. rewrite bind_ret_l.
    split_if; [eexists; split; [done|]; by intros ? [=]|]. apply IH; try lia. split; [|done]. apply Z.mod_pos_bound. lia.
Qed.

Lemma parse_host_safe all buf q u fa :
  q ≤ Z.of_nat (length buf) → spans_in all u q → has_field u UF_HOST = true →
  ∃ rc u', c_http_parse_host buf u fa = Ret (rc, u') ∧ (rc = 0 ∨ rc = 1) ∧ spans_in all u' q.
Proof.
  intros Hb Hu Hh. unfold c_http_parse_host.
  destruct (Hu UF_HOST) as (Ho & Hl & Hlen); [auto|].
  destruct (get (field_data u) UF_HOST) as [o l] eqn:Hol. cbn in Ho, Hl, Hlen.
  rewrite Hh. cbn [c_assert]. rewrite bind_ret_l.
  assert (∀ s, host_pending s = true → s ≠ s_http_userinfo → s ≠ s_http_host_port →
            host_inv all s (set_len u UF_HOST 0) o q) as Hi.
  { intros s ? ? ?. assert (inb (mkSpan o 0) o) by (unfold inb; cbn; lia).
    unfold set_len. rewrite Hol. cbn [off]. constructor; try done.
    - apply spans_in_upd; [done|]. unfold inb. cbn. lia.
    - cbn [field_data upd]. by rewrite get_put_eq.
    - intros _. cbn [field_data upd]. by rewrite get_put_eq. }
  destruct (host_loop_safe all (Z.to_nat (o + l - o)) buf o q
      (if fa then s_http_userinfo_start else s_http_host_start) (set_len u UF_HOST 0))
    as (r & -> & Hr); [lia..|by destruct fa; apply Hi|].
  rewrite bind_ret_l. destruct r as [u'|[s u']]; [eauto 6|].
  destruct (host_end_bad s); eauto 6.
Qed.

Lemma parse_port_safe all buf buflen u :
  buflen ≤ Z.of_nat (length buf) → spans_in all u buflen →
  ∃ rc u', parse_port buf buflen u = Ret (rc, u') ∧ (rc = 0 ∨ rc = 1) ∧ spans_in all u' buflen.
Proof.
  intros Hb Hu. unfold parse_port. destruct (has_field u UF_PORT) eqn:Hh; [|eauto 8].
  destruct (Hu UF_PORT) as (Ho & Hl & Hlen); [auto|].
  destruct (get (field_data u) UF_PORT) as [o l] eqn:Hol. cbn in Ho, Hl, Hlen.
  rewrite (proj2 (Z.leb_le _ _)) by lia. cbn [c_assert]. rewrite bind_ret_l.
  destruct (port_loop_safe (Z.to_nat l) buf o 0) as (r & -> & Hr); [lia..|]. rewrite bind_ret_l.
  destruct r as [v|]; [|eauto 8]. exists 0, (set_port u v). split_and!; [done|auto|done].
Qed.

(** No buffer makes the parser read outside it or fail an assertion; whatever it
    returns, the recorded spans lie inside the buffer. *)
Lemma parse_url_safe all buf buflen is_connect u :
  0 ≤ buflen ≤ Z.of_nat (length buf) →
  (all = true → ∀ f, inb (get (field_data u) f) 0) → field_set u = 0 →
  ∃ rc u', c_http_parser_parse_url buf buflen is_connect u = Ret (rc, u') ∧
    (rc = 0 ∨ rc = 1) ∧ spans_in all u' buflen.
Proof.
  intros Hb Hall H0. unfold c_http_parser_parse_url.
  assert (∀ u0, field_set u0 = 0 → field_data u0 = field_data u → spans_in all u0 0) as Hu0.
  { intros u0 Hf Hd f [->|Hh]; [rewrite Hd; by apply Hall|]. unfold has_field in Hh.
    by rewrite Hf in Hh. }
  destruct (buflen =? 0) eqn:E; bool_prop; [subst; eexists _, _; eauto 8|].
  set (u0 := mkUrl 0 0 (field_data u)).
  destruct (url_loop_safe all (Z.to_nat buflen) buf 0
      (if is_connect then s_req_server_start else s_req_spaces_before_url) None false u0)
    as (r & Hr & Hsp); [lia..|by apply Hu0|done|].
  rewrite Hr, bind_ret_l. rewrite Z.add_0_l, Z2Nat.id in Hsp by lia.
  destruct r as [u1|[fa u1]]; [eauto 8|]. split_if; [eauto 8|].
  destruct (has_field u1 UF_HOST) eqn:Hh.
  - destruct (parse_host_safe all buf buflen u1 fa) as (rc & u2 & -> & Hrc & Hu2); [lia|done..|].
    rewrite bind_ret_l. split_if; [eauto 8|]. split_if; [eauto 8|]. apply parse_port_safe; [lia|done].
  - rewrite bind_ret_l. cbn [negb Z.eqb]. split_if; [eauto 8|]. apply parse_port_safe; [lia|done].
Qed.

(** ** Lemmas: runs of characters *)

(** What is left of the buffer at position [p]. *)
Definition at_pos (buf : list byte) (p : Z) (rest : list byte) : Prop :=
  0 ≤ p ∧ drop (Z.to_nat p) buf = rest.

Lemma at_pos_step buf p c rest :
  at_pos buf p (c :: rest) → char_at buf p = Ret c ∧ at_pos buf (p + 1) rest.
Proof.
  intros [Hp Hd]. unfold char_at. rewrite (proj2 (Z.leb_le _ _)) by lia.
  assert (buf !! Z.to_nat p = Some c) as Hc.
  { rewrite <- (Nat.add_0_r (Z.to_nat p)), <- lookup_drop, Hd. done. }
  rewrite Hc. split; [done|]. split; [lia|].
  replace (Z.to_nat (p + 1)) with (S (Z.to_nat p)) by lia.
  rewrite (drop_S _ _ _ Hc) in Hd. by injection Hd.
Qed.

Lemma at_pos_app buf p seg rest : at_pos buf p (seg ++ rest) → at_pos buf (p + Zlen seg) rest.
Proof.
  revert p. induction seg as [|c seg IH]; intros p H.
  - unfold Zlen. cbn. by rewrite Z.add_0_r.
  - rewrite Zlen_cons, Z.add_assoc. apply IH. cbn in H. by apply at_pos_step in H as [_ ?].
Qed.

Lemma at_pos_slice buf p seg rest :
  at_pos buf p (seg ++ rest) → take (Z.to_nat (Zlen seg)) (drop (Z.to_nat p) buf) = seg.
Proof. intros [_ ->]. unfold Zlen. rewrite Nat2Z.id. by rewrite take_app_length. Qed.

(** A run of characters that all belong to the field [f]: the state at its end, and
    whether an [@] was seen. *)
Fixpoint url_path (f : url_field) (s : state) (seg : list byte) : option (state * bool) :=
  match seg with
  | [] => Some (s, false)
  | c :: seg =>
      let s' := parse_url_char s c in
      match field_of_state s' with
      | NfField g =>
          if decide (g = f) then
            r ← url_path f s' seg;
            Some (r.1, bool_decide (s' = s_req_server_with_at) || r.2)
          else None
      | _ => None
      end
  end.

Lemma loop_seg f seg : ∀ buf p rest s s' a n fa u o l,
  at_pos buf p (seg ++ rest) → url_path f s seg = Some (s', a) →
  0 ≤ l → l + Zlen seg < 65536 →
  parse_url_loop (length seg + n) buf p s (Some f) fa (record u f o l) =
  parse_url_loop n buf (p + Zlen seg) s' (Some f) (fa || a) (record u f o (l + Zlen seg)).
Proof.
  induction seg as [|c seg IH]; intros buf p rest s s' a n fa u o l Hp Hs Hl Hm.
  - injection Hs as <- <-. unfold Zlen. cbn. by rewrite !Z.add_0_r, orb_false_r.
  - apply at_pos_step in Hp as [Hc Hp]. rewrite Zlen_cons in *. cbn [length Nat.add parse_url_loop].
    rewrite Hc, bind_ret_l. cbn in Hs.
    destruct (field_of_state (parse_url_char s c)) as [| |g|]; try done. case_decide; [|done].
    subst g. rewrite decide_True by done.
    destruct (url_path f (parse_url_char s c) seg) as [[s1 a1]|] eqn:E; [|done].
    injection Hs as <- <-. assert (0 ≤ Zlen seg) by (unfold Zlen; lia).
    rewrite incr_record by lia. rewrite (IH _ _ rest _ s1 a1) by (done || lia).
    rewrite orb_assoc. f_equal; [lia|]. f_equal. lia.
Qed.

Lemma loop_field f seg buf p rest s s' a n old fa u :
  seg ≠ [] → old ≠ Some f → at_pos buf p (seg ++ rest) → url_path f s seg = Some (s', a) →
  p + Zlen seg < 65536 →
  parse_url_loop (length seg + n) buf p s old fa u =
  parse_url_loop n buf (p + Zlen seg) s' (Some f) (fa || a) (record u f p (Zlen seg)).
Proof.
  intros Hne Hold Hp Hs Hm. destruct seg as [|c seg]; [done|].
  assert (0 ≤ p) by apply Hp. assert (0 ≤ Zlen seg) by (unfold Zlen; lia).
  apply at_pos_step in Hp as [Hc Hp]. rewrite Zlen_cons in *. cbn [length Nat.add parse_url_loop].
  rewrite Hc, bind_ret_l. cbn in Hs.
  destruct (field_of_state (parse_url_char s c)) as [| |g|]; try done. case_decide; [|done].
  subst g. rewrite decide_False by done.
  destruct (url_path f (parse_url_char s c) seg) as [[s1 a1]|] eqn:E; [|done].
  injection Hs as <- <-. rewrite start_record by lia.
  rewrite (loop_seg f seg _ _ rest _ s1 a1) by (done || lia).
  rewrite orb_assoc. f_equal; lia.
Qed.

Lemma loop_skip c buf p rest s s' n old fa u :
  at_pos buf p (c :: rest) → parse_url_char s c = s' → field_of_state s' = NfSkip →
  parse_url_loop (S n) buf p s old fa u = parse_url_loop n buf (p + 1) s' old fa u.
Proof.
  intros [Hc _]%at_pos_step Hs Hf. cbn [parse_url_loop]. rewrite Hc, bind_ret_l, Hs, Hf.
  by destruct s', fa.
Qed.

(** Runs of one class of characters. *)
Lemma url_path_stay f s (cls : byte → bool) seg :
  (∀ c, cls c = true → parse_url_char s c = s) → field_of_state s = NfField f →
  bool_decide (s = s_req_server_with_at) = false → forallb cls seg = true →
  url_path f s seg = Some (s, false).
Proof.
  intros Hc Hf Ha. induction seg as [|c seg IH]; [done|]. cbn.
  intros [H1 H2]%andb_true_iff. rewrite (Hc _ H1), Hf, decide_True by done. by rewrite IH, Ha.
Qed.

Lemma url_path_enter f s0 s (cls0 cls : byte → bool) c seg :
  (∀ c, cls0 c = true → parse_url_char s0 c = s) →
  (∀ c, cls c = true → parse_url_char s c = s) → field_of_state s = NfField f →
  bool_decide (s = s_req_server_with_at) = false → cls0 c = true → forallb cls seg = true →
  url_path f s0 (c :: seg) = Some (s, false).
Proof.
  intros Hc0 Hc Hf Ha H0 Hseg. cbn. rewrite (Hc0 _ H0), Hf, decide_True by done.
  by rewrite (url_path_stay f s cls), Ha.
Qed.

Lemma url_path_app f s s1 s2 a b seg1 seg2 :
  url_path f s seg1 = Some (s1, a) → url_path f s1 seg2 = Some (s2, b) →
  url_path f s (seg1 ++ seg2) = Some (s2, a || b).
Proof.
  revert s a. induction seg1 as [|c seg1 IH]; intros s a H1 H2; cbn in *.
  - by injection H1 as <- <-.
  - destruct (field_of_state (parse_url_char s c)); try done. case_decide; [|done].
    destruct (url_path f (parse_url_char s c) seg1) as [[s' a']|] eqn:E; [|done].
    injection H1 as <- <-. cbn in *. rewrite (IH _ _ E H2). cbn. by rewrite orb_assoc.
Qed.

Lemma incr_upd u f o l : 0 ≤ l < 65535 → incr_len (upd u f (mkSpan o l)) f = upd u f (mkSpan o (l + 1)).
Proof.
  intros. unfold incr_len, set_len, upd. cbn. rewrite get_put_eq, put_put. cbn.
  by rewrite u16_small by lia.
Qed.

Lemma host_loop_seg s f (cls : byte → bool) seg : ∀ buf p rest n u o l,
  (∀ c, cls c = true → c_http_parse_host_char s c = s) → s ≠ s_http_host_dead →
  (∀ u p, host_update u s s p = incr_len u f) →
  at_pos buf p (seg ++ rest) → forallb cls seg = true → 0 ≤ l → l + Zlen seg < 65536 →
  parse_host_loop (length seg + n) buf p s (upd u f (mkSpan o l)) =
  parse_host_loop n buf (p + Zlen seg) s (upd u f (mkSpan o (l + Zlen seg))).
Proof.
  induction seg as [|c seg IH]; intros buf p rest n u o l Hc Hd Hu Hp Hs Hl Hm.
  - unfold Zlen. cbn. by rewrite !Z.add_0_r.
  - apply at_pos_step in Hp as [Hch Hp]. cbn in Hs. apply andb_true_iff in Hs as [H1 H2].
    rewrite Zlen_cons in *. assert (0 ≤ Zlen seg) by (unfold Zlen; lia).
    cbn [length Nat.add parse_host_loop]. rewrite Hch, bind_ret_l, (Hc _ H1), decide_False by done.
    rewrite Hu, incr_upd by lia. rewrite (IH _ _ rest) by (done || lia).
    f_equal; [lia|]. f_equal. f_equal. lia.
Qed.

Lemma host_loop_field s0 s f (cls0 cls : byte → bool) c seg buf p rest n u u' :
  (∀ c, cls0 c = true → c_http_parse_host_char s0 c = s) →
  (∀ c, cls c = true → c_http_parse_host_char s c = s) → s ≠ s_http_host_dead →
  host_update u s0 s p = upd u' f (mkSpan p 1) → (∀ u p, host_update u s s p = incr_len u f) →
  at_pos buf p ((c :: seg) ++ rest) → cls0 c = true → forallb cls seg = true →
  1 + Zlen seg < 65536 →
  parse_host_loop (length (c :: seg) + n) buf p s0 u =
  parse_host_loop n buf (p + Zlen (c :: seg)) s (upd u' f (mkSpan p (Zlen (c :: seg)))).
Proof.
  intros Hc0 Hc Hd Hu0 Hu Hp H0 Hs Hm. apply at_pos_step in Hp as [Hch Hp]. rewrite Zlen_cons.
  cbn [length Nat.add parse_host_loop]. rewrite Hch, bind_ret_l, (Hc0 _ H0), decide_False by done.
  rewrite Hu0, (host_loop_seg s f cls seg _ _ rest) by (done || lia). f_equal; lia.
Qed.

Lemma host_loop_delim c s s' buf p rest n u :
  at_pos buf p (c :: rest) → c_http_parse_host_char s c = s' → s' ≠ s_http_host_dead →
  host_update u s s' p = u →
  parse_host_loop (S n) buf p s u = parse_host_loop n buf (p + 1) s' u.
Proof.
  intros [Hc _]%at_pos_step Hs Hd Hu. cbn [parse_host_loop].
  by rewrite Hc, bind_ret_l, Hs, Hu, decide_False.
Qed.

(** The decimal value of a string of digits. *)
Definition dec_value (v : Z) (ds : list byte) : Z := foldl (fun v c => v * 10 + (schar c - 48)) v ds.

Lemma is_num_range c : IS_NUM c = true → 48 ≤ schar c ≤ 57.
Proof. unfold IS_NUM. intros. bool_prop. lia. Qed.

Lemma dec_value_le ds : ∀ v, forallb IS_NUM ds = true → 0 ≤ v → v ≤ dec_value v ds.
Proof.
  unfold dec_value. induction ds as [|d ds IH]; intros v Hd Hv; cbn in *; [lia|].
  apply andb_true_iff in Hd as [Hd Hds]. apply is_num_range in Hd.
  specialize (IH (v * 10 + (schar d - 48)) Hds). lia.
Qed.

Lemma port_loop_value ds : ∀ buf p rest v,
  at_pos buf p (ds ++ rest) → forallb IS_NUM ds = true → 0 ≤ v → dec_value v ds ≤ 65535 →
  port_loop (length ds) buf p v = Ret (Some (dec_value v ds)).
Proof.
  induction ds as [|d ds IH]; intros buf p rest v Hp Hd Hv Hm; [done|].
  apply at_pos_step in Hp as [Hc Hp]. cbn in Hd. apply andb_true_iff in Hd as [Hd Hds].
  cbn [length port_loop]. rewrite Hc, bind_ret_l. apply is_num_range in Hd.
  change (dec_value v (d :: ds)) with (dec_value (v * 10 + (schar d - 48)) ds) in *.
  pose proof (dec_value_le ds (v * 10 + (schar d - 48)) Hds).
  rewrite (u64_small (v * 10)) by lia. rewrite u64_small by lia.
  rewrite (proj2 (Z.ltb_ge _ _)) by lia. eapply IH; [done..|lia|done].
Qed.

(** ** URLs *)

(** The parts of an absolute URL. *)
Record url_parts := mkParts {
  u_scheme : list byte;
  u_user : option (list byte);
  u_host : list byte;
  u_port : option (list byte);
  u_path : list byte;
  u_query : option (list byte);
  u_frag : option (list byte)
}.

Definition opt_bytes (o : option (list byte)) (f : list byte → list byte) : list byte :=
  match o with Some x => f x | None => [] end.

Definition print_authority (t : url_parts) : list byte :=
  opt_bytes (u_user t) (fun x => x ++ bytes "@") ++ u_host t ++
  opt_bytes (u_port t) (fun x => bytes ":" ++ x).

Definition print_url (t : url_parts) : list byte :=
  u_scheme t ++ bytes "://" ++ print_authority t ++ u_path t ++
  opt_bytes (u_query t) (fun x => bytes "?" ++ x) ++
  opt_bytes (u_frag t) (fun x => bytes "#" ++ x).

Definition nonempty {A} (l : list A) : bool := match l with [] => false | _ => true end.
Definition opt_ok (o : option (list byte)) (p : list byte → bool) : bool :=
  match o with Some x => nonempty x && p x | None => true end.
Definition is_query_char (c : byte) : bool := IS_URL_CHAR c || beq c "?".

Definition parts_ok (t : url_parts) : bool :=
  nonempty (u_scheme t) && forallb IS_ALPHA (u_scheme t) &&
  opt_ok (u_user t) (forallb IS_USERINFO_CHAR) &&
  nonempty (u_host t) && forallb IS_HOST_CHAR (u_host t) &&
  opt_ok (u_port t) (fun x => forallb IS_NUM x && (dec_value 0 x <=? 65535)) &&
  match u_path t with
  | [] => bool_decide (u_frag t = None)
  | c :: cs => beq c "/" && forallb IS_URL_CHAR cs
  end &&
  opt_ok (u_query t) (forallb is_query_char) &&
  opt_ok (u_frag t) (forallb is_query_char).

(** The text a parsed URL gives for a field, if the field was found. *)
Definition url_text (buf : list byte) (u : parser_url) (f : url_field) : option (list byte) :=
  if has_field u f
  then let '(mkSpan o l) := get (field_data u) f in
       Some (take (Z.to_nat l) (drop (Z.to_nat o) buf))
  else None.

Definition part (t : url_parts) (f : url_field) : option (list byte) :=
  match f with
  | UF_SCHEMA => Some (u_scheme t)
  | UF_HOST => Some (u_host t)
  | UF_PORT => u_port t
  | UF_PATH => if nonempty (u_path t) then Some (u_path t) else None
  | UF_QUERY => u_query t
  | UF_FRAGMENT => u_frag t
  | UF_USERINFO => u_user t
  end.
Definition port_of (t : url_parts) : Z :=
  match u_port t with Some x => dec_value 0 x | None => 0 end.

Example ex_url : c_http_parser_parse_url (bytes "http://bob@a.com:80/p?q=1#f") 27 false c_http_parser_url_init
  = Ret (0, mkUrl 127 80 (mkSpans (mkSpan 0 4) (mkSpan 11 5) (mkSpan 17 2) (mkSpan 19 2) (mkSpan 22 3) (mkSpan 26 1) (mkSpan 7 3))).
Proof. vm_compute. reflexivity. Qed.

(** ** Lemmas: the whole parse of a printed URL *)

(** Character facts, by cases on the byte. *)
Ltac by_char := let c := fresh "c" in intros c; destruct c; intros H; (discriminate H || reflexivity).

Lemma alpha_start : ∀ c, IS_ALPHA c = true → parse_url_char s_req_spaces_before_url c = s_req_schema.
Proof. by_char. Qed.
Lemma alpha_stay : ∀ c, IS_ALPHA c = true → parse_url_char s_req_schema c = s_req_schema.
Proof. by_char. Qed.
Lemma user_start : ∀ c, IS_USERINFO_CHAR c = true → parse_url_char s_req_server_start c = s_req_server.
Proof. by_char. Qed.
Lemma user_stay : ∀ c, IS_USERINFO_CHAR c = true → parse_url_char s_req_server c = s_req_server.
Proof. by_char. Qed.
Lemma user_at : ∀ c, IS_USERINFO_CHAR c = true → parse_url_char s_req_server_with_at c = s_req_server.
Proof. by_char. Qed.
Lemma host_user : ∀ c, IS_HOST_CHAR c = true → IS_USERINFO_CHAR c = true.
Proof. by_char. Qed.
Lemma num_user : ∀ c, IS_NUM c = true → IS_USERINFO_CHAR c = true.
Proof. by_char. Qed.
Lemma slash_path : ∀ c, beq c "/" = true → parse_url_char s_req_server c = s_req_path.
Proof. by_char. Qed.
Lemma path_stay : ∀ c, IS_URL_CHAR c = true → parse_url_char s_req_path c = s_req_path.
Proof. by_char. Qed.
Lemma query_start : ∀ c, is_query_char c = true → parse_url_char s_req_query_string_start c = s_req_query_string.
Proof. by_char. Qed.
Lemma query_stay : ∀ c, is_query_char c = true → parse_url_char s_req_query_string c = s_req_query_string.
Proof. by_char. Qed.
Lemma frag_start : ∀ c, is_query_char c = true → parse_url_char s_req_fragment_start c = s_req_fragment.
Proof. by_char. Qed.
Lemma frag_stay : ∀ c, is_query_char c = true → parse_url_char s_req_fragment c = s_req_fragment.
Proof. by_char. Qed.

Lemma huser_start : ∀ c, IS_USERINFO_CHAR c = true → c_http_parse_host_char s_http_userinfo_start c = s_http_userinfo.
Proof. by_char. Qed.
Lemma huser_stay : ∀ c, IS_USERINFO_CHAR c = true → c_http_parse_host_char s_http_userinfo c = s_http_userinfo.
Proof. by_char. Qed.
Lemma hhost_start : ∀ c, IS_HOST_CHAR c = true → c_http_parse_host_char s_http_host_start c = s_http_host.
Proof. by_char. Qed.
Lemma hhost_stay : ∀ c, IS_HOST_CHAR c = true → c_http_parse_host_char s_http_host c = s_http_host.
Proof. by_char. Qed.
Lemma hport_start : ∀ c, IS_NUM c = true → c_http_parse_host_char s_http_host_port_start c = s_http_host_port.
Proof. by_char. Qed.
Lemma hport_stay : ∀ c, IS_NUM c = true → c_http_parse_host_char s_http_host_port c = s_http_host_port.
Proof. by_char. Qed.

Lemma forallb_impl {A} (p q : A → bool) l :
  (∀ x, p x = true → q x = true) → forallb p l = true → forallb q l = true.
Proof. intros H. rewrite !forallb_forall. eauto. Qed.

Lemma nonempty_cons {A} (l : list A) : nonempty l = true → ∃ x l', l = x :: l'.
Proof. destruct l; [done|]. eauto. Qed.

(** A field that may be absent. *)
Definition opt_record (u : parser_url) (f : url_field) (o : Z) (x : option (list byte)) : parser_url :=
  match x with Some x => record u f o (Zlen x) | None => u end.

(** One field of a single class of characters, entered from [s0]. *)
Lemma loop_class f s0 s (cls0 cls : byte → bool) seg buf p rest n old fa u :
  (∀ c, cls0 c = true → parse_url_char s0 c = s) → (∀ c, cls c = true → parse_url_char s c = s) →
  field_of_state s = NfField f → s ≠ s_req_server_with_at →
  match seg with [] => False | c :: cs => cls0 c = true ∧ forallb cls cs = true end →
  old ≠ Some f → at_pos buf p (seg ++ rest) → p + Zlen seg < 65536 →
  parse_url_loop (length seg + n) buf p s0 old fa u =
  parse_url_loop n buf (p + Zlen seg) s (Some f) fa (record u f p (Zlen seg)).
Proof.
  intros H0 H1 Hf Ha Hseg Hold Hp Hm. destruct seg as [|c cs]; [done|]. destruct Hseg as [Hc Hcs].
  rewrite (loop_field f (c :: cs) buf p rest s0 s false) by
    (done || by apply (url_path_enter f s0 s cls0 cls); rewrite ?bool_decide_false).
  by rewrite orb_false_r.
Qed.

Lemma class_split (cls : byte → bool) seg :
  nonempty seg = true → forallb cls seg = true →
  match seg with [] => False | c :: cs => cls c = true ∧ forallb cls cs = true end.
Proof. destruct seg; [done|]. cbn. intros _ ?%andb_true_iff. done. Qed.

Lemma frag_phase buf p s old fa u frag :
  parse_url_char s "#" = s_req_fragment_start → old ≠ Some UF_FRAGMENT →
  opt_ok frag (forallb is_query_char) = true →
  at_pos buf p (opt_bytes frag (fun x => bytes "#" ++ x)) →
  p + Zlen (opt_bytes frag (fun x => bytes "#" ++ x)) < 65536 →
  parse_url_loop (length (opt_bytes frag (fun x => bytes "#" ++ x))) buf p s old fa u =
  Ret (inr (fa, opt_record u UF_FRAGMENT (p + 1) frag)).
Proof.
  intros Hs Hold Hok Hp Hm. destruct frag as [x|]; [|done]. cbn [opt_bytes opt_ok opt_record] in *.
  apply andb_true_iff in Hok as [Hne Hx]. change (bytes "#" ++ x) with (x23 :: x) in *.
  cbn [length]. rewrite Zlen_cons in Hm.
  rewrite (loop_skip _ _ _ _ _ s_req_fragment_start _ _ _ _ Hp) by done.
  apply at_pos_step in Hp as [_ Hp]. rewrite <- (app_nil_r x) in Hp.
  replace (length x) with (length x + 0)%nat by lia.
  rewrite (loop_class UF_FRAGMENT _ s_req_fragment is_query_char is_query_char x _ _ [])
    by (done || lia || apply frag_start || apply frag_stay || by apply class_split). done.
Qed.

Lemma query_phase buf p s old fa u query frag :
  parse_url_char s "?" = s_req_query_string_start →
  (frag = None ∨ parse_url_char s "#" = s_req_fragment_start) →
  old ≠ Some UF_FRAGMENT → old ≠ Some UF_QUERY →
  opt_ok query (forallb is_query_char) = true → opt_ok frag (forallb is_query_char) = true →
  let qb := opt_bytes query (fun x => bytes "?" ++ x) in
  let fb := opt_bytes frag (fun x => bytes "#" ++ x) in
  at_pos buf p (qb ++ fb) → p + Zlen (qb ++ fb) < 65536 →
  parse_url_loop (length (qb ++ fb)) buf p s old fa u =
  Ret (inr (fa, opt_record (opt_record u UF_QUERY (p + 1) query) UF_FRAGMENT (p + Zlen qb + 1) frag)).
Proof.
  intros Hq Hf Ho1 Ho2 Hok1 Hok2 qb fb Hp Hm. destruct query as [x|]; cbn [opt_bytes opt_record] in *.
  - apply andb_true_iff in Hok1 as [Hne Hx].
    change (qb ++ fb) with (x3f :: (x ++ fb)) in *. cbn [length].
    change (Zlen qb) with (Zlen (x3f :: x)). rewrite Zlen_cons, Zlen_app in *.
    assert (0 ≤ Zlen fb) by (unfold Zlen; lia). assert (0 ≤ Zlen x) by (unfold Zlen; lia).
    rewrite (loop_skip _ _ _ _ _ s_req_query_string_start _ _ _ _ Hp) by done.
    apply at_pos_step in Hp as [_ Hp]. rewrite length_app.
    rewrite (loop_class UF_QUERY _ s_req_query_string is_query_char is_query_char x _ _ fb)
      by (done || lia || apply query_start || apply query_stay || by apply class_split).
    apply at_pos_app in Hp.
    unfold fb. rewrite frag_phase by (done || unfold fb in *; lia).
    by replace (p + (1 + Zlen x) + 1) with (p + 1 + Zlen x + 1) by lia.
  - change (qb ++ fb) with fb in *. change (Zlen qb) with 0. rewrite Z.add_0_r.
    destruct Hf as [->|Hf]; [done|]. by apply frag_phase.
Qed.

Definition opt_path (pa : list byte) : option (list byte) := if nonempty pa then Some pa else None.

Lemma path_phase buf p fa u pa query frag :
  match pa with
  | [] => bool_decide (frag = None)
  | c :: cs => beq c "/" && forallb IS_URL_CHAR cs
  end = true →
  opt_ok query (forallb is_query_char) = true → opt_ok frag (forallb is_query_char) = true →
  let qb := opt_bytes query (fun x => bytes "?" ++ x) in
  let fb := opt_bytes frag (fun x => bytes "#" ++ x) in
  at_pos buf p (pa ++ qb ++ fb) → p + Zlen (pa ++ qb ++ fb) < 65536 →
  parse_url_loop (length (pa ++ qb ++ fb)) buf p s_req_server (Some UF_HOST) fa u =
  Ret (inr (fa, opt_record (opt_record (opt_record u UF_PATH p (opt_path pa))
                  UF_QUERY (p + Zlen pa + 1) query) UF_FRAGMENT (p + Zlen pa + Zlen qb + 1) frag)).
Proof.
  intros Hpa Hok1 Hok2 qb fb Hp Hm. destruct pa as [|c cs].
  - apply bool_decide_eq_true in Hpa. change (Zlen (@nil byte)) with 0. rewrite Z.add_0_r.
    apply query_phase; auto.
  - apply andb_true_iff in Hpa as [Hc Hcs]. rewrite Zlen_app in Hm.
    assert (0 ≤ Zlen (qb ++ fb)) by (unfold Zlen; lia). rewrite length_app.
    rewrite (loop_class UF_PATH _ s_req_path (fun c => beq c "/") IS_URL_CHAR (c :: cs) _ _ (qb ++ fb))
      by (done || lia || apply slash_path || apply path_stay).
    apply at_pos_app in Hp. unfold qb, fb. rewrite query_phase; auto; fold qb fb; lia.
Qed.

(** The authority is one run of the host field. *)
Lemma run_user s seg :
  s = s_req_server_start ∨ s = s_req_server ∨ s = s_req_server_with_at →
  nonempty seg = true → forallb IS_USERINFO_CHAR seg = true →
  url_path UF_HOST s seg = Some (s_req_server, false).
Proof.
  intros Hs Hne Hseg. apply (class_split IS_USERINFO_CHAR) in Hne; [|done].
  destruct seg as [|c cs]; [done|]. destruct Hne as [Hc Hcs].
  apply (url_path_enter UF_HOST s s_req_server IS_USERINFO_CHAR IS_USERINFO_CHAR); try done;
    [|apply user_stay].
  destruct Hs as [->|[->| ->]]; auto using user_start, user_stay, user_at.
Qed.

Lemma run_authority t :
  parts_ok t = true →
  url_path UF_HOST s_req_server_start (print_authority t) =
  Some (s_req_server, bool_decide (is_Some (u_user t))).
Proof.
  unfold parts_ok. rewrite !andb_true_iff. intros ((((((((_ & _) & Hu) & Hhn) & Hh) & Hpo) & _) & _) & _).
  assert (∀ s, s = s_req_server_start ∨ s = s_req_server_with_at →
    url_path UF_HOST s (u_host t ++ opt_bytes (u_port t) (fun x => bytes ":" ++ x)) =
    Some (s_req_server, false)) as Htail.
  { intros s Hs.
    assert (forallb IS_USERINFO_CHAR (u_host t ++ opt_bytes (u_port t) (fun x => bytes ":" ++ x)) = true).
    { rewrite forallb_app, (forallb_impl _ _ _ host_user) by done.
      destruct (u_port t) as [x|]; [|done]. cbn in Hpo |- *.
      apply andb_true_iff in Hpo as [_ [Hx _]%andb_true_iff]. by apply (forallb_impl _ _ _ num_user). }
    apply run_user; [tauto| |done]. by destruct (u_host t). }
  unfold print_authority. destruct (u_user t) as [x|]; cbn [opt_bytes].
  - apply andb_true_iff in Hu as [Hne Hx]. rewrite <- app_assoc.
    rewrite (url_path_app _ _ s_req_server s_req_server false true); [done| |].
    + apply run_user; auto.
    + change (bytes "@" ++ ?l) with (x40 :: l).
      assert (parse_url_char s_req_server x40 = s_req_server_with_at) as Hat by done.
      cbn [url_path]. rewrite Hat. cbn [field_of_state]. rewrite decide_True by done.
      by rewrite Htail by auto.
  - apply Htail. auto.
Qed.

(** The first loop on a printed URL. *)
Definition oa (t : url_parts) : Z := Zlen (u_scheme t) + 3.
Definition op (t : url_parts) : Z := oa t + Zlen (print_authority t).
Definition oq (t : url_parts) : Z := op t + Zlen (u_path t) + 1.
Definition of_ (t : url_parts) : Z :=
  op t + Zlen (u_path t) + Zlen (opt_bytes (u_query t) (fun x => bytes "?" ++ x)) + 1.

Definition after_loop (t : url_parts) (u : parser_url) : parser_url :=
  opt_record (opt_record (opt_record
    (record (record u UF_SCHEMA 0 (Zlen (u_scheme t))) UF_HOST (oa t) (Zlen (print_authority t)))
    UF_PATH (op t) (opt_path (u_path t))) UF_QUERY (oq t) (u_query t)) UF_FRAGMENT (of_ t) (u_frag t).

Lemma authority_nonempty t : parts_ok t = true → print_authority t ≠ [].
Proof.
  unfold parts_ok. rewrite !andb_true_iff. intros ((((((((_ & _) & _) & Hhn) & _) & _) & _) & _) & _).
  unfold print_authority. intros [_ [He _]%app_eq_nil]%app_eq_nil. by rewrite He in Hhn.
Qed.

Lemma first_loop t u :
  parts_ok t = true → Zlen (print_url t) < 65536 →
  parse_url_loop (length (print_url t)) (print_url t) 0 s_req_spaces_before_url None false u =
  Ret (inr (bool_decide (is_Some (u_user t)), after_loop t u)).
Proof.
  intros Hok Hm. pose proof (run_authority t Hok) as Hra. pose proof (authority_nonempty t Hok) as Hne.
  unfold parts_ok in Hok. rewrite !andb_true_iff in Hok.
  destruct Hok as ((((((((Hsn & Hsc) & _) & _) & _) & _) & Hpa) & Hq) & Hf).
  assert (at_pos (print_url t) 0 (print_url t)) as Hp by done. revert Hp Hm.
  generalize (print_url t) at 1 5. intros buf. unfold print_url. intros Hp Hm.
  set (rest := u_path t ++ _) in *. rewrite !Zlen_app in Hm.
  change (Zlen (bytes "://")) with 3 in Hm.
  assert (0 ≤ Zlen rest ∧ 0 ≤ Zlen (print_authority t) ∧ 0 ≤ Zlen (u_scheme t)) by (unfold Zlen; lia).
  rewrite length_app.
  rewrite (loop_class UF_SCHEMA _ s_req_schema IS_ALPHA IS_ALPHA (u_scheme t) _ _
             (bytes "://" ++ print_authority t ++ rest))
    by (done || lia || apply alpha_start || apply alpha_stay || by apply class_split).
  apply at_pos_app in Hp. rewrite Z.add_0_l in *.
  change (bytes "://" ++ ?l) with (x3a :: x2f :: x2f :: l) in *. cbn [length].
  rewrite (loop_skip _ _ _ _ _ s_req_schema_slash _ _ _ _ Hp) by done.
  apply at_pos_step in Hp as [_ Hp].
  rewrite (loop_skip _ _ _ _ _ s_req_schema_slash_slash _ _ _ _ Hp) by done.
  apply at_pos_step in Hp as [_ Hp].
  rewrite (loop_skip _ _ _ _ _ s_req_server_start _ _ _ _ Hp) by done.
  apply at_pos_step in Hp as [_ Hp].
  replace (Zlen (u_scheme t) + 1 + 1 + 1) with (oa t) in * by (unfold oa; lia).
  rewrite length_app, (loop_field UF_HOST (print_authority t) buf (oa t) rest
    s_req_server_start s_req_server (bool_decide (is_Some (u_user t))))
    by (done || (unfold oa; lia)).
  apply at_pos_app in Hp. unfold rest. rewrite path_phase; [done..|].
  fold rest. unfold oa. lia.
Qed.

(** The second loop, on the authority. *)
Definition oh (t : url_parts) : Z := oa t + Zlen (opt_bytes (u_user t) (fun x => x ++ bytes "@")).
Definition after_host (t : url_parts) (u : parser_url) : parser_url :=
  opt_record
    (upd (opt_record (upd u UF_HOST (mkSpan (oa t) 0)) UF_USERINFO (oa t) (u_user t))
       UF_HOST (mkSpan (oh t) (Zlen (u_host t))))
    UF_PORT (oh t + Zlen (u_host t) + 1) (u_port t).

Lemma started_record u f p :
  0 ≤ p < 65536 → incr_len (mark_set (set_len (set_off u f p) f 0) f) f = upd (mark_set u f) f (mkSpan p 1).
Proof.
  intros. rewrite set_off_len, u16_small by lia.
  change (mark_set (upd u f (mkSpan p 0)) f) with (upd (mark_set u f) f (mkSpan p 0)).
  by rewrite incr_upd.
Qed.

Lemma host_first u p :
  0 ≤ p < 65536 → len (get (field_data u) UF_HOST) = 0 →
  incr_len (set_off u UF_HOST p) UF_HOST = upd u UF_HOST (mkSpan p 1).
Proof. intros Hp Hl. unfold set_off. rewrite Hl, u16_small, incr_upd by lia. done. Qed.

(** Host and port, from [s_http_host_start]. *)
Lemma host_port_phase t u buf p rest :
  nonempty (u_host t) = true → forallb IS_HOST_CHAR (u_host t) = true →
  opt_ok (u_port t) (fun x => forallb IS_NUM x && (dec_value 0 x <=? 65535)) = true →
  let pb := opt_bytes (u_port t) (fun x => bytes ":" ++ x) in
  at_pos buf p (u_host t ++ pb ++ rest) → p + Zlen (u_host t ++ pb) < 65536 →
  len (get (field_data u) UF_HOST) = 0 →
  ∃ s, parse_host_loop (length (u_host t ++ pb)) buf p s_http_host_start u =
       Ret (inr (s, opt_record (upd u UF_HOST (mkSpan p (Zlen (u_host t))))
                      UF_PORT (p + Zlen (u_host t) + 1) (u_port t))) ∧ host_end_bad s = false.
Proof.
  intros Hhn Hh Hpo pb Hp Hm Hl. rewrite Zlen_app in Hm. rewrite length_app.
  apply (class_split IS_HOST_CHAR) in Hhn; [|done].
  destruct (u_host t) as [|c cs]; [done|]. destruct Hhn as [Hc Hcs].
  assert (0 ≤ p) by apply Hp. assert (0 ≤ Zlen pb ∧ 0 ≤ Zlen cs) by (unfold Zlen; lia).
  rewrite Zlen_cons in Hm.
  rewrite (host_loop_field s_http_host_start s_http_host UF_HOST IS_HOST_CHAR IS_HOST_CHAR c cs
             buf p (pb ++ rest) _ u u)
    by (done || lia || apply hhost_start || apply hhost_stay || (cbn; apply host_first; lia)).
  apply at_pos_app in Hp. destruct (u_port t) as [x|]; [|by eexists].
  apply andb_true_iff in Hpo as [Hne [Hx _]%andb_true_iff].
  apply (class_split IS_NUM) in Hne; [|done]. destruct x as [|d ds]; [done|].
  destruct Hne as [Hd Hds]. assert (0 ≤ Zlen ds) by (unfold Zlen; lia). unfold pb in *. cbn [opt_bytes] in *.
  change (bytes ":" ++ d :: ds) with (x3a :: d :: ds) in *. rewrite !Zlen_cons in *. cbn [length].
  rewrite <- app_comm_cons in Hp.
  rewrite (host_loop_delim _ _ s_http_host_port_start _ _ _ _ _ Hp) by done.
  apply at_pos_step in Hp as [_ Hp].
  replace (S (length ds)) with (length (d :: ds) + 0)%nat by (cbn; lia).
  set (q := p + (1 + Zlen cs) + 1) in *. set (v := upd u UF_HOST _).
  rewrite (host_loop_field _ s_http_host_port UF_PORT IS_NUM IS_NUM d ds buf q rest 0 v
    (mark_set v UF_PORT))
    by (done || lia || apply hport_start || apply hport_stay || (cbn -[v]; apply started_record; lia)).
  exists s_http_host_port. split; [|done]. cbn [parse_host_loop opt_record]. by rewrite !Zlen_cons.
Qed.

Lemma host_phase t u buf rest :
  parts_ok t = true → at_pos buf (oa t) (print_authority t ++ rest) →
  oa t + Zlen (print_authority t) < 65536 → has_field u UF_HOST = true →
  get (field_data u) UF_HOST = mkSpan (oa t) (Zlen (print_authority t)) →
  c_http_parse_host buf u (bool_decide (is_Some (u_user t))) = Ret (0, after_host t u).
Proof.
  intros Hok Hp Hm Hhas Hg. unfold parts_ok in Hok. rewrite !andb_true_iff in Hok.
  destruct Hok as ((((((((Hsn & Hsc) & Hu) & Hhn) & Hh) & Hpo) & _) & _) & _).
  unfold c_http_parse_host. rewrite Hg, Hhas. cbn [c_assert]. rewrite bind_ret_l.
  replace (Z.to_nat (oa t + Zlen (print_authority t) - oa t)) with (length (print_authority t))
    by (unfold Zlen; lia).
  assert (0 ≤ oa t) by apply Hp.
  unfold set_len. rewrite Hg. cbn [off]. unfold after_host, oh. unfold print_authority in *.
  set (pb := opt_bytes (u_port t) _) in *.
  assert (0 ≤ Zlen (u_host t ++ pb)) by (unfold Zlen; lia).
  destruct (u_user t) as [x|]; cbn [opt_bytes opt_record] in *.
  - rewrite bool_decide_true by eauto. apply andb_true_iff in Hu as [Hne Hx].
    apply (class_split IS_USERINFO_CHAR) in Hne; [|done]. destruct x as [|c cs]; [done|].
    destruct Hne as [Hc Hcs]. rewrite <- !app_assoc in *.
    assert (0 ≤ Zlen cs) by (unfold Zlen; lia). rewrite !Zlen_app, Zlen_cons in *.
    change (Zlen (bytes "@")) with 1 in *.
    set (v := upd u UF_HOST _). rewrite length_app.
    rewrite (host_loop_field _ s_http_userinfo UF_USERINFO IS_USERINFO_CHAR IS_USERINFO_CHAR c cs
      buf (oa t) (bytes "@" ++ u_host t ++ pb ++ rest) _ v (mark_set v UF_USERINFO))
      by (done || lia || apply huser_start || apply huser_stay ||
          (cbn -[v]; apply started_record; lia)).
    apply at_pos_app in Hp. change (bytes "@" ++ ?l) with (x40 :: l) in *. cbn [length].
    rewrite (host_loop_delim _ _ s_http_host_start _ _ _ _ _ Hp) by done.
    apply at_pos_step in Hp as [_ Hp]. rewrite Zlen_cons in *.
    destruct (host_port_phase t (upd (mark_set v UF_USERINFO) UF_USERINFO (mkSpan (oa t) (1 + Zlen cs)))
      buf (oa t + (1 + Zlen cs) + 1) rest) as (s & Hr & Hs); try done.
    { rewrite Zlen_app. fold pb. lia. }
    { cbn [field_data upd mark_set v]. rewrite get_put, decide_False, get_put_eq by done. done. }
    fold pb in Hr. rewrite Hr, bind_ret_l, Hs. do 3 f_equal; [|lia].
    f_equal. f_equal. lia.
  - rewrite bool_decide_false by (by intros [? [=]]). rewrite app_nil_l in *.
    destruct (host_port_phase t (upd u UF_HOST (mkSpan (oa t) 0)) buf (oa t) rest)
      as (s & Hr & Hs); try done.
    { by rewrite app_assoc. }
    { cbn [field_data upd]. by rewrite get_put_eq. }
    fold pb in Hr. change (Zlen (@nil byte)) with 0. rewrite Z.add_0_r.
    by rewrite Hr, bind_ret_l, Hs.
Qed.

(** Where the parts of a printed URL are. *)
Lemma at_scheme t : at_pos (print_url t) 0
  (u_scheme t ++ bytes "://" ++ print_authority t ++ u_path t ++
   opt_bytes (u_query t) (fun x => bytes "?" ++ x) ++ opt_bytes (u_frag t) (fun x => bytes "#" ++ x)).
Proof. done. Qed.

Lemma at_authority t : at_pos (print_url t) (oa t)
  (print_authority t ++ u_path t ++
   opt_bytes (u_query t) (fun x => bytes "?" ++ x) ++ opt_bytes (u_frag t) (fun x => bytes "#" ++ x)).
Proof. pose proof (at_scheme t) as H. by apply at_pos_app, at_pos_app in H. Qed.

Lemma at_path t : at_pos (print_url t) (op t)
  (u_path t ++ opt_bytes (u_query t) (fun x => bytes "?" ++ x) ++
   opt_bytes (u_frag t) (fun x => bytes "#" ++ x)).
Proof. pose proof (at_authority t) as H. by apply at_pos_app in H. Qed.

Lemma at_query t x : u_query t = Some x → ∃ r, at_pos (print_url t) (oq t) (x ++ r).
Proof.
  intros Hx. pose proof (at_path t) as H. apply at_pos_app in H. rewrite Hx in H.
  cbn [opt_bytes] in H. rewrite <- app_assoc in H. apply at_pos_app in H. eauto.
Qed.

Lemma at_frag t x : u_frag t = Some x → at_pos (print_url t) (of_ t) (x ++ []).
Proof.
  intros Hx. pose proof (at_path t) as H. rewrite Hx in H. do 2 apply at_pos_app in H.
  cbn [opt_bytes] in H. apply at_pos_app in H. by rewrite app_nil_r.
Qed.

Lemma at_host t : ∃ r, at_pos (print_url t) (oh t)
  (u_host t ++ opt_bytes (u_port t) (fun x => bytes ":" ++ x) ++ r).
Proof.
  pose proof (at_authority t) as H. unfold print_authority in H. rewrite <- !app_assoc in H.
  apply at_pos_app in H. eauto.
Qed.

Lemma at_user t x : u_user t = Some x → ∃ r, at_pos (print_url t) (oa t) (x ++ r).
Proof.
  intros Hx. pose proof (at_authority t) as H. unfold print_authority in H. rewrite Hx in H.
  cbn [opt_bytes] in H. rewrite <- !app_assoc in H. eauto.
Qed.

Lemma at_port t x : u_port t = Some x →
  ∃ r, at_pos (print_url t) (oh t + Zlen (u_host t) + 1) (x ++ r).
Proof.
  intros Hx. destruct (at_host t) as [r H]. rewrite Hx in H. apply at_pos_app in H.
  cbn [opt_bytes] in H. rewrite <- app_assoc in H. apply at_pos_app in H. eauto.
Qed.

(** What the recorded structure holds after both loops. *)
Definition final (t : url_parts) (d : spans) : parser_url :=
  after_host t (after_loop t (mkUrl 0 0 d)).

Lemma opt_record_has u f g o x :
  has_field (opt_record u f o x) g = (bool_decide (f = g) && bool_decide (is_Some x)) || has_field u g.
Proof.
  destruct x; cbn [opt_record]; rewrite ?record_has.
  - by rewrite (bool_decide_true (is_Some _)) by eauto; rewrite andb_true_r.
  - by rewrite (bool_decide_false (is_Some _)) by (by intros [? [=]]); rewrite andb_false_r.
Qed.

Lemma upd_has u f sp g : has_field (upd u f sp) g = has_field u g.
Proof. done. Qed.

Lemma opt_record_get u f g o x :
  get (field_data (opt_record u f o x)) g =
  match x with
  | Some x => if decide (g = f) then mkSpan o (Zlen x) else get (field_data u) g
  | None => get (field_data u) g
  end.
Proof. destruct x; [apply record_get|done]. Qed.

Lemma upd_get u f sp g :
  get (field_data (upd u f sp)) g = if decide (g = f) then sp else get (field_data u) g.
Proof. apply get_put. Qed.

Lemma record_text buf u f o x rest :
  has_field u f = true → get (field_data u) f = mkSpan o (Zlen x) → at_pos buf o (x ++ rest) →
  url_text buf u f = Some x.
Proof. intros Hh Hg Hp. unfold url_text. rewrite Hh, Hg. f_equal. by eapply at_pos_slice. Qed.

Lemma absent_text buf u f : has_field u f = false → url_text buf u f = None.
Proof. intros Hh. unfold url_text. by rewrite Hh. Qed.

Ltac url_simp :=
  unfold final, after_host, after_loop;
  repeat (rewrite ?opt_record_has, ?record_has, ?upd_has, ?opt_record_get, ?record_get, ?upd_get).

Lemma final_text t d f : parts_ok t = true → url_text (print_url t) (final t d) f = part t f.
Proof.
  intros Hok. destruct f; cbn [part].
  - eapply record_text; [by url_simp|url_simp|apply at_scheme]. cbn.
    by destruct (u_port t), (u_user t), (u_frag t), (u_query t), (opt_path (u_path t)).
  - destruct (at_host t) as [r Hr]. eapply record_text; [by url_simp|url_simp|apply Hr].
    cbn. by destruct (u_port t).
  - destruct (u_port t) as [x|] eqn:E.
    + destruct (at_port t x E) as [r Hr]. eapply record_text; [url_simp|url_simp|apply Hr];
        rewrite E; done.
    + apply absent_text. url_simp. by rewrite E.
  - destruct (u_path t) as [|c cs] eqn:E.
    + apply absent_text. url_simp. by rewrite E.
    + pose proof (at_path t) as Hr. rewrite E in Hr. eapply record_text; [url_simp|url_simp|apply Hr];
        rewrite E; [done|]. cbn. by destruct (u_port t), (u_user t), (u_frag t), (u_query t).
  - destruct (u_query t) as [x|] eqn:E.
    + destruct (at_query t x E) as [r Hr]. eapply record_text; [url_simp|url_simp|apply Hr];
        rewrite E; [done|]. cbn. by destruct (u_port t), (u_user t), (u_frag t).
    + apply absent_text. url_simp. by rewrite E.
  - destruct (u_frag t) as [x|] eqn:E.
    + pose proof (at_frag t x E) as Hr. eapply record_text; [url_simp|url_simp|apply Hr];
        rewrite E; [done|]. cbn. by destruct (u_port t), (u_user t).
    + apply absent_text. url_simp. by rewrite E.
  - destruct (u_user t) as [x|] eqn:E.
    + destruct (at_user t x E) as [r Hr]. eapply record_text; [url_simp|url_simp|apply Hr];
        rewrite E; [done|]. cbn. by destruct (u_port t).
    + apply absent_text. url_simp. by rewrite E.
Qed.

Lemma final_absent t d f : part t f = None → get (field_data (final t d)) f = get d f.
Proof.
  destruct f; cbn [part]; try done; url_simp; intros E.
  - by rewrite E; destruct (u_user t), (u_frag t), (u_query t), (opt_path (u_path t)).
  - change (opt_path (u_path t)) with (if nonempty (u_path t) then Some (u_path t) else None).
    by rewrite E; destruct (u_port t), (u_user t), (u_frag t), (u_query t).
  - by rewrite E; destruct (u_port t), (u_user t), (u_frag t), (opt_path (u_path t)).
  - by rewrite E; destruct (u_port t), (u_user t), (u_query t), (opt_path (u_path t)).
  - by rewrite E; destruct (u_port t), (u_frag t), (u_query t), (opt_path (u_path t)).
Qed.

Definition with_port (t : url_parts) (u : parser_url) : parser_url :=
  match u_port t with Some x => set_port u (dec_value 0 x) | None => u end.

Lemma opt_record_port u f o x : port (opt_record u f o x) = port u.
Proof. by destruct x. Qed.

Lemma parts_port t x : parts_ok t = true → u_port t = Some x →
  x ≠ [] ∧ forallb IS_NUM x = true ∧ dec_value 0 x ≤ 65535.
Proof.
  unfold parts_ok. rewrite !andb_true_iff. intros ((((_ & Hp) & _) & _) & _) E.
  rewrite E in Hp. cbn [opt_ok] in Hp. rewrite !andb_true_iff in Hp. destruct Hp as (? & ? & ?).
  bool_prop. split_and!; [by destruct x|done..].
Qed.

Lemma at_pos_le buf p x r : x ≠ [] → at_pos buf p (x ++ r) → p + Zlen x ≤ Zlen buf.
Proof.
  intros Hx [Hp Hd]. apply (f_equal length) in Hd. rewrite length_app, length_drop in Hd.
  assert (length x ≠ 0)%nat by (by destruct x). unfold Zlen. lia.
Qed.

Lemma parse_printed t u :
  parts_ok t = true → Zlen (print_url t) < 65536 →
  c_http_parser_parse_url (print_url t) (Zlen (print_url t)) false u =
  Ret (0, with_port t (final t (field_data u))).
Proof.
  intros Hok Hm. pose proof (first_loop t (mkUrl 0 0 (field_data u)) Hok Hm) as Hl.
  assert (Zlen (print_url t) = oa t + Zlen (print_authority t) + Zlen (u_path t ++
    opt_bytes (u_query t) (fun x => bytes "?" ++ x) ++ opt_bytes (u_frag t) (fun x => bytes "#" ++ x)))
    as Hlen by (unfold print_url; rewrite !Zlen_app; change (Zlen (bytes "://")) with 3; unfold oa; lia).
  assert (∀ {A} (l : list A), 0 ≤ Zlen l) as Hnn by (intros; unfold Zlen; lia).
  pose proof (Hnn _ (u_path t ++
    opt_bytes (u_query t) (fun x => bytes "?" ++ x) ++ opt_bytes (u_frag t) (fun x => bytes "#" ++ x))).
  unfold c_http_parser_parse_url.
  rewrite (proj2 (Z.eqb_neq _ _)).
  2:{ pose proof (Hnn _ (print_authority t)). pose proof (Hnn _ (u_scheme t)). unfold oa in *. lia. }
  replace (Z.to_nat (Zlen (print_url t))) with (length (print_url t)) by (unfold Zlen; lia).
  rewrite Hl, bind_ret_l. set (u1 := after_loop t _).
  assert (has_field u1 UF_HOST = true) as Hh by (by unfold u1; url_simp). rewrite Hh.
  rewrite andb_false_r. rewrite (host_phase t u1 _ _ Hok (at_authority t)); [|lia|done|].
  2:{ unfold u1. url_simp. by destruct (u_frag t), (u_query t), (opt_path (u_path t)). }
  rewrite bind_ret_l. cbn [negb Z.eqb andb]. change (after_host t u1) with (final t (field_data u)).
  pose proof (final_text t (field_data u) UF_PORT Hok) as Hpt. cbn [part] in Hpt.
  unfold parse_port, with_port. destruct (u_port t) as [x|] eqn:E.
  - assert (has_field (final t (field_data u)) UF_PORT = true) as Hp by (url_simp; by rewrite E).
    rewrite Hp. replace (get (field_data (final t (field_data u))) UF_PORT)
      with (mkSpan (oh t + Zlen (u_host t) + 1) (Zlen x)) by (url_simp; by rewrite E).
    destruct (at_port t x E) as [r Hr].
    destruct (parts_port t x Hok E) as (Hne & Hnum & Hval).
    rewrite (proj2 (Z.leb_le _ _)) by (by eapply at_pos_le).
    cbn [c_assert]. rewrite bind_ret_l.
    replace (Z.to_nat (Zlen x)) with (length x) by (unfold Zlen; lia).
    by rewrite (port_loop_value x _ _ r) by (done || lia).
  - assert (has_field (final t (field_data u)) UF_PORT = false) as -> by (url_simp; by rewrite E).
    done.
Qed.

Definition text_of (t : url_parts) (f : url_field) : list byte := default [] (part t f).

Lemma with_port_get t u f : get (field_data (with_port t u)) f = get (field_data u) f.
Proof. unfold with_port. by destruct (u_port t). Qed.

Lemma url_text_inv buf u f x :
  url_text buf u f = Some x →
  ∃ o l, get (field_data u) f = mkSpan o l ∧ x = take (Z.to_nat l) (drop (Z.to_nat o) buf).
Proof.
  unfold url_text. destruct (has_field u f); [|done].
  destruct (get (field_data u) f) as [o l]. intros [= <-]. eauto.
Qed.

Lemma component_ok t f :
  parts_ok t = true → Zlen (print_url t) < 65536 → (length (text_of t f) < 512)%nat →
  ∃ cb, url_component (print_url t)
          (with_port t (final t (field_data c_http_parser_url_init))) f = Ret cb ∧
        cb_ok cb ∧ cb_bytes cb = init (text_of t f).
Proof.
  intros Hok Hm Hl. unfold url_component. rewrite with_port_get.
  destruct (part t f) as [x|] eqn:E.
  - pose proof (final_text t (field_data c_http_parser_url_init) f Hok) as Ht. rewrite E in Ht.
    pose proof (parse_url_safe true (print_url t) (Zlen (print_url t)) false c_http_parser_url_init)
      as Hs. rewrite (parse_printed t) in Hs by done.
    destruct Hs as (rc & u' & Heq & _ & Hin); [unfold Zlen; lia|by intros _ []|done|].
    assert (u' = with_port t (final t (field_data c_http_parser_url_init))) as -> by congruence.
    destruct (Hin f) as (Ho & Hl' & Hol); [auto|]. rewrite with_port_get in Ho, Hl', Hol.
    destruct (url_text_inv _ _ _ _ Ht) as (o & l & Hg & Hx). rewrite Hg in *. cbn [off len] in Ho, Hl', Hol.
    unfold text_of in *. rewrite E in *. change (default [] (Some x)) with x in *.
    assert (l = Zlen x) as Hlx.
    { subst x. unfold Zlen in *. rewrite length_take, length_drop. lia. }
    change Cbuffer_new with (Ret (mkCbuffer (malloc_block 256) 0 256 0 common_strategy)).
    rewrite bind_ret_l. destruct (l =? 0) eqn:E0; bool_prop.
    + assert (x = []) as -> by (destruct x; [done|unfold Zlen in *; cbn in *; lia]).
      eexists. split; [done|]. split; [apply new_ok|done].
    + rewrite mem_load_ok by (rewrite ?msize_init; unfold Zlen in *; lia). rewrite bind_ret_l.
      unfold init. rewrite <- fmap_drop, <- fmap_take, <- Hx, Hlx.
      destruct (new_append_ok x) as (cb & ? & ? & ? & _); [done| |by eauto].
      intros ->. by rewrite Hlx in E0.
  - rewrite final_absent by done. unfold text_of. rewrite E.
    replace (get (field_data c_http_parser_url_init) f) with (mkSpan 0 0) by (by destruct f).
    eexists. split; [done|]. split; [apply new_ok|done].
Qed.

(** ** Properties *)

(** C7: Round trip of the URL parser: for every absolute URL built from a scheme, an
    optional user, a host, an optional port of value at most 65535, a path, an
    optional query and an optional fragment of legal characters, shorter than
    65536 bytes, the parser succeeds whatever the structure held before, finds
    exactly the fields present, the recorded span of each is exactly the text of
    that part, and the numeric port is the decimal value of the port text. *)
Theorem url_parse_print_roundtrip t u :
  parts_ok t = true → Zlen (print_url t) < 65536 →
  ∃ u', c_http_parser_parse_url (print_url t) (Zlen (print_url t)) false u = Ret (0, u') ∧
    (∀ f, url_text (print_url t) u' f = part t f) ∧ port u' = port_of t.
Proof.
  intros Hok Hm. eexists. split; [by apply parse_printed|]. split.
  - intros f. rewrite <- (final_text t (field_data u) f Hok). unfold with_port.
    by destruct (u_port t).
  - unfold with_port, port_of. destruct (u_port t) as [x|] eqn:E.
    + destruct (parts_port t x Hok E) as (_ & Hn & Hv).
      pose proof (dec_value_le x 0 Hn). cbn. apply u16_small. lia.
    + unfold final, after_host, after_loop. rewrite opt_record_port. cbn [port upd].
      rewrite opt_record_port. cbn [port upd]. by rewrite !opt_record_port.
Qed.

(** C12: Memory safety of the URL parser on every input: for any bytes, any length not
    beyond the buffer, request or CONNECT form, the parser terminates with 0 or 1,
    never reads outside the buffer, never reaches the unexpected-state or port
    assertions, and every span it has recorded lies inside the buffer (also for
    URLs so long that 16-bit offsets wrap). *)
Theorem url_parse_total buf buflen is_connect u :
  0 ≤ buflen ≤ Zlen buf → field_set u = 0 →
  ∃ rc u', c_http_parser_parse_url buf buflen is_connect u = Ret (rc, u') ∧
    (rc = 0 ∨ rc = 1) ∧
    (∀ f, has_field u' f = true →
       let sp := get (field_data u') f in 0 ≤ off sp ∧ 0 ≤ len sp ∧ off sp + len sp ≤ buflen).
Proof.
  intros Hb H0. destruct (parse_url_safe false buf buflen is_connect u) as (rc & u' & Hr & Hrc & Hs);
    [done..|]. exists rc, u'. split_and!; [done..|]. intros f Hf. apply Hs. auto.
Qed.

(** [Url_new] splits a well-formed absolute URL whose parts are shorter than 512
    bytes into seven buffers that hold exactly the parts (an absent part gives an
    empty buffer). *)
Theorem Url_new_splits t :
  parts_ok t = true → Zlen (print_url t) < 65536 →
  (∀ f, (length (text_of t f) < 512)%nat) →
  ∃ r, Url_new (print_url t) = Ret r ∧
    cb_bytes (scheme r) = init (text_of t UF_SCHEMA) ∧
    cb_bytes (user_info r) = init (text_of t UF_USERINFO) ∧
    cb_bytes (host r) = init (text_of t UF_HOST) ∧
    cb_bytes (path r) = init (text_of t UF_PATH) ∧
    cb_bytes (uport r) = init (text_of t UF_PORT) ∧
    cb_bytes (fragement r) = init (text_of t UF_FRAGMENT) ∧
    cb_bytes (query r) = init (text_of t UF_QUERY).
Proof.
  intros Hok Hm Hl. unfold Url_new. fold (Zlen (print_url t)).
  rewrite (parse_printed t) by done. rewrite bind_ret_l.
  destruct (component_ok t UF_SCHEMA) as (c1 & -> & _ & H1); [done..|].
  destruct (component_ok t UF_USERINFO) as (c2 & -> & _ & H2); [done..|].
  destruct (component_ok t UF_HOST) as (c3 & -> & _ & H3); [done..|].
  destruct (component_ok t UF_PATH) as (c4 & -> & _ & H4); [done..|].
  destruct (component_ok t UF_PORT) as (c5 & -> & _ & H5); [done..|].
  destruct (component_ok t UF_FRAGMENT) as (c6 & -> & _ & H6); [done..|].
  destruct (component_ok t UF_QUERY) as (c7 & -> & _ & H7); [done..|].
  eexists. split; [done|]. by split_and!.
Qed.

(** ** Witnesses *)

Definition ex_parts : url_parts :=
  mkParts (bytes "http") (Some (bytes "bob")) (bytes "a.com") (Some (bytes "8080"))
    (bytes "/p/q") (Some (bytes "k=v?")) (Some (bytes "top")).

Lemma url_parse_print_roundtrip_witness :
  ∃ u', c_http_parser_parse_url (bytes "http://bob@a.com:8080/p/q?k=v?#top") 34 false
          c_http_parser_url_init = Ret (0, u') ∧
    (∀ f, url_text (bytes "http://bob@a.com:8080/p/q?k=v?#top") u' f = part ex_parts f) ∧
    port u' = 8080.
Proof. apply (url_parse_print_roundtrip ex_parts); reflexivity. Defined.

Lemma url_parse_total_witness :
  ∃ rc u', c_http_parser_parse_url (bytes "http://[::1%lo]:99999/") 22 false
    c_http_parser_url_init = Ret (rc, u') ∧ (rc = 0 ∨ rc = 1) ∧
    (∀ f, has_field u' f = true →
       let sp := get (field_data u') f in 0 ≤ off sp ∧ 0 ≤ len sp ∧ off sp + len sp ≤ 22).
Proof. apply url_parse_total; [split; vm_compute; discriminate|reflexivity]. Defined.

Lemma Url_new_splits_witness :
  ∃ r, Url_new (print_url ex_parts) = Ret r ∧
    cb_bytes (scheme r) = init (bytes "http") ∧ cb_bytes (user_info r) = init (bytes "bob") ∧
    cb_bytes (host r) = init (bytes "a.com") ∧ cb_bytes (path r) = init (bytes "/p/q") ∧
    cb_bytes (uport r) = init (bytes "8080") ∧ cb_bytes (fragement r) = init (bytes "top") ∧
    cb_bytes (query r) = init (bytes "k=v?").
Proof.
  apply (Url_new_splits ex_parts); [reflexivity..|].
  intros f; destruct f; apply Nat.ltb_lt; reflexivity.
Defined.
