(* ===== verification/HttpMessage.v ===== *)
(** * HttpMessage: key/value pairs, header lists and HTTP messages
    (src/http/kvpair.c, src/http/header_list.c, src/common/utils.c,
    src/http_protocol/http_message.c)

    The header list is used through the specification of the linked list shown
    in LinkedList.v: it is the sequence of its pairs, an iterator is a position.
    Fields of a message that the constructor does not set are [None] until they
    are set; reading them before is undefined. *)

From S2P Require Import Prelude Cbuffer IOBuffer BufferChain.
Open Scope Z_scope.

(** ** Key/value pairs *)

Record KVPair := mkKV {
  label_ptr : mem;
  label_len : Z;
  value_ptr : mem;
  value_len : Z
}.

(** [eg_alloc(n)] filled by [memcpy] and a terminator. *)
Definition copy_terminated (src : mem) (len : Z) : outcome mem :=
  s ← mem_load src 0 len;
  m ← mem_store (malloc_block (len + 1)) 0 s;
  mem_store m len [Some NUL].

Definition mem_upper (m : mem) : mem := map (option_map toupper) m.

Definition KVPair_new (labptr : mem) (lablen : Z) (valptr : mem) (vallen : Z) : outcome KVPair :=
  lab ← mem_load labptr 0 lablen;
  p ← copy_terminated (mem_upper lab) lablen;
  v ← copy_terminated valptr vallen;
  Ret (mkKV p lablen v vallen).

(** C strings are given by their bytes; [strlen] is converted to [int] where the
    parameter is one. *)
Definition KVPair_from_cstrs (key value : list byte) : outcome KVPair :=
  KVPair_new (init key) (s32 (Zlen key)) (init value) (Zlen value).
Definition KVPair_from_cstrpair (cstrp : list byte * list byte) : outcome KVPair :=
  KVPair_from_cstrs cstrp.1 cstrp.2.

Definition KVPair_free (hlref : option KVPair) : outcome (option KVPair) :=
  match hlref with Some _ => Ret None | None => Ub end.

Definition KVPair_label (hlref : KVPair) : outcome (list byte) := mem_cstr (label_ptr hlref) 0.
Definition KVPair_value (hlref : KVPair) : outcome (list byte) := mem_cstr (value_ptr hlref) 0.

(** [value_len] keeps its old value. *)
Definition KVPair_set_value (hlref : KVPair) (valptr : mem) (vallen : Z) : outcome KVPair :=
  v ← copy_terminated valptr vallen;
  Ret (mkKV (label_ptr hlref) (label_len hlref) v (value_len hlref)).

Definition make_upper (src : list byte) : list byte := toupper <$> src.

(** ** Header lists *)

Abbreviation HdrList := (list KVPair).

Definition HdrList_new : HdrList := [].
Definition HdrList_size (l : HdrList) : Z := Zlen l.
Definition HdrList_first (l : HdrList) : option KVPair := head l.
Definition HdrList_last (l : HdrList) : option KVPair := last l.
Definition HdrList_remove_first (l : HdrList) : option KVPair * HdrList := (head l, tail l).
Definition HdrList_remove_last (l : HdrList) : option KVPair * HdrList :=
  (last l, take (pred (length l)) l).
Definition HdrList_iterator (l : HdrList) : option nat := match l with [] => None | _ => Some 0%nat end.
Definition HdrList_itr_unpack (l : HdrList) (iter : option nat) : outcome KVPair :=
  match iter with None => AssertFail | Some i => deref (l !! i) end.
Definition HdrList_itr_next (l : HdrList) (iter : option nat) : outcome (option nat) :=
  match iter with
  | None => AssertFail
  | Some i => Ret (if (S i <? length l)%nat then Some (S i) else None)
  end.
Definition HdrList_itr_remove (l : HdrList) (iter : option nat) : outcome HdrList :=
  match iter with None => AssertFail | Some i => Ret (delete i l) end.
Definition HdrList_add_back (l : HdrList) (item : KVPair) : HdrList := l ++ [item].
Definition HdrList_add_front (l : HdrList) (item : KVPair) : HdrList := item :: l.

Definition HdrList_add_cstr (this : HdrList) (label value : list byte) : outcome HdrList :=
  kv ← KVPair_new (init label) (s32 (Zlen label)) (init value) (s32 (Zlen value));
  Ret (HdrList_add_back this kv).

(** The array ends at a row with a NULL key. *)
Fixpoint HdrList_add_arr (this : HdrList) (ar : list (list byte * list byte)) : outcome HdrList :=
  match ar with
  | [] => Ret this
  | (k, v) :: ar =>
      this ← HdrList_add_cstr this k v;
      HdrList_add_arr this ar
  end.
Definition HdrList_from_array (ar : list (list byte * list byte)) : outcome HdrList :=
  HdrList_add_arr HdrList_new ar.

(** The loop of [HdrList_find_iter] from position [i]. *)
Fixpoint find_from (l : HdrList) (i : nat) (fixed_key : list byte) : outcome (option nat) :=
  match l with
  | [] => Ret None
  | hlr :: l =>
      k ← KVPair_label hlr;
      if bool_decide (k = fixed_key) then Ret (Some i) else find_from l (S i) fixed_key
  end.
Definition HdrList_find_iter (hlref : HdrList) (key : list byte) : outcome (option nat) :=
  find_from hlref 0 (make_upper key).

Definition HdrList_find (hlref : HdrList) (key : list byte) : outcome (option KVPair) :=
  iter ← HdrList_find_iter hlref key;
  match iter with
  | None => Ret None
  | Some _ => kv ← HdrList_itr_unpack hlref iter; Ret (Some kv)
  end.

Definition HdrList_remove (hlref : HdrList) (key : list byte) : outcome HdrList :=
  iter ← HdrList_find_iter hlref key;
  match iter with
  | None => Ret hlref
  | Some _ => HdrList_itr_remove hlref iter
  end.

Definition HdrList_add_cbuf (this : HdrList) (key value : Cbuffer) : outcome HdrList :=
  kv ← KVPair_new (m_memPtr key) (s32 (Cbuffer_size key)) (m_memPtr value) (s32 (Cbuffer_size value));
  Ret (HdrList_add_back this kv).

Definition HdrList_add_line (this : HdrList) (label : mem) (lablen : Z) (value : mem) (vallen : Z)
    : outcome HdrList :=
  kv ← KVPair_new label lablen value vallen;
  Ret (HdrList_add_front this kv).

(** The loop has an empty body. *)
Definition HdrList_add_many (this : HdrList) (pairs : list (list byte * list byte)) : HdrList := this.

Fixpoint serialize_loop (l : HdrList) (cb : Cbuffer) : outcome Cbuffer :=
  match l with
  | [] => Ret cb
  | line :: l =>
      lab ← KVPair_label line;
      cb ← Cbuffer_append_cstr cb lab;
      cb ← Cbuffer_append_cstr cb (bytes ": ");
      v ← KVPair_value line;
      cb ← Cbuffer_append_cstr cb v;
      cb ← Cbuffer_append_cstr cb [x0d; x0a];
      serialize_loop l cb
  end.
Definition HdrList_serialize (this : HdrList) : outcome Cbuffer :=
  cb ← Cbuffer_new;
  serialize_loop this cb.

(** [List_safe_free] with the pair's free function. *)
Fixpoint HdrList_safe_free (l : HdrList) : outcome unit :=
  match l with
  | [] => Ret ()
  | kv :: l => _ ← KVPair_free (Some kv); HdrList_safe_free l
  end.

(** ** Messages *)

(** [reason] and [target] are [None] once freed. *)
Record HttpMessage := mkMsg {
  body : option BufferChain;
  headers : HdrList;
  major_vers : Z;
  minor_vers : Z;
  is_request : option bool;
  status_code : option Z;
  reason : option Cbuffer;
  method : option Z;
  target : option Cbuffer
}.

Definition http_message_new : outcome HttpMessage :=
  t ← Cbuffer_new;
  r ← Cbuffer_new;
  Ret (mkMsg None HdrList_new 1 1 None None (Some r) None (Some t)).

Definition http_message_set_is_request (m : HttpMessage) (yn : bool) : HttpMessage :=
  mkMsg (body m) (headers m) (major_vers m) (minor_vers m) (Some yn) (status_code m)
    (reason m) (method m) (target m).
Definition http_message_set_status (m : HttpMessage) (status : Z) : HttpMessage :=
  mkMsg (body m) (headers m) (major_vers m) (minor_vers m) (is_request m) (Some status)
    (reason m) (method m) (target m).
Definition http_message_set_minor_version (m : HttpMessage) (mv : Z) : HttpMessage :=
  mkMsg (body m) (headers m) (major_vers m) mv (is_request m) (status_code m)
    (reason m) (method m) (target m).
(** The major version is not used. *)
Definition http_message_set_version (m : HttpMessage) (maj minor : Z) : HttpMessage :=
  http_message_set_minor_version m minor.
Definition http_message_set_method (m : HttpMessage) (meth : Z) : HttpMessage :=
  mkMsg (body m) (headers m) (major_vers m) (minor_vers m) (is_request m) (status_code m)
    (reason m) (Some meth) (target m).
Definition http_message_set_body (m : HttpMessage) (b : option BufferChain) : HttpMessage :=
  mkMsg b (headers m) (major_vers m) (minor_vers m) (is_request m) (status_code m)
    (reason m) (method m) (target m).
Definition set_headers (m : HttpMessage) (h : HdrList) : HttpMessage :=
  mkMsg (body m) h (major_vers m) (minor_vers m) (is_request m) (status_code m)
    (reason m) (method m) (target m).
Definition put_target (m : HttpMessage) (t : option Cbuffer) : HttpMessage :=
  mkMsg (body m) (headers m) (major_vers m) (minor_vers m) (is_request m) (status_code m)
    (reason m) (method m) t.
Definition put_reason (m : HttpMessage) (r : option Cbuffer) : HttpMessage :=
  mkMsg (body m) (headers m) (major_vers m) (minor_vers m) (is_request m) (status_code m)
    r (method m) (target m).

Definition http_message_new_request : outcome HttpMessage :=
  m ← http_message_new; Ret (http_message_set_is_request m true).
Definition http_message_new_response : outcome HttpMessage :=
  m ← http_message_new; Ret (http_message_set_is_request m false).

Definition http_message_get_is_request (m : HttpMessage) : outcome bool := deref (is_request m).
Definition http_message_get_status (m : HttpMessage) : outcome Z := deref (status_code m).
Definition http_message_get_method (m : HttpMessage) : outcome Z := deref (method m).
Definition http_message_get_minor_version (m : HttpMessage) : Z := minor_vers m.
Definition http_message_get_body (m : HttpMessage) : option BufferChain := body m.
Definition http_message_get_headerlist (m : HttpMessage) : HdrList := headers m.

(** The body is not freed. *)
Definition http_message_free (p : option HttpMessage) : outcome (option HttpMessage) :=
  p ← deref p;
  HdrList_safe_free (headers p);;
  _ ← Cbuffer_free (target p);
  _ ← Cbuffer_free (reason p);
  Ret None.

(** Both buffers are freed and the pointers to them kept. *)
Definition MessageResponse (status : Z) (b : option BufferChain) : outcome HttpMessage :=
  m ← http_message_new;
  let m := http_message_set_status (http_message_set_is_request m false) status in
  let m := http_message_set_body m b in
  t ← Cbuffer_free (target m);
  r ← Cbuffer_free (reason m);
  Ret (put_reason (put_target m t) r).

Definition http_message_add_header_cstring (m : HttpMessage) (label value : list byte) : outcome HttpMessage :=
  h ← HdrList_add_cstr (headers m) label value; Ret (set_headers m h).
Definition http_message_add_header_cbuf (m : HttpMessage) (key value : Cbuffer) : outcome HttpMessage :=
  h ← HdrList_add_cbuf (headers m) key value; Ret (set_headers m h).
Definition http_message_set_headers_arr (m : HttpMessage) (ar : list (list byte * list byte)) : outcome HttpMessage :=
  h ← HdrList_add_arr (headers m) ar; Ret (set_headers m h).

Definition http_message_get_target (m : HttpMessage) : outcome (list byte) :=
  t ← deref (target m); Cbuffer_cstr t.
Definition http_message_set_target (m : HttpMessage) (cstr : list byte) : outcome HttpMessage :=
  t ← deref (target m);
  c_assert (Cbuffer_size t =? 0);;
  t ← Cbuffer_append_cstr t cstr;
  Ret (put_target m (Some t)).
Definition http_message_get_target_cbuffer (m : HttpMessage) : outcome Cbuffer :=
  s ← http_message_get_target m; Cbuffer_from_cstring s.
Definition http_message_set_target_cbuffer (m : HttpMessage) (tgt : Cbuffer) : outcome HttpMessage :=
  t ← deref (target m);
  c_assert (Cbuffer_size t =? 0);;
  s ← Cbuffer_cstr tgt;
  t ← Cbuffer_append_cstr t s;
  Ret (put_target m (Some t)).
Definition http_message_get_reason (m : HttpMessage) : outcome (list byte) :=
  t ← deref (reason m); Cbuffer_cstr t.
Definition http_message_set_reason (m : HttpMessage) (cstr : list byte) : outcome HttpMessage :=
  t ← deref (reason m);
  c_assert (Cbuffer_size t =? 0);;
  t ← Cbuffer_append_cstr t cstr;
  Ret (put_reason m (Some t)).
Definition http_message_get_reason_cbuffer (m : HttpMessage) : outcome Cbuffer :=
  s ← http_message_get_reason m; Cbuffer_from_cstring s.
Definition http_message_set_reason_cbuffer (m : HttpMessage) (r : Cbuffer) : outcome HttpMessage :=
  t ← deref (reason m);
  c_assert (Cbuffer_size t =? 0);;
  s ← Cbuffer_cstr r;
  t ← Cbuffer_append_cstr t s;
  Ret (put_reason m (Some t)).

Definition Message_get_content_length (m : HttpMessage) : outcome Z := AssertFail.

(** [sprintf(buf, "%d", length)] fits the hundred bytes of [buf]. *)
Definition http_message_set_content_length (m : HttpMessage) (length : Z) : outcome HttpMessage :=
  c_assert (0 <=? length);;
  let buf := fmt_d length in
  it ← HdrList_find_iter (headers m) (bytes "Content-length");
  match it with
  | Some i =>
      kvp ← HdrList_itr_unpack (headers m) it;
      kvp ← KVPair_set_value kvp (init buf) (Zlen buf);
      Ret (set_headers m (<[i := kvp]> (headers m)))
  | None =>
      h ← HdrList_add_cstr (headers m) (bytes "Content-length") buf;
      Ret (set_headers m h)
  end.

Definition http_message_get_header_value (m : HttpMessage) (lab : list byte) : outcome (option (list byte)) :=
  kvp ← HdrList_find (headers m) lab;
  match kvp with
  | None => Ret None
  | Some kvp => v ← KVPair_value kvp; Ret (Some v)
  end.

(** 1 equal up to case, 0 different, -1 no such header. *)
Definition HttpMessage_cmp_header (m : HttpMessage) (key test_value : list byte) : outcome Z :=
  kvp ← HdrList_find (headers m) key;
  match kvp with
  | None => Ret (-1)
  | Some kvp =>
      v ← KVPair_value kvp;
      if negb (length v =? length test_value)%nat then Ret 0
      else Ret (if forallb (fun xy => beq (toupper xy.1) (toupper xy.2)) (zip v test_value)
                then 1 else 0)
  end.

(** ** Serialisation *)

Section Serialize.
(** [llhttp_method_name]. *)
Context (llhttp_method_name : Z → list byte).

(** The text [asprintf] makes of the first line; ["%s"] of a buffer's data reads
    the C string at its start. *)
Definition first_line (this : HttpMessage) : outcome (list byte) :=
  rq ← http_message_get_is_request this;
  if (rq : bool) then
    mt ← http_message_get_method this;
    t ← deref (target this);
    s ← mem_cstr (m_memPtr t) (Cbuffer_data t);
    Ret (llhttp_method_name mt ++ bytes " " ++ s ++ bytes " HTTP/" ++
         fmt_d (major_vers this) ++ bytes "." ++ fmt_d (minor_vers this) ++ [x0d; x0a])
  else
    st ← http_message_get_status this;
    r ← deref (reason this);
    s ← mem_cstr (m_memPtr r) (Cbuffer_data r);
    Ret (bytes "HTTP/" ++ fmt_d (major_vers this) ++ bytes "." ++ fmt_d (minor_vers this) ++
         bytes "  " ++ fmt_d st ++ bytes " " ++ s ++ [x0d; x0a]).

Definition header_line (item : KVPair) : outcome (list byte) :=
  k ← KVPair_label item;
  v ← KVPair_value item;
  Ret (k ++ bytes ": " ++ v ++ [x0d; x0a]).

Fixpoint header_lines (bc : BufferChain) (l : HdrList) : outcome BufferChain :=
  match l with
  | [] => Ret bc
  | item :: l =>
      s ← header_line item;
      bc ← BufferChain_append_cstr bc s;
      header_lines bc l
  end.

Definition append_body (bc : BufferChain) (b : option BufferChain) : outcome BufferChain :=
  match b with
  | Some b =>
      if BufferChain_size b =? 0 then Ret bc
      else iob_body ← BufferChain_compact b; BufferChain_add_back bc iob_body
  | None => Ret bc
  end.

Definition http_message_serialize (this : HttpMessage) : outcome IOBuffer :=
  let bc_result := BufferChain_new in
  fl ← first_line this;
  bc_result ← BufferChain_append_cstr bc_result fl;
  bc_result ← header_lines bc_result (headers this);
  bc_result ← BufferChain_append_cstr bc_result [x0d; x0a];
  bc_result ← append_body bc_result (body this);
  BufferChain_compact bc_result.

Definition body_begin : list byte :=
  bytes "body begin ===========================================================" ++ [x0d; x0a].
Definition body_end : list byte :=
  bytes "body end ===========================================================" ++ [x0d; x0a].

Definition http_message_dump (this : HttpMessage) : outcome IOBuffer :=
  let bc_result := BufferChain_new in
  fl ← first_line this;
  bc_result ← BufferChain_append_cstr bc_result fl;
  bc_result ← header_lines bc_result (headers this);
  bc_result ← BufferChain_append_cstr bc_result [x0d; x0a];
  bc_result ← BufferChain_append_cstr bc_result body_begin;
  bc_result ← append_body bc_result (body this);
  bc_result ← BufferChain_append_cstr bc_result body_end;
  BufferChain_compact bc_result.
End Serialize.

(** ** Lemmas: pairs and lists *)

Lemma copy_terminated_ok src bs :
  Zlen bs ≤ msize src → take (length bs) src = init bs →
  copy_terminated src (Zlen bs) = Ret (init bs ++ [Some NUL]).
Proof.
  intros Hl Ht. unfold copy_terminated. pose proof (Zlen_nonneg bs).
  rewrite mem_load_ok by lia. rewrite bind_ret_l. change (Z.to_nat 0) with 0%nat.
  rewrite drop_0. unfold Zlen in *. rewrite Nat2Z.id, Ht.
  rewrite mem_store_ok by (rewrite ?msize_init, ?msize_malloc by lia; lia).
  rewrite bind_ret_l. change (Z.to_nat 0) with 0%nat. rewrite take_0. cbn [app Nat.add].
  assert (length (init bs) = length bs) as Hib by (apply length_fmap).
  assert (drop (length (init bs)) (malloc_block (Z.of_nat (length bs) + 1)) = [None]) as ->.
  { unfold malloc_block. rewrite drop_replicate, Hib.
    by replace (Z.to_nat (Z.of_nat (length bs) + 1) - length bs)%nat with 1%nat by lia. }
  rewrite mem_store_ok by (rewrite ?msize_app, ?msize_init, ?msize_one; lia).
  rewrite Nat2Z.id, <- Hib, take_app_length. f_equal. f_equal.
  cbn [length]. rewrite drop_ge; [done|]. rewrite length_app. cbn. lia.
Qed.

(** The C strings of a pair. *)
Definition kv_is (kv : KVPair) (p : list byte * list byte) : Prop :=
  KVPair_label kv = Ret p.1 ∧ KVPair_value kv = Ret p.2.
Definition hdrs_are (l : HdrList) (kvs : list (list byte * list byte)) : Prop := Forall2 kv_is l kvs.

Definition pair_ok (p : list byte * list byte) : bool :=
  no_nul p.1 && no_nul p.2 && (Zlen p.1 <? INT_MAX) && (Zlen p.2 <? INT_MAX).

Lemma make_upper_length bs : length (make_upper bs) = length bs.
Proof. apply length_fmap. Qed.

Lemma make_upper_no_nul bs : no_nul (make_upper bs) = no_nul bs.
Proof.
  unfold no_nul, make_upper. induction bs as [|b bs IH]; [done|]. cbn. rewrite IH. f_equal. f_equal.
  unfold beq. apply bool_decide_ext. apply toupper_nul.
Qed.

Lemma make_upper_idemp bs : make_upper (make_upper bs) = make_upper bs.
Proof. unfold make_upper. induction bs as [|b bs IH]; [done|]. cbn. by rewrite toupper_idemp, IH. Qed.

Lemma mem_upper_init bs : mem_upper (init bs) = init (make_upper bs).
Proof. unfold mem_upper, init, make_upper. induction bs as [|b bs IH]; [done|]. cbn. by f_equal. Qed.

Lemma cstr_terminated bs : no_nul bs = true → mem_cstr (init bs ++ [Some NUL]) 0 = Ret bs.
Proof.
  intros. unfold mem_cstr. rewrite (proj2 (in_block_true _ _ _)).
  - change (Z.to_nat 0) with 0%nat. rewrite drop_0. by apply cstr_of_init.
  - pose proof (msize_nonneg (init bs ++ [Some NUL])). lia.
Qed.

Lemma take_init (bs : list byte) : take (length bs) (init bs) = init bs.
Proof. apply take_ge. unfold init. by rewrite length_fmap. Qed.

Lemma KVPair_new_ok lm vm k v :
  take (length k) lm = init k → Zlen k ≤ msize lm →
  take (length v) vm = init v → Zlen v ≤ msize vm →
  no_nul k = true → no_nul v = true →
  ∃ kv, KVPair_new lm (Zlen k) vm (Zlen v) = Ret kv ∧ kv_is kv (make_upper k, v).
Proof.
  intros Hk Hkl Hv Hvl Hnk Hnv. unfold KVPair_new. pose proof (Zlen_nonneg k).
  rewrite mem_load_ok by lia. rewrite bind_ret_l. change (Z.to_nat 0) with 0%nat. rewrite drop_0.
  replace (Z.to_nat (Zlen k)) with (length k) by (unfold Zlen; lia). rewrite Hk, mem_upper_init.
  assert (Zlen k = Zlen (make_upper k)) as Hku by (unfold Zlen; by rewrite make_upper_length).
  rewrite Hku, (copy_terminated_ok _ (make_upper k)) by (rewrite ?msize_init, ?take_init; done).
  rewrite bind_ret_l, (copy_terminated_ok _ v) by done. rewrite bind_ret_l.
  eexists. split; [done|]. split; apply cstr_terminated; [|done].
  cbn [fst]. by rewrite make_upper_no_nul.
Qed.

Lemma add_cstr_ok l kvs k v :
  hdrs_are l kvs → pair_ok (k, v) = true →
  ∃ l', HdrList_add_cstr l k v = Ret l' ∧ hdrs_are l' (kvs ++ [(make_upper k, v)]).
Proof.
  intros Hl Hok. unfold pair_ok in Hok. cbn in Hok. rewrite !andb_true_iff in Hok.
  destruct Hok as (((Hk & Hv) & Hkl) & Hvl). bool_prop. unfold HdrList_add_cstr.
  pose proof (Zlen_nonneg k). pose proof (Zlen_nonneg v).
  rewrite !s32_small by (unfold INT_MIN; lia).
  destruct (KVPair_new_ok (init k) (init v) k v) as (kv & -> & Hkv);
    rewrite ?take_init, ?msize_init; try done.
  eexists. split; [done|]. apply Forall2_app; [done|]. constructor; [done|constructor].
Qed.

Definition upper_key (p : list byte * list byte) : list byte * list byte := (make_upper p.1, p.2).

Lemma add_arr_ok ar : ∀ l kvs,
  hdrs_are l kvs → forallb pair_ok ar = true →
  ∃ l', HdrList_add_arr l ar = Ret l' ∧ hdrs_are l' (kvs ++ map upper_key ar).
Proof.
  induction ar as [|[k v] ar IH]; intros l kvs Hl Hok; cbn [HdrList_add_arr map].
  - rewrite app_nil_r. eauto.
  - cbn [forallb] in Hok. apply andb_true_iff in Hok as [Hp Hok].
    destruct (add_cstr_ok l kvs k v Hl Hp) as (l1 & -> & Hl1). rewrite bind_ret_l.
    destruct (IH l1 _ Hl1 Hok) as (l' & -> & Hl'). eexists. split; [done|].
    by rewrite <- app_assoc in Hl'.
Qed.

(** The first pair with a key, case ignored. *)
Definition has_key (key : list byte) (p : list byte * list byte) : Prop := make_upper p.1 = make_upper key.
#[global] Instance has_key_dec key p : Decision (has_key key p) := decide (make_upper p.1 = make_upper key).
Definition lookup_header (kvs : list (list byte * list byte)) (key : list byte) : option (list byte) :=
  snd ∘ snd <$> list_find (has_key key) kvs.

Lemma find_from_ok l : ∀ kvs i key,
  hdrs_are l kvs → Forall (fun p => make_upper p.1 = p.1) kvs →
  find_from l i (make_upper key) =
  Ret ((fun jp => (i + fst jp)%nat) <$> list_find (has_key key) kvs).
Proof.
  induction l as [|kv l IH]; intros kvs i key Hl Hup.
  - inv Hl. done.
  - apply Forall2_cons_inv_l in Hl as (p & kvs' & [Hk Hv] & Hl & ->). inv Hup.
    cbn [find_from]. rewrite Hk, bind_ret_l. cbn [list_find].
    destruct (decide (has_key key p)) as [Hd|Hd]; unfold has_key in Hd.
    + rewrite bool_decide_true by congruence. cbn. by rewrite Nat.add_0_r.
    + rewrite bool_decide_false by congruence. rewrite (IH kvs') by done.
      destruct (list_find (has_key key) kvs') as [[j q]|]; [|done]. cbn. do 2 f_equal. lia.
Qed.

Lemma find_ok l kvs key :
  hdrs_are l kvs → Forall (fun p => make_upper p.1 = p.1) kvs →
  HdrList_find_iter l key = Ret (fst <$> list_find (has_key key) kvs) ∧
  match list_find (has_key key) kvs with
  | Some (i, p) => ∃ kv, l !! i = Some kv ∧ kv_is kv p
  | None => True
  end.
Proof.
  intros Hl Hup. unfold HdrList_find_iter. rewrite (find_from_ok l kvs) by done. split; [done|].
  destruct (list_find (has_key key) kvs) as [[i p]|] eqn:E; [|done].
  apply list_find_Some in E as (Hi & _ & _).
  destruct (Forall2_lookup_r _ _ _ _ _ Hl Hi) as (kv & ? & ?). eauto.
Qed.

Lemma get_value_ok m kvs key :
  hdrs_are (headers m) kvs → Forall (fun p => make_upper p.1 = p.1) kvs →
  http_message_get_header_value m key = Ret (lookup_header kvs key).
Proof.
  intros Hl Hup. unfold http_message_get_header_value, HdrList_find, lookup_header.
  destruct (find_ok _ _ key Hl Hup) as [-> Hf]. rewrite bind_ret_l.
  destruct (list_find (has_key key) kvs) as [[i p]|]; [|done].
  destruct Hf as (kv & Hi & _ & Hv). cbn [fmap option_fmap option_map fst HdrList_itr_unpack].
  rewrite Hi. cbn [deref]. by rewrite !bind_ret_l, Hv.
Qed.

(** ** Abstract messages *)

Record amsg := mkAmsg {
  a_request : bool;
  a_method : Z;
  a_target : list byte;
  a_status : Z;
  a_reason : list byte;
  a_minor : Z;
  a_headers : list (list byte * list byte);
  a_body : list byte
}.

(** A buffer that holds a C string. *)
Definition cb_text (cb : Cbuffer) (bs : list byte) : Prop :=
  cb_ok cb ∧ cb_bytes cb = init bs ∧ cb_terminated cb ∧ no_nul bs = true.

Definition body_is (b : option BufferChain) (bs : list byte) : Prop :=
  match b with Some c => bc_text c bs | None => bs = [] end.

Record msg_is (m : HttpMessage) (a : amsg) : Prop := {
  mi_request : is_request m = Some (a_request a);
  mi_major : major_vers m = 1;
  mi_minor : minor_vers m = a_minor a;
  mi_line : if a_request a
            then method m = Some (a_method a) ∧ ∃ t, target m = Some t ∧ cb_text t (a_target a)
            else status_code m = Some (a_status a) ∧ ∃ r, reason m = Some r ∧ cb_text r (a_reason a);
  mi_headers : hdrs_are (headers m) (a_headers a);
  mi_body : body_is (body m) (a_body a)
}.

Section Text.
Context (llhttp_method_name : Z → list byte).

Definition a_first (a : amsg) : list byte :=
  if a_request a
  then llhttp_method_name (a_method a) ++ bytes " " ++ a_target a ++ bytes " HTTP/" ++ fmt_d 1 ++
       bytes "." ++ fmt_d (a_minor a) ++ [x0d; x0a]
  else bytes "HTTP/" ++ fmt_d 1 ++ bytes "." ++ fmt_d (a_minor a) ++ bytes "  " ++
       fmt_d (a_status a) ++ bytes " " ++ a_reason a ++ [x0d; x0a].
Definition line_text (p : list byte * list byte) : list byte := p.1 ++ bytes ": " ++ p.2 ++ [x0d; x0a].
Definition headers_text (kvs : list (list byte * list byte)) : list byte := concat (map line_text kvs).

(** The wire form of a message. *)
Definition a_text (a : amsg) : list byte :=
  a_first a ++ headers_text (a_headers a) ++ [x0d; x0a] ++ a_body a.

Lemma cb_text_cstr cb bs : cb_text cb bs → mem_cstr (m_memPtr cb) 0 = Ret bs.
Proof.
  intros (Hok & Hb & Ht & Hn). destruct Hok as [Hblk _ _ Hl].
  assert (Z.to_nat (m_length cb) = length bs) as Hlen.
  { apply (f_equal length) in Hb. unfold cb_bytes, init, msize in *.
    rewrite length_take, length_fmap in Hb. lia. }
  apply mem_cstr_terminated; [| |done].
  - unfold cb_bytes in Hb. by rewrite Hlen in Hb.
  - unfold cb_terminated in Ht. by rewrite Hlen in Ht.
Qed.

Lemma first_line_ok m a : msg_is m a → first_line llhttp_method_name m = Ret (a_first a).
Proof.
  intros [Hr Hma Hmi Hl _ _]. unfold first_line, http_message_get_is_request, a_first.
  rewrite Hr, Hma, Hmi. cbn [deref]. rewrite bind_ret_l. destruct (a_request a).
  - destruct Hl as [Hm (t & Ht & Htt)]. unfold http_message_get_method. rewrite Hm, Ht.
    cbn [deref]. rewrite !bind_ret_l. unfold Cbuffer_data. by rewrite (cb_text_cstr _ _ Htt).
  - destruct Hl as [Hs (r & Hrr & Hrt)]. unfold http_message_get_status. rewrite Hs, Hrr.
    cbn [deref]. rewrite !bind_ret_l. unfold Cbuffer_data. by rewrite (cb_text_cstr _ _ Hrt).
Qed.

Lemma append_cstr_text c bs new :
  bc_text c bs → new ≠ [] → Zlen bs + Zlen new + 100 < INT_MAX →
  ∃ c', BufferChain_append_cstr c new = Ret c' ∧ bc_text c' (bs ++ new).
Proof.
  intros Hc Hne Hm. unfold BufferChain_append_cstr.
  pose proof (Zlen_nonneg bs). pose proof (Zlen_nonneg new).
  rewrite s32_small by (unfold INT_MIN; lia). by apply append_text.
Qed.

Lemma line_nonempty p : line_text p ≠ [].
Proof. destruct p as [[|k ks] v]; done. Qed.

Lemma header_lines_ok l : ∀ kvs bc bs,
  hdrs_are l kvs → bc_text bc bs → Zlen bs + Zlen (headers_text kvs) + 100 < INT_MAX →
  ∃ bc', header_lines bc l = Ret bc' ∧ bc_text bc' (bs ++ headers_text kvs).
Proof.
  induction l as [|kv l IH]; intros kvs bc bs Hl Hbc Hm.
  - inv Hl. unfold headers_text. cbn. rewrite app_nil_r. eauto.
  - apply Forall2_cons_inv_l in Hl as (p & kvs' & [Hk Hv] & Hl & ->).
    unfold headers_text in *. cbn [map concat] in *. rewrite Zlen_app in Hm.
    pose proof (Zlen_nonneg (concat (map line_text kvs'))).
    cbn [header_lines]. unfold header_line. rewrite Hk, bind_ret_l, Hv, !bind_ret_l.
    fold (line_text p).
    destruct (append_cstr_text bc bs (line_text p)) as (bc1 & -> & Hbc1);
      [done|apply line_nonempty|lia|].
    rewrite bind_ret_l, app_assoc. apply IH; [done..|]. rewrite Zlen_app. lia.
Qed.

Lemma append_body_ok bc bs b bt :
  bc_text bc bs → body_is b bt → Zlen bs + Zlen bt < INT_MAX →
  ∃ bc', append_body bc b = Ret bc' ∧ bc_text bc' (bs ++ bt).
Proof.
  intros Hbc Hb Hm. pose proof (Zlen_nonneg bs). destruct b as [c|]; cbn [append_body body_is] in *.
  - unfold BufferChain_size. rewrite (bt_size _ _ Hb). destruct (Zlen bt =? 0) eqn:E; bool_prop.
    + apply Zlen_nil_iff in E as ->. rewrite app_nil_r. eauto.
    + assert (bt ≠ []) by (intros ->; done).
      destruct (compact_text c bt Hb) as (iob & -> & Hi); [done|lia|]. rewrite bind_ret_l.
      destruct (add_back_text bc bs iob bt) as (bc' & ? & ? & _); [done..|lia|]. eauto.
  - subst. rewrite app_nil_r. eauto.
Qed.

Lemma first_nonempty a : a_first a ≠ [].
Proof. unfold a_first. destruct (a_request a); [|done]. intros [_ He]%app_eq_nil. done. Qed.

Lemma serialize_ok m a :
  msg_is m a → Zlen (a_text a) + 100 < INT_MAX →
  ∃ b, http_message_serialize llhttp_method_name m = Ret b ∧ iob_text b (a_text a).
Proof.
  intros Hm Hl. unfold http_message_serialize. rewrite (first_line_ok _ _ Hm), bind_ret_l.
  unfold a_text in *. rewrite !Zlen_app in Hl. change (Zlen [x0d; x0a]) with 2 in Hl.
  pose proof (Zlen_nonneg (a_first a)). pose proof (Zlen_nonneg (headers_text (a_headers a))).
  pose proof (Zlen_nonneg (a_body a)).
  destruct (append_cstr_text BufferChain_new [] (a_first a) new_chain_text) as (c1 & -> & HT1);
    [apply first_nonempty|change (Zlen (@nil byte)) with 0; lia|]. rewrite bind_ret_l. cbn [app] in HT1.
  destruct (header_lines_ok _ _ c1 _ (mi_headers _ _ Hm) HT1) as (c2 & -> & HT2); [lia|]. rewrite bind_ret_l.
  destruct (append_cstr_text c2 _ [x0d; x0a] HT2) as (c3 & -> & HT3);
    [done|rewrite Zlen_app; change (Zlen [x0d; x0a]) with 2; lia|]. rewrite bind_ret_l.
  destruct (append_body_ok c3 _ _ _ HT3 (mi_body _ _ Hm)) as (c4 & -> & HT4);
    [rewrite !Zlen_app; change (Zlen [x0d; x0a]) with 2; lia|]. rewrite bind_ret_l.
  rewrite <- !app_assoc in HT4. apply compact_text; [done| |].
  - intros [He _]%app_eq_nil. by apply (first_nonempty a).
  - rewrite !Zlen_app. change (Zlen [x0d; x0a]) with 2. lia.
Qed.
End Text.

(** Decimal text has no NUL. *)
Lemma digit_not_nul d : 0 ≤ d < 10 → beq (digit d) NUL = false.
Proof.
  intros. assert (d = 0 ∨ d = 1 ∨ d = 2 ∨ d = 3 ∨ d = 4 ∨ d = 5 ∨ d = 6 ∨ d = 7 ∨ d = 8 ∨ d = 9) as Hd by lia.
  by destruct Hd as [->|[->|[->|[->|[->|[->|[->|[->|[->| ->]]]]]]]]].
Qed.

Lemma dec_aux_no_nul fuel : ∀ n acc, no_nul acc = true → no_nul (dec_aux fuel n acc) = true.
Proof.
  induction fuel as [|f IH]; intros n acc Ha; cbn [dec_aux]; [done|].
  assert (no_nul (digit (n mod 10) :: acc) = true).
  { cbn. rewrite digit_not_nul by (apply Z.mod_pos_bound; lia). done. }
  split_if; [done|]. by apply IH.
Qed.

Lemma dec_aux_length fuel : ∀ n acc, (length (dec_aux fuel n acc) ≤ fuel + length acc)%nat.
Proof.
  induction fuel as [|f IH]; intros n acc; cbn [dec_aux]; [done|].
  split_if; cbn [length]; [lia|]. specialize (IH (n / 10) (digit (n mod 10) :: acc)). cbn in IH. lia.
Qed.

Lemma fmt_d_ok n : 0 ≤ n → no_nul (fmt_d n) = true ∧ Zlen (fmt_d n) ≤ 10.
Proof.
  intros. unfold fmt_d. rewrite (proj2 (Z.ltb_ge _ _)) by lia. split; [by apply dec_aux_no_nul|].
  pose proof (dec_aux_length 10 n []). unfold Zlen. cbn in *. lia.
Qed.

Lemma set_value_ok kv p v :
  kv_is kv p → no_nul v = true →
  ∃ kv', KVPair_set_value kv (init v) (Zlen v) = Ret kv' ∧ kv_is kv' (p.1, v).
Proof.
  intros [Hk _] Hv. unfold KVPair_set_value.
  rewrite (copy_terminated_ok _ v) by (rewrite ?msize_init, ?take_init; done).
  eexists. split; [done|]. split; [done|]. by apply cstr_terminated.
Qed.

(** Setting a header: the first pair with the key gets the value, or a pair is added. *)
Definition set_header (kvs : list (list byte * list byte)) (key v : list byte) : list (list byte * list byte) :=
  match list_find (has_key key) kvs with
  | Some (i, p) => <[i := (p.1, v)]> kvs
  | None => kvs ++ [(make_upper key, v)]
  end.

Lemma set_content_length_ok m kvs n :
  hdrs_are (headers m) kvs → Forall (fun p => make_upper p.1 = p.1) kvs → 0 ≤ n →
  ∃ m', http_message_set_content_length m n = Ret m' ∧
    hdrs_are (headers m') (set_header kvs (bytes "Content-length") (fmt_d n)).
Proof.
  intros Hl Hup Hn. destruct (fmt_d_ok n Hn) as [Hnn Hlen].
  unfold http_message_set_content_length. rewrite assert_true by (bool_prop; lia). rewrite bind_ret_l.
  destruct (find_ok _ _ (bytes "Content-length") Hl Hup) as [-> Hf]. rewrite bind_ret_l.
  unfold set_header. destruct (list_find _ kvs) as [[i p]|].
  - destruct Hf as (kv & Hi & Hkv). cbn [fmap option_fmap option_map fst HdrList_itr_unpack].
    rewrite Hi. cbn [deref]. rewrite bind_ret_l.
    destruct (set_value_ok kv p (fmt_d n) Hkv Hnn) as (kv' & -> & Hkv'). rewrite bind_ret_l.
    eexists. split; [done|]. cbn [headers set_headers]. by apply Forall2_insert.
  - destruct (add_cstr_ok (headers m) kvs (bytes "Content-length") (fmt_d n)) as (l' & -> & Hl'); [done| |].
    { unfold pair_ok. cbn [fst snd]. rewrite Hnn, !andb_true_iff.
      split_and!; try done. apply Z.ltb_lt. unfold INT_MAX. lia. }
    rewrite bind_ret_l. eexists. split; [done|]. done.
Qed.

Lemma lookup_set_header kvs key v :
  lookup_header (set_header kvs key v) key = Some v.
Proof.
  unfold lookup_header, set_header. destruct (list_find (has_key key) kvs) as [[i p]|] eqn:E.
  - apply list_find_Some in E as (Hi & Hp & Hb). pose proof (lookup_lt_Some _ _ _ Hi).
    assert (list_find (has_key key) (<[i := (p.1, v)]> kvs) = Some (i, (p.1, v))) as ->; [|done].
    apply list_find_Some. split_and!; [by rewrite list_lookup_insert_eq|done|].
    intros j y Hy Hj. rewrite list_lookup_insert_ne in Hy by lia. by eapply Hb.
  - apply list_find_None in E.
    assert (list_find (has_key key) (kvs ++ [(make_upper key, v)]) = Some (length kvs + 0, (make_upper key, v))%nat)
      as ->; [|done].
    apply list_find_app_Some. right. split_and!; [lia|by apply list_find_None|].
    rewrite Nat.add_sub_swap, Nat.sub_diag by done. cbn. rewrite decide_True; [done|].
    unfold has_key. cbn. apply make_upper_idemp.
Qed.

Lemma map_upper_key ar : Forall (fun p => make_upper p.1 = p.1) (map upper_key ar).
Proof.
  induction ar as [|[k v] ar IH]; constructor; [|done]. cbn. apply make_upper_idemp.
Qed.

Lemma list_find_upper key ar :
  list_find (has_key key) (map upper_key ar) = prod_map id upper_key <$> list_find (has_key key) ar.
Proof.
  induction ar as [|[k v] ar IH]; [done|]. cbn [map list_find].
  assert (has_key key (upper_key (k, v)) ↔ has_key key (k, v)) as Hiff
    by (unfold has_key; cbn; by rewrite make_upper_idemp).
  destruct (decide (has_key key (k, v))) as [Hd|Hd].
  - by rewrite decide_True by (by apply Hiff).
  - rewrite decide_False by (by rewrite Hiff). rewrite IH.
    by destruct (list_find (has_key key) ar) as [[i [a b]]|].
Qed.

(** ** Properties *)

(** C33: [http_message_serialize] emits exactly the wire form of the message: for a
    request or response whose first-line fields are set, any headers in list order
    and any body, the result is the first line, one line per header, an empty line
    and the body bytes, in one NUL-terminated buffer; no assertion fails and no
    uninitialised memory is read, below the [int] size limit. *)
Theorem http_message_serialize_text llhttp_method_name m a :
  msg_is m a → Zlen (a_text llhttp_method_name a) + 100 < INT_MAX →
  ∃ b, http_message_serialize llhttp_method_name m = Ret b ∧
       iob_text b (a_text llhttp_method_name a).
Proof. apply serialize_ok. Qed.

(** Header round trip: after any array of headers has been added to a new message,
    asking for a header with any capitalisation of its name returns the value of the
    first entry of the array with that name up to case, and NULL when there is none. *)
Theorem http_message_headers_roundtrip ar key :
  forallb pair_ok ar = true →
  ∃ m, (m0 ← http_message_new; http_message_set_headers_arr m0 ar) = Ret m ∧
    http_message_get_header_value m key = Ret (lookup_header ar key) ∧
    HdrList_size (http_message_get_headerlist m) = Zlen ar.
Proof.
  intros Hok. unfold http_message_set_headers_arr.
  destruct (add_arr_ok ar [] [] ltac:(constructor) Hok) as (l & Hl & Hh).
  change http_message_new with (Ret (mkMsg None HdrList_new 1 1 None None
    (Some (mkCbuffer (malloc_block 256) 0 256 0 common_strategy)) None
    (Some (mkCbuffer (malloc_block 256) 0 256 0 common_strategy)))).
  rewrite bind_ret_l. cbn [headers]. unfold HdrList_new. rewrite Hl, bind_ret_l.
  eexists. split; [done|]. split.
  - rewrite (get_value_ok _ (map upper_key ar)) by (done || apply map_upper_key).
    unfold lookup_header. rewrite list_find_upper.
    by destruct (list_find (has_key key) ar) as [[i [k v]]|].
  - apply Forall2_length in Hh. cbn [app] in Hh. rewrite length_map in Hh.
    unfold HdrList_size, Zlen. cbn. by rewrite Hh.
Qed.

(** [http_message_set_content_length] makes the Content-length header, under any
    capitalisation, the decimal text of the length; it replaces an existing header and
    adds one otherwise, so a second call leaves the header list as long as it is. *)
Theorem http_message_content_length_set m kvs n n2 key :
  hdrs_are (headers m) kvs → Forall (fun p => make_upper p.1 = p.1) kvs → 0 ≤ n → 0 ≤ n2 →
  make_upper key = make_upper (bytes "Content-length") →
  ∃ m' m'', http_message_set_content_length m n = Ret m' ∧
    http_message_get_header_value m' key = Ret (Some (fmt_d n)) ∧
    http_message_set_content_length m' n2 = Ret m'' ∧
    http_message_get_header_value m'' key = Ret (Some (fmt_d n2)) ∧
    HdrList_size (headers m'') = HdrList_size (headers m').
Proof.
  intros Hl Hup Hn Hn2 Hkey.
  assert (∀ kvs v, Forall (fun p => make_upper p.1 = p.1) kvs →
    Forall (fun p => make_upper p.1 = p.1) (set_header kvs (bytes "Content-length") v)) as Hset.
  { intros kvs' v Hf. unfold set_header. destruct (list_find _ kvs') as [[i p]|] eqn:E.
    - apply Forall_insert; [done|]. apply list_find_Some in E as (Hi & _ & _).
      exact (Forall_lookup_1 _ _ _ _ Hf Hi).
    - apply Forall_app. split; [done|]. constructor; [|done]. cbn. done. }
  assert (∀ kvs, lookup_header kvs key = lookup_header kvs (bytes "Content-length")) as Hk.
  { intros kvs'. unfold lookup_header. f_equal. apply list_find_ext. unfold has_key.
    intros. by rewrite Hkey. }
  destruct (set_content_length_ok m kvs n Hl Hup Hn) as (m' & Hm' & Hl').
  destruct (set_content_length_ok m' _ n2 Hl' (Hset _ _ Hup) Hn2) as (m'' & Hm'' & Hl'').
  exists m', m''. split_and!; [done| |done| |].
  - by rewrite (get_value_ok _ _ _ Hl' (Hset _ _ Hup)), Hk, lookup_set_header.
  - by rewrite (get_value_ok _ _ _ Hl'' (Hset _ _ (Hset _ _ Hup))), Hk, lookup_set_header.
  - apply Forall2_length in Hl', Hl''. unfold HdrList_size, Zlen. rewrite Hl', Hl''.
    pose proof (lookup_set_header kvs (bytes "Content-length") (fmt_d n)) as Hf.
    unfold lookup_header in Hf. unfold set_header at 1.
    destruct (list_find (has_key (bytes "Content-length")) (set_header kvs _ (fmt_d n))) as [[i p]|] eqn:E;
      [|done]. by rewrite length_insert.
Qed.

(** A message made by [MessageResponse] is unusable: both its buffers are already
    freed, so serialising it and freeing it are uses of freed memory, whatever the
    status and body. *)
Theorem MessageResponse_dangling llhttp_method_name status b :
  ∃ m, MessageResponse status b = Ret m ∧
    http_message_serialize llhttp_method_name m = Ub ∧ http_message_free (Some m) = Ub.
Proof. eexists. split; [done|]. split; done. Qed.

(** A response whose reason was never set cannot be serialised: the first line
    prints the reason buffer as a C string, and a new buffer is not terminated. *)
Theorem http_message_serialize_unset_reason llhttp_method_name status :
  ∃ m, (m0 ← http_message_new_response; Ret (http_message_set_status m0 status)) = Ret m ∧
    http_message_serialize llhttp_method_name m = Ub.
Proof. eexists. split; [done|]. done. Qed.

(** ** Witnesses *)

Definition ex_method_name (m : Z) : list byte := if m =? 1 then bytes "GET" else bytes "POST".

Definition ex_msg_out : outcome HttpMessage :=
  m ← http_message_new_request;
  let m := http_message_set_method m 1 in
  m ← http_message_set_target m (bytes "/x");
  http_message_set_headers_arr m [(bytes "Host", bytes "h"); (bytes "Accept", bytes "*/*")].
Definition ex_msg : HttpMessage :=
  Eval vm_compute in match ex_msg_out with Ret m => m | _ => mkMsg None [] 0 0 None None None None None end.
Definition ex_amsg : amsg :=
  mkAmsg true 1 (bytes "/x") 0 [] 1 [(bytes "HOST", bytes "h"); (bytes "ACCEPT", bytes "*/*")] [].

Lemma ex_msg_is : msg_is ex_msg ex_amsg.
Proof.
  constructor; try reflexivity.
  - split; [reflexivity|]. eexists. split; [reflexivity|].
    split_and!; try reflexivity. constructor; cbn [m_memPtr m_capacity m_strategy m_length].
    + vm_compute. reflexivity.
    + reflexivity.
    + lia.
    + lia.
  - repeat constructor.
Qed.

Lemma http_message_serialize_text_witness :
  ∃ b, http_message_serialize ex_method_name ex_msg = Ret b ∧
       iob_text b (a_text ex_method_name ex_amsg).
Proof. apply (http_message_serialize_text ex_method_name ex_msg ex_amsg ex_msg_is). reflexivity. Defined.

Lemma http_message_headers_roundtrip_witness :
  ∃ m, (m0 ← http_message_new;
        http_message_set_headers_arr m0 [(bytes "Host", bytes "a"); (bytes "HOST", bytes "b")]) = Ret m ∧
    http_message_get_header_value m (bytes "hOsT") = Ret (Some (bytes "a")) ∧
    HdrList_size (http_message_get_headerlist m) = 2.
Proof.
  apply (http_message_headers_roundtrip [(bytes "Host", bytes "a"); (bytes "HOST", bytes "b")] (bytes "hOsT")).
  reflexivity.
Defined.

Lemma http_message_content_length_set_witness :
  ∃ m' m'', http_message_set_content_length ex_msg 12 = Ret m' ∧
    http_message_get_header_value m' (bytes "content-LENGTH") = Ret (Some (bytes "12")) ∧
    http_message_set_content_length m' 345 = Ret m'' ∧
    http_message_get_header_value m'' (bytes "content-LENGTH") = Ret (Some (bytes "345")) ∧
    HdrList_size (headers m'') = HdrList_size (headers m').
Proof.
  apply (http_message_content_length_set ex_msg (a_headers ex_amsg)).
  - exact (mi_headers _ _ ex_msg_is).
  - repeat constructor.
  - lia.
  - lia.
  - reflexivity.
Defined.
