(* ===== verification/HttpParser.v ===== *)
(** * HttpParser: the message parser around llhttp (src/http_protocol/http_message_parser.c)

    llhttp is a third-party state machine; what it does to this code is call its
    callbacks.  A run of llhttp over a buffer is therefore a sequence of events, and
    the callbacks are the steps of the model.  The fields of [llhttp_t] that a callback
    reads (status code, version, method) are arguments of its event. *)

From S2P Require Import Prelude Cbuffer IOBuffer BufferChain HttpMessage.
Open Scope Z_scope.

Definition kHEADER_STATE_NOTHING : Z := 10.
Definition kHEADER_STATE_FIELD : Z := 11.
Definition kHEADER_STATE_VALUE : Z := 12.

(** [on_message_handler] is observed through the messages handed to it, in order.
    The four buffers are set by the constructor and never become NULL. *)
Record HttpMessageParser := mkParser {
  m_started : bool;
  current_message_ptr : option HttpMessage;
  m_header_state : Z;
  m_url_buf : Cbuffer;
  m_status_buf : Cbuffer;
  m_name_buf : Cbuffer;
  m_value_buf : Cbuffer;
  delivered : list HttpMessage
}.

Inductive event :=
| on_message_begin
| on_url (at_ : list byte)
| on_status (at_ : list byte) (status_code : Z)
| on_method (at_ : list byte)
| on_version (at_ : list byte)
| on_header_field (at_ : list byte)
| on_header_value (at_ : list byte)
| on_chunk_extension_name (at_ : list byte)
| on_chunk_extension_value (at_ : list byte)
| on_headers_complete (http_major http_minor method : Z)
| on_body (at_ : list byte)
| on_message_complete
| on_url_complete | on_status_complete | on_method_complete | on_version_complete
| on_header_field_complete | on_header_value_complete
| on_chunk_extension_name_complete | on_chunk_extension_value_complete
| on_chunk_header | on_chunk_complete | on_reset.

(** Field updates. *)
Definition with_msg (p : HttpMessageParser) (m : option HttpMessage) : HttpMessageParser :=
  mkParser (m_started p) m (m_header_state p) (m_url_buf p) (m_status_buf p) (m_name_buf p)
    (m_value_buf p) (delivered p).
Definition with_bufs (p : HttpMessageParser) (u s n v : Cbuffer) : HttpMessageParser :=
  mkParser (m_started p) (current_message_ptr p) (m_header_state p) u s n v (delivered p).
Definition with_state (p : HttpMessageParser) (st : Z) : HttpMessageParser :=
  mkParser (m_started p) (current_message_ptr p) st (m_url_buf p) (m_status_buf p) (m_name_buf p)
    (m_value_buf p) (delivered p).
Definition with_name_value (p : HttpMessageParser) (n v : Cbuffer) : HttpMessageParser :=
  with_bufs p (m_url_buf p) (m_status_buf p) n v.

Definition HttpParser_initialize (this : HttpMessageParser) : outcome HttpMessageParser :=
  _ ← http_message_new;
  s ← Cbuffer_clear (m_status_buf this);
  u ← Cbuffer_clear (m_url_buf this);
  n ← Cbuffer_clear (m_name_buf this);
  v ← Cbuffer_clear (m_value_buf this);
  Ret (mkParser false None kHEADER_STATE_NOTHING u s n v (delivered this)).

Definition http_message_parser_new : outcome HttpMessageParser :=
  s ← Cbuffer_new;
  u ← Cbuffer_new;
  n ← Cbuffer_new;
  v ← Cbuffer_new;
  HttpParser_initialize (mkParser false None kHEADER_STATE_NOTHING u s n v []).

Definition HttpParser_reset (msg : HttpMessageParser) : HttpMessageParser := msg.

Definition http_message_parser_free (this : option HttpMessageParser) : outcome (option HttpMessageParser) :=
  match this with
  | None => AssertFail
  | Some p =>
      _ ← Cbuffer_free (Some (m_name_buf p));
      _ ← Cbuffer_free (Some (m_url_buf p));
      _ ← Cbuffer_free (Some (m_status_buf p));
      _ ← Cbuffer_free (Some (m_value_buf p));
      Ret None
  end.

(** ** Callbacks *)

Definition message_begin_cb (this : HttpMessageParser) : outcome HttpMessageParser :=
  (match current_message_ptr this with
   | Some m => _ ← http_message_free (Some m); Ret ()
   | None => Ret ()
   end);;
  m ← http_message_new;
  s ← Cbuffer_clear (m_status_buf this);
  u ← Cbuffer_clear (m_url_buf this);
  n ← Cbuffer_clear (m_name_buf this);
  v ← Cbuffer_clear (m_value_buf this);
  Ret (with_bufs (with_msg this (Some m)) u s n v).

Definition url_data_cb (this : HttpMessageParser) (at_ : list byte) : outcome HttpMessageParser :=
  m ← deref (current_message_ptr this);
  let m := http_message_set_is_request m true in
  u ← Cbuffer_append (m_url_buf this) (init at_) (Zlen at_);
  Ret (with_bufs (with_msg this (Some m)) u (m_status_buf this) (m_name_buf this) (m_value_buf this)).

Definition status_data_cb (this : HttpMessageParser) (at_ : list byte) (status : Z) : outcome HttpMessageParser :=
  m ← deref (current_message_ptr this);
  let m := http_message_set_status (http_message_set_is_request m false) status in
  s ← Cbuffer_append (m_status_buf this) (init at_) (Zlen at_);
  m ← http_message_set_reason_cbuffer m s;
  Ret (with_bufs (with_msg this (Some m)) (m_url_buf this) s (m_name_buf this) (m_value_buf this)).

(** The pending header is added to the message and both buffers are cleared. *)
Definition flush_header (this : HttpMessageParser) : outcome HttpMessageParser :=
  if Cbuffer_size (m_name_buf this) =? 0 then Ret this else
  m ← deref (current_message_ptr this);
  m ← http_message_add_header_cbuf m (m_name_buf this) (m_value_buf this);
  n ← Cbuffer_clear (m_name_buf this);
  v ← Cbuffer_clear (m_value_buf this);
  Ret (with_name_value (with_msg this (Some m)) n v).

Definition header_field_data_cb (this : HttpMessageParser) (at_ : list byte) : outcome HttpMessageParser :=
  let state := m_header_state this in
  if (state =? 0) || (state =? kHEADER_STATE_NOTHING) || (state =? kHEADER_STATE_VALUE) then
    this ← flush_header this;
    n ← Cbuffer_append (m_name_buf this) (init at_) (Zlen at_);
    Ret (with_state (with_name_value this n (m_value_buf this)) kHEADER_STATE_FIELD)
  else if state =? kHEADER_STATE_FIELD then
    n ← Cbuffer_append (m_name_buf this) (init at_) (Zlen at_);
    Ret (with_state (with_name_value this n (m_value_buf this)) kHEADER_STATE_FIELD)
  else AssertFail.

Definition header_value_data_cb (this : HttpMessageParser) (at_ : list byte) : outcome HttpMessageParser :=
  let state := m_header_state this in
  if state =? kHEADER_STATE_FIELD then
    v ← Cbuffer_clear (m_value_buf this);
    v ← Cbuffer_append v (init at_) (Zlen at_);
    Ret (with_state (with_name_value this (m_name_buf this) v) kHEADER_STATE_VALUE)
  else if state =? kHEADER_STATE_VALUE then
    v ← Cbuffer_append (m_value_buf this) (init at_) (Zlen at_);
    Ret (with_state (with_name_value this (m_name_buf this) v) kHEADER_STATE_VALUE)
  else AssertFail.

Definition headers_complete_cb (this : HttpMessageParser) (http_major http_minor meth : Z)
    : outcome HttpMessageParser :=
  this ← flush_header this;
  m ← deref (current_message_ptr this);
  let m := http_message_set_version m http_major http_minor in
  if Cbuffer_size (m_url_buf this) =? 0 then Ret (with_msg this (Some m))
  else
    let m := http_message_set_method m meth in
    m ← http_message_set_target_cbuffer m (m_url_buf this);
    Ret (with_msg this (Some m)).

Definition body_data_cb (this : HttpMessageParser) (at_ : list byte) : outcome HttpMessageParser :=
  m ← deref (current_message_ptr this);
  let chain := match http_message_get_body m with Some c => c | None => BufferChain_new end in
  chain ← BufferChain_append chain (init at_) (s32 (Zlen at_));
  Ret (with_msg this (Some (http_message_set_body m (Some chain)))).

Definition message_complete_cb (this : HttpMessageParser) : outcome HttpMessageParser :=
  tmp ← deref (current_message_ptr this);
  m ← http_message_new;
  Ret (mkParser (m_started this) (Some m) (m_header_state this) (m_url_buf this) (m_status_buf this)
         (m_name_buf this) (m_value_buf this) (delivered this ++ [tmp])).

(** The callbacks that only return 0. *)
Definition method_data_cb (this : HttpMessageParser) : outcome HttpMessageParser := Ret this.
Definition version_data_cb (this : HttpMessageParser) : outcome HttpMessageParser := Ret this.
Definition chunk_extension_name_cb (this : HttpMessageParser) : outcome HttpMessageParser := Ret this.
Definition chunk_extension_value_cb (this : HttpMessageParser) : outcome HttpMessageParser := Ret this.
Definition complete_cb (this : HttpMessageParser) : outcome HttpMessageParser := Ret this.

(** The callback table set up by [HttpParser_initialize]. *)
Definition dispatch (this : HttpMessageParser) (e : event) : outcome HttpMessageParser :=
  match e with
  | on_message_begin => message_begin_cb this
  | on_url a => url_data_cb this a
  | on_status a st => status_data_cb this a st
  | on_method _ => method_data_cb this
  | on_version _ => version_data_cb this
  | on_header_field a => header_field_data_cb this a
  | on_header_value a => header_value_data_cb this a
  | on_chunk_extension_name _ => chunk_extension_name_cb this
  | on_chunk_extension_value _ => chunk_extension_value_cb this
  | on_headers_complete ma mi me => headers_complete_cb this ma mi me
  | on_body a => body_data_cb this a
  | on_message_complete => message_complete_cb this
  | on_url_complete | on_status_complete | on_method_complete | on_version_complete
  | on_header_field_complete | on_header_value_complete
  | on_chunk_extension_name_complete | on_chunk_extension_value_complete
  | on_chunk_header | on_chunk_complete | on_reset => complete_cb this
  end.

Fixpoint run_events (this : HttpMessageParser) (es : list event) : outcome HttpMessageParser :=
  match es with
  | [] => Ret this
  | e :: es => this ← dispatch this e; run_events this es
  end.

(** ** Feeding bytes *)

Section Feed.
(** llhttp: its state, what a call of [llhttp_execute] or [llhttp_finish] does to it
    and which callbacks it makes, and whether the message needs an end of file. *)
Context {llhttp_t llhttp_errno_t : Type} `{EqDecision llhttp_errno_t}.
Context (HPE_OK : llhttp_errno_t).
Context (llhttp_execute : llhttp_t → mem → llhttp_t * list event * llhttp_errno_t).
Context (llhttp_finish : llhttp_t → llhttp_t * list event * llhttp_errno_t).
Context (llhttp_message_needs_eof : llhttp_t → bool).

Definition http_message_parser_consume (parser : HttpMessageParser) (ll : llhttp_t) (buffer : mem) (len : Z)
    : outcome (HttpMessageParser * llhttp_t * llhttp_errno_t) :=
  '(ll, es, e) ← (if (len =? 0) && llhttp_message_needs_eof ll then Ret (llhttp_finish ll)
                  else b ← mem_load buffer 0 len; Ret (llhttp_execute ll b));
  parser ← run_events parser es;
  Ret (parser, ll, e).

Definition http_message_parser_consume_buffer (parser : HttpMessageParser) (ll : llhttp_t) (iob : IOBuffer)
    : outcome (HttpMessageParser * llhttp_t * IOBuffer * llhttp_errno_t) :=
  let buflength := IOBuffer_data_len iob in
  '(ll, es, e) ← (if (buflength =? 0) && llhttp_message_needs_eof ll then Ret (llhttp_finish ll)
                  else b ← mem_load (mem_p iob) (IOBuffer_data iob) buflength;
                       Ret (llhttp_execute ll b));
  parser ← run_events parser es;
  if decide (e = HPE_OK) then
    iob ← IOBuffer_consume iob buflength;
    Ret (parser, ll, iob, e)
  else Ret (parser, ll, iob, e).

Definition http_message_parser_consume_eof (parser : HttpMessageParser) (ll : llhttp_t)
    : outcome (HttpMessageParser * llhttp_t * llhttp_errno_t) :=
  if llhttp_message_needs_eof ll then
    let '(ll, es, e) := llhttp_finish ll in
    parser ← run_events parser es;
    Ret (parser, ll, e)
  else Ret (parser, ll, HPE_OK).
End Feed.

(** ** Lemmas: buffers *)

(** The buffer holds [bs], and is terminated once something has been written. *)
Definition cb_has (cb : Cbuffer) (bs : list byte) : Prop :=
  cb_ok cb ∧ cb_bytes cb = init bs ∧ m_length cb = Zlen bs ∧
  (bs ≠ [] → Cbuffer.m_size cb = m_length cb ∧ cb_terminated cb).

Definition small (bs : list byte) : bool := (length bs <=? 256)%nat && no_nul bs.

Lemma clear_has cb : cb_ok cb → ∃ cb', Cbuffer_clear cb = Ret cb' ∧ cb_has cb' [].
Proof.
  intros Hok. destruct (clear_ok cb Hok) as (cb' & ? & ? & ? & ? & _). exists cb'. by split_and!.
Qed.

Lemma append_has cb bs new :
  cb_has cb bs → (length new ≤ 256)%nat → Zlen bs + Zlen new < 1048576 →
  ∃ cb', Cbuffer_append cb (init new) (Zlen new) = Ret cb' ∧ cb_has cb' (bs ++ new).
Proof.
  intros (Hok & Hb & Hl & Ht) Hn Hm.
  destruct (append_cstr_small cb new) as (cb' & Ha & Hok' & Hb' & Hl' & He & Hne); [done..|rewrite Hl; done|].
  exists cb'. split; [exact Ha|]. split_and!; [done|by rewrite Hb', Hb, init_app|rewrite Hl', Hl, Zlen_app; done|].
  intros Hx. destruct (decide (new = [])) as [->|Hnn]; [|by apply Hne].
  rewrite app_nil_r in Hx. rewrite (He eq_refl). by apply Ht.
Qed.

Lemma has_size cb bs : cb_has cb bs → (Cbuffer_size cb =? 0) = bool_decide (bs = []).
Proof.
  intros (_ & _ & Hl & _). unfold Cbuffer_size. rewrite Hl.
  destruct (Zlen bs =? 0) eqn:E; symmetry; bool_prop.
  - apply bool_decide_eq_true. by apply Zlen_nil_iff.
  - apply bool_decide_eq_false. by rewrite <- Zlen_nil_iff.
Qed.

Lemma has_text cb bs : cb_has cb bs → bs ≠ [] → no_nul bs = true → cb_text cb bs.
Proof. intros (Hok & Hb & _ & Ht) Hne Hn. destruct (Ht Hne). by split_and!. Qed.

Lemma has_cstr cb bs : cb_has cb bs → bs ≠ [] → no_nul bs = true → Cbuffer_cstr cb = Ret bs.
Proof.
  intros (Hok & Hb & Hl & Ht) Hne Hn. destruct (Ht Hne) as [Hs Htt].
  apply cstr_ok; try done. split; [|by rewrite Hs]. rewrite Hs. apply Hok.
Qed.

Lemma new_has : cb_has (mkCbuffer (malloc_block 256) 0 256 0 common_strategy) [].
Proof. split; [apply new_ok|]. by split_and!. Qed.

(** Adding the pending pair of buffers as a header. *)
Lemma add_header_has m kvs n v bn bv :
  hdrs_are (headers m) kvs → cb_has n bn → cb_has v bv → no_nul bn = true → no_nul bv = true →
  ∃ l, http_message_add_header_cbuf m n v = Ret (set_headers m l) ∧
       hdrs_are l (kvs ++ [(make_upper bn, bv)]).
Proof.
  intros Hl (Hnok & Hnb & Hnl & _) (Hvok & Hvb & Hvl & _) Hn Hv.
  unfold http_message_add_header_cbuf, HdrList_add_cbuf, Cbuffer_size. rewrite Hnl, Hvl.
  destruct Hnok as [Hn1 _ Hn3 Hn4], Hvok as [Hv1 _ Hv3 Hv4].
  rewrite !s32_small by (unfold INT_MIN, INT_MAX; lia).
  destruct (KVPair_new_ok (m_memPtr n) (m_memPtr v) bn bv) as (kv & -> & Hkv); try done; try lia.
  - unfold cb_bytes in Hnb. rewrite Hnl in Hnb. unfold Zlen in Hnb. by rewrite Nat2Z.id in Hnb.
  - unfold cb_bytes in Hvb. rewrite Hvl in Hvb. unfold Zlen in Hvb. by rewrite Nat2Z.id in Hvb.
  - eexists. split; [done|]. apply Forall2_app; [done|]. constructor; [done|constructor].
Qed.

(** ** Lemmas: a message, however it is cut into callbacks *)

Lemma run_app es1 es2 p : run_events p (es1 ++ es2) = (p ← run_events p es1; run_events p es2).
Proof.
  revert p. induction es1 as [|e es1 IH]; intros p; [done|]. cbn [app run_events].
  destruct (dispatch p e); [|done..]. rewrite !bind_ret_l. apply IH.
Qed.

(** Pieces small enough for the buffers, of a bounded total. *)
Definition pieces_ok (ps : list (list byte)) : bool :=
  forallb small ps && (Zlen (concat ps) <? 1048576).

Lemma pieces_inv c ps done_ :
  pieces_ok (done_ ++ c :: ps) = true →
  (length c ≤ 256)%nat ∧ no_nul c = true ∧ Zlen (concat done_) + Zlen c < 1048576.
Proof.
  unfold pieces_ok. rewrite forallb_app, andb_true_iff. intros [[_ Hc]%andb_true_iff Hl%Z.ltb_lt].
  cbn in Hc. apply andb_true_iff in Hc as [Hc _]. unfold small in Hc.
  apply andb_true_iff in Hc as [Hc%Nat.leb_le Hn].
  rewrite concat_app, Zlen_app in Hl. cbn in Hl. rewrite Zlen_app in Hl.
  pose proof (Zlen_nonneg (concat ps)). split_and!; [done..|lia].
Qed.

Lemma pieces_no_nul ps : pieces_ok ps = true → no_nul (concat ps) = true.
Proof.
  unfold pieces_ok. rewrite andb_true_iff. intros [H _]. induction ps as [|c ps IH]; [done|].
  cbn in *. unfold small in H. rewrite !andb_true_iff in H. rewrite no_nul_app.
  destruct H as [[_ ->] H]. by rewrite IH.
Qed.

(** The parser between callbacks, inside a message: the URL and status text so far,
    the headers already added, the pending header. *)
Record mid (p : HttpMessageParser) (m : HttpMessage) (u s n v : list byte) : Prop := {
  mid_msg : current_message_ptr p = Some m;
  mid_url : cb_has (m_url_buf p) u;
  mid_status : cb_has (m_status_buf p) s;
  mid_name : cb_has (m_name_buf p) n;
  mid_value : cb_has (m_value_buf p) v;
  mid_state : m_header_state p = kHEADER_STATE_NOTHING ∨ m_header_state p = kHEADER_STATE_FIELD ∨
              m_header_state p = kHEADER_STATE_VALUE
}.

Lemma url_run ps : ∀ p m done_ s n v,
  mid p m (concat done_) s n v → pieces_ok (done_ ++ ps) = true → (ps = [] → is_request m = Some true) →
  ∃ p' , run_events p (map on_url ps) = Ret p' ∧
    mid p' (http_message_set_is_request m true) (concat (done_ ++ ps)) s n v ∧ delivered p' = delivered p ∧
    m_header_state p' = m_header_state p.
Proof.
  induction ps as [|c ps IH]; intros p m done_ s n v Hp Hok Hreq.
  - rewrite app_nil_r. exists p. split; [done|]. split; [|done].
    replace (http_message_set_is_request m true) with m; [done|].
    destruct m. cbn in *. unfold http_message_set_is_request. cbn. by rewrite Hreq.
  - destruct (pieces_inv _ _ _ Hok) as (Hc & Hcn & Hct). pose proof Hp as [Hm Hu Hs Hn Hv Hst].
    cbn [map run_events dispatch]. unfold url_data_cb. rewrite Hm. cbn [deref]. rewrite bind_ret_l.
    destruct (append_has _ _ c Hu) as (u' & -> & Hu'); [done..|]. rewrite !bind_ret_l.
    destruct (IH (with_bufs (with_msg p (Some (http_message_set_is_request m true))) u' (m_status_buf p)
        (m_name_buf p) (m_value_buf p)) (http_message_set_is_request m true) (done_ ++ [c]) s n v)
      as (p' & -> & Hp' & Hd & Hh); [|by rewrite <- app_assoc|done|].
    { constructor; try done. rewrite concat_app. cbn. by rewrite app_nil_r. }
    exists p'. rewrite <- app_assoc in Hp'. cbn [app] in Hp'. split_and!; done.
Qed.

(** Headers added plus the pending one. *)
Definition pend (n v : list byte) : list (list byte * list byte) :=
  if bool_decide (n = []) then [] else [(make_upper n, v)].

Record hdr_mid (p : HttpMessageParser) (m0 : HttpMessage) (u s n v : list byte)
    (K : list (list byte * list byte)) : Prop := {
  hm_mid : ∃ l kvs, mid p (set_headers m0 l) u s n v ∧ hdrs_are l kvs ∧ kvs ++ pend n v = K;
  hm_nul : no_nul n = true ∧ no_nul v = true
}.

Lemma flush_has p m0 u s n v K :
  hdr_mid p m0 u s n v K →
  ∃ p' v', flush_header p = Ret p' ∧ hdr_mid p' m0 u s [] v' K ∧
    delivered p' = delivered p ∧ m_header_state p' = m_header_state p.
Proof.
  intros [(l & kvs & Hp & Hl & HK) [Hn Hv]]. pose proof Hp as [Hm Hu Hs Hnb Hvb Hst].
  unfold flush_header. rewrite (has_size _ _ Hnb).
  destruct (decide (n = [])) as [->|Hne].
  - rewrite bool_decide_true by done. exists p, v. split_and!; try done. by constructor; eauto.
  - rewrite bool_decide_false by done. rewrite Hm. cbn [deref]. rewrite bind_ret_l.
    destruct (add_header_has (set_headers m0 l) kvs _ _ n v Hl Hnb Hvb Hn Hv) as (l' & -> & Hl').
    rewrite bind_ret_l.
    destruct (clear_has _ (proj1 Hnb)) as (n' & -> & Hn'). rewrite bind_ret_l.
    destruct (clear_has _ (proj1 Hvb)) as (v' & -> & Hv'). rewrite bind_ret_l.
    eexists _, []. split; [done|]. split; [|done]. constructor; [|done].
    exists l', K. split; [by constructor|]. split; [|apply app_nil_r].
    unfold pend in HK. rewrite bool_decide_false in HK by done. by rewrite <- HK.
Qed.

Lemma field_more ps : ∀ p m0 u s done_ v K,
  m_header_state p = kHEADER_STATE_FIELD → concat done_ ≠ [] →
  (∃ l, mid p (set_headers m0 l) u s (concat done_) v ∧ hdrs_are l K) →
  pieces_ok (done_ ++ ps) = true → no_nul v = true →
  ∃ p', run_events p (map on_header_field ps) = Ret p' ∧
    (∃ l, mid p' (set_headers m0 l) u s (concat (done_ ++ ps)) v ∧ hdrs_are l K) ∧
    delivered p' = delivered p ∧ m_header_state p' = kHEADER_STATE_FIELD.
Proof.
  induction ps as [|c ps IH]; intros p m0 u s done_ v K Hst Hne (l & Hp & Hl) Hok Hv.
  - rewrite app_nil_r. exists p. split_and!; eauto.
  - destruct (pieces_inv _ _ _ Hok) as (Hc & Hcn & Hct). pose proof Hp as [Hm Hu Hs Hnb Hvb _].
    cbn [map run_events dispatch]. unfold header_field_data_cb. rewrite Hst.
    cbn [Z.eqb orb kHEADER_STATE_FIELD kHEADER_STATE_NOTHING kHEADER_STATE_VALUE Pos.eqb].
    destruct (append_has _ _ c Hnb) as (n' & -> & Hn'); [done..|]. rewrite !bind_ret_l.
    destruct (IH (with_state (with_name_value p n' (m_value_buf p)) kHEADER_STATE_FIELD) m0 u s
      (done_ ++ [c]) v K) as (p' & -> & Hp' & Hd & Hh); try done.
    + rewrite concat_app. by intros [? _]%app_eq_nil.
    + exists l. split; [|done]. rewrite concat_app. cbn [concat]. rewrite app_nil_r.
      constructor; try done. by right; left.
    + by rewrite <- app_assoc.
    + exists p'. rewrite <- app_assoc in Hp'. split_and!; done.
Qed.

Lemma value_more ps : ∀ p m u s n done_,
  m_header_state p = kHEADER_STATE_VALUE → mid p m u s n (concat done_) →
  pieces_ok (done_ ++ ps) = true →
  ∃ p', run_events p (map on_header_value ps) = Ret p' ∧ mid p' m u s n (concat (done_ ++ ps)) ∧
    delivered p' = delivered p ∧ m_header_state p' = kHEADER_STATE_VALUE.
Proof.
  induction ps as [|c ps IH]; intros p m u s n done_ Hst Hp Hok.
  - rewrite app_nil_r. exists p. by split_and!.
  - destruct (pieces_inv _ _ _ Hok) as (Hc & Hcn & Hct). pose proof Hp as [Hm Hu Hs Hnb Hvb _].
    cbn [map run_events dispatch]. unfold header_value_data_cb. rewrite Hst.
    cbn [Z.eqb kHEADER_STATE_FIELD kHEADER_STATE_VALUE Pos.eqb].
    destruct (append_has _ _ c Hvb) as (v' & -> & Hv'); [done..|]. rewrite !bind_ret_l.
    destruct (IH (with_state (with_name_value p (m_name_buf p) v') kHEADER_STATE_VALUE) m u s n
      (done_ ++ [c])) as (p' & -> & Hp' & Hd & Hh); try done.
    + rewrite concat_app. cbn [concat]. rewrite app_nil_r. constructor; try done. by right; right.
    + by rewrite <- app_assoc.
    + exists p'. rewrite <- app_assoc in Hp'. split_and!; done.
Qed.

(** A header as the pieces of its name and of its value. *)
Definition hdr_events (h : list (list byte) * list (list byte)) : list event :=
  map on_header_field h.1 ++ map on_header_value h.2.
Definition hdr_ok (h : list (list byte) * list (list byte)) : bool :=
  match h.1, h.2 with
  | c :: _, _ :: _ => pieces_ok h.1 && pieces_ok h.2 && negb (bool_decide (c = []))
  | _, _ => false
  end.
Definition hdr_pair (h : list (list byte) * list (list byte)) : list byte * list byte :=
  (make_upper (concat h.1), concat h.2).

Lemma header_run h p m0 u s n v K :
  hdr_ok h = true → hdr_mid p m0 u s n v K → (m_header_state p = kHEADER_STATE_FIELD → n = []) →
  ∃ p' n' v', run_events p (hdr_events h) = Ret p' ∧ hdr_mid p' m0 u s n' v' (K ++ [hdr_pair h]) ∧
    delivered p' = delivered p ∧ m_header_state p' = kHEADER_STATE_VALUE.
Proof.
  intros Hok Hp Hfst. destruct h as [[|f fs] [|w ws]]; try done. cbn in Hok.
  rewrite !andb_true_iff in Hok. destruct Hok as [[Hf Hw] Hfne].
  apply negb_true_iff, bool_decide_eq_false in Hfne. unfold hdr_events. cbn [fst snd]. rewrite run_app.
  (* the first piece of the name *)
  assert (∃ p1, header_field_data_cb p f = Ret p1 ∧ m_header_state p1 = kHEADER_STATE_FIELD ∧
    delivered p1 = delivered p ∧
    ∃ v1, no_nul v1 = true ∧ ∃ l, mid p1 (set_headers m0 l) u s f v1 ∧ hdrs_are l K) as
    (p1 & Hp1 & Hst1 & Hd1 & v1 & Hv1 & Hmid1).
  { destruct (flush_has _ _ _ _ _ _ _ Hp) as (p0 & v0 & Hfl & [(l0 & kvs0 & Hm0 & Hl0 & HK0) [_ Hv0]] & Hd0 & Hst0).
    cbn in HK0. rewrite app_nil_r in HK0. subst kvs0.
    destruct (pieces_inv f fs [] Hf) as (Hc & Hcn & Hct).
    destruct (append_has _ _ f (mid_name _ _ _ _ _ _ Hm0)) as (n' & Ha & Hn'); [done..|].
    assert (header_field_data_cb p f =
      Ret (with_state (with_name_value p0 n' (m_value_buf p0)) kHEADER_STATE_FIELD)) as Hcb.
    { unfold header_field_data_cb.
      destruct Hp as [(l & kvs & Hm & Hl & HK) _]. destruct (mid_state _ _ _ _ _ _ Hm) as [Hs|[Hs|Hs]].
      - rewrite Hs. cbn [Z.eqb orb kHEADER_STATE_NOTHING kHEADER_STATE_VALUE Pos.eqb].
        by rewrite Hfl, bind_ret_l, Ha.
      - rewrite Hs. cbn [Z.eqb orb kHEADER_STATE_FIELD kHEADER_STATE_NOTHING kHEADER_STATE_VALUE Pos.eqb].
        specialize (Hfst Hs). subst n. unfold flush_header in Hfl.
        rewrite (has_size _ _ (mid_name _ _ _ _ _ _ Hm)), bool_decide_true in Hfl by done.
        injection Hfl as <-. by rewrite Ha.
      - rewrite Hs. cbn [Z.eqb orb kHEADER_STATE_NOTHING kHEADER_STATE_VALUE Pos.eqb].
        by rewrite Hfl, bind_ret_l, Ha. }
    eexists. split; [exact Hcb|]. split_and!; try done. exists v0. split; [done|]. exists l0. split; [|done].
    destruct Hm0. constructor; try done. by right; left. }
  cbn [map run_events dispatch]. rewrite Hp1, !bind_ret_l.
  destruct (field_more fs p1 m0 u s [f] v1 K) as (p2 & -> & (l2 & Hm2 & Hl2) & Hd2 & Hst2); try done.
  { cbn. by rewrite app_nil_r. }
  { cbn [concat]. by rewrite app_nil_r. }
  rewrite bind_ret_l. cbn [app] in Hm2.
  (* the first piece of the value *)
  pose proof Hm2 as [Hcm2 Hu2 Hs2 Hn2 Hv2 _]. unfold header_value_data_cb. rewrite Hst2.
  cbn [Z.eqb kHEADER_STATE_FIELD Pos.eqb].
  destruct (clear_has _ (proj1 Hv2)) as (vb & -> & Hvb). rewrite bind_ret_l.
  destruct (pieces_inv w ws [] Hw) as (Hc & Hcn & Hct).
  destruct (append_has _ _ w Hvb) as (vb' & -> & Hvb'); [done..|]. rewrite !bind_ret_l.
  destruct (value_more ws (with_state (with_name_value p2 (m_name_buf p2) vb') kHEADER_STATE_VALUE)
    (set_headers m0 l2) u s (concat (f :: fs)) [w]) as (p3 & -> & Hp3 & Hd3 & Hst3); try done.
  { cbn [concat]. rewrite app_nil_r. constructor; try done. by right; right. }
  exists p3, (concat (f :: fs)), (concat (w :: ws)). split; [done|]. split_and!; [|by rewrite Hd3, <- Hd1, <- Hd2|done].
  constructor; [|split; by apply pieces_no_nul].
  exists l2, K. split_and!; try done. unfold pend, hdr_pair. cbn [fst snd].
  rewrite bool_decide_false; [done|]. cbn. by intros [? _]%app_eq_nil.
Qed.

Lemma headers_run hs : ∀ p m0 u s n v K,
  forallb hdr_ok hs = true → hdr_mid p m0 u s n v K → (m_header_state p = kHEADER_STATE_FIELD → n = []) →
  ∃ p' n' v', run_events p (flat_map hdr_events hs) = Ret p' ∧
    hdr_mid p' m0 u s n' v' (K ++ map hdr_pair hs) ∧ delivered p' = delivered p.
Proof.
  induction hs as [|h hs IH]; intros p m0 u s n v K Hok Hp Hst; cbn [flat_map map].
  - rewrite app_nil_r. eauto 8.
  - cbn in Hok. apply andb_true_iff in Hok as [Hh Hok]. rewrite run_app.
    destruct (header_run h p m0 u s n v K Hh Hp Hst) as (p1 & n1 & v1 & -> & Hp1 & Hd1 & Hs1).
    rewrite bind_ret_l.
    destruct (IH p1 m0 u s n1 v1 (K ++ [hdr_pair h]) Hok Hp1) as (p' & n' & v' & -> & Hp' & Hd').
    { by rewrite Hs1. }
    exists p', n', v'. rewrite <- app_assoc in Hp'. split_and!; [done..|congruence].
Qed.

(** ** Whole messages *)

Inductive start_line :=
| RequestLine (meth : Z) (url : list (list byte))
| StatusLine (status : Z) (phrase : list byte).

(** A message as the sequence of pieces llhttp reports it in. *)
Record rmsg := mkR {
  r_start : start_line;
  r_major : Z;
  r_minor : Z;
  r_headers : list (list (list byte) * list (list byte));
  r_body : list (list byte)
}.

Definition start_events (l : start_line) : list event :=
  match l with
  | RequestLine _ url => map on_url url
  | StatusLine st phrase => [on_status phrase st]
  end.
Definition start_method (l : start_line) : Z := match l with RequestLine me _ => me | _ => 0 end.

Definition events_of (r : rmsg) : list event :=
  [on_message_begin] ++ start_events (r_start r) ++ flat_map hdr_events (r_headers r) ++
  [on_headers_complete (r_major r) (r_minor r) (start_method (r_start r))] ++
  map on_body (r_body r) ++ [on_message_complete].

Definition rmsg_ok (r : rmsg) : bool :=
  match r_start r with
  | RequestLine _ url =>
      pieces_ok url && negb (bool_decide (concat url = [])) && (Zlen (concat url) <? 512)
  | StatusLine _ phrase => small phrase && negb (bool_decide (phrase = []))
  end &&
  forallb hdr_ok (r_headers r) &&
  forallb (fun c => negb (bool_decide (c = []))) (r_body r) &&
  (Zlen (concat (r_body r)) + 100 <? INT_MAX).

(** The message it stands for. *)
Definition abstract (r : rmsg) : amsg :=
  match r_start r with
  | RequestLine me url =>
      mkAmsg true me (concat url) 0 [] (r_minor r) (map hdr_pair (r_headers r)) (concat (r_body r))
  | StatusLine st phrase =>
      mkAmsg false 0 [] st phrase (r_minor r) (map hdr_pair (r_headers r)) (concat (r_body r))
  end.

(** The parser between messages. *)
Record idle (p : HttpMessageParser) : Prop := {
  id_msg : ∀ m, current_message_ptr p = Some m → is_Some (target m) ∧ is_Some (reason m);
  id_url : cb_ok (m_url_buf p);
  id_status : cb_ok (m_status_buf p);
  id_name : cb_ok (m_name_buf p);
  id_value : cb_ok (m_value_buf p);
  id_state : m_header_state p = kHEADER_STATE_NOTHING ∨ m_header_state p = kHEADER_STATE_FIELD ∨
             m_header_state p = kHEADER_STATE_VALUE
}.

Lemma safe_free_ok l : HdrList_safe_free l = Ret ().
Proof. induction l as [|kv l IH]; [done|]. cbn. by rewrite IH. Qed.

Definition fresh_msg : HttpMessage :=
  mkMsg None HdrList_new 1 1 None None
    (Some (mkCbuffer (malloc_block 256) 0 256 0 common_strategy)) None
    (Some (mkCbuffer (malloc_block 256) 0 256 0 common_strategy)).
Lemma http_message_new_eq : http_message_new = Ret fresh_msg.
Proof. done. Qed.

Lemma begin_ok p :
  idle p → ∃ p', message_begin_cb p = Ret p' ∧ mid p' fresh_msg [] [] [] [] ∧ delivered p' = delivered p.
Proof.
  intros [Hm Hu Hs Hn Hv Hst]. unfold message_begin_cb.
  assert ((match current_message_ptr p with
           | Some m => _ ← http_message_free (Some m); Ret ()
           | None => Ret () end) = Ret ()) as ->.
  { destruct (current_message_ptr p) as [m|]; [|done]. destruct (Hm m eq_refl) as [[t Ht] [r Hr]].
    unfold http_message_free. cbn [deref]. rewrite bind_ret_l, safe_free_ok, Ht, Hr. done. }
  rewrite bind_ret_l, http_message_new_eq, bind_ret_l.
  destruct (clear_has _ Hs) as (s' & -> & Hs'). rewrite bind_ret_l.
  destruct (clear_has _ Hu) as (u' & -> & Hu'). rewrite bind_ret_l.
  destruct (clear_has _ Hn) as (n' & -> & Hn'). rewrite bind_ret_l.
  destruct (clear_has _ Hv) as (v' & -> & Hv'). rewrite bind_ret_l.
  eexists. split; [done|]. split; [by constructor|done].
Qed.

(** What the first line leaves in the message and in the URL buffer. *)
Definition start_msg (l : start_line) (m : HttpMessage) : Prop :=
  match l with
  | RequestLine _ _ => m = http_message_set_is_request fresh_msg true
  | StatusLine st phrase =>
      ∃ r, cb_text r phrase ∧
        m = put_reason (http_message_set_status (http_message_set_is_request fresh_msg false) st) (Some r)
  end.
Definition start_url (l : start_line) : list byte :=
  match l with RequestLine _ url => concat url | StatusLine _ _ => [] end.

Definition start_status (l : start_line) : list byte :=
  match l with RequestLine _ _ => [] | StatusLine _ phrase => phrase end.

Lemma start_run p l :
  mid p fresh_msg [] [] [] [] →
  match l with
  | RequestLine _ url =>
      pieces_ok url && negb (bool_decide (concat url = [])) && (Zlen (concat url) <? 512)
  | StatusLine _ phrase => small phrase && negb (bool_decide (phrase = []))
  end = true →
  ∃ p' m, run_events p (start_events l) = Ret p' ∧ start_msg l m ∧
    mid p' m (start_url l) (start_status l) [] [] ∧ delivered p' = delivered p.
Proof.
  intros Hp Hok. destruct l as [me url|st phrase]; cbn [start_events start_msg start_url start_status].
  - rewrite !andb_true_iff in Hok. destruct Hok as [[Hu Hne] _].
    apply negb_true_iff, bool_decide_eq_false in Hne.
    destruct (url_run url p fresh_msg [] [] [] []) as (p' & -> & Hp' & Hd & _); try done.
    { by intros ->. }
    eauto 8.
  - unfold small in Hok. rewrite !andb_true_iff in Hok. destruct Hok as [[Hl%Nat.leb_le Hn] Hne].
    apply negb_true_iff, bool_decide_eq_false in Hne. destruct Hp as [Hm Hu Hs Hnb Hvb Hst].
    cbn [run_events dispatch]. unfold status_data_cb. rewrite Hm. cbn [deref]. rewrite bind_ret_l.
    destruct (append_has _ _ phrase Hs) as (s' & -> & Hs'); [done|unfold Zlen; cbn; lia|]. cbn [app] in Hs'.
    rewrite bind_ret_l. unfold http_message_set_reason_cbuffer. cbn [reason http_message_set_status
      http_message_set_is_request fresh_msg deref]. rewrite bind_ret_l. cbn [Cbuffer_size m_length Z.eqb c_assert].
    rewrite bind_ret_l, (has_cstr _ _ Hs' Hne Hn), bind_ret_l.
    destruct (append_has _ _ phrase new_has) as (r & Hr & Hrh); [done|unfold Zlen; cbn; lia|].
    cbn [app] in Hrh. unfold Cbuffer_append_cstr. fold (Zlen phrase). rewrite Hr, !bind_ret_l.
    eexists _, _. split; [done|]. split_and!; [|by constructor|done].
    exists r. split; [by apply has_text|done].
Qed.

Lemma complete_ok p l m0 u s n v K ma mi me :
  start_msg l m0 → start_url l = u → hdr_mid p m0 u s n v K →
  no_nul u = true → Zlen u < 512 → (u = [] ↔ match l with StatusLine _ _ => True | _ => False end) →
  ∃ p' m', headers_complete_cb p ma mi me = Ret p' ∧ delivered p' = delivered p ∧ idle p' ∧
    current_message_ptr p' = Some m' ∧ body m' = None ∧ is_Some (target m') ∧ is_Some (reason m') ∧
    ∀ bd bt, body_is bd bt →
      msg_is (http_message_set_body m' bd)
        match l with
        | RequestLine _ _ => mkAmsg true me u 0 [] mi K bt
        | StatusLine st phrase => mkAmsg false 0 [] st phrase mi K bt
        end.
Proof.
  intros Hl Hu Hp Hnn Hlen Hiff. unfold headers_complete_cb.
  destruct (flush_has _ _ _ _ _ _ _ Hp) as (p1 & v1 & -> & [(l1 & kvs & Hm1 & Hl1 & HK) _] & Hd1 & Hs1).
  cbn in HK. rewrite app_nil_r in HK. subst kvs. rewrite bind_ret_l.
  pose proof Hm1 as [Hcm Hub Hsb Hnb Hvb Hst]. rewrite Hcm. cbn [deref]. rewrite bind_ret_l.
  rewrite (has_size _ _ Hub). destruct (decide (u = [])) as [Hu0|Hu0].
  - rewrite bool_decide_true by done. destruct l as [|st phrase]; [by apply Hiff in Hu0|].
    destruct Hl as (r & Hr & ->). eexists _, _. split; [done|]. split; [done|].
    split; [constructor; try done; try apply Hub; try apply Hsb; try apply Hnb; try apply Hvb;
            intros m [= <-]; cbn; eauto|].
    split; [done|]. split; [done|]. split; [cbn; eauto|]. split; [cbn; eauto|].
    intros bd bt Hbd. constructor; cbn; try done. split; [done|]. eauto.
  - rewrite bool_decide_false by done. destruct l as [me' url|]; [|destruct Hiff as [_ Hiff]; by destruct Hu0; apply Hiff].
    cbn in Hl. subst m0. unfold http_message_set_target_cbuffer.
    cbn [target http_message_set_method http_message_set_version http_message_set_minor_version
      set_headers http_message_set_is_request fresh_msg deref]. rewrite bind_ret_l.
    cbn [Cbuffer_size m_length Z.eqb c_assert]. rewrite bind_ret_l, (has_cstr _ _ Hub Hu0 Hnn), bind_ret_l.
    destruct (new_append_ok u) as (t & Ht & Htok & Htb & Htl & Hts & Htt); [unfold Zlen in *; lia|done|].
    unfold Cbuffer_append_cstr. fold (Zlen u). rewrite Ht, !bind_ret_l.
    eexists _, _. split; [done|]. split; [done|].
    split; [constructor; try done; try apply Hub; try apply Hsb; try apply Hnb; try apply Hvb;
            intros m [= <-]; cbn; eauto|].
    split; [done|]. split; [done|]. split; [cbn; eauto|]. split; [cbn; eauto|].
    intros bd bt Hbd. constructor; cbn; try done. split; [done|]. exists t. split; [done|]. by split_and!.
Qed.

Lemma body_run ps : ∀ p m bd done_,
  idle p → current_message_ptr p = Some (http_message_set_body m bd) → body_is bd (concat done_) →
  forallb (fun c => negb (bool_decide (c = []))) ps = true →
  Zlen (concat (done_ ++ ps)) + 100 < INT_MAX →
  ∃ p' bd', run_events p (map on_body ps) = Ret p' ∧ idle p' ∧ delivered p' = delivered p ∧
    current_message_ptr p' = Some (http_message_set_body m bd') ∧ body_is bd' (concat (done_ ++ ps)).
Proof.
  induction ps as [|c ps IH]; intros p m bd done_ Hi Hm Hb Hne Hl.
  - rewrite app_nil_r. exists p, bd. by split_and!.
  - cbn in Hne. apply andb_true_iff in Hne as [Hc Hne]. apply negb_true_iff, bool_decide_eq_false in Hc.
    cbn [map run_events dispatch]. unfold body_data_cb. rewrite Hm. cbn [deref]. rewrite bind_ret_l.
    unfold http_message_get_body. cbn [body http_message_set_body].
    set (chain := match bd with Some c0 => c0 | None => BufferChain_new end).
    assert (bc_text chain (concat done_)) as Hch.
    { unfold chain. destruct bd; [done|]. cbn in Hb. rewrite Hb. apply new_chain_text. }
    rewrite concat_app in Hl. cbn [concat] in Hl. rewrite !Zlen_app in Hl.
    pose proof (Zlen_nonneg (concat ps)). pose proof (Zlen_nonneg (concat done_)). pose proof (Zlen_nonneg c).
    rewrite s32_small by (unfold INT_MIN; lia).
    destruct (append_text chain _ c Hch Hc) as (chain' & -> & Hch'); [lia|]. rewrite !bind_ret_l.
    change (http_message_set_body (http_message_set_body m bd) (Some chain'))
      with (http_message_set_body m (Some chain')).
    destruct (IH (with_msg p (Some (http_message_set_body m (Some chain')))) m (Some chain') (done_ ++ [c]))
      as (p' & bd' & -> & Hi' & Hd' & Hm' & Hb'); try done.
    + destruct Hi as [Him ? ? ? ? ?]. constructor; try done. intros m1 [= <-].
      specialize (Him _ Hm). done.
    + cbn. rewrite concat_app. cbn. by rewrite app_nil_r.
    + rewrite <- app_assoc, concat_app. cbn [app concat]. rewrite !Zlen_app. lia.
    + exists p', bd'. rewrite <- app_assoc in Hb'. by split_and!.
Qed.

Lemma set_body_same m : body m = None → http_message_set_body m None = m.
Proof. destruct m. cbn. by intros ->. Qed.

(** One message from an idle parser: it is delivered whole, and the parser is idle. *)
Lemma message_run r p :
  idle p → rmsg_ok r = true →
  ∃ p' m, run_events p (events_of r) = Ret p' ∧ idle p' ∧
    delivered p' = delivered p ++ [m] ∧ msg_is m (abstract r).
Proof.
  intros Hi Hok. unfold rmsg_ok in Hok. rewrite !andb_true_iff in Hok.
  destruct Hok as [[[Hst Hh] Hb] Hl]. bool_prop. unfold events_of. rewrite !run_app.
  destruct (begin_ok p Hi) as (p1 & Hb1 & Hm1 & Hd1).
  cbn [run_events dispatch]. rewrite Hb1, !bind_ret_l, run_app.
  destruct (start_run p1 (r_start r) Hm1 Hst) as (p2 & m2 & -> & Hsm & Hm2 & Hd2). rewrite bind_ret_l.
  rewrite run_app.
  assert (headers m2 = []) as Hh2.
  { destruct (r_start r); cbn in Hsm; [by subst|]. by destruct Hsm as (? & _ & ->). }
  destruct (headers_run (r_headers r) p2 m2 (start_url (r_start r)) (start_status (r_start r)) [] [] []) as (p3 & n3 & v3 & -> & Hp3 & Hd3);
    [done| |done|].
  { constructor; [|done]. exists [], []. split_and!; [|constructor|done].
    replace (set_headers m2 []) with m2; [done|]. destruct m2. cbn in *. by subst. }
  rewrite bind_ret_l, run_app. cbn [app] in Hp3.
  assert (no_nul (start_url (r_start r)) = true ∧ Zlen (start_url (r_start r)) < 512 ∧
    (start_url (r_start r) = [] ↔ match r_start r with StatusLine _ _ => True | _ => False end)) as (Hun & Hul & Hui).
  { destruct (r_start r) as [me url|st ph]; cbn; [|done].
    rewrite !andb_true_iff in Hst. destruct Hst as [[Hu Hne] Hlt]. bool_prop.
    apply bool_decide_eq_false in Hne. split; [by apply pieces_no_nul|]. split; [done|]. tauto. }
  destruct (complete_ok p3 (r_start r) m2 _ _ n3 v3 _ (r_major r) (r_minor r) (start_method (r_start r))
    Hsm eq_refl Hp3 Hun Hul Hui) as (p4 & m4 & Hc4 & Hd4 & Hi4 & Hcm4 & Hbn & Ht4 & Hr4 & Hmi).
  cbn [run_events dispatch]. rewrite Hc4, !bind_ret_l, run_app.
  destruct (body_run (r_body r) p4 m4 None []) as (p5 & bd & -> & Hi5 & Hd5 & Hm5 & Hb5); try done.
  { by rewrite set_body_same. }
  rewrite bind_ret_l. cbn [run_events dispatch]. unfold message_complete_cb. rewrite Hm5. cbn [deref].
  rewrite bind_ret_l, http_message_new_eq, !bind_ret_l.
  eexists _, _. split; [done|]. split_and!.
  - destruct Hi5. constructor; try done. intros m [= <-]. cbn. eauto.
  - cbn. by rewrite Hd5, Hd4, Hd3, Hd2, Hd1.
  - unfold abstract. specialize (Hmi bd _ Hb5).
    destruct (r_start r); exact Hmi.
Qed.

Lemma new_idle : ∃ p, http_message_parser_new = Ret p ∧ idle p ∧ delivered p = [].
Proof.
  unfold http_message_parser_new, HttpParser_initialize.
  change Cbuffer_new with (Ret (mkCbuffer (malloc_block 256) 0 256 0 common_strategy)).
  rewrite !bind_ret_l. cbn [m_status_buf m_url_buf m_name_buf m_value_buf].
  destruct (clear_has _ new_ok) as (cb & Hc & Hok & _).
  rewrite http_message_new_eq, bind_ret_l, Hc, !bind_ret_l.
  eexists. split; [done|]. split; [|done]. constructor; try done. by left.
Qed.

Lemma messages_run rs : ∀ p,
  idle p → forallb rmsg_ok rs = true →
  ∃ p' ms, run_events p (flat_map events_of rs) = Ret p' ∧ idle p' ∧
    delivered p' = delivered p ++ ms ∧ Forall2 msg_is ms (map abstract rs).
Proof.
  induction rs as [|r rs IH]; intros p Hi Hok; cbn [flat_map map].
  - exists p, []. rewrite app_nil_r. by split_and!; [| | |constructor].
  - cbn in Hok. apply andb_true_iff in Hok as [Hr Hok]. rewrite run_app.
    destruct (message_run r p Hi Hr) as (p1 & m & -> & Hi1 & Hd1 & Hm). rewrite bind_ret_l.
    destruct (IH p1 Hi1 Hok) as (p' & ms & -> & Hi' & Hd' & Hms).
    exists p', (m :: ms). split_and!; [done..| |by constructor]. by rewrite Hd', Hd1, <- app_assoc.
Qed.

(** ** Properties *)

(** C5: The message parser delivers every message of a connection exactly once, in
    order and intact: for any sequence of requests and responses, however llhttp cuts
    URLs, header names, header values and bodies into callbacks (pieces up to 256
    bytes, URLs below 512), a new parser hands over one message per message, each
    with the method, target, status, reason, minor version, header list (names in
    upper case, in order, repeated headers kept) and body of the concatenated pieces. *)
Theorem http_parser_delivers rs :
  forallb rmsg_ok rs = true →
  ∃ p p', http_message_parser_new = Ret p ∧
    run_events p (flat_map events_of rs) = Ret p' ∧
    Forall2 msg_is (delivered p') (map abstract rs).
Proof.
  intros Hok. destruct new_idle as (p & Hp & Hi & Hd).
  destruct (messages_run rs p Hi Hok) as (p' & ms & Hr & _ & Hd' & Hms).
  exists p, p'. split_and!; [done..|]. by rewrite Hd', Hd.
Qed.

(** C6: Parse then serialise: the message delivered for a parsed message serialises to
    the canonical wire form of what was parsed (first line, headers with upper-case
    names, empty line, body), whatever the cutting into callbacks. *)
Theorem http_parse_serialize llhttp_method_name r :
  rmsg_ok r = true → Zlen (a_text llhttp_method_name (abstract r)) + 100 < INT_MAX →
  ∃ p p' m b, http_message_parser_new = Ret p ∧ run_events p (events_of r) = Ret p' ∧
    delivered p' = [m] ∧ http_message_serialize llhttp_method_name m = Ret b ∧
    iob_text b (a_text llhttp_method_name (abstract r)).
Proof.
  intros Hok Hl. destruct new_idle as (p & Hp & Hi & Hd).
  destruct (message_run r p Hi Hok) as (p' & m & Hr & _ & Hd' & Hm).
  destruct (serialize_ok llhttp_method_name m _ Hm Hl) as (b & Hb & Ht).
  exists p, p', m, b. rewrite Hd in Hd'. by split_and!.
Qed.

(** A status phrase that llhttp reports in two pieces (a response line cut by a
    read) aborts the program: the second piece sets a reason that is already set. *)
Theorem http_parser_split_status_aborts a b st :
  small a = true → small b = true → a ≠ [] →
  ∃ p, http_message_parser_new = Ret p ∧
    run_events p [on_message_begin; on_status a st; on_status b st] = AssertFail.
Proof.
  intros Ha Hb Hne. destruct new_idle as (p & Hp & Hi & _). exists p. split; [done|].
  destruct (begin_ok p Hi) as (p1 & Hb1 & Hm1 & _).
  cbn [run_events dispatch]. rewrite Hb1, bind_ret_l.
  destruct (start_run p1 (StatusLine st a) Hm1) as (p2 & m2 & Hr2 & (r & Hr & ->) & Hm2 & _).
  { cbn. rewrite Ha. by rewrite bool_decide_false. }
  cbn [start_events run_events dispatch] in Hr2.
  destruct (status_data_cb p1 a st) as [p2'| |]; try done. injection Hr2 as ->. rewrite bind_ret_l.
  destruct Hm2 as [Hcm _ Hs2 _ _ _]. unfold status_data_cb. rewrite Hcm. cbn [deref]. rewrite bind_ret_l.
  destruct Hr as (Hrok & Hrb & _ & _).
  assert (m_length r ≠ 0) as Hrl.
  { intros H0. apply Hne. unfold cb_bytes in Hrb. rewrite H0 in Hrb. by destruct a. }
  destruct (append_has (m_status_buf p2) a b Hs2) as (s' & Hs' & _); [..|rewrite Hs', bind_ret_l].
  - unfold small in Hb. by apply andb_true_iff in Hb as [Hb%Nat.leb_le _].
  - unfold small in Ha, Hb. apply andb_true_iff in Ha as [Ha%Nat.leb_le _].
    apply andb_true_iff in Hb as [Hb%Nat.leb_le _]. unfold Zlen. lia.
  - unfold http_message_set_reason_cbuffer. cbn [reason put_reason http_message_set_status
      http_message_set_is_request deref]. rewrite bind_ret_l. unfold Cbuffer_size.
    by rewrite (proj2 (Z.eqb_neq _ _)).
Qed.

(** A URL of 512 bytes up to one megabyte reported in one piece (a single read)
    overruns the URL buffer by the terminator, with any parser waiting for a message. *)
Theorem http_parser_long_url_overflows url :
  512 ≤ Zlen url ≤ 1048576 →
  ∃ p, http_message_parser_new = Ret p ∧ run_events p [on_message_begin; on_url url] = Ub.
Proof.
  intros Hl. destruct http_message_parser_new as [p| |] eqn:E; [|done..]. exists p. split; [done|].
  injection E as <-. cbn [run_events dispatch].
  set (p0 := mkParser _ _ _ _ _ _ _ _).
  assert (∃ p1, message_begin_cb p0 = Ret p1 ∧ is_Some (current_message_ptr p1) ∧ cb_ok (m_url_buf p1) ∧
    m_length (m_url_buf p1) = 0 ∧ m_capacity (m_url_buf p1) = 256) as (p1 & Hp1 & [m Hm] & Hok & Hl0 & Hc0).
  { eexists. split; [reflexivity|]. split_and!; done. }
  rewrite Hp1, bind_ret_l. unfold url_data_cb. rewrite Hm. cbn [deref]. rewrite bind_ret_l.
  unfold Zlen in *. rewrite <- msize_init in *. rewrite (append_overflows _ Hok); [done|..].
  - intros He. rewrite He in Hl. change (msize []) with 0 in Hl. lia.
  - lia.
  - unfold cb_fits. lia.
Qed.

(** Feeding a read buffer: whatever llhttp does with the bytes, if it reports no
    error the buffer is emptied, and if it reports one (also when an upgrade or a
    pause stops it) the buffer is left exactly as it was. *)
Lemma consume_buffer_ok {llhttp_t llhttp_errno_t} `{EqDecision llhttp_errno_t}
    (HPE_OK : llhttp_errno_t) (llhttp_execute : llhttp_t → mem → llhttp_t * list event * llhttp_errno_t)
    llhttp_finish llhttp_message_needs_eof parser parser' ll ll' es e iob :
  iob_ok iob → IOBuffer_data_len iob ≠ 0 →
  llhttp_execute ll (iob_data iob) = (ll', es, e) → run_events parser es = Ret parser' →
  ∃ iob', http_message_parser_consume_buffer HPE_OK llhttp_execute llhttp_finish
            llhttp_message_needs_eof parser ll iob = Ret (parser', ll', iob', e) ∧
    (e = HPE_OK → IOBuffer_data_len iob' = 0 ∧ IOBuffer_data iob' = 0) ∧
    (e ≠ HPE_OK → iob' = iob).
Proof.
  intros Hok Hne Hex Hrun. unfold http_message_parser_consume_buffer, IOBuffer_data_len in *.
  rewrite (proj2 (Z.eqb_neq _ _)) by done. cbn [andb].
  rewrite mem_load_ok by (destruct Hok; unfold IOBuffer_data; lia). rewrite bind_ret_l.
  fold (iob_data iob). unfold IOBuffer_data. fold (iob_data iob). rewrite Hex, !bind_ret_l, Hrun, bind_ret_l.
  destruct (decide (e = HPE_OK)) as [->|He].
  - destruct (consume_ok iob (buffer_remaining iob) Hok) as (iob' & -> & _ & _ & _ & Hr & Hp & _);
      [destruct Hok; lia|]. rewrite bind_ret_l. exists iob'. split; [done|]. split; [|done].
    intros _. rewrite Z.eqb_refl in Hp. split; lia.
  - exists iob. by split_and!.
Qed.

(** ** Witnesses *)

Definition ex_request : rmsg :=
  mkR (RequestLine 1 [bytes "/a"; bytes "b"]) 1 1
    [([bytes "Ho"; bytes "st"], [bytes "exa"; bytes "mple"]); ([bytes "Accept"], [[]])] [bytes "he"; bytes "llo"].
Definition ex_response : rmsg :=
  mkR (StatusLine 200 (bytes "OK")) 1 1 [] [].

Lemma http_parser_delivers_witness :
  ∃ p p', http_message_parser_new = Ret p ∧
    run_events p (flat_map events_of [ex_request; ex_response]) = Ret p' ∧
    Forall2 msg_is (delivered p')
      [mkAmsg true 1 (bytes "/ab") 0 [] 1 [(bytes "HOST", bytes "example"); (bytes "ACCEPT", [])] (bytes "hello");
       mkAmsg false 0 [] 200 (bytes "OK") 1 [] []].
Proof. apply (http_parser_delivers [ex_request; ex_response]). vm_compute. reflexivity. Defined.

Lemma http_parse_serialize_witness :
  ∃ p p' m b, http_message_parser_new = Ret p ∧ run_events p (events_of ex_request) = Ret p' ∧
    delivered p' = [m] ∧ http_message_serialize ex_method_name m = Ret b ∧
    iob_text b (a_text ex_method_name (abstract ex_request)).
Proof. apply (http_parse_serialize ex_method_name ex_request); vm_compute; reflexivity. Defined.

Lemma http_parser_split_status_aborts_witness :
  ∃ p, http_message_parser_new = Ret p ∧
    run_events p [on_message_begin; on_status (bytes "Not ") 404; on_status (bytes "Found") 404] = AssertFail.
Proof. apply http_parser_split_status_aborts; [reflexivity|reflexivity|discriminate]. Defined.

Lemma http_parser_long_url_overflows_witness :
  ∃ p, http_message_parser_new = Ret p ∧
    run_events p [on_message_begin; on_url (replicate 512 x61)] = Ub.
Proof. apply (http_parser_long_url_overflows (replicate 512 x61)). vm_compute. split; discriminate. Defined.
