(* ===== verification/FunctorList.v ===== *)
(** * FunctorList: the ring of ready callbacks (src/runloop/epoll_runloop/functor_list.c,
    functor.c)

    One slot of the ring stays unused, so a list of capacity [c] holds [c - 1]
    functors. *)

From S2P Require Import Prelude.
Open Scope Z_scope.

Definition runloop_MAX_FDS : Z := 1024.
Definition runloop_READY_LIST_MAX : Z := 2 * runloop_MAX_FDS.

Section FunctorList.
(** Function pointers and their arguments; [None] is NULL. *)
Context {fn arg_t : Type}.

Record Functor := mkFunctor { f : option fn; arg : option arg_t }.

Definition Functor_new (g : option fn) (a : option arg_t) : Functor := mkFunctor g a.
Definition Functor_init (this : Functor) (g : option fn) (a : option arg_t) : Functor := mkFunctor g a.
Definition Functor_free (this : option Functor) : outcome (option Functor) :=
  match this with Some _ => Ret None | None => Ub end.
Definition Functor_is_empty (this : Functor) : bool :=
  match f this, arg this with None, None => true | _, _ => false end.

(** A slot never written is [None]. *)
Record FunctorList := mkFL {
  capacity : Z;
  head : Z;
  tail_plus : Z;
  list_ : list (option Functor)
}.

(** [a % b] of C [int]s. *)
Definition irem (a b : Z) : outcome Z := if b =? 0 then Ub else Ret (Z.rem a b).

Definition set_functor_entry (l : FunctorList) (index : Z) (func : Functor) : outcome FunctorList :=
  if (0 <=? index) && (index <? Zlen (list_ l))
  then Ret (mkFL (capacity l) (head l) (tail_plus l) (<[Z.to_nat index := Some func]> (list_ l)))
  else Ub.
Definition get_functor_entry (l : FunctorList) (index : Z) : outcome Functor :=
  if 0 <=? index then deref (mjoin (list_ l !! Z.to_nat index)) else Ub.

Definition functor_list_new (cap : Z) : outcome FunctorList :=
  c_assert (cap <=? runloop_READY_LIST_MAX);;
  Ret (mkFL cap 0 0 (replicate (Z.to_nat (cap + 1)) None)).

Definition functor_list_free (this : option FunctorList) : outcome (option FunctorList) :=
  match this with Some _ => Ret None | None => Ub end.

Definition functor_list_size (l : FunctorList) : outcome Z :=
  irem (head l + capacity l - tail_plus l) (capacity l).

Definition functor_list_add (l : FunctorList) (func : Functor) : outcome FunctorList :=
  tmp ← irem (head l + 1) (capacity l);
  c_assert (negb (tmp =? tail_plus l));;
  set_functor_entry (mkFL (capacity l) tmp (tail_plus l) (list_ l)) tmp func.

Definition functor_list_remove (l : FunctorList) : outcome (FunctorList * Functor) :=
  n ← functor_list_size l;
  c_assert (negb (n =? 0));;
  tmpix ← irem (tail_plus l + 1) (capacity l);
  let l := mkFL (capacity l) (head l) tmpix (list_ l) in
  func ← get_functor_entry l tmpix;
  Ret (l, func).

(** ** Representation *)

(** The ring holds [xs], oldest first, from the slot after [tail_plus] to [head]. *)
Record fl_rep (l : FunctorList) (xs : list Functor) : Prop := {
  fr_cap : 1 ≤ capacity l ≤ runloop_READY_LIST_MAX;
  fr_len : Zlen (list_ l) = capacity l + 1;
  fr_tail : 0 ≤ tail_plus l < capacity l;
  fr_head : head l = (tail_plus l + Zlen xs) mod capacity l;
  fr_room : Zlen xs < capacity l;
  fr_at : ∀ i x, xs !! i = Some x →
            list_ l !! Z.to_nat ((tail_plus l + 1 + Z.of_nat i) mod capacity l) = Some (Some x)
}.

(** ** Lemmas *)

Lemma irem_ok a b : 0 ≤ a → 0 < b → irem a b = Ret (a mod b).
Proof.
  intros. unfold irem. rewrite (proj2 (Z.eqb_neq _ _)) by lia. f_equal. apply Z.rem_mod_nonneg; lia.
Qed.

Lemma fl_new_ok cap :
  1 ≤ cap ≤ runloop_READY_LIST_MAX → ∃ l, functor_list_new cap = Ret l ∧ fl_rep l [] ∧ capacity l = cap.
Proof.
  intros Hc. unfold functor_list_new. rewrite assert_true by (bool_prop; lia). rewrite bind_ret_l.
  eexists. split; [done|]. split; [|done].
  constructor; cbn [capacity head tail_plus list_]; try done; unfold Zlen;
    rewrite ?length_replicate; cbn [length]; try lia.
Qed.

Lemma fl_size_ok l xs : fl_rep l xs → functor_list_size l = Ret (Zlen xs).
Proof.
  intros [Hc Hl Ht Hh Hr _]. unfold functor_list_size. pose proof (Zlen_nonneg xs).
  pose proof (Z.mod_pos_bound (tail_plus l + Zlen xs) (capacity l)).
  rewrite irem_ok by lia. f_equal. rewrite Hh.
  replace ((tail_plus l + Zlen xs) mod capacity l + capacity l - tail_plus l)
    with ((tail_plus l + Zlen xs) mod capacity l + (capacity l - tail_plus l)) by lia.
  rewrite Zplus_mod_idemp_l.
  replace (tail_plus l + Zlen xs + (capacity l - tail_plus l)) with (Zlen xs + 1 * capacity l) by lia.
  rewrite Z_mod_plus_full. apply Z.mod_small. lia.
Qed.

Lemma fl_add_ok l xs x :
  fl_rep l xs → Zlen xs + 1 < capacity l →
  ∃ l', functor_list_add l x = Ret l' ∧ fl_rep l' (xs ++ [x]) ∧ capacity l' = capacity l.
Proof.
  intros [Hc Hl Ht Hh Hr Ha] Hroom. unfold functor_list_add. pose proof (Zlen_nonneg xs).
  pose proof (Z.mod_pos_bound (tail_plus l + Zlen xs) (capacity l)).
  rewrite irem_ok by lia. rewrite bind_ret_l, Hh, Zplus_mod_idemp_l.
  set (slot := (tail_plus l + Zlen xs + 1) mod capacity l).
  assert (0 ≤ slot < capacity l) as Hs by (apply Z.mod_pos_bound; lia).
  assert (slot ≠ tail_plus l) as Hne.
  { unfold slot. intros He. assert (Zlen xs + 1 = 0); [|lia].
    apply (ring_slot_inj (capacity l) (tail_plus l)); [lia..|].
    rewrite Z.add_0_r, (Z.mod_small (tail_plus l)), Z.add_assoc by lia. done. }
  rewrite assert_true by (apply negb_true_iff, Z.eqb_neq; done). rewrite bind_ret_l.
  unfold set_functor_entry. cbn [capacity head tail_plus list_].
  rewrite (proj2 (Z.leb_le _ _)), (proj2 (Z.ltb_lt _ _)) by lia. cbn [andb].
  eexists. split; [done|]. split; [|done].
  constructor; cbn [capacity head tail_plus list_]; rewrite ?Zlen_app; try done;
    change (Zlen [x]) with 1; try lia.
  - unfold Zlen in *. by rewrite length_insert.
  - unfold slot. f_equal. lia.
  - intros i y Hi. pose proof (lookup_lt_Some _ _ _ Hi) as Hil. rewrite length_app in Hil. cbn in Hil.
    pose proof (Z.mod_pos_bound (tail_plus l + 1 + Z.of_nat i) (capacity l)).
    rewrite list_lookup_insert. case_decide as Hd.
    + assert (Z.of_nat i = Zlen xs) as Hieq.
      { apply (ring_slot_inj (capacity l) (tail_plus l + 1)); try (unfold Zlen in *; lia).
        replace (tail_plus l + 1 + Zlen xs) with (tail_plus l + Zlen xs + 1) by lia. fold slot. lia. }
      assert (i = length xs) as -> by (unfold Zlen in *; lia).
      rewrite list_lookup_middle in Hi by done. by injection Hi as <-.
    + apply Ha. rewrite lookup_app_l in Hi; [done|].
      destruct (decide (i = length xs)) as [->|]; [|lia]. exfalso. apply Hd.
      replace (tail_plus l + 1 + Z.of_nat (length xs)) with (tail_plus l + Zlen xs + 1)
        by (unfold Zlen; lia). fold slot. unfold Zlen in *. lia.
Qed.

Lemma fl_add_full l xs x :
  fl_rep l xs → Zlen xs + 1 = capacity l → functor_list_add l x = AssertFail.
Proof.
  intros [Hc Hl Ht Hh Hr Ha] Hroom. unfold functor_list_add. pose proof (Zlen_nonneg xs).
  pose proof (Z.mod_pos_bound (tail_plus l + Zlen xs) (capacity l)).
  rewrite irem_ok by lia. rewrite bind_ret_l, Hh, Zplus_mod_idemp_l.
  replace (tail_plus l + Zlen xs + 1) with (tail_plus l + 1 * capacity l) by lia.
  rewrite Z_mod_plus_full, Z.mod_small, Z.eqb_refl by lia. done.
Qed.

Lemma fl_remove_ok l x xs :
  fl_rep l (x :: xs) →
  ∃ l', functor_list_remove l = Ret (l', x) ∧ fl_rep l' xs ∧ capacity l' = capacity l.
Proof.
  intros Hrep. pose proof (fl_size_ok _ _ Hrep) as Hsz. destruct Hrep as [Hc Hl Ht Hh Hr Ha].
  unfold functor_list_remove. rewrite Hsz, bind_ret_l. rewrite Zlen_cons in *. pose proof (Zlen_nonneg xs).
  rewrite assert_true by (apply negb_true_iff, Z.eqb_neq; lia). rewrite bind_ret_l.
  rewrite irem_ok by lia. rewrite bind_ret_l. unfold get_functor_entry. cbn [list_].
  pose proof (Z.mod_pos_bound (tail_plus l + 1) (capacity l)).
  rewrite (proj2 (Z.leb_le _ _)) by lia.
  pose proof (Ha 0%nat x eq_refl) as Hx. rewrite Z.add_0_r in Hx. rewrite Hx. cbn [mjoin option_join deref].
  rewrite bind_ret_l. eexists. split; [done|]. split; [|done].
  constructor; cbn [capacity head tail_plus list_]; try done; try lia.
  - rewrite Hh, Zplus_mod_idemp_l. f_equal. lia.
  - intros i y Hi. rewrite <- (Ha (S i) y Hi). rewrite <- Z.add_assoc, Zplus_mod_idemp_l. do 3 f_equal. lia.
Qed.

Lemma fl_remove_empty l : fl_rep l [] → functor_list_remove l = AssertFail.
Proof. intros Hrep. unfold functor_list_remove. by rewrite (fl_size_ok _ _ Hrep). Qed.

(** ** Refinement of a bounded FIFO *)

Inductive fl_op := FAdd (x : Functor) | FRemove.

Fixpoint fl_run (l : FunctorList) (ops : list fl_op) : outcome (FunctorList * list Functor) :=
  match ops with
  | [] => Ret (l, [])
  | FAdd x :: ops => l ← functor_list_add l x; fl_run l ops
  | FRemove :: ops =>
      '(l, x) ← functor_list_remove l;
      '(l, out) ← fl_run l ops;
      Ret (l, x :: out)
  end.

(** [None] is the abort: adding to a full list or removing from an empty one. *)
Fixpoint fifo_spec (bound : Z) (xs : list Functor) (ops : list fl_op) : option (list Functor * list Functor) :=
  match ops with
  | [] => Some (xs, [])
  | FAdd x :: ops => if Zlen xs <? bound then fifo_spec bound (xs ++ [x]) ops else None
  | FRemove :: ops =>
      match xs with
      | [] => None
      | x :: xs => '(ys, out) ← fifo_spec bound xs ops; Some (ys, x :: out)
      end
  end.

Lemma fl_run_ok ops : ∀ l xs,
  fl_rep l xs →
  match fifo_spec (capacity l - 1) xs ops with
  | Some (ys, out) => ∃ l', fl_run l ops = Ret (l', out) ∧ fl_rep l' ys
  | None => fl_run l ops = AssertFail
  end.
Proof.
  induction ops as [|[x|] ops IH]; intros l xs Hrep; cbn [fifo_spec fl_run]; [eauto| |].
  - split_if.
    + destruct (fl_add_ok l xs x Hrep) as (l' & -> & Hrep' & Hc); [lia|]. rewrite bind_ret_l, <- Hc.
      by apply IH.
    + rewrite (fl_add_full l xs x Hrep); [done|]. destruct Hrep. lia.
  - destruct xs as [|x xs]; [by rewrite fl_remove_empty|].
    destruct (fl_remove_ok l x xs Hrep) as (l' & -> & Hrep' & Hc). rewrite bind_ret_l, <- Hc.
    specialize (IH l' xs Hrep'). destruct (fifo_spec (capacity l' - 1) xs ops) as [[ys out]|]; cbn.
    + destruct IH as (l2 & -> & ?). eauto.
    + by rewrite IH.
Qed.

(** ** Properties *)

(** The ready list is a first-in first-out queue of at most [capacity - 1]
    functors: from a new list, any sequence of additions and removals returns the
    functors in the order they were added, and the program aborts exactly when a
    functor is added to a list that already holds [capacity - 1] of them or one is
    removed from an empty list. *)
Theorem functor_list_refines_fifo cap ops :
  1 ≤ cap ≤ runloop_READY_LIST_MAX →
  ∃ l, functor_list_new cap = Ret l ∧
    match fifo_spec (cap - 1) [] ops with
    | Some (ys, out) => ∃ l', fl_run l ops = Ret (l', out) ∧ functor_list_size l' = Ret (Zlen ys)
    | None => fl_run l ops = AssertFail
    end.
Proof.
  intros Hc. destruct (fl_new_ok cap Hc) as (l & Hl & Hrep & Hcap). exists l. split; [done|].
  pose proof (fl_run_ok ops l [] Hrep) as H. rewrite Hcap in H.
  destruct (fifo_spec (cap - 1) [] ops) as [[ys out]|]; [|done].
  destruct H as (l' & Hr & Hrep'). exists l'. split; [done|]. by apply fl_size_ok.
Qed.
End FunctorList.

Arguments Functor : clear implicits.
Arguments FunctorList : clear implicits.
Arguments fl_op : clear implicits.

(** ** Witness *)

Definition ex_functor (n : nat) : Functor nat nat := mkFunctor (Some n) (Some n).

Lemma functor_list_refines_fifo_witness :
  ∃ l, functor_list_new (fn := nat) (arg_t := nat) 3 = Ret l ∧
    ∃ l', fl_run l [FAdd (ex_functor 1); FAdd (ex_functor 2); FRemove; FAdd (ex_functor 3)] =
            Ret (l', [ex_functor 1]) ∧ functor_list_size l' = Ret 2.
Proof.
  apply (functor_list_refines_fifo 3 [FAdd (ex_functor 1); FAdd (ex_functor 2); FRemove; FAdd (ex_functor 3)]).
  split; discriminate.
Defined.
