(* ===== verification/EventTable.v ===== *)
(** * EventTable: the pool of event objects of the kqueue loop
    (src/runloop/kqueue_runloop/event_table.c, event_table.c.h)

    Events live in an array of slabs; a queue of free indices says which slabs may be
    handed out. A pointer to an event is the index of its slab. Releasing a slab leaves
    its contents in place. *)

From S2P Require Import Prelude FunctorList.
Open Scope Z_scope.

Definition EVT_MAX : Z := 2048.

(** ** The queue of free indices *)

(** The fields are [uint16_t]; a slot never written is [None]. *)
Record FreeList := mkFree {
  count : Z;
  max_entries : Z;
  modulo_max : Z;
  rdix : Z;
  wrix : Z;
  buffer : list (option Z)
}.

Definition freelist_is_full (fl : FreeList) : bool := count fl =? max_entries fl.
Definition freelist_is_empty (fl : FreeList) : bool := count fl =? 0.

Definition freelist_add (fl : FreeList) (element : Z) : outcome FreeList :=
  c_assert (negb (freelist_is_full fl));;
  if (0 <=? wrix fl) && (wrix fl <? Zlen (buffer fl)) then
    w ← irem (wrix fl + 1) (modulo_max fl);
    Ret (mkFree (u16 (count fl + 1)) (max_entries fl) (modulo_max fl) (rdix fl) (u16 w)
      (<[Z.to_nat (wrix fl) := Some (u16 element)]> (buffer fl)))
  else Ub.

Definition freelist_get (fl : FreeList) : outcome (FreeList * Z) :=
  c_assert (negb (freelist_is_empty fl));;
  v ← (if 0 <=? rdix fl then deref (mjoin (buffer fl !! Z.to_nat (rdix fl))) else Ub);
  r ← irem (rdix fl + 1) (modulo_max fl);
  Ret (mkFree (u16 (count fl - 1)) (max_entries fl) (modulo_max fl) (u16 r) (wrix fl) (buffer fl), v).

Definition freelist_size (fl : FreeList) : Z := count fl.

Fixpoint init_loop (n : nat) (i : Z) (fl : FreeList) : outcome FreeList :=
  match n with O => Ret fl | S n => fl ← freelist_add fl i; init_loop n (i + 1) fl end.

Definition freelist_init : outcome FreeList :=
  init_loop (Z.to_nat EVT_MAX) 0 (mkFree 0 EVT_MAX (EVT_MAX + 1) 0 0 (replicate (Z.to_nat (EVT_MAX + 1)) None)).

(** ** The table *)

Section EventTable.
(** The event objects. *)
Context {E : Type}.

(** [entry] is the event last stored in the slab, [my_index] is set when the slab is
    first handed out. *)
Record MemorySlab := mkSlab { entry : option E; my_index : option Z }.
Record EventTable := mkTable { free_list : FreeList; memory : list MemorySlab }.

Definition event_table_init : outcome EventTable :=
  fl ← freelist_init;
  Ret (mkTable fl (replicate (Z.to_nat (EVT_MAX + 1)) (mkSlab None None))).
Definition event_table_new (malloc_ok : bool) : outcome EventTable := c_assert malloc_ok;; event_table_init.

Definition slab_at (ot : EventTable) (p : Z) : outcome MemorySlab :=
  if 0 <=? p then deref (memory ot !! Z.to_nat p) else Ub.
Definition put_slab (ot : EventTable) (p : Z) (m : MemorySlab) : EventTable :=
  mkTable (free_list ot) (<[Z.to_nat p := m]> (memory ot)).

Definition event_table_get_entry (ot : EventTable) : outcome (EventTable * Z) :=
  '(fl, ix) ← freelist_get (free_list ot);
  m ← slab_at ot ix;
  Ret (put_slab (mkTable fl (memory ot)) ix (mkSlab (entry m) (Some ix)), ix).

Definition event_table_release_entry (ot : EventTable) (p : Z) : outcome EventTable :=
  m ← slab_at ot p;
  ix ← deref (my_index m);
  fl ← freelist_add (free_list ot) ix;
  Ret (mkTable fl (memory ot)).

Definition event_table_number_in_use (et : EventTable) : Z :=
  max_entries (free_list et) - freelist_size (free_list et).
Definition event_table_has_outstanding_events (et : EventTable) : bool := negb (freelist_is_full (free_list et)).

(** Reading and writing an event through its pointer. *)
Definition get_event (et : EventTable) (p : Z) : outcome E := m ← slab_at et p; deref (entry m).
Definition set_event (et : EventTable) (p : Z) (e : E) : outcome EventTable :=
  m ← slab_at et p; Ret (put_slab et p (mkSlab (Some e) (my_index m))).

(** ** The pool a table stands for: the free entries in the order they will be handed
    out, and the entries ever handed out *)

Record pool := mkPool { free : list Z; seen : gset Z }.

Definition pool_get (a : pool) : outcome (pool * Z) :=
  match free a with [] => AssertFail | p :: xs => Ret (mkPool xs ({[p]} ∪ seen a), p) end.
Definition pool_release (p : Z) (a : pool) : outcome pool :=
  if decide (p ∈ seen a)
  then if Zlen (free a) <? EVT_MAX then Ret (mkPool (free a ++ [p]) (seen a)) else AssertFail
  else Ub.

Record free_rep (fl : FreeList) (xs : list Z) : Prop := {
  fr_max : max_entries fl = EVT_MAX;
  fr_mod : modulo_max fl = EVT_MAX + 1;
  fr_buf : Zlen (buffer fl) = EVT_MAX + 1;
  fr_count : count fl = Zlen xs;
  fr_room : Zlen xs ≤ EVT_MAX;
  fr_rdix : 0 ≤ rdix fl < EVT_MAX + 1;
  fr_wrix : wrix fl = (rdix fl + Zlen xs) mod (EVT_MAX + 1);
  fr_at : ∀ i x, xs !! i = Some x → buffer fl !! Z.to_nat ((rdix fl + Z.of_nat i) mod (EVT_MAX + 1)) = Some (Some x);
  fr_small : Forall (λ x, 0 ≤ x < EVT_MAX) xs
}.

Record table_rep (t : EventTable) (a : pool) : Prop := {
  tr_free : free_rep (free_list t) (free a);
  tr_size : Zlen (memory t) = EVT_MAX + 1;
  tr_seen : ∀ p, p ∈ seen a → 0 ≤ p < EVT_MAX ∧ my_index <$> memory t !! Z.to_nat p = Some (Some p);
  tr_unseen : ∀ p, 0 ≤ p → p ∉ seen a → mjoin (my_index <$> memory t !! Z.to_nat p) = None
}.

(** ** Lemmas *)

Lemma free_add_ok fl xs x :
  free_rep fl xs → 0 ≤ x < EVT_MAX →
  refines (λ fl' ys, free_rep fl' ys) (freelist_add fl x) (if Zlen xs <? EVT_MAX then Ret (xs ++ [x]) else AssertFail).
Proof.
  intros [Hmax Hmod Hbuf Hc Hr Hrd Hw Ha Hs] Hx. unfold freelist_add, freelist_is_full. rewrite Hc, Hmax.
  pose proof (Zlen_nonneg xs). destruct (Z.ltb_spec (Zlen xs) EVT_MAX) as [Hlt|Hge]; cbn [refines];
    [|rewrite (proj2 (Z.eqb_eq _ _)) by lia; done].
  rewrite (proj2 (Z.eqb_neq _ _)) by lia. cbn [negb c_assert]. rewrite bind_ret_l, Hmod.
  assert (0 ≤ wrix fl < EVT_MAX + 1) as Hwr by (rewrite Hw; apply Z.mod_pos_bound; unfold EVT_MAX; lia).
  rewrite (proj2 (Z.leb_le _ _)), (proj2 (Z.ltb_lt _ _)) by lia. cbn [andb].
  rewrite irem_ok, bind_ret_l by (unfold EVT_MAX; lia).
  pose proof (Z.mod_pos_bound (wrix fl + 1) (EVT_MAX + 1)) as Hb.
  assert (EVT_MAX = 2048) as HM by done.
  rewrite !u16_small by lia. eexists. split; [done|].
  constructor; cbn [max_entries modulo_max buffer count rdix wrix]; rewrite ?Zlen_app; change (Zlen [x]) with 1; try done; try lia.
  - unfold Zlen in *. by rewrite length_insert.
  - rewrite Hw, Zplus_mod_idemp_l. f_equal. lia.
  - intros i y Hi. pose proof (lookup_lt_Some _ _ _ Hi) as Hil. rewrite length_app in Hil. cbn in Hil.
    pose proof (Z.mod_pos_bound (rdix fl + Z.of_nat i) (EVT_MAX + 1)).
    rewrite list_lookup_insert. case_decide as Hd.
    + assert (Z.of_nat i = Zlen xs) as Hieq
        by (apply (ring_slot_inj (EVT_MAX + 1) (rdix fl)); unfold Zlen in *; lia).
      assert (i = length xs) as -> by (unfold Zlen in *; lia).
      rewrite list_lookup_middle in Hi by done. by injection Hi as <-.
    + apply Ha. rewrite lookup_app_l in Hi; [done|].
      destruct (decide (i = length xs)) as [->|]; [|lia]. exfalso. apply Hd. fold (Zlen xs) in *. unfold Zlen in *. lia.
  - apply Forall_app. split; [done|]. by constructor.
Qed.

Lemma free_get_ok fl xs :
  free_rep fl xs →
  match xs with
  | [] => freelist_get fl = AssertFail
  | x :: xs => ∃ fl', freelist_get fl = Ret (fl', x) ∧ free_rep fl' xs
  end.
Proof.
  intros [Hmax Hmod Hbuf Hc Hr Hrd Hw Ha Hs]. unfold freelist_get, freelist_is_empty. rewrite Hc.
  destruct xs as [|x xs]; [done|]. rewrite Zlen_cons in *. pose proof (Zlen_nonneg xs).
  assert (EVT_MAX = 2048) as HM by done.
  rewrite (proj2 (Z.eqb_neq _ _)) by lia. cbn [negb c_assert]. rewrite bind_ret_l.
  rewrite (proj2 (Z.leb_le _ _)) by lia.
  pose proof (Ha 0%nat x eq_refl) as Hx. rewrite Z.add_0_r, Z.mod_small in Hx by lia. rewrite Hx.
  cbn [mjoin option_join deref]. rewrite bind_ret_l, Hmod, irem_ok, bind_ret_l by lia.
  pose proof (Z.mod_pos_bound (rdix fl + 1) (EVT_MAX + 1)) as Hb. rewrite !u16_small by lia.
  eexists. split; [done|]. apply Forall_cons in Hs as [_ Hs].
  constructor; cbn [max_entries modulo_max buffer count rdix wrix]; try done; try lia.
  - rewrite Hw, Zplus_mod_idemp_l. f_equal. lia.
  - intros i y Hi. rewrite <- (Ha (S i) y Hi). rewrite Zplus_mod_idemp_l. do 3 f_equal. lia.
Qed.

Lemma init_loop_ok n : ∀ i fl xs,
  free_rep fl xs → 0 ≤ i → i + Z.of_nat n ≤ EVT_MAX → Zlen xs = i →
  ∃ fl', init_loop n i fl = Ret fl' ∧ free_rep fl' (xs ++ seqZ i (Z.of_nat n)).
Proof.
  induction n as [|n IH]; intros i fl xs Hrep Hi Hn Hx; cbn [init_loop].
  - exists fl. split; [done|]. cbn. by rewrite app_nil_r.
  - pose proof (free_add_ok fl xs i Hrep) as H. rewrite (proj2 (Z.ltb_lt _ _)) in H by lia.
    destruct H as (fl1 & -> & Hrep1); [lia|]. rewrite bind_ret_l.
    destruct (IH (i + 1) fl1 _ Hrep1) as (fl2 & Hfl & Hrep2);
      [lia|lia|rewrite Zlen_app; change (Zlen [i]) with 1; lia|].
    exists fl2. split; [done|]. rewrite <- app_assoc in Hrep2. cbn [app] in Hrep2.
    rewrite seqZ_cons by lia. replace (Z.succ i) with (i + 1) by lia.
    replace (Z.pred (Z.of_nat (S n))) with (Z.of_nat n) by lia. done.
Qed.

Lemma freelist_init_ok : ∃ fl, freelist_init = Ret fl ∧ free_rep fl (seqZ 0 EVT_MAX).
Proof.
  unfold freelist_init.
  match goal with |- context [init_loop _ _ ?fl] => destruct (init_loop_ok (Z.to_nat EVT_MAX) 0 fl []) as (fl' & H & Hr) end.
  - constructor; cbn [max_entries modulo_max buffer count rdix wrix]; done.
  - lia.
  - unfold EVT_MAX. lia.
  - done.
  - exists fl'. split; [exact H|]. by rewrite Z2Nat.id in Hr by done.
Qed.

Definition full_pool : pool := mkPool (seqZ 0 EVT_MAX) ∅.

Lemma table_new_ok : ∃ t, event_table_new true = Ret t ∧ table_rep t full_pool.
Proof.
  unfold event_table_new, event_table_init. destruct freelist_init_ok as (fl & -> & Hr). cbn [c_assert].
  rewrite !bind_ret_l. eexists. split; [done|]. constructor; cbn [free_list memory free seen].
  - exact Hr.
  - unfold Zlen. rewrite length_replicate. by rewrite Z2Nat.id.
  - intros p Hp. by apply elem_of_empty in Hp.
  - intros p Hp _. destruct (replicate _ _ !! Z.to_nat p) as [m|] eqn:El; [|done].
    by apply lookup_replicate in El as [-> _].
Qed.

Lemma get_entry_ok t a :
  table_rep t a → refines (λ r s, snd r = snd s ∧ table_rep (fst r) (fst s)) (event_table_get_entry t) (pool_get a).
Proof.
  intros [Hf Hsz Hseen Hun]. unfold event_table_get_entry, pool_get. pose proof (free_get_ok _ _ Hf) as H.
  destruct (free a) as [|p xs] eqn:Ef; [by rewrite H|]. destruct H as (fl & -> & Hf'). rewrite bind_ret_l.
  pose proof (proj1 (proj1 (Forall_cons _ _ _) (fr_small _ _ Hf))) as Hp.
  unfold slab_at. rewrite (proj2 (Z.leb_le _ _)) by lia.
  destruct (lookup_lt_is_Some_2 (memory t) (Z.to_nat p)) as [m Hm]; [unfold Zlen in *; lia|].
  rewrite Hm. cbn [deref]. rewrite bind_ret_l. eexists. split; [done|]. split; [done|].
  unfold put_slab. cbn [fst snd]. constructor; cbn [free_list memory free seen].
  - done.
  - unfold Zlen in *. by rewrite length_insert.
  - intros q [->%elem_of_singleton|Hq]%elem_of_union.
    + split; [done|]. rewrite list_lookup_insert_eq by (unfold Zlen in *; lia). done.
    + destruct (Hseen q Hq) as [Hr Hl]. split; [done|]. destruct (decide (p = q)) as [<-|Hne].
      * by rewrite list_lookup_insert_eq by (unfold Zlen in *; lia).
      * by rewrite list_lookup_insert_ne by lia.
  - intros q Hq [Hne Hnot]%not_elem_of_union. apply not_elem_of_singleton in Hne.
    rewrite list_lookup_insert_ne by lia. by apply Hun.
Qed.

Lemma release_ok t a p :
  table_rep t a → refines table_rep (event_table_release_entry t p) (pool_release p a).
Proof.
  intros [Hf Hsz Hseen Hun]. unfold event_table_release_entry, pool_release, slab_at.
  destruct (decide (p ∈ seen a)) as [Hp|Hp].
  - destruct (Hseen p Hp) as [Hr Hl]. rewrite (proj2 (Z.leb_le _ _)) by lia.
    destruct (memory t !! Z.to_nat p) as [m|]; [|done]. cbn in Hl. injection Hl as Hl. cbn [deref].
    rewrite bind_ret_l, Hl. cbn [deref]. rewrite bind_ret_l.
    pose proof (free_add_ok (free_list t) (free a) p Hf Hr) as H. destruct (Zlen (free a) <? EVT_MAX); cbn [refines] in *.
    + destruct H as (fl & -> & Hf'). eexists. split; [done|]. by constructor.
    + by rewrite H.
  - cbn [refines]. destruct (Z.leb_spec 0 p) as [H0|H0]; [|done]. pose proof (Hun p H0 Hp) as Hl.
    destruct (memory t !! Z.to_nat p) as [m|]; [|done]. cbn in Hl. cbn [deref]. rewrite bind_ret_l. by rewrite Hl.
Qed.

Lemma get_release t t' p q : event_table_release_entry t p = Ret t' → get_event t' q = get_event t q.
Proof. unfold event_table_release_entry. by intros (? & _ & (? & _ & (? & _ & [= <-])%bind_ret_inv)%bind_ret_inv)%bind_ret_inv. Qed.

Lemma set_event_ok t a p e t' : table_rep t a → set_event t p e = Ret t' → table_rep t' a.
Proof.
  intros [Hf Hsz Hseen Hun] H. unfold set_event, slab_at in H. destruct (Z.leb_spec 0 p) as [Hp|]; [|done].
  destruct (memory t !! Z.to_nat p) as [m|] eqn:Em; [|done]. cbn [deref] in H. rewrite bind_ret_l in H. injection H as <-.
  assert (∀ q, 0 ≤ q → my_index <$> <[Z.to_nat p:=mkSlab (Some e) (my_index m)]> (memory t) !! Z.to_nat q = my_index <$> memory t !! Z.to_nat q) as Hix.
  { intros q Hq. destruct (decide (p = q)) as [<-|Hne]; [|by rewrite list_lookup_insert_ne by lia].
    by rewrite list_lookup_insert_eq, Em by (by eapply lookup_lt_Some). }
  constructor; cbn [put_slab free_list memory]; [done|unfold Zlen in *; by rewrite length_insert| |].
  - intros q Hq. destruct (Hseen q Hq) as [Hr Hl]. split; [done|]. by rewrite Hix by lia.
  - intros q Hq Hn. rewrite Hix by done. by apply Hun.
Qed.

Lemma get_set_event t p e t' : set_event t p e = Ret t' → get_event t' p = Ret e.
Proof.
  unfold set_event, get_event, slab_at. destruct (0 <=? p) eqn:Hp; [|done]. destruct (memory t !! Z.to_nat p) as [m|] eqn:Em; [|done].
  cbn [deref]. rewrite bind_ret_l. intros [= <-]. cbn [put_slab memory]. by rewrite list_lookup_insert_eq by (by eapply lookup_lt_Some).
Qed.
Lemma get_set_event_ne t p q e t' : set_event t p e = Ret t' → q ≠ p → get_event t' q = get_event t q.
Proof.
  unfold set_event, get_event, slab_at. destruct (Z.leb_spec 0 p); [|done]. destruct (memory t !! Z.to_nat p) as [m|] eqn:Em; [|done].
  cbn [deref]. rewrite bind_ret_l. intros [= <-] Hq. destruct (Z.leb_spec 0 q); [|done]. cbn [put_slab memory].
  by rewrite list_lookup_insert_ne by lia.
Qed.
(** Taking an entry changes the contents of none. *)
Lemma get_entry_others t t' p : event_table_get_entry t = Ret (t', p) → ∀ q, q ≠ p → get_event t' q = get_event t q.
Proof.
  unfold event_table_get_entry. intros H q Hq. apply bind_ret_inv in H as ([fl ix] & _ & H). apply bind_ret_inv in H as (m & Hm & H).
  injection H as <- <-. unfold slab_at in Hm. destruct (Z.leb_spec 0 ix); [|done].
  unfold get_event, slab_at. destruct (Z.leb_spec 0 q); [|done]. cbn [put_slab memory]. by rewrite list_lookup_insert_ne by lia.
Qed.

(** ** A client that releases only what it holds *)

Inductive client_op := CGet | CPut (k : nat).

(** [held] are the entries the client holds, the last one first; [CPut k] gives the
    [k]-th of them back. *)
Fixpoint client (ops : list client_op) (t : EventTable) (held : list Z) : outcome (EventTable * list Z) :=
  match ops with
  | [] => Ret (t, held)
  | CGet :: ops => '(t, p) ← event_table_get_entry t; client ops t (p :: held)
  | CPut k :: ops =>
      match held !! k with
      | Some p => t ← event_table_release_entry t p; client ops t (delete k held)
      | None => client ops t held
      end
  end.

(** How many entries the client holds in the end, when it never asks for more than
    there are. *)
Fixpoint holds_after (ops : list client_op) (n : nat) : option nat :=
  match ops with
  | [] => Some n
  | CGet :: ops => if Z.of_nat n <? EVT_MAX then holds_after ops (S n) else None
  | CPut k :: ops => holds_after ops (if (k <? n)%nat then pred n else n)
  end.

(** Every entry is either free or held. *)
Definition shared_out (a : pool) (held : list Z) : Prop :=
  held ++ free a ≡ₚ seqZ 0 EVT_MAX ∧ ∀ p, p ∈ held → p ∈ seen a.

Lemma shared_count a held : shared_out a held → Zlen held + Zlen (free a) = EVT_MAX.
Proof.
  intros [Hp _]. apply Permutation_length in Hp. rewrite length_app, length_seqZ in Hp. unfold Zlen, EVT_MAX in *. lia.
Qed.

Lemma client_ok ops : ∀ t a held,
  table_rep t a → shared_out a held →
  match holds_after ops (length held) with
  | Some n => ∃ t' a' held', client ops t held = Ret (t', held') ∧ table_rep t' a' ∧ shared_out a' held' ∧ length held' = n
  | None => client ops t held = AssertFail
  end.
Proof.
  induction ops as [|[|k] ops IH]; intros t a held Hrep Hsh; cbn [holds_after client].
  - by exists t, a, held.
  - pose proof (get_entry_ok t a Hrep) as H. pose proof (shared_count _ _ Hsh) as Hc. unfold pool_get in H.
    destruct (free a) as [|p xs] eqn:Ef; cbn [refines] in H.
    + rewrite (proj2 (Z.ltb_ge _ _)) by (unfold Zlen in Hc; cbn in Hc; lia). by rewrite H.
    + rewrite Zlen_cons in Hc. pose proof (Zlen_nonneg xs). rewrite (proj2 (Z.ltb_lt _ _)) by (unfold Zlen in Hc; lia).
      destruct H as ([t' q] & -> & Hq & Hrep'). cbn [fst snd] in *. subst q. rewrite bind_ret_l.
      apply (IH t' _ (p :: held) Hrep'). destruct Hsh as [Hperm Hin]. split; cbn [free seen].
      * rewrite <- Hperm, Ef. apply (Permutation_middle held xs p).
      * intros q [->|Hq]%elem_of_cons; set_solver.
  - destruct (held !! k) as [p|] eqn:Ek.
    + pose proof (lookup_lt_Some _ _ _ Ek) as Hk. rewrite (proj2 (Nat.ltb_lt _ _)) by done.
      pose proof (list_elem_of_lookup_2 _ _ _ Ek) as Hin. pose proof (shared_count _ _ Hsh) as Hc.
      pose proof (release_ok t a p Hrep) as H. unfold pool_release in H. destruct Hsh as [Hperm Hsub].
      rewrite decide_True in H by (by apply Hsub). rewrite (proj2 (Z.ltb_lt _ _)) in H by (unfold Zlen in *; lia).
      destruct H as (t' & -> & Hrep'). rewrite bind_ret_l.
      replace (pred (length held)) with (length (delete k held)) by (rewrite length_delete by eauto; lia).
      apply (IH t' _ _ Hrep'). pose proof (delete_Permutation held k p Ek) as Hd. split; cbn [free seen].
      * transitivity ((p :: delete k held) ++ free a); [|by rewrite <- Hd].
        rewrite app_assoc. symmetry. apply Permutation_cons_append.
      * intros q Hq. apply Hsub. rewrite Hd. by right.
    + apply lookup_ge_None in Ek. rewrite (proj2 (Nat.ltb_ge _ _)) by done. by apply (IH t a held).
Qed.

(** C22: The event pool never shares an object: from a new table, whatever order a client
    takes entries and gives back those it holds in, the entries it holds are always
    different and in range, the number in use is the number it holds, and the program
    aborts exactly when it asks for an entry while it holds all 2048. *)
Theorem event_table_exclusive ops :
  ∃ t, event_table_new true = Ret t ∧
  match holds_after ops 0 with
  | Some n => ∃ t' held, client ops t [] = Ret (t', held) ∧ length held = n ∧ NoDup held ∧
      Forall (λ p, 0 ≤ p < EVT_MAX) held ∧ event_table_number_in_use t' = Z.of_nat n
  | None => client ops t [] = AssertFail
  end.
Proof.
  destruct table_new_ok as (t & Ht & Hrep). exists t. split; [exact Ht|].
  pose proof (client_ok ops t full_pool [] Hrep) as H.
  specialize (H (conj (Permutation_refl _) (λ p Hp, match not_elem_of_nil p Hp with end))). cbn [length] in H.
  destruct (holds_after ops 0) as [n|]; [|exact H]. destruct H as (t' & a' & held & Hr & Hrep' & Hsh & Hn).
  exists t', held. split_and!; [exact Hr|exact Hn| | |].
  - destruct Hsh as [Hperm _]. assert (NoDup (held ++ free a')) as Hnd by (rewrite Hperm; apply NoDup_seqZ).
    by apply NoDup_app in Hnd as [? _].
  - apply Forall_forall. intros p Hp. apply (tr_seen _ _ Hrep'), (proj2 Hsh), Hp.
  - pose proof (shared_count _ _ Hsh) as Hc. destruct (tr_free _ _ Hrep') as [Hmax _ _ Hcnt _ _ _ _ _].
    unfold event_table_number_in_use, freelist_size. rewrite Hmax, Hcnt. unfold Zlen in *. lia.
Qed.
End EventTable.

Arguments MemorySlab : clear implicits.
Arguments EventTable : clear implicits.
