(* ===== verification/FdTable.v ===== *)
(** * FdTable: the table of watchers by file descriptor
    (src/runloop/epoll_runloop/fdtable.c, fd_map.c) *)

From S2P Require Import Prelude FunctorList.
Open Scope Z_scope.

Definition runloop_FDTABLE_MAX : Z := runloop_MAX_FDS.

(** The global [fd_map]. *)
Definition fd_map_init : list bool := replicate (Z.to_nat runloop_MAX_FDS) false.
Definition fd_map_at (m : list bool) (j : Z) : outcome bool :=
  c_assert ((0 <=? j) && (j <? runloop_MAX_FDS));;
  deref (m !! Z.to_nat j).
Definition fd_map_set (m : list bool) (j : Z) : outcome (list bool * bool) :=
  c_assert ((0 <=? j) && (j <? runloop_MAX_FDS));;
  Ret (<[Z.to_nat j := true]> m, true).

Section FdTable.
(** Watchers are pointers. *)
Context {watcher : Type}.

Record FdTable := mkTable { count : Z; entries : list (option watcher) }.

Definition FdTable_init : FdTable := mkTable 0 (replicate (Z.to_nat runloop_FDTABLE_MAX) None).
Definition FdTable_new : FdTable := FdTable_init.

(** [entries[fd]]: an index outside the array is undefined. *)
Definition entry (t : FdTable) (fd : Z) : outcome (option watcher) :=
  if 0 <=? fd then deref (entries t !! Z.to_nat fd) else Ub.

Definition FdTable_insert (this : FdTable) (w : watcher) (fd : Z) : outcome FdTable :=
  e ← entry this fd;
  c_assert (match e with None => true | Some _ => false end);;
  Ret (mkTable (u64 (count this + 1)) (<[Z.to_nat fd := Some w]> (entries this))).

Definition FdTable_remove (athis : FdTable) (fd : Z) : outcome FdTable :=
  e ← entry athis fd;
  c_assert (match e with None => false | Some _ => true end);;
  Ret (mkTable (u64 (count athis - 1)) (<[Z.to_nat fd := None]> (entries athis))).

Definition FdTable_lookup (this : FdTable) (fd : Z) : outcome watcher :=
  e ← entry this fd;
  match e with Some w => Ret w | None => AssertFail end.

(** The loop of the iterators: the first used entry from [i] on; [n] entries are left. *)
Fixpoint iter_from (n : nat) (t : FdTable) (i : Z) : outcome Z :=
  match n with
  | O => Ret (-1)
  | S n =>
      e ← entry t i;
      match e with Some _ => Ret i | None => iter_from n t (i + 1) end
  end.
Definition FdTable_iterator (this : FdTable) : outcome Z :=
  iter_from (Z.to_nat runloop_FDTABLE_MAX) this 0.
Definition FdTable_next_iterator (this : FdTable) (iter : Z) : outcome Z :=
  c_assert (iter + 1 <? runloop_FDTABLE_MAX);;
  iter_from (Z.to_nat (runloop_FDTABLE_MAX - (iter + 1))) this (iter + 1).

Definition FdTable_size (this : FdTable) : Z := count this.

(** The loop of [FdTable_free]. *)
Fixpoint free_from (n : nat) (t : FdTable) (i : Z) : outcome FdTable :=
  match n with
  | O => Ret t
  | S n =>
      e ← entry t i;
      t ← match e with Some _ => FdTable_remove t i | None => Ret t end;
      free_from n t (i + 1)
  end.
Definition FdTable_free (this : FdTable) : outcome FdTable :=
  free_from (Z.to_nat runloop_FDTABLE_MAX) this 0.

(** ** Invariant and lemmas *)

Definition used (l : list (option watcher)) : nat := length (omap id l).

Record table_ok (t : FdTable) : Prop := {
  to_len : length (entries t) = Z.to_nat runloop_FDTABLE_MAX;
  to_count : count t = Z.of_nat (used (entries t))
}.

(** The finite map a table stands for. *)
Definition table_map (t : FdTable) (fd : Z) : option watcher :=
  if 0 <=? fd then mjoin (entries t !! Z.to_nat fd) else None.

Lemma used_le l : (used l ≤ length l)%nat.
Proof. unfold used. induction l as [|[w|] l IH]; cbn in *; lia. Qed.

Lemma used_insert_some l i w : l !! i = Some None → used (<[i := Some w]> l) = S (used l).
Proof.
  unfold used. revert i. induction l as [|[v|] l IH]; intros [|i] H; cbn in *; try done.
  - f_equal. by apply IH.
  - by apply IH.
Qed.

Lemma used_insert_none l i w : l !! i = Some (Some w) → S (used (<[i := None]> l)) = used l.
Proof.
  unfold used. revert i. induction l as [|[v|] l IH]; intros [|i] H; cbn in *; try done.
  - f_equal. by apply IH.
  - by apply IH.
Qed.

Lemma entry_ok t fd :
  table_ok t → 0 ≤ fd < runloop_FDTABLE_MAX → entry t fd = Ret (table_map t fd) ∧
  entries t !! Z.to_nat fd = Some (table_map t fd).
Proof.
  intros [Hl _] Hfd. unfold entry, table_map. rewrite (proj2 (Z.leb_le _ _)) by lia.
  destruct (lookup_lt_is_Some_2 (entries t) (Z.to_nat fd)) as [e He]; [lia|]. by rewrite He.
Qed.

Lemma new_table_ok : table_ok FdTable_new.
Proof. constructor; reflexivity. Qed.

Lemma insert_ok t w fd :
  table_ok t → 0 ≤ fd < runloop_FDTABLE_MAX → table_map t fd = None →
  ∃ t', FdTable_insert t w fd = Ret t' ∧ table_ok t' ∧
    (∀ fd', table_map t' fd' = if decide (fd' = fd) then Some w else table_map t fd').
Proof.
  intros Ht Hfd Hn. destruct (entry_ok t fd Ht Hfd) as [He Hl]. rewrite Hn in *.
  unfold FdTable_insert. rewrite He, bind_ret_l. cbn [c_assert]. rewrite bind_ret_l.
  eexists. split; [done|]. destruct Ht as [Hlen Hc].
  pose proof (used_le (<[Z.to_nat fd := Some w]> (entries t))) as Hle.
  rewrite length_insert, Hlen in Hle. rewrite (used_insert_some _ _ w Hl) in Hle. split.
  - constructor; cbn [count entries]; [by rewrite length_insert|]. rewrite (used_insert_some _ _ w Hl), Hc.
    rewrite u64_small; [lia|]. unfold runloop_FDTABLE_MAX, runloop_MAX_FDS in *. lia.
  - intros fd'. unfold table_map. cbn. destruct (0 <=? fd') eqn:E; bool_prop.
    + rewrite list_lookup_insert. repeat case_decide; try lia; try done.
    + by rewrite decide_False by lia.
Qed.

Lemma remove_ok t w fd :
  table_ok t → 0 ≤ fd < runloop_FDTABLE_MAX → table_map t fd = Some w →
  ∃ t', FdTable_remove t fd = Ret t' ∧ table_ok t' ∧
    (∀ fd', table_map t' fd' = if decide (fd' = fd) then None else table_map t fd').
Proof.
  intros Ht Hfd Hn. destruct (entry_ok t fd Ht Hfd) as [He Hl]. rewrite Hn in *.
  unfold FdTable_remove. rewrite He, bind_ret_l. cbn [c_assert]. rewrite bind_ret_l.
  eexists. split; [done|]. destruct Ht as [Hlen Hc].
  pose proof (used_le (entries t)) as Hle. rewrite Hlen in Hle.
  pose proof (used_insert_none _ _ _ Hl) as Hu. split.
  - constructor; cbn [count entries]; [by rewrite length_insert|]. rewrite Hc.
    rewrite u64_small; [lia|]. unfold runloop_FDTABLE_MAX, runloop_MAX_FDS in *. lia.
  - intros fd'. unfold table_map. cbn. destruct (0 <=? fd') eqn:E; bool_prop.
    + rewrite list_lookup_insert. repeat case_decide; try lia; try done.
    + by rewrite decide_False by lia.
Qed.

Lemma lookup_ok t fd :
  table_ok t → 0 ≤ fd < runloop_FDTABLE_MAX →
  FdTable_lookup t fd = match table_map t fd with Some w => Ret w | None => AssertFail end.
Proof. intros Ht Hfd. unfold FdTable_lookup. by destruct (entry_ok t fd Ht Hfd) as [-> _]. Qed.

Lemma iter_from_ok t n : ∀ i,
  table_ok t → 0 ≤ i → i + Z.of_nat n = runloop_FDTABLE_MAX →
  ∃ r, iter_from n t i = Ret r ∧
    ((r = -1 ∧ ∀ fd, i ≤ fd < runloop_FDTABLE_MAX → table_map t fd = None) ∨
     (i ≤ r < runloop_FDTABLE_MAX ∧ is_Some (table_map t r) ∧ ∀ fd, i ≤ fd < r → table_map t fd = None)).
Proof.
  induction n as [|n IH]; intros i Ht Hi Hn; cbn [iter_from].
  - exists (-1). split; [done|]. left. split; [done|]. lia.
  - destruct (entry_ok t i Ht) as [-> _]; [lia|]. rewrite bind_ret_l.
    destruct (table_map t i) as [w|] eqn:E.
    + exists i. split; [done|]. right. split_and!; [lia|lia|eauto|lia].
    + destruct (IH (i + 1)) as (r & Hr & Hc); [done|lia|lia|]. exists r. split; [done|].
      destruct Hc as [[-> Hc]|(Hr1 & Hr2 & Hc)]; [left|right].
      * split; [done|]. intros fd Hfd. destruct (decide (fd = i)) as [->|]; [done|]. apply Hc. lia.
      * split_and!; [lia|lia|done|]. intros fd Hfd. destruct (decide (fd = i)) as [->|]; [done|]. apply Hc. lia.
Qed.

(** The table's iterators enumerate the used descriptors in increasing order: the
    first one, then from any descriptor below the last slot the next one up, and -1
    when there is none; asking for the successor of the last slot (1023) aborts. *)
Lemma FdTable_iterates t iter :
  table_ok t → -1 ≤ iter < runloop_FDTABLE_MAX →
  (∃ r, (if iter =? -1 then FdTable_iterator t else FdTable_next_iterator t iter) = Ret r ∧
    ((r = -1 ∧ ∀ fd, iter < fd < runloop_FDTABLE_MAX → table_map t fd = None) ∨
     (iter < r < runloop_FDTABLE_MAX ∧ is_Some (table_map t r) ∧
      ∀ fd, iter < fd < r → table_map t fd = None))) ∨
  (iter = runloop_FDTABLE_MAX - 1 ∧ FdTable_next_iterator t iter = AssertFail).
Proof.
  intros Ht Hi. destruct (decide (iter = runloop_FDTABLE_MAX - 1)) as [->|Hlast].
  - right. split; [done|]. unfold FdTable_next_iterator. by rewrite assert_false by (bool_prop; lia).
  - left. destruct (iter_from_ok t (Z.to_nat (runloop_FDTABLE_MAX - (iter + 1))) (iter + 1))
      as (r & Hr & Hc); [done|lia|lia|]. exists r. split.
    + destruct (iter =? -1) eqn:E; bool_prop.
      * subst. exact Hr.
      * unfold FdTable_next_iterator. by rewrite assert_true by (bool_prop; lia).
    + destruct Hc as [[-> Hc]|(Hr1 & Hr2 & Hc)]; [left|right]; split_and!; try done; try lia;
        intros fd Hfd; apply Hc; lia.
Qed.

(** The used descriptors from [i] on, in increasing order. *)
Definition used_fds (t : FdTable) (i : Z) : list Z :=
  filter (fun fd => is_Some (table_map t fd)) (seqZ i (runloop_FDTABLE_MAX - i)).

Lemma filter_none {A} (P : A → Prop) `{∀ x, Decision (P x)} (l : list A) :
  (∀ x, x ∈ l → ¬ P x) → filter P l = [].
Proof.
  intros Hl. induction l as [|x l IH]; [done|]. rewrite filter_cons_False by (apply Hl; left).
  apply IH. intros y Hy. apply Hl. by right.
Qed.

Lemma used_fds_none t i :
  (∀ fd, i ≤ fd < runloop_FDTABLE_MAX → table_map t fd = None) → used_fds t i = [].
Proof.
  intros Hn. apply filter_none. intros x Hx%elem_of_seqZ. rewrite Hn by lia. by intros [].
Qed.

Lemma used_fds_cons t i r :
  i ≤ r < runloop_FDTABLE_MAX → is_Some (table_map t r) →
  (∀ fd, i ≤ fd < r → table_map t fd = None) → used_fds t i = r :: used_fds t (r + 1).
Proof.
  intros Hr Hs Hn. unfold used_fds.
  replace (runloop_FDTABLE_MAX - i) with ((r - i) + (runloop_FDTABLE_MAX - r)) by lia.
  rewrite seqZ_app, filter_app by lia. replace (i + (r - i)) with r by lia.
  rewrite (filter_none _ (seqZ i _)).
  - rewrite (seqZ_cons r) by lia. rewrite filter_cons_True by done. cbn. do 2 f_equal; unfold Z.succ; f_equal; lia.
  - intros x Hx%elem_of_seqZ. rewrite Hn by lia. by intros [].
Qed.

Lemma free_from_ok n : ∀ t i,
  table_ok t → 0 ≤ i → i + Z.of_nat n = runloop_FDTABLE_MAX → ∃ t', free_from n t i = Ret t'.
Proof.
  induction n as [|n IH]; intros t i Ht Hi Hn; cbn [free_from]; [eauto|].
  destruct (entry_ok t i Ht) as [-> _]; [lia|]. rewrite bind_ret_l.
  destruct (table_map t i) as [w|] eqn:E.
  - destruct (remove_ok t w i Ht) as (t' & -> & Ht' & _); [lia|done|]. apply IH; [done|lia..].
  - rewrite bind_ret_l. apply IH; [done|lia..].
Qed.

Lemma FdTable_free_ok t : table_ok t → ∃ t', FdTable_free t = Ret t'.
Proof. intros Ht. by apply free_from_ok. Qed.

(** ** Properties *)

(** The descriptor table is a finite map: on a well-formed table and a descriptor
    in range, inserting under a free descriptor, removing and looking up behave as on
    a map and keep the size equal to the number of entries; inserting under a used
    descriptor, removing or looking up a free one aborts. *)
Theorem FdTable_is_map t w fd :
  table_ok t → 0 ≤ fd < runloop_FDTABLE_MAX →
  match table_map t fd with
  | None =>
      (∃ t', FdTable_insert t w fd = Ret t' ∧ table_ok t' ∧ FdTable_size t' = FdTable_size t + 1 ∧
         ∀ fd', table_map t' fd' = if decide (fd' = fd) then Some w else table_map t fd') ∧
      FdTable_remove t fd = AssertFail ∧ FdTable_lookup t fd = AssertFail
  | Some v =>
      (∃ t', FdTable_remove t fd = Ret t' ∧ table_ok t' ∧ FdTable_size t' = FdTable_size t - 1 ∧
         ∀ fd', table_map t' fd' = if decide (fd' = fd) then None else table_map t fd') ∧
      FdTable_insert t w fd = AssertFail ∧ FdTable_lookup t fd = Ret v
  end.
Proof.
  intros Ht Hfd. destruct (entry_ok t fd Ht Hfd) as [He Hl]. rewrite (lookup_ok t fd Ht Hfd).
  destruct (table_map t fd) as [v|] eqn:E.
  - split; [|split; [|done]].
    + destruct (remove_ok t v fd Ht Hfd E) as (t' & Hr & Ht' & Hm). exists t'. split_and!; try done.
      unfold FdTable_remove in Hr. rewrite He in Hr. cbn in Hr. injection Hr as <-.
      unfold FdTable_size. rewrite (to_count _ Ht'), (to_count _ Ht). cbn [entries].
      pose proof (used_insert_none _ _ _ Hl). lia.
    + unfold FdTable_insert. by rewrite He.
  - split; [|split; [|done]].
    + destruct (insert_ok t w fd Ht Hfd E) as (t' & Hr & Ht' & Hm). exists t'. split_and!; try done.
      unfold FdTable_insert in Hr. rewrite He in Hr. cbn in Hr. injection Hr as <-.
      unfold FdTable_size. rewrite (to_count _ Ht'), (to_count _ Ht). cbn [entries].
      rewrite (used_insert_some _ _ w Hl). lia.
    + unfold FdTable_remove. by rewrite He.
Qed.
End FdTable.

Arguments FdTable : clear implicits.

(** ** Witnesses *)

Definition ex_table : FdTable nat :=
  match FdTable_insert FdTable_new 7%nat 5 with Ret t => t | _ => FdTable_new end.
Lemma ex_table_ok : table_ok ex_table.
Proof. constructor; vm_compute; reflexivity. Qed.

Lemma FdTable_is_map_witness :
  (∃ t', FdTable_remove ex_table 5 = Ret t' ∧ table_ok t' ∧ FdTable_size t' = FdTable_size ex_table - 1 ∧
     ∀ fd', table_map t' fd' = if decide (fd' = 5) then None else table_map ex_table fd') ∧
  FdTable_insert ex_table 1%nat 5 = AssertFail ∧ FdTable_lookup ex_table 5 = Ret 7%nat.
Proof. apply (FdTable_is_map ex_table 1%nat 5 ex_table_ok). split; vm_compute; [discriminate|reflexivity]. Defined.
