(* ===== verification/Runloop.v ===== *)
(** * Runloop: the single-threaded event loop (src/runloop/epoll_runloop/runloop.c)

    The loop owns a table of watchers by descriptor and a ready list of functors.
    Each round either waits for descriptor events and calls the handlers of the
    watchers concerned, or, when functors are ready, runs them until none is left.
    The kernel (epoll, close) and the C functions behind the pointers stored in
    watchers and functors are parameters; they act on the loop and on the [world],
    which stands for every other object of the process and for the kernel. *)

From S2P Require Import Prelude FunctorList FdTable.
Open Scope Z_scope.

Definition EPOLL_CTL_ADD : Z := 1.
Definition EPOLL_CTL_DEL : Z := 2.
Definition EPOLL_CTL_MOD : Z := 3.
Definition EPOLLIN : Z := 1.
Definition EPOLLOUT : Z := 4.
Definition EPOLLERR : Z := 8.
Definition EPOLLHUP : Z := 16.
Definition EPOLLRDHUP : Z := 8192.
Definition EPOLLEXCLUSIVE : Z := 2 ^ 28.
Definition EINTR : Z := 4.
Definition runloop_MAX_EPOLL_FDS : Z := runloop_MAX_FDS.

Record Runloop (watcher fn arg_t : Type) := mkRunloop {
  epoll_fd : Z;
  closed_flag : bool;
  runloop_executing : bool;
  table : FdTable watcher;
  ready_list : FunctorList fn arg_t
}.
Arguments mkRunloop {watcher fn arg_t}.
Arguments epoll_fd {watcher fn arg_t}.
Arguments closed_flag {watcher fn arg_t}.
Arguments runloop_executing {watcher fn arg_t}.
Arguments table {watcher fn arg_t}.
Arguments ready_list {watcher fn arg_t}.

(** What [epoll_wait] reports: an error number, or the events of the batch, each the
    watcher stored with the descriptor and the event mask. *)
Inductive wait_result (watcher : Type) :=
| WaitError (errno : Z)
| WaitEvents (events : list (watcher * Z)).
Arguments WaitError {watcher}.
Arguments WaitEvents {watcher}.

(** The system calls of the loop and the memory of the watchers. *)
Record kernel (watcher world : Type) := mkKernel {
  epoll_create1 : world → world * Z;
  epoll_ctl : Z → Z → Z → Z → option watcher → world → world * Z;
  epoll_wait : Z → Z → world → world * wait_result watcher;
  close : Z → world → world * Z;
  (** [wr->fd] of a live watcher *)
  watcher_fd : world → watcher → option Z
}.
Arguments mkKernel {watcher world}.
Arguments epoll_create1 {watcher world}.
Arguments epoll_ctl {watcher world}.
Arguments epoll_wait {watcher world}.
Arguments close {watcher world}.
Arguments watcher_fd {watcher world}.

Section Runloop.
Context {watcher fn arg_t world : Type}.
Abbreviation runloop := (Runloop watcher fn arg_t).
Abbreviation st := (runloop * world)%type.
Abbreviation functor := (Functor fn arg_t).

Variable K : kernel watcher world.
(** The functions behind [wref->handler] and [func.f]. *)
Variable handler : watcher → Z → st → outcome st.
Variable call : fn → option arg_t → st → outcome st.

Definition set_table (rl : runloop) (t : FdTable watcher) : runloop :=
  mkRunloop (epoll_fd rl) (closed_flag rl) (runloop_executing rl) t (ready_list rl).
Definition set_ready (rl : runloop) (l : FunctorList fn arg_t) : runloop :=
  mkRunloop (epoll_fd rl) (closed_flag rl) (runloop_executing rl) (table rl) l.
Definition set_executing (b : bool) (rl : runloop) : runloop :=
  mkRunloop (epoll_fd rl) (closed_flag rl) b (table rl) (ready_list rl).
Definition set_closed (rl : runloop) : runloop :=
  mkRunloop (epoll_fd rl) true (runloop_executing rl) (table rl) (ready_list rl).

Definition runloop_epoll_ctl (op fd interest : Z) (w : option watcher) (s : st) : outcome st :=
  let '(rl, wd) := s in
  let '(wd, status) := epoll_ctl K (epoll_fd rl) op fd (u32 interest) w wd in
  c_assert (status =? 0);;
  Ret (rl, wd).

Definition runloop_init (wd : world) : outcome st :=
  let '(wd, efd) := epoll_create1 K wd in
  c_assert (negb (efd =? -1));;
  l ← functor_list_new runloop_READY_LIST_MAX;
  Ret (mkRunloop efd false false FdTable_new l, wd).
(** [malloc] of the loop itself may fail. *)
Definition runloop_new (malloc_ok : bool) (wd : world) : outcome st :=
  c_assert malloc_ok;; runloop_init wd.

(** The loop of [runloop_close]; a round closes one descriptor. *)
Fixpoint close_loop (fuel : nat) (t : FdTable watcher) (next_fd : Z) (wd : world) : outcome (option world) :=
  match fuel with
  | O => Ret None
  | S fuel =>
      if next_fd =? -1 then Ret (Some wd)
      else
        let wd := fst (close K next_fd wd) in
        next_fd ← FdTable_next_iterator t next_fd;
        close_loop fuel t next_fd wd
  end.
Definition runloop_close (s : st) : outcome (option st) :=
  let '(rl, wd) := s in
  let rl := set_closed rl in
  let '(wd, status) := close K (epoll_fd rl) wd in
  c_assert (negb (status =? -1));;
  next_fd ← FdTable_iterator (table rl);
  o ← close_loop (S (Z.to_nat runloop_FDTABLE_MAX)) (table rl) next_fd wd;
  Ret (match o with Some wd => Some (rl, wd) | None => None end).

Definition runloop_free (s : st) : outcome (option world) :=
  o ← (if negb (closed_flag (fst s)) then runloop_close s else Ret (Some s));
  match o with
  | None => Ret None
  | Some (rl, wd) =>
      FdTable_free (table rl);;
      functor_list_free (Some (ready_list rl));;
      Ret (Some wd)
  end.

Definition runloop_register (fd interest : Z) (w : watcher) (s : st) : outcome (st * Z) :=
  '(rl, wd) ← runloop_epoll_ctl EPOLL_CTL_ADD fd interest (Some w) s;
  t ← FdTable_insert (table rl) w fd;
  Ret ((set_table rl t, wd), 0).

Definition runloop_deregister (fd : Z) (s : st) : outcome (st * Z) :=
  FdTable_lookup (table (fst s)) fd;;
  '(rl, wd) ← runloop_epoll_ctl EPOLL_CTL_DEL fd (Z.lor EPOLLEXCLUSIVE EPOLLIN) None s;
  t ← FdTable_remove (table rl) fd;
  Ret ((set_table rl t, wd), 0).

Definition runloop_reregister `{EqDecision watcher} (fd interest : Z) (w : watcher) (s : st) : outcome (st * Z) :=
  FdTable_lookup (table (fst s)) fd;;
  '(rl, wd) ← runloop_epoll_ctl EPOLL_CTL_MOD fd interest (Some w) s;
  wref_tmp ← FdTable_lookup (table rl) fd;
  c_assert (bool_decide (w = wref_tmp));;
  Ret ((rl, wd), 0).

Definition runloop_delete (fd : Z) (s : st) : outcome st :=
  FdTable_lookup (table (fst s)) fd;;
  t ← FdTable_remove (table (fst s)) fd;
  Ret (set_table (fst s) t, snd s).

Definition runloop_post (cb : option fn) (a : option arg_t) (s : st) : outcome st :=
  c_assert (bool_decide (is_Some cb));;
  c_assert (bool_decide (is_Some a));;
  l ← functor_list_add (ready_list (fst s)) (mkFunctor cb a);
  Ret (set_ready (fst s) l, snd s).

(** [Functor_call] and the calls of ready functors. *)
Definition Functor_call (this : functor) (s : st) : outcome st :=
  g ← deref (f this);
  call g (arg this) s.

(** Dispatch of one batch of events. *)
Definition dispatch_event `{EqDecision watcher} (wr : watcher) (mask : Z) (s : st) : outcome st :=
  fd ← deref (watcher_fd K (snd s) wr);
  wref ← FdTable_lookup (table (fst s)) fd;
  c_assert (bool_decide (wr = wref));;
  handler wref mask s.
Fixpoint dispatch_events `{EqDecision watcher} (events : list (watcher * Z)) (s : st) : outcome st :=
  match events with
  | [] => Ret s
  | (wr, mask) :: events => s ← dispatch_event wr mask s; dispatch_events events s
  end.

(** The loop that runs ready functors; [Ret None] is the end of the fuel. *)
Fixpoint run_ready (fuel : nat) (s : st) : outcome (option st) :=
  match fuel with
  | O => Ret None
  | S fuel =>
      n ← functor_list_size (ready_list (fst s));
      if n =? 0 then Ret (Some s)
      else
        '(l, func) ← functor_list_remove (ready_list (fst s));
        '(rl, wd) ← Functor_call func (set_executing true (set_ready (fst s) l), snd s);
        run_ready fuel (set_executing false rl, wd)
  end.

(** The main loop; the [time_t timeout] argument is not used by the code. *)
Fixpoint runloop_run `{EqDecision watcher} (fuel : nat) (s : st) : outcome (option (st * Z)) :=
  match fuel with
  | O => Ret None
  | S fuel =>
      n ← functor_list_size (ready_list (fst s));
      if (FdTable_size (table (fst s)) =? 0) && (n =? 0) then Ret (Some (s, 0))
      else if n =? 0 then
        let '(wd, r) := epoll_wait K (epoll_fd (fst s)) runloop_MAX_EPOLL_FDS (snd s) in
        match r with
        | WaitError errno =>
            if errno =? EINTR then Ret (Some ((fst s, wd), -1))
            else if closed_flag (fst s) then Ret (Some ((fst s, wd), 0))
            else Ret (Some ((fst s, wd), -1))
        | WaitEvents [] => Ret (Some ((fst s, fst (close K (epoll_fd (fst s)) wd)), 0))
        | WaitEvents events =>
            s ← dispatch_events events (fst s, wd);
            runloop_run fuel s
        end
      else
        o ← run_ready fuel s;
        match o with None => Ret None | Some s => runloop_run fuel s end
  end.

(** ** Specification

    A handler or functor, seen from the loop, changes the world and then makes a
    sequence of calls of the loop's own functions. *)

Inductive loop_op :=
| OPost (g : fn) (a : arg_t)
| ORegister (fd interest : Z) (w : watcher)
| ODeregister (fd : Z)
| OReregister (fd interest : Z) (w : watcher)
| ODelete (fd : Z).

Context `{EqDecision watcher}.

Definition exec_op (op : loop_op) (s : st) : outcome st :=
  match op with
  | OPost g a => runloop_post (Some g) (Some a) s
  | ORegister fd i w => '(s, _) ← runloop_register fd i w s; Ret s
  | ODeregister fd => '(s, _) ← runloop_deregister fd s; Ret s
  | OReregister fd i w => '(s, _) ← runloop_reregister fd i w s; Ret s
  | ODelete fd => runloop_delete fd s
  end.
Fixpoint exec_ops (ops : list loop_op) (s : st) : outcome st :=
  match ops with [] => Ret s | op :: ops => s ← exec_op op s; exec_ops ops s end.

Definition scripted_handler (hact : watcher → Z → world → world * list loop_op) : Prop :=
  ∀ w mask rl wd, handler w mask (rl, wd) = exec_ops (snd (hact w mask wd)) (rl, fst (hact w mask wd)).
Definition scripted_call (act : fn → arg_t → world → world * list loop_op) : Prop :=
  ∀ g a rl wd, call g (Some a) (rl, wd) = exec_ops (snd (act g a wd)) (rl, fst (act g a wd)).

(** The abstract loop: a finite map of watchers, a queue of functors, the world. *)
Record astate := mkA { regs : gmap Z watcher; queue : list (fn * arg_t); world_of : world }.

Variable efd : Z.
Variable closed : bool.
Variable hact : watcher → Z → world → world * list loop_op.
Variable act : fn → arg_t → world → world * list loop_op.

Definition in_table (fd : Z) : bool := (0 <=? fd) && (fd <? runloop_FDTABLE_MAX).

(** The watcher of a descriptor that must be registered. *)
Definition a_lookup (fd : Z) (a : astate) : outcome watcher :=
  if in_table fd then match regs a !! fd with Some w => Ret w | None => AssertFail end else Ub.
Definition a_ctl (op fd interest : Z) (w : option watcher) (a : astate) : outcome astate :=
  let '(wd, status) := epoll_ctl K efd op fd (u32 interest) w (world_of a) in
  c_assert (status =? 0);; Ret (mkA (regs a) (queue a) wd).

Definition a_op (op : loop_op) (a : astate) : outcome astate :=
  match op with
  | OPost g x =>
      c_assert (Zlen (queue a) + 1 <? runloop_READY_LIST_MAX);;
      Ret (mkA (regs a) (queue a ++ [(g, x)]) (world_of a))
  | ORegister fd i w =>
      a ← a_ctl EPOLL_CTL_ADD fd i (Some w) a;
      if in_table fd then
        c_assert (bool_decide (regs a !! fd = None));;
        Ret (mkA (<[fd := w]> (regs a)) (queue a) (world_of a))
      else Ub
  | ODeregister fd =>
      a_lookup fd a;;
      a ← a_ctl EPOLL_CTL_DEL fd (Z.lor EPOLLEXCLUSIVE EPOLLIN) None a;
      Ret (mkA (delete fd (regs a)) (queue a) (world_of a))
  | OReregister fd i w =>
      v ← a_lookup fd a;
      a ← a_ctl EPOLL_CTL_MOD fd i (Some w) a;
      c_assert (bool_decide (w = v));; Ret a
  | ODelete fd =>
      a_lookup fd a;; Ret (mkA (delete fd (regs a)) (queue a) (world_of a))
  end.
Fixpoint a_ops (ops : list loop_op) (a : astate) : outcome astate :=
  match ops with [] => Ret a | op :: ops => a ← a_op op a; a_ops ops a end.

Definition a_set_world (a : astate) (wd : world) : astate := mkA (regs a) (queue a) wd.

(** One event goes to its watcher's handler, if the watcher is still the one
    registered for its descriptor. *)
Fixpoint a_events (events : list (watcher * Z)) (a : astate) : outcome astate :=
  match events with
  | [] => Ret a
  | (w, mask) :: events =>
      fd ← deref (watcher_fd K (world_of a) w);
      v ← a_lookup fd a;
      c_assert (bool_decide (w = v));;
      let '(wd, ops) := hact w mask (world_of a) in
      a ← a_ops ops (a_set_world a wd);
      a_events events a
  end.

(** A step runs the oldest ready functor or, when there is none, waits for a batch
    of events and dispatches it; [inr] is the return of the loop. *)
Definition a_step (a : astate) : outcome (astate + astate * Z) :=
  match queue a with
  | (g, x) :: q =>
      let '(wd, ops) := act g x (world_of a) in
      a ← a_ops ops (mkA (regs a) q wd); Ret (inl a)
  | [] =>
      if decide (regs a = ∅) then Ret (inr (a, 0))
      else
        let '(wd, r) := epoll_wait K efd runloop_MAX_EPOLL_FDS (world_of a) in
        match r with
        | WaitError errno =>
            Ret (inr (a_set_world a wd, if (errno =? EINTR) || negb closed then -1 else 0))
        | WaitEvents [] => Ret (inr (a_set_world a (fst (close K efd wd)), 0))
        | WaitEvents events => a ← a_events events (a_set_world a wd); Ret (inl a)
        end
  end.

Inductive a_run : astate → outcome (astate * Z) → Prop :=
| a_run_exit a r : a_step a = Ret (inr r) → a_run a (Ret r)
| a_run_step a a' r : a_step a = Ret (inl a') → a_run a' r → a_run a r
| a_run_abort a : a_step a = AssertFail → a_run a AssertFail
| a_run_ub a : a_step a = Ub → a_run a Ub.

(** ** Representation *)

Definition to_functor (p : fn * arg_t) : functor := mkFunctor (Some (fst p)) (Some (snd p)).

Record table_rep (t : FdTable watcher) (m : gmap Z watcher) : Prop := {
  tr_ok : table_ok t;
  tr_map : ∀ fd, m !! fd = if in_table fd then table_map t fd else None;
  tr_count : count t = Z.of_nat (size m)
}.

Record loop_rep (s : st) (a : astate) : Prop := {
  lr_table : table_rep (table (fst s)) (regs a);
  lr_ready : fl_rep (ready_list (fst s)) (to_functor <$> queue a);
  lr_cap : capacity (ready_list (fst s)) = runloop_READY_LIST_MAX;
  lr_world : snd s = world_of a;
  lr_efd : epoll_fd (fst s) = efd;
  lr_closed : closed_flag (fst s) = closed
}.

(** ** Lemmas *)

Lemma size_zero_iff (m : gmap Z watcher) : (Z.of_nat (size m) =? 0) = bool_decide (m = ∅).
Proof.
  case_bool_decide as E.
  - subst. by rewrite map_size_empty.
  - apply Z.eqb_neq. intros Hz. apply E, map_size_empty_inv. lia.
Qed.

Lemma table_rep_empty : table_rep FdTable_new ∅.
Proof.
  constructor; [apply new_table_ok| |done]. intros fd. rewrite lookup_empty. split_if; [|done].
  unfold table_map. split_if; [|done]. symmetry. cbn [FdTable_new FdTable_init entries].
  destruct (_ !! Z.to_nat fd) as [e|] eqn:Hl; [|done]. apply lookup_replicate in Hl as [-> _]. done.
Qed.

Lemma in_table_iff fd : in_table fd = true ↔ 0 ≤ fd < runloop_FDTABLE_MAX.
Proof. unfold in_table. rewrite andb_true_iff, Z.leb_le, Z.ltb_lt. done. Qed.

Lemma entry_out t fd : table_ok (watcher := watcher) t → in_table fd = false → entry t fd = Ub.
Proof.
  intros [Hl _] Hf. unfold entry. destruct (0 <=? fd) eqn:E; [|done]. bool_prop.
  unfold in_table in Hf. rewrite (proj2 (Z.leb_le _ _) E) in Hf. cbn in Hf. bool_prop.
  rewrite lookup_ge_None_2 by (rewrite Hl; lia). done.
Qed.

Lemma tr_lookup t m fd :
  table_rep t m →
  FdTable_lookup t fd =
    if in_table fd then match m !! fd with Some w => Ret w | None => AssertFail end else Ub.
Proof.
  intros [Hok Hm _]. destruct (in_table fd) eqn:E.
  - rewrite Hm, E. by rewrite lookup_ok by (try done; by apply in_table_iff).
  - unfold FdTable_lookup. by rewrite entry_out.
Qed.

Lemma tr_insert t m fd w :
  table_rep t m →
  refines (λ t' m', table_rep t' m') (FdTable_insert t w fd)
    (if in_table fd then c_assert (bool_decide (m !! fd = None));; Ret (<[fd := w]> m) else Ub).
Proof.
  intros [Hok Hm Hc]. destruct (in_table fd) eqn:E.
  - pose proof (proj1 (in_table_iff fd) E) as Hfd. pose proof (Hm fd) as Hmf. rewrite E in Hmf.
    case_bool_decide as Hn; cbn [c_assert]; rewrite ?bind_ret_l.
    + rewrite Hn in Hmf. destruct (insert_ok t w fd Hok Hfd (eq_sym Hmf)) as (t' & Hi & Hok' & Hm').
      exists t'. split; [done|]. constructor; [done| |].
      * intros fd'. rewrite Hm', lookup_insert. repeat case_decide; subst; try done. by rewrite E.
      * unfold FdTable_insert in Hi. destruct (entry_ok t fd Hok Hfd) as [He _].
        rewrite He, <- Hmf in Hi. cbn in Hi. injection Hi as <-. cbn [count].
        rewrite map_size_insert_None by done. rewrite Hc. rewrite u64_small; [lia|].
        pose proof (to_count _ Hok) as Hu'. pose proof (used_le (entries t)) as Hu.
        rewrite (to_len _ Hok) in Hu. unfold runloop_FDTABLE_MAX, runloop_MAX_FDS in *. lia.
    + unfold refines, FdTable_insert. cbn. destruct (entry_ok t fd Hok Hfd) as [He _]. rewrite He, <- Hmf.
      by destruct (m !! fd).
  - unfold refines, FdTable_insert. by rewrite entry_out.
Qed.

Lemma tr_remove t m fd w :
  table_rep t m → in_table fd = true → m !! fd = Some w →
  ∃ t', FdTable_remove t fd = Ret t' ∧ table_rep t' (delete fd m).
Proof.
  intros [Hok Hm Hc] E Hw. pose proof (proj1 (in_table_iff fd) E) as Hfd.
  pose proof (Hm fd) as Hmf. rewrite E, Hw in Hmf.
  destruct (remove_ok t w fd Hok Hfd (eq_sym Hmf)) as (t' & Hr & Hok' & Hm'). exists t'. split; [done|].
  constructor; [done| |].
  - intros fd'. rewrite Hm', lookup_delete. repeat case_decide; subst; try done. by rewrite E.
  - unfold FdTable_remove in Hr. destruct (entry_ok t fd Hok Hfd) as [He _].
    rewrite He, <- Hmf in Hr. cbn in Hr. injection Hr as <-. cbn [count].
    rewrite map_size_delete_Some by eauto. rewrite Hc.
    assert (size m ≠ 0%nat). { intros Hz. apply map_size_empty_inv in Hz. subst. done. }
    rewrite u64_small; [lia|]. pose proof (to_count _ Hok) as Hu'. pose proof (used_le (entries t)) as Hu.
    rewrite (to_len _ Hok) in Hu. unfold runloop_FDTABLE_MAX, runloop_MAX_FDS in *. lia.
Qed.

Lemma lookup_refines s a fd : loop_rep s a → FdTable_lookup (table (fst s)) fd = a_lookup fd a.
Proof. intros Hr. apply (tr_lookup _ _ fd (lr_table _ _ Hr)). Qed.

Lemma ctl_refines op fd i w s a :
  loop_rep s a → refines loop_rep (runloop_epoll_ctl op fd i w s) (a_ctl op fd i w a).
Proof.
  destruct s as [rl wd]. intros [Ht Hr Hc Hw He Hcl]. cbn [fst snd] in *.
  unfold runloop_epoll_ctl, a_ctl. rewrite He, Hw. destruct (epoll_ctl K _ _ _ _ _ _) as [wd' status].
  destruct (status =? 0); cbn; [|done]. eexists. split; [done|]. by constructor.
Qed.

Lemma set_table_rep rl wd a t m :
  loop_rep (rl, wd) a → table_rep t m → loop_rep (set_table rl t, wd) (mkA m (queue a) (world_of a)).
Proof. intros [Ht Hr Hc Hw He Hcl] Ht'. by constructor. Qed.

Lemma a_lookup_eq fd a w : in_table fd = true → regs a !! fd = Some w → a_lookup fd a = Ret w.
Proof. intros Hi Hw. unfold a_lookup. by rewrite Hi, Hw. Qed.

Lemma a_lookup_ret fd a w : a_lookup fd a = Ret w → in_table fd = true ∧ regs a !! fd = Some w.
Proof. unfold a_lookup. destruct (in_table fd); [|done]. destruct (regs a !! fd); [|done]. by intros [= ->]. Qed.

Lemma post_ok g x s a :
  loop_rep s a → Zlen (queue a) < 2047 →
  ∃ s', runloop_post (Some g) (Some x) s = Ret s' ∧
    loop_rep s' (mkA (regs a) (queue a ++ [(g, x)]) (world_of a)) ∧ snd s' = snd s.
Proof.
  intros [Ht Hr Hc Hw He Hcl] Hlen. unfold runloop_post.
  rewrite !bool_decide_true by eauto. cbn [c_assert]. rewrite !bind_ret_l.
  destruct (fl_add_ok _ _ (mkFunctor (Some g) (Some x)) Hr) as (l & -> & Hl & Hcap).
  { unfold Zlen in *. rewrite length_fmap, Hc. unfold runloop_READY_LIST_MAX, runloop_MAX_FDS. lia. }
  rewrite bind_ret_l. eexists. split_and!; [done| |done]. constructor; cbn; try done; [|by rewrite Hcap].
  by rewrite fmap_app.
Qed.

Lemma post_full g x s a :
  loop_rep s a → 2047 ≤ Zlen (queue a) → runloop_post (Some g) (Some x) s = AssertFail.
Proof.
  intros [Ht Hr Hc Hw He Hcl] Hlen. unfold runloop_post.
  rewrite !bool_decide_true by eauto. cbn [c_assert]. rewrite !bind_ret_l.
  rewrite (fl_add_full _ _ _ Hr); [done|]. pose proof (fr_room _ _ Hr) as Hroom.
  unfold Zlen in *. rewrite length_fmap in *. rewrite Hc in *. unfold runloop_READY_LIST_MAX, runloop_MAX_FDS in *. lia.
Qed.

Lemma post_refines g x s a :
  loop_rep s a → refines loop_rep (runloop_post (Some g) (Some x) s) (a_op (OPost g x) a).
Proof.
  intros Hrep. cbn [a_op]. destruct (Zlen (queue a) + 1 <? runloop_READY_LIST_MAX) eqn:E; bool_prop;
    unfold runloop_READY_LIST_MAX, runloop_MAX_FDS in E.
  - destruct (post_ok g x s a Hrep) as (s' & -> & Hr & _); [lia|]. cbn. eauto.
  - cbn. apply (post_full g x s a Hrep). lia.
Qed.

Lemma op_refines op s a : loop_rep s a → refines loop_rep (exec_op op s) (a_op op a).
Proof.
  intros Hrep. destruct op as [g x|fd i w|fd|fd i w|fd]; cbn [exec_op a_op].
  - by apply post_refines.
  - unfold runloop_register. rewrite bind_assoc.
    eapply refines_bind; [by apply ctl_refines|]. intros [rl wd] a' _ _ Ha. cbn [fst snd] in *.
    pose proof (tr_insert _ _ fd w (lr_table _ _ Ha)) as Hi. cbn [fst] in Hi.
    destruct (in_table fd); [|by cbn in *; rewrite Hi].
    case_bool_decide; cbn in Hi; [destruct Hi as (t' & -> & Ht')|by rewrite Hi].
    cbn. eexists. split; [done|]. by eapply set_table_rep.
  - unfold runloop_deregister. rewrite (lookup_refines _ _ fd Hrep), bind_assoc.
    eapply refines_same. intros w (Hin & Hw)%a_lookup_ret. rewrite bind_assoc.
    eapply refines_bind; [by apply ctl_refines|]. intros [rl wd] a' _ Ha' Ha.
    assert (regs a' = regs a) as Hreg by (unfold a_ctl in Ha'; destruct (epoll_ctl _ _ _ _ _ _ _); inv_binds Ha'; done).
    destruct (tr_remove _ _ fd w (lr_table _ _ Ha) Hin) as (t' & Hr & Ht'); [by rewrite Hreg|].
    cbn [fst] in Hr. rewrite Hr. cbn. eexists. split; [done|]. by eapply set_table_rep.
  - unfold runloop_reregister. rewrite (lookup_refines _ _ fd Hrep), bind_assoc.
    eapply refines_same. intros v Hv. rewrite bind_assoc.
    eapply refines_bind; [by apply ctl_refines|]. intros [rl wd] a' _ Ha' Ha.
    assert (a_lookup fd a' = Ret v) as Hv'.
    { unfold a_ctl in Ha'. destruct (epoll_ctl _ _ _ _ _ _ _). inv_binds Ha'. done. }
    pose proof (lookup_refines (rl, wd) a' fd Ha) as Hl. cbn [fst] in Hl. rewrite Hl, Hv'. cbn. case_bool_decide; cbn; [|done].
    eauto.
  - unfold runloop_delete. rewrite (lookup_refines _ _ fd Hrep).
    eapply refines_same. intros w (Hin & Hw)%a_lookup_ret.
    destruct (tr_remove _ _ fd w (lr_table _ _ Hrep) Hin Hw) as (t' & -> & Ht').
    cbn. eexists. split; [done|]. destruct s. eapply set_table_rep; [|done].
    destruct Hrep. cbn in *. by subst.
Qed.

Lemma ops_refines ops : ∀ s a, loop_rep s a → refines loop_rep (exec_ops ops s) (a_ops ops a).
Proof.
  induction ops as [|op ops IH]; intros s a Hrep; cbn [exec_ops a_ops]; [cbn; eauto|].
  eapply refines_bind; [by apply op_refines|]. eauto.
Qed.

Lemma rep_world rl wd a wd' : loop_rep (rl, wd) a → loop_rep (rl, wd') (a_set_world a wd').
Proof. intros []. by constructor. Qed.

Section scripted.
Hypothesis Hhandler : scripted_handler hact.
Hypothesis Hcall : scripted_call act.

Lemma events_refines events : ∀ s a,
  loop_rep s a → refines loop_rep (dispatch_events events s) (a_events events a).
Proof.
  induction events as [|[w mask] events IH]; intros [rl wd] a Hrep; cbn [dispatch_events a_events]; [cbn; eauto|].
  unfold dispatch_event. cbn [snd]. pose proof (lr_world _ _ Hrep) as Hw. cbn in Hw. subst wd.
  rewrite bind_assoc. apply refines_same. intros fd Hfd.
  rewrite (lookup_refines _ _ fd Hrep), bind_assoc. apply refines_same. intros v Hv.
  rewrite bind_assoc. apply refines_same. intros [] Hwv.
  assert (w = v) as <- by (revert Hwv; by case_bool_decide).
  rewrite Hhandler. destruct (hact w mask (world_of a)) as [wd ops]. cbn [fst snd].
  eapply refines_bind; [apply ops_refines; by eapply rep_world|]. eauto.
Qed.

(** The main loop resumed inside the loop over the ready functors. *)
Definition resume (k1 k2 : nat) (s : st) : outcome (option (st * Z)) :=
  o ← run_ready k1 s;
  match o with None => Ret None | Some s => runloop_run k2 s end.

Definition exits (o : option (st * Z)) (r : astate * Z) : Prop :=
  ∃ s, o = Some (s, snd r) ∧ loop_rep s (fst r).

Lemma size_ready s a : loop_rep s a → functor_list_size (ready_list (fst s)) = Ret (Zlen (queue a)).
Proof.
  intros Hr. rewrite (fl_size_ok _ _ (lr_ready _ _ Hr)). unfold Zlen. by rewrite length_fmap.
Qed.

(** One functor of the ready list. *)
Lemma resume_step s a g x q :
  loop_rep s a → queue a = (g, x) :: q →
  ∃ s0, loop_rep s0 (a_set_world (mkA (regs a) q (world_of a)) (fst (act g x (world_of a)))) ∧
    ∀ k1 k2, resume (S k1) k2 s =
      ('(rl, wd) ← exec_ops (snd (act g x (world_of a))) s0; resume k1 k2 (set_executing false rl, wd)).
Proof.
  intros Hrep Hq. destruct s as [rl wd]. pose proof (size_ready _ _ Hrep) as Hsz. rewrite Hq, Zlen_cons in Hsz.
  destruct Hrep as [Ht Hr Hc Hw He Hcl]. cbn [fst snd] in *. rewrite Hq in Hr.
  destruct (fl_remove_ok _ _ _ Hr) as (l & Hrm & Hl & Hcap). subst wd.
  exists (set_executing true (set_ready rl l), fst (act g x (world_of a))). split.
  { constructor; cbn; try done. by rewrite Hcap. }
  intros k1 k2. unfold resume. cbn [run_ready fst snd]. pose proof (Zlen_nonneg q).
  rewrite Hsz, bind_ret_l, (proj2 (Z.eqb_neq (1 + _) 0)), Hrm, bind_ret_l by lia.
  unfold Functor_call. cbn [to_functor f arg fst snd deref]. rewrite bind_ret_l, Hcall.
  by destruct (exec_ops _ _) as [[rl' wd']| |].
Qed.

Lemma run_round k s a :
  loop_rep s a → queue a ≠ [] → runloop_run (S k) s = resume k k s.
Proof.
  intros Hrep Hq. cbn [runloop_run]. rewrite (size_ready _ _ Hrep), bind_ret_l.
  destruct (queue a) as [|y q]; [done|]. rewrite Zlen_cons. pose proof (Zlen_nonneg q).
  rewrite (proj2 (Z.eqb_neq (1 + _) 0)) by lia. by rewrite andb_false_r.
Qed.

Lemma resume_drained k1 k2 s a :
  loop_rep s a → queue a = [] → resume (S k1) k2 s = runloop_run k2 s.
Proof. intros Hrep Hq. unfold resume. cbn [run_ready]. by rewrite (size_ready _ _ Hrep), Hq. Qed.

Lemma wait_refines k s a :
  loop_rep s a → queue a = [] →
  runloop_run (S k) s =
    (if decide (regs a = ∅) then Ret (Some (s, 0)) else
     let '(wd, r) := epoll_wait K efd runloop_MAX_EPOLL_FDS (world_of a) in
     match r with
     | WaitError errno => Ret (Some ((fst s, wd), if (errno =? EINTR) || negb closed then -1 else 0))
     | WaitEvents [] => Ret (Some ((fst s, fst (close K efd wd)), 0))
     | WaitEvents events => s ← dispatch_events events (fst s, wd); runloop_run k s
     end).
Proof.
  intros Hrep Hq. cbn [runloop_run]. rewrite (size_ready _ _ Hrep), bind_ret_l, Hq.
  unfold FdTable_size. rewrite (tr_count _ _ (lr_table _ _ Hrep)), size_zero_iff.
  change (Zlen []) with 0. cbn [Z.eqb]. rewrite andb_true_r, (lr_efd _ _ Hrep), (lr_world _ _ Hrep), (lr_closed _ _ Hrep).
  case_bool_decide as E; [by rewrite decide_True|rewrite decide_False by done].
  destruct (epoll_wait _ _ _ _) as [wd [errno|events]]; [|done].
  by destruct (errno =? EINTR), closed.
Qed.

(** The loop at the point where the abstract step starts. *)
Definition at_step (a : astate) (k1 k2 : nat) (s : st) : outcome (option (st * Z)) :=
  match queue a with [] => runloop_run k2 s | _ => resume k1 k2 s end.

Lemma at_step_run a s k1 k2 :
  loop_rep s a → (k1 ≤ k2)%nat → at_step a k1 k2 s = runloop_run k2 s ∨
  ∃ k, k2 = S k ∧ runloop_run k2 s = at_step a k k s.
Proof.
  intros Hrep Hk. unfold at_step. destruct (queue a) eqn:Hq; [by left|]. destruct k2 as [|k].
  - left. destruct k1; [done|lia].
  - right. exists k. split; [done|]. apply (run_round k s a Hrep). by rewrite Hq.
Qed.

Lemma step_ok s a :
  loop_rep s a →
  match a_step a with
  | Ret (inl a') => ∃ s', loop_rep s' a' ∧
      (∀ k1 k2, queue a ≠ [] → resume (S k1) k2 s = resume k1 k2 s') ∧
      (∀ k, queue a = [] → runloop_run (S k) s = runloop_run k s')
  | Ret (inr r) => ∀ k1 k, refines exits (at_step a k1 (S k) s) (Ret r)
  | AssertFail => ∀ k1 k2, at_step a (S k1) (S k2) s = AssertFail
  | Ub => ∀ k1 k2, at_step a (S k1) (S k2) s = Ub
  end.
Proof.
  intros Hrep. unfold a_step, at_step. destruct (queue a) as [|[g x] q] eqn:Hq.
  - pose proof (fun k => wait_refines k s a Hrep Hq) as Hw. destruct (decide (regs a = ∅)) as [E|E].
    { intros _ k. rewrite Hw. cbn. eexists. split; [done|]. by exists s. }
    destruct s as [rl wd0]. cbn [fst] in Hw. destruct (epoll_wait _ _ _ _) as [wd [errno|[|ev evs]]].
    + intros _ k. rewrite Hw. eexists. split; [done|]. eexists. split; [done|]. by eapply rep_world.
    + intros _ k. rewrite Hw. eexists. split; [done|]. eexists. split; [done|]. by eapply rep_world.
    + pose proof (events_refines (ev :: evs) (rl, wd) (a_set_world a wd) (rep_world _ _ _ wd Hrep)) as He.
      destruct (a_events _ _) as [a'| |]; cbn [refines] in He.
      * destruct He as (s' & Hd & Hr'). exists s'. split_and!; [done|done|].
        intros k _. by rewrite Hw, Hd.
      * intros _ k. by rewrite Hw, He.
      * intros _ k. by rewrite Hw, He.
  - destruct (resume_step s a g x q Hrep Hq) as (s0 & Hs0 & Hres).
    destruct (act g x (world_of a)) as [wd ops]. cbn [fst snd a_set_world regs queue] in *.
    pose proof (ops_refines ops _ _ Hs0) as Ho. destruct (a_ops ops _) as [a'| |]; cbn [refines] in Ho.
    + destruct Ho as ([rl' wd'] & Ho & Hr'). exists (set_executing false rl', wd'). split_and!.
      * destruct Hr'. by constructor.
      * intros k1 k2 _. by rewrite Hres, Ho.
      * done.
    + intros k1 k2. by rewrite Hres, Ho.
    + intros k1 k2. by rewrite Hres, Ho.
Qed.

Lemma run_ok a r :
  a_run a r → ∀ s, loop_rep s a →
  ∃ n, ∀ k1 k2, (n ≤ k1)%nat → (n ≤ k2)%nat → refines exits (at_step a k1 k2 s) r.
Proof.
  induction 1 as [a r Hs|a a' r Hs Hrun IH|a Hs|a Hs]; intros s Hrep; pose proof (step_ok s a Hrep) as Hok; rewrite Hs in Hok.
  - exists 1%nat. intros k1 [|k2] ? ?; [lia|]. apply Hok.
  - destruct Hok as (s' & Hrep' & Hcall' & Hwait). destruct (IH s' Hrep') as [n Hn].
    exists (S (S n)). intros [|k1] [|k2] ? ?; try lia. unfold at_step at 1.
    destruct (queue a) eqn:Hq.
    + rewrite Hwait by done.
      destruct (at_step_run a' s' n k2 Hrep') as [<-|(k & -> & ->)]; [lia|apply Hn; lia..].
    + rewrite Hcall' by done. specialize (Hn k1 (S k2)). unfold at_step in Hn.
      destruct (queue a') eqn:Hq'; [|apply Hn; lia].
      destruct k1; [lia|]. rewrite (resume_drained k1 (S k2) s' a' Hrep' Hq'). apply Hn; lia.
  - exists 1%nat. intros [|k1] [|k2] ? ?; try lia. apply Hok.
  - exists 1%nat. intros [|k1] [|k2] ? ?; try lia. apply Hok.
Qed.

End scripted.

Lemma close_loop_ok (t : FdTable watcher) fuel : ∀ i wd r,
  table_ok t → table_map t (runloop_FDTABLE_MAX - 1) = None →
  0 ≤ i ≤ runloop_FDTABLE_MAX → runloop_FDTABLE_MAX - i < Z.of_nat fuel →
  (r = -1 ∧ used_fds t i = [] ∨ i ≤ r < runloop_FDTABLE_MAX ∧ used_fds t i = r :: used_fds t (r + 1)) →
  close_loop fuel t r wd = Ret (Some (foldl (λ wd fd, fst (close K fd wd)) wd (used_fds t i))).
Proof.
  induction fuel as [|fuel IH]; intros i wd r Ht Hlast Hi Hf Hr; [lia|]. cbn [close_loop].
  destruct Hr as [[-> ->]|[Hr Hu]]; [done|]. rewrite (proj2 (Z.eqb_neq _ _)) by lia. rewrite Hu. cbn [foldl].
  assert (r ≠ runloop_FDTABLE_MAX - 1) as Hne.
  { intros ->. assert (runloop_FDTABLE_MAX - 1 ∈ used_fds t i) as Hin by (rewrite Hu; left).
    unfold used_fds in Hin. apply list_elem_of_filter in Hin as [[w Hw] _]. congruence. }
  destruct (FdTable_iterates t r Ht) as [(r' & Hn & Hc)|[]]; [lia| |lia].
  rewrite (proj2 (Z.eqb_neq _ _)) in Hn by lia. rewrite Hn, bind_ret_l.
  apply IH; [done|done|lia|lia|]. destruct Hc as [[-> Hc]|(Hr' & Hs & Hc)].
  - left. split; [done|]. apply used_fds_none. intros. apply Hc. lia.
  - right. split; [lia|]. apply used_fds_cons; [lia|done|]. intros. apply Hc. lia.
Qed.

(** ** The interest list of the kernel *)

(** EPOLLEXCLUSIVE may be given only with ADD, and only with these other bits; MOD fails
    both when it asks for it and on a descriptor that was added with it. *)
Definition exclusive (mask : Z) : bool := Z.testbit mask 28.
Definition add_mask_ok (mask : Z) : bool :=
  negb (exclusive mask) ||
  (Z.land mask (Z.lnot (Z.lor (2 ^ 31) (Z.lor (2 ^ 29) (Z.lor EPOLLEXCLUSIVE
     (Z.lor EPOLLHUP (Z.lor EPOLLERR (Z.lor EPOLLOUT EPOLLIN))))))) =? 0).

(** The documented behaviour of epoll_ctl on pollable descriptors, with [interest] the
    event mask and the pointer the epoll instance holds for a descriptor: ADD fails on a
    descriptor that is in the list; MOD and DEL act on one that is. *)
Record epoll_laws (interest : world → Z → option (Z * watcher)) (pollable : Z → Prop) : Prop := {
  el_add : ∀ fd i w wd, pollable fd → add_mask_ok i = true → interest wd fd = None →
    ∃ wd', epoll_ctl K efd EPOLL_CTL_ADD fd i (Some w) wd = (wd', 0) ∧
      ∀ fd', interest wd' fd' = if decide (fd' = fd) then Some (i, w) else interest wd fd';
  el_exists : ∀ fd i w wd v, interest wd fd = Some v →
    ∃ wd', epoll_ctl K efd EPOLL_CTL_ADD fd i (Some w) wd = (wd', -1);
  el_mod : ∀ fd i w wd m v, interest wd fd = Some (m, v) → exclusive m = false → exclusive i = false →
    ∃ wd', epoll_ctl K efd EPOLL_CTL_MOD fd i (Some w) wd = (wd', 0) ∧
      ∀ fd', interest wd' fd' = if decide (fd' = fd) then Some (i, w) else interest wd fd';
  el_mod_exclusive : ∀ fd i w wd m v, interest wd fd = Some (m, v) → exclusive m || exclusive i = true →
    ∃ wd', epoll_ctl K efd EPOLL_CTL_MOD fd i (Some w) wd = (wd', -1);
  el_del : ∀ fd i wd v, interest wd fd = Some v →
    ∃ wd', epoll_ctl K efd EPOLL_CTL_DEL fd i None wd = (wd', 0) ∧
      ∀ fd', interest wd' fd' = if decide (fd' = fd) then None else interest wd fd'
}.

Definition mirrors (interest : world → Z → option (Z * watcher)) (s : st) : Prop :=
  ∀ fd, snd <$> interest (snd s) fd = if in_table fd then table_map (table (fst s)) fd else None.

Lemma exclusive_u32 i : exclusive (u32 i) = exclusive i.
Proof. unfold exclusive, u32. by rewrite Z.mod_pow2_bits_low by lia. Qed.

Lemma exclusive_lor a b : exclusive a = false → exclusive b = false → exclusive (Z.lor a b) = false.
Proof. unfold exclusive. intros Ha Hb. by rewrite Z.lor_spec, Ha, Hb. Qed.

Lemma exclusive_land a b : exclusive a = false → exclusive (Z.land a b) = false.
Proof. unfold exclusive. intros Ha. by rewrite Z.land_spec, Ha. Qed.

Lemma mirrors_step interest rl wd t' wd' fd o :
  mirrors interest (rl, wd) → in_table fd = true →
  (∀ fd', table_map t' fd' = if decide (fd' = fd) then snd <$> o else table_map (table rl) fd') →
  (∀ fd', interest wd' fd' = if decide (fd' = fd) then o else interest wd fd') →
  mirrors interest (set_table rl t', wd').
Proof.
  intros Hm Hin Ht Hi fd'. cbn [fst snd set_table table]. rewrite Hi, Ht. pose proof (Hm fd') as H'. cbn in H'.
  case_decide; [|done]. subst. by rewrite Hin.
Qed.

(** A new loop represents the empty abstract loop. *)
Lemma runloop_new_rep malloc_ok wd s :
  runloop_new malloc_ok wd = Ret s → epoll_fd (fst s) = efd → closed = false → loop_rep s (mkA ∅ [] (snd s)).
Proof.
  unfold runloop_new, runloop_init. destruct malloc_ok; [|done]. cbn [c_assert]. rewrite bind_ret_l.
  destruct (epoll_create1 K wd) as [wd' e]. destruct (negb (e =? -1)); [|done]. cbn [c_assert]. rewrite bind_ret_l.
  destruct (fl_new_ok (fn := fn) (arg_t := arg_t) runloop_READY_LIST_MAX) as (l & -> & Hl & Hcap); [by vm_compute|].
  rewrite bind_ret_l. intros [= <-] He ->. cbn [fst snd] in *.
  constructor; cbn; try done. apply table_rep_empty.
Qed.

(** ** Properties *)

(** C8: The event loop implements its specification, with termination: when the
    handlers and posted functions act on the loop only through its own functions, and
    the specified run of the abstract loop ends - it runs every ready functor in the
    order of posting, those posted meanwhile included, before it waits again; it
    delivers each event of a batch in order to the watcher registered for its
    descriptor; it ends with 0 when no watcher and no functor is left, with 0 or -1 as
    the wait reports, or aborts - then with enough fuel the loop of the code ends the
    same way, in a state that represents the specified one. *)
Theorem runloop_run_refines s a r :
  loop_rep s a → scripted_handler hact → scripted_call act → a_run a r →
  ∃ n, ∀ fuel, (n ≤ fuel)%nat → refines exits (runloop_run fuel s) r.
Proof.
  intros Hrep Hh Hc Hrun. destruct (run_ok Hh Hc a r Hrun s Hrep) as [n Hn].
  exists (S n). intros fuel Hfuel.
  destruct (at_step_run a s n fuel Hrep) as [<-|(k & -> & ->)]; [lia|apply Hn; lia..].
Qed.

(** Posting puts the functor at the end of the ready list and leaves the watchers
    alone; a NULL function, a NULL argument and a list that already holds
    2 * 1024 - 1 functors abort the program. *)
Theorem runloop_post_behaviour cb x s a :
  loop_rep s a →
  match cb, x with
  | Some g, Some v =>
      if Zlen (queue a) <? 2047
      then ∃ s', runloop_post cb x s = Ret s' ∧
             loop_rep s' (mkA (regs a) (queue a ++ [(g, v)]) (world_of a))
      else runloop_post cb x s = AssertFail
  | _, _ => runloop_post cb x s = AssertFail
  end.
Proof.
  intros Hrep. destruct cb as [g|], x as [v|]; try done. split_if.
  - destruct (post_ok g v s a Hrep) as (s' & Hp & Hr & _); eauto.
  - by apply (post_full g v s a Hrep).
Qed.

(** A handler that deregisters the watcher of another event of the same batch
    makes the loop abort: the loop still takes that event, and looking its descriptor
    up in the table fails. *)
Theorem runloop_stale_event_aborts s a w1 w2 m1 m2 fd1 fd2 wd wd1 wd2 k :
  loop_rep s a → scripted_handler hact → queue a = [] →
  in_table fd1 = true → in_table fd2 = true → regs a !! fd1 = Some w1 → regs a !! fd2 = Some w2 →
  epoll_wait K efd runloop_MAX_EPOLL_FDS (world_of a) = (wd, WaitEvents [(w1, m1); (w2, m2)]) →
  watcher_fd K wd w1 = Some fd1 →
  hact w1 m1 wd = (wd1, [ODeregister fd2]) →
  epoll_ctl K efd EPOLL_CTL_DEL fd2 (u32 (Z.lor EPOLLEXCLUSIVE EPOLLIN)) None wd1 = (wd2, 0) →
  watcher_fd K wd2 w2 = Some fd2 →
  runloop_run (S k) s = AssertFail.
Proof.
  intros Hrep Hh Hq Hi1 Hi2 Hr1 Hr2 Hwait Hf1 Hact Hctl Hf2.
  rewrite (wait_refines k s a Hrep Hq), decide_False by (intros He; by rewrite He in Hr1). rewrite Hwait.
  destruct s as [rl w0].
  pose proof (events_refines Hh [(w1, m1); (w2, m2)] (rl, wd) (a_set_world a wd) (rep_world _ _ _ wd Hrep)) as He.
  assert (a_events [(w1, m1); (w2, m2)] (a_set_world a wd) = AssertFail) as Hab.
  { cbn [a_events]. cbn [a_set_world world_of]. rewrite Hf1. cbn [deref]. rewrite bind_ret_l.
    rewrite (a_lookup_eq fd1 (a_set_world a wd) w1 Hi1 Hr1), bind_ret_l, bool_decide_true by done.
    cbn [c_assert]. rewrite bind_ret_l. cbn [a_set_world world_of]. rewrite Hact.
    cbn [a_ops a_op]. rewrite (a_lookup_eq fd2 (a_set_world (a_set_world a wd) wd1) w2 Hi2 Hr2), bind_ret_l.
    unfold a_ctl. cbn [a_set_world world_of]. rewrite Hctl. cbn [Z.eqb c_assert]. rewrite !bind_ret_l.
    cbn [world_of]. rewrite Hf2. cbn [deref]. rewrite bind_ret_l. unfold a_lookup. cbn [regs].
    by rewrite Hi2, lookup_delete_eq. }
  rewrite Hab in He. cbn [refines fst] in *. by rewrite He.
Qed.

(** Closing the loop closes the epoll descriptor and then every registered
    descriptor once, in increasing order; freeing an open loop closes it first, freeing
    a closed one closes nothing again. (The last slot of the table must be free: with
    descriptor 1023 registered the iteration aborts, see [FdTable_iterates].) *)
Theorem runloop_close_closes_all s a wd :
  loop_rep s a → regs a !! (runloop_FDTABLE_MAX - 1) = None →
  close K efd (world_of a) = (wd, 0) →
  let wd' := foldl (λ wd fd, fst (close K fd wd)) wd (used_fds (table (fst s)) 0) in
  runloop_close s = Ret (Some (set_closed (fst s), wd')) ∧
  (∀ fd, fd ∈ used_fds (table (fst s)) 0 ↔ is_Some (regs a !! fd)) ∧
  runloop_free s = Ret (Some (if closed then world_of a else wd')).
Proof.
  intros Hrep Hlast Hcl wd'. destruct s as [rl w0]. pose proof Hrep as [[Hok Hm _] _ _ Hw He Hc].
  cbn [fst snd] in *. subst w0.
  assert (table_map (table rl) (runloop_FDTABLE_MAX - 1) = None) as Hl by (by rewrite Hm in Hlast).
  assert (runloop_close (rl, world_of a) = Ret (Some (set_closed rl, wd'))) as Hclose.
  { unfold runloop_close. cbn [set_closed epoll_fd table]. rewrite He, Hcl. cbn [c_assert negb Z.eqb]. rewrite bind_ret_l.
    destruct (FdTable_iterates (table rl) (-1) Hok) as [(r & Hr & Hcs)|[]]; [done| |done].
    rewrite Z.eqb_refl in Hr. rewrite Hr, bind_ret_l.
    rewrite (close_loop_ok _ _ 0); [done..|].
    destruct Hcs as [[-> Hcs]|(Hr' & Hs & Hcs)].
    - left. split; [done|]. apply used_fds_none. intros. apply Hcs. lia.
    - right. split; [lia|]. apply used_fds_cons; [lia|done|]. intros. apply Hcs. lia. }
  split_and!; [done| |].
  - intros fd. unfold used_fds. rewrite list_elem_of_filter, elem_of_seqZ, Hm.
    destruct (in_table fd) eqn:Ein.
    + apply in_table_iff in Ein. split; [by intros []|]. intros. split; [done|lia].
    + split; [|by intros []]. intros [_ Hfd]. assert (in_table fd = true); [apply in_table_iff; lia|congruence].
  - unfold runloop_free. cbn [fst]. rewrite Hc. destruct (FdTable_free_ok _ Hok) as [t' Ht'].
    destruct closed; cbn [negb]; rewrite ?Hclose, bind_ret_l; cbn [set_closed table]; by rewrite Ht'.
Qed.

(** One operation on a descriptor of a loop that mirrors the kernel. *)
Section one_operation.
Context (interest : world → Z → option (Z * watcher)) (pollable : Z → Prop) (HL : epoll_laws interest pollable).
Context (rl : runloop) (wd : world) (fd i : Z) (w : watcher).
Context (Hm : mirrors interest (rl, wd)) (Hok : table_ok (table rl)) (He : epoll_fd rl = efd) (Hin : in_table fd = true).

Lemma mirror_entry : table_map (table rl) fd = snd <$> interest wd fd.
Proof using Hm Hin. pose proof (Hm fd) as H. cbn [fst snd] in H. by rewrite Hin in H. Qed.

Lemma mirror_lookup :
  FdTable_lookup (table rl) fd = match interest wd fd with Some (_, v) => Ret v | None => AssertFail end.
Proof using Hm Hin Hok.
  rewrite lookup_ok by (done || by apply in_table_iff). rewrite mirror_entry. by destruct (interest wd fd) as [[]|].
Qed.

Lemma mirror_register :
  pollable fd → add_mask_ok (u32 i) = true → interest wd fd = None →
  ∃ s', runloop_register fd i w (rl, wd) = Ret (s', 0) ∧ mirrors interest s' ∧ interest (snd s') fd = Some (u32 i, w) ∧
    ∀ fd', table_map (table (fst s')) fd' = if decide (fd' = fd) then Some w else table_map (table rl) fd'.
Proof using HL Hm Hok He Hin.
  intros Hpoll Hi0 Ei. destruct (el_add _ _ HL fd (u32 i) w wd Hpoll Hi0 Ei) as (wd' & Hctl & Hi).
  destruct (insert_ok (table rl) w fd Hok) as (t' & Hr & Ht' & Hmap);
    [by apply in_table_iff|by rewrite mirror_entry, Ei|].
  exists (set_table rl t', wd'). split_and!; [|by eapply (mirrors_step interest rl wd t' wd' fd (Some (u32 i, w)))| |exact Hmap].
  - unfold runloop_register, runloop_epoll_ctl. rewrite He, Hctl. cbn [Z.eqb c_assert]. rewrite !bind_ret_l. by rewrite Hr.
  - cbn [snd]. by rewrite Hi, decide_True.
Qed.

Lemma mirror_register_used v t :
  interest wd fd = Some v → runloop_register fd i w (set_table rl t, wd) = AssertFail.
Proof using HL He.
  intros Ei. unfold runloop_register, runloop_epoll_ctl. cbn [set_table epoll_fd]. rewrite He.
  by destruct (el_exists _ _ HL fd (u32 i) w wd _ Ei) as [wd' ->].
Qed.

Lemma mirror_deregister m v :
  interest wd fd = Some (m, v) →
  ∃ s', runloop_deregister fd (rl, wd) = Ret (s', 0) ∧ mirrors interest s' ∧
    ∀ fd', table_map (table (fst s')) fd' = if decide (fd' = fd) then None else table_map (table rl) fd'.
Proof using HL Hm Hok He Hin.
  intros Ei. destruct (el_del _ _ HL fd (u32 (Z.lor EPOLLEXCLUSIVE EPOLLIN)) wd _ Ei) as (wd' & Hctl & Hi).
  destruct (remove_ok (table rl) v fd Hok) as (t' & Hr & Ht' & Hmap);
    [by apply in_table_iff|by rewrite mirror_entry, Ei|].
  exists (set_table rl t', wd'). split_and!; [|by eapply (mirrors_step interest rl wd t' wd' fd None)|exact Hmap].
  unfold runloop_deregister, runloop_epoll_ctl. cbn [fst]. rewrite mirror_lookup, Ei, bind_ret_l, He, Hctl.
  cbn [Z.eqb c_assert]. rewrite !bind_ret_l. by rewrite Hr.
Qed.

Lemma mirror_reregister m v :
  interest wd fd = Some (m, v) →
  if decide (w = v ∧ exclusive m || exclusive i = false)
  then ∃ s', runloop_reregister fd i w (rl, wd) = Ret (s', 0) ∧ mirrors interest s' ∧ table (fst s') = table rl ∧
         interest (snd s') fd = Some (u32 i, w)
  else runloop_reregister fd i w (rl, wd) = AssertFail.
Proof using HL Hm Hok He Hin.
  intros Ei.
  assert (∀ wd' r, epoll_ctl K efd EPOLL_CTL_MOD fd (u32 i) (Some w) wd = (wd', r) →
    runloop_reregister fd i w (rl, wd) =
    (c_assert (r =? 0);; c_assert (bool_decide (w = v));; Ret ((rl, wd'), 0))) as Hre.
  { intros wd' r Hctl. unfold runloop_reregister, runloop_epoll_ctl. cbn [fst]. rewrite mirror_lookup, Ei, bind_ret_l, He, Hctl.
    rewrite bind_assoc. destruct (r =? 0); cbn [c_assert]; [|done]. rewrite !bind_ret_l. by rewrite mirror_lookup, Ei. }
  destruct (exclusive m || exclusive i) eqn:Ex.
  { rewrite decide_False by (by intros []).
    destruct (el_mod_exclusive _ _ HL fd (u32 i) w wd m v Ei) as (wd' & Hctl); [by rewrite exclusive_u32|].
    by rewrite (Hre _ _ Hctl). }
  apply orb_false_iff in Ex as [Em Exi].
  destruct (el_mod _ _ HL fd (u32 i) w wd m v Ei Em) as (wd' & Hctl & Hi); [by rewrite exclusive_u32|].
  rewrite (Hre _ _ Hctl). cbn [Z.eqb c_assert]. rewrite bind_ret_l.
  destruct (decide (w = v)) as [->|Hne];
    [|by rewrite bool_decide_false, (decide_False (P := w = v ∧ _)) by (done || by intros [])].
  rewrite bool_decide_true, (decide_True (P := v = v ∧ _)) by done. exists (rl, wd'). split_and!; [done| |done|].
  - intros fd'. rewrite <- Hm. cbn [fst snd]. rewrite Hi. destruct (decide (fd' = fd)) as [->|]; [by rewrite Ei|done].
  - cbn [snd]. by rewrite Hi, decide_True.
Qed.

Lemma mirror_delete m v :
  interest wd fd = Some (m, v) →
  ∃ s', runloop_delete fd (rl, wd) = Ret s' ∧ ¬ mirrors interest s' ∧ runloop_register fd i w s' = AssertFail.
Proof using HL Hm Hok He Hin.
  intros Ei. destruct (remove_ok (table rl) v fd Hok) as (t' & Hr & Ht' & Hmap);
    [by apply in_table_iff|by rewrite mirror_entry, Ei|].
  exists (set_table rl t', wd). split_and!; [| |by eapply mirror_register_used].
  - unfold runloop_delete. cbn [fst snd]. by rewrite mirror_lookup, Ei, bind_ret_l, Hr.
  - intros Hm'. specialize (Hm' fd). cbn [fst snd set_table table] in Hm'.
    rewrite Hin, Hmap, decide_True, Ei in Hm' by done. done.
Qed.
End one_operation.

(** C36: The table of watchers mirrors the interest list of the epoll instance: when
    epoll_ctl behaves as documented, registering a free descriptor, deregistering and
    re-registering a used one succeed and keep the two equal, with the mask asked for;
    registering a used one, deregistering, re-registering or deleting a free one,
    re-registering another watcher, and re-registering a watcher that was registered
    with EPOLLEXCLUSIVE abort. [runloop_delete] alone breaks the agreement: after it the
    kernel still holds the descriptor, and registering it again aborts. *)
Theorem runloop_mirrors_kernel interest pollable s fd i w :
  epoll_laws interest pollable → pollable fd → mirrors interest s → table_ok (table (fst s)) → epoll_fd (fst s) = efd →
  in_table fd = true → add_mask_ok (u32 i) = true →
  match interest (snd s) fd with
  | None =>
      (∃ s', runloop_register fd i w s = Ret (s', 0) ∧ mirrors interest s' ∧ interest (snd s') fd = Some (u32 i, w) ∧
         ∀ fd', table_map (table (fst s')) fd' = if decide (fd' = fd) then Some w else table_map (table (fst s)) fd') ∧
      runloop_deregister fd s = AssertFail ∧ runloop_reregister fd i w s = AssertFail ∧
      runloop_delete fd s = AssertFail
  | Some (m, v) =>
      runloop_register fd i w s = AssertFail ∧
      (∃ s', runloop_deregister fd s = Ret (s', 0) ∧ mirrors interest s' ∧
         ∀ fd', table_map (table (fst s')) fd' = if decide (fd' = fd) then None else table_map (table (fst s)) fd') ∧
      (if decide (w = v ∧ exclusive m || exclusive i = false)
       then ∃ s', runloop_reregister fd i w s = Ret (s', 0) ∧ mirrors interest s' ∧ table (fst s') = table (fst s) ∧
              interest (snd s') fd = Some (u32 i, w)
       else runloop_reregister fd i w s = AssertFail) ∧
      (∃ s', runloop_delete fd s = Ret s' ∧ ¬ mirrors interest s' ∧
         runloop_register fd i w s' = AssertFail)
  end.
Proof.
  intros HL Hpoll Hm Hok He Hin Hi0. destruct s as [rl wd]. cbn [fst snd] in *.
  pose proof (mirror_lookup interest rl wd fd Hm Hok Hin) as Hlook.
  destruct (interest wd fd) as [[m v]|] eqn:Ei.
  - split_and!; [|by eapply mirror_deregister|by eapply mirror_reregister|by eapply mirror_delete].
    rewrite <- (mirror_register_used interest pollable HL rl wd fd i w He _ (table rl) Ei). by destruct rl.
  - split; [by eapply mirror_register|].
    unfold runloop_deregister, runloop_reregister, runloop_delete. cbn [fst]. by rewrite Hlook.
Qed.
End Runloop.

Arguments loop_op : clear implicits.
Arguments astate : clear implicits.

(** ** Witnesses

    A kernel with an interest list, a script of the batches epoll_wait will report, and
    a log; watcher [n] has descriptor [n]. *)

Record ex_world := mkEx { ex_interest : gmap Z (Z * nat); ex_batches : list (list (nat * Z)); ex_log : list Z }.

Definition ex_epoll_ctl (epfd op fd i : Z) (w : option nat) (wd : ex_world) : ex_world * Z :=
  let put m := mkEx m (ex_batches wd) (ex_log wd) in
  match ex_interest wd !! fd, w with
  | None, Some v =>
      if (op =? EPOLL_CTL_ADD) && add_mask_ok i then (put (<[fd := (i, v)]> (ex_interest wd)), 0) else (wd, -1)
  | Some (m, _), Some v =>
      if (op =? EPOLL_CTL_MOD) && negb (exclusive m || exclusive i)
      then (put (<[fd := (i, v)]> (ex_interest wd)), 0) else (wd, -1)
  | Some _, None => if op =? EPOLL_CTL_DEL then (put (delete fd (ex_interest wd)), 0) else (wd, -1)
  | None, None => (wd, -1)
  end.

Definition ex_kernel : kernel nat ex_world := mkKernel
  (fun wd => (wd, 3))
  ex_epoll_ctl
  (fun _ _ wd => match ex_batches wd with
                 | [] => (wd, WaitError 9)
                 | b :: bs => (mkEx (ex_interest wd) bs (ex_log wd), WaitEvents b)
                 end)
  (fun fd wd => (mkEx (delete fd (ex_interest wd)) (ex_batches wd) (ex_log wd ++ [fd]), 0))
  (fun _ w => Some (Z.of_nat w)).

Definition ex_note (n : Z) (wd : ex_world) : ex_world :=
  mkEx (ex_interest wd) (ex_batches wd) (ex_log wd ++ [n]).

(** Watcher 5 posts function 1; watcher 6 deregisters descriptor 5. Function 1 posts
    function 2, which deregisters descriptor 5. *)
Definition ex_hact (w : nat) (mask : Z) (wd : ex_world) : ex_world * list (loop_op nat nat nat) :=
  (ex_note (Z.of_nat w) wd, if decide (w = 5%nat) then [OPost 1%nat 1%nat] else [ODeregister 5]).
Definition ex_act (g a : nat) (wd : ex_world) : ex_world * list (loop_op nat nat nat) :=
  (ex_note (100 + Z.of_nat g) wd, if decide (g = 1%nat) then [OPost 2%nat 1%nat] else [ODeregister 5]).

Abbreviation ex_st := (Runloop nat nat nat * ex_world)%type.
Definition ex_handler (w : nat) (mask : Z) (s : ex_st) : outcome ex_st :=
  let '(wd, ops) := ex_hact w mask (snd s) in exec_ops ex_kernel ops (fst s, wd).
Definition ex_call (g : nat) (a : option nat) (s : ex_st) : outcome ex_st :=
  match a with
  | Some a => let '(wd, ops) := ex_act g a (snd s) in exec_ops ex_kernel ops (fst s, wd)
  | None => Ub
  end.

Definition ex_start (batches : list (list (nat * Z))) : outcome ex_st :=
  runloop_new ex_kernel true (mkEx ∅ batches []).

Lemma ex_start_rep batches s :
  ex_start batches = Ret s → loop_rep 3 false s (mkA ∅ [] (mkEx ∅ batches [])).
Proof.
  intros Hs. assert (snd s = mkEx ∅ batches [] ∧ epoll_fd (fst s) = 3) as [Hw He].
  { unfold ex_start, runloop_new, runloop_init in Hs. cbn in Hs. injection Hs as <-. done. }
  rewrite <- Hw. by eapply runloop_new_rep.
Qed.

(** A new loop with the watchers [fds] registered. *)
Definition ex_register (fds : list nat) : list (loop_op nat nat nat) :=
  (fun w => ORegister (Z.of_nat w) EPOLLIN w) <$> fds.
Definition ex_loop (batches : list (list (nat * Z))) (fds : list nat) : outcome ex_st :=
  s ← ex_start batches; exec_ops ex_kernel (ex_register fds) s.
Definition ex_spec (batches : list (list (nat * Z))) (fds : list nat) : outcome (astate nat nat nat ex_world) :=
  a_ops ex_kernel 3 (ex_register fds) (mkA ∅ [] (mkEx ∅ batches [])).

Lemma ex_loop_rep batches fds a :
  ex_spec batches fds = Ret a → ∃ s, ex_loop batches fds = Ret s ∧ loop_rep 3 false s a.
Proof.
  intros Ha. unfold ex_loop. destruct (ex_start batches) as [s0| |] eqn:E; [|by cbn in E..].
  pose proof (ops_refines ex_kernel 3 false (ex_register fds) s0 _ (ex_start_rep _ _ E)) as Hr.
  unfold ex_spec in Ha. rewrite Ha in Hr. exact Hr.
Qed.

(** One event on descriptor 5, then the two functors in the order of posting, and the
    loop returns 0 with nothing registered. *)
Lemma runloop_run_refines_witness :
  ∃ s, ex_loop [[(5%nat, EPOLLIN)]] [5%nat] = Ret s ∧
  ∃ n, ∀ fuel, (n ≤ fuel)%nat →
    refines (exits 3 false) (runloop_run ex_kernel ex_handler ex_call fuel s)
      (Ret (mkA ∅ [] (mkEx ∅ [] [5; 101; 102]), 0)).
Proof.
  destruct (ex_loop_rep [[(5%nat, EPOLLIN)]] [5%nat] _ eq_refl) as (s & Hs & Hr). exists s. split; [exact Hs|].
  apply (runloop_run_refines ex_kernel ex_handler ex_call 3 false ex_hact ex_act s _ _ Hr).
  - intros w mask rl wd. reflexivity.
  - intros g a rl wd. reflexivity.
  - do 3 (eapply a_run_step; [vm_compute; reflexivity|]). apply a_run_exit. vm_compute. reflexivity.
Defined.

Lemma runloop_post_behaviour_witness :
  ∃ s, ex_loop [] [5%nat] = Ret s ∧
  ∃ s', runloop_post (Some 1%nat) (Some 7%nat) s = Ret s' ∧
    loop_rep 3 false s' (mkA {[5 := 5%nat]} [(1%nat, 7%nat)] (mkEx {[5 := (EPOLLIN, 5%nat)]} [] [])).
Proof.
  destruct (ex_loop_rep [] [5%nat] _ eq_refl) as (s & Hs & Hr). exists s. split; [exact Hs|].
  exact (runloop_post_behaviour 3 false (Some 1%nat) (Some 7%nat) s _ Hr).
Defined.

(** Watcher 6 deregisters descriptor 5, whose event comes next in the batch. *)
Lemma runloop_stale_event_aborts_witness :
  ∃ s, ex_loop [[(6%nat, EPOLLIN); (5%nat, EPOLLIN)]] [5%nat; 6%nat] = Ret s ∧
    runloop_run ex_kernel ex_handler ex_call 1 s = AssertFail.
Proof.
  destruct (ex_loop_rep [[(6%nat, EPOLLIN); (5%nat, EPOLLIN)]] [5%nat; 6%nat] _ eq_refl) as (s & Hs & Hr).
  exists s. split; [exact Hs|].
  eapply (runloop_stale_event_aborts ex_kernel ex_handler ex_call 3 false ex_hact s _ 6%nat 5%nat 1 1 6 5);
    [exact Hr|intros w mask rl wd; reflexivity|vm_compute; reflexivity..].
Defined.

Lemma runloop_close_closes_all_witness :
  ∃ s wd, ex_loop [] [5%nat; 6%nat] = Ret s ∧
    runloop_close ex_kernel s = Ret (Some (set_closed (fst s), wd)).
Proof.
  destruct (ex_loop_rep [] [5%nat; 6%nat] _ eq_refl) as (s & Hs & Hr). exists s. eexists. split; [exact Hs|].
  eapply (runloop_close_closes_all ex_kernel 3 false s _ _ Hr); reflexivity.
Defined.

Lemma ex_epoll_laws : epoll_laws ex_kernel 3 (fun wd fd => ex_interest wd !! fd) (fun _ => True).
Proof.
  assert (∀ fd fd' v (m : gmap Z (Z * nat)), <[fd := v]> m !! fd' = if decide (fd' = fd) then Some v else m !! fd') as Hins.
  { intros. rewrite lookup_insert. by repeat case_decide. }
  assert (∀ fd fd' (m : gmap Z (Z * nat)), delete fd m !! fd' = if decide (fd' = fd) then None else m !! fd') as Hdel.
  { intros. rewrite lookup_delete. by repeat case_decide. }
  constructor; cbn [ex_kernel epoll_ctl]; unfold ex_epoll_ctl.
  - intros fd i w wd _ Hi Hf. rewrite Hf, Hi. eexists. split; [done|]. intros fd'. apply Hins.
  - intros fd i w wd [m v] Hf. rewrite Hf. eexists. done.
  - intros fd i w wd m v Hf Hm Hi. rewrite Hf, Hm, Hi. eexists. split; [done|]. intros fd'. apply Hins.
  - intros fd i w wd m v Hf Hx. rewrite Hf, Hx. eexists. done.
  - intros fd i wd [m v] Hf. rewrite Hf. eexists. split; [done|]. intros fd'. apply Hdel.
Qed.

Lemma runloop_mirrors_kernel_witness :
  ∃ s, ex_start [] = Ret s ∧
    ∃ s', runloop_register ex_kernel 5 EPOLLIN 5%nat s = Ret (s', 0) ∧
      mirrors (fun wd fd => ex_interest wd !! fd) s'.
Proof.
  destruct (ex_start []) as [s| |] eqn:E; [|exfalso; discriminate E..]. exists s. split; [reflexivity|].
  pose proof (ex_start_rep [] s E) as Hr. injection E as Es.
  assert (mirrors (fun wd fd => ex_interest wd !! fd) s) as Hm.
  { intros fd. rewrite (lr_world _ _ _ _ Hr). exact (tr_map _ _ (lr_table _ _ _ _ Hr) fd). }
  pose proof (runloop_mirrors_kernel ex_kernel 3 (fun wd fd => ex_interest wd !! fd) (fun _ => True) s 5 EPOLLIN 5%nat
    ex_epoll_laws I Hm (tr_ok _ _ (lr_table _ _ _ _ Hr)) (lr_efd _ _ _ _ Hr) eq_refl eq_refl) as Hk.
  rewrite <- Es in Hk |- *. destruct Hk as [(s' & H1 & H2 & _) _]. exists s'. split; [exact H1|exact H2].
Defined.
