(* ===== verification/EventfdQueue.v ===== *)
(** * EventfdQueue: functors handed from other threads to a loop
    (src/runloop/epoll_runloop/w_eventfd_queue.c, w_queue_watcher.c, w_interthread_queue.c)

    A ring of functors under a mutex, paired with an eventfd that a loop watches. Each
    operation holds the mutex from its first to its last access, so operations of
    several threads are some sequence of whole operations. The eventfd is the
    kernel's: its calls are an interface with their documented laws. *)

From S2P Require Import Prelude FunctorList FdTable Runloop.
Open Scope Z_scope.

(** ** The interface to eventfd *)

(** [ev_read] gives [None] when the call returns -1 with EAGAIN; [ev_count] is the
    counter of a descriptor. *)
Class EventFd (world : Type) := {
  eventfd : world → world * Z;
  ev_read : Z → world → world * option Z;
  ev_write : Z → Z → world → world;
  ev_count : world → Z → Z
}.

Definition EV_MAX : Z := 2 ^ 64 - 2.

(** A read without EFD_SEMAPHORE returns the counter and clears it, and fails on a
    zero counter of a non-blocking descriptor; a write adds to the counter. *)
Class EventFdLaws (world : Type) `{EventFd world} : Prop := {
  ev_create_count : ∀ wd, ev_count (fst (eventfd wd)) (snd (eventfd wd)) = 0;
  ev_read_pos : ∀ fd wd, 0 < ev_count wd fd →
    ∃ wd', ev_read fd wd = (wd', Some (ev_count wd fd)) ∧ ev_count wd' fd = 0;
  ev_read_zero : ∀ fd wd, ev_count wd fd = 0 → ev_read fd wd = (wd, None);
  ev_write_count : ∀ fd n wd, 0 ≤ n → 0 ≤ ev_count wd fd → ev_count wd fd + n ≤ EV_MAX →
    ev_count (ev_write fd n wd) fd = ev_count wd fd + n
}.

(** epoll reports a watched eventfd readable while its counter is positive. *)
Definition ev_readable {world} `{EventFd world} (wd : world) (fd : Z) : bool := 0 <? ev_count wd fd.

Section EventfdQueue.
Context {watcher fn arg_t rcb world : Type}.
Context `{EventFd world}.
Abbreviation functor := (Functor fn arg_t).
Abbreviation st := (Runloop watcher fn arg_t * world)%type.

Record EventfdQueue := mkEQ { list_q : FunctorList fn arg_t; readfd : Z; writefd : Z }.

(** The loop that empties the new descriptor; [None] is the end of the fuel. *)
Fixpoint drain_fd (fuel : nat) (fd : Z) (wd : world) : option world :=
  match fuel with
  | O => None
  | S fuel =>
      let '(wd, nread) := ev_read fd wd in
      match nread with None => Some wd | Some _ => drain_fd fuel fd wd end
  end.
Definition mk_fds (fuel : nat) (wd : world) : option (world * Z) :=
  let '(wd, fd) := eventfd wd in
  wd ← drain_fd fuel fd wd; Some (wd, fd).

Definition runloop_eventfd_queue_init (fuel : nat) (wd : world) : outcome (option (EventfdQueue * world)) :=
  l ← functor_list_new runloop_MAX_FDS;
  Ret ('(wd, fd) ← mk_fds fuel wd; Some (mkEQ l fd fd, wd)).
Definition runloop_eventfd_queue_new (fuel : nat) (wd : world) : outcome (option (EventfdQueue * world)) :=
  runloop_eventfd_queue_init fuel wd.
Definition runloop_eventfd_queue_readfd (me : EventfdQueue) : Z := readfd me.

Definition runloop_eventfd_queue_add (me : EventfdQueue) (item : functor) (wd : world) :
    outcome (EventfdQueue * world) :=
  l ← functor_list_add (list_q me) item;
  Ret (mkEQ l (readfd me) (writefd me), ev_write (writefd me) 1 wd).

Definition runloop_eventfd_queue_remove (me : EventfdQueue) (wd : world) :
    outcome (EventfdQueue * world * functor) :=
  n ← functor_list_size (list_q me);
  '(l, op) ← (if 0 <? n then functor_list_remove (list_q me)
              else Ret (list_q me, mkFunctor None None));
  Ret (mkEQ l (readfd me) (writefd me), fst (ev_read (readfd me) wd), op).

(** ** The queue watcher *)

Record RunloopQueueWatcher := mkQW {
  qw_fd : Z;
  queue_postable : option fn;
  queue_postable_arg : option arg_t;
  read_cb : option rcb;
  read_cb_arg : option arg_t
}.

Variable K : kernel watcher world.
(** The address of the watcher, under which the loop knows it. *)
Variable self : watcher.

(** The fields the C code leaves unset hold no pointer here. *)
Definition runloop_queue_watcher_init (qref : EventfdQueue) : RunloopQueueWatcher :=
  mkQW (runloop_eventfd_queue_readfd qref) None None None None.
Definition runloop_queue_watcher_new (qref : EventfdQueue) : RunloopQueueWatcher :=
  runloop_queue_watcher_init qref.

Definition qw_interest : Z := Z.lor (Z.lor (Z.lor EPOLLIN EPOLLERR) EPOLLRDHUP) EPOLLHUP.

Definition runloop_queue_watcher_register (athis : RunloopQueueWatcher)
    (postable_cb : option fn) (postable_arg : option arg_t) (s : st) : outcome (RunloopQueueWatcher * st) :=
  let athis := mkQW (qw_fd athis) postable_cb postable_arg (read_cb athis) (read_cb_arg athis) in
  '(s, res) ← runloop_register K (qw_fd athis) qw_interest self s;
  c_assert (res =? 0);;
  Ret (athis, s).

Definition runloop_queue_watcher_change_watch `{EqDecision watcher} (athis : RunloopQueueWatcher)
    (cb : option fn) (a : option arg_t) (watch_what : Z) (s : st) : outcome (RunloopQueueWatcher * st) :=
  let cb' := match cb with Some _ => cb | None => queue_postable athis end in
  let a' := match a with Some _ => a | None => queue_postable_arg athis end in
  let athis := mkQW (qw_fd athis) cb' a' (read_cb athis) (read_cb_arg athis) in
  '(s, res) ← runloop_reregister K (qw_fd athis) (u32 watch_what) self s;
  c_assert (res =? 0);;
  Ret (athis, s).

Definition runloop_queue_watcher_deregister (athis : RunloopQueueWatcher) (s : st) : outcome st :=
  '(s, res) ← runloop_deregister K (qw_fd athis) s;
  c_assert (res =? 0);;
  Ret s.

(** [close(this->fd)] before the watcher is freed. *)
Definition runloop_queue_watcher_free (athis : RunloopQueueWatcher) (wd : world) : world :=
  fst (close K (qw_fd athis) wd).

(** The handler the loop calls: the postable is called at once, not posted. *)
Definition queue_handler (call : fn → option arg_t → st → outcome st) (athis : RunloopQueueWatcher) (s : st) : outcome st :=
  g ← deref (queue_postable athis);
  call g (queue_postable_arg athis) s.

Definition runloop_queue_watcher_async_read (on_read_ready : fn) (self_arg : arg_t) (this : RunloopQueueWatcher)
    (cb : option rcb) (cb_context_arg : option arg_t) (s : st) : outcome (RunloopQueueWatcher * st) :=
  let this := mkQW (qw_fd this) (queue_postable this) (queue_postable_arg this) cb cb_context_arg in
  runloop_queue_watcher_register this (Some on_read_ready) (Some self_arg) s.

(** The last component is the call of the client's callback the function ends with. *)
Definition on_read_ready_postable (qw : RunloopQueueWatcher) (q : EventfdQueue) (s : st) :
    outcome (RunloopQueueWatcher * EventfdQueue * st * (rcb * option arg_t * functor)) :=
  '(q, wd, fnc) ← runloop_eventfd_queue_remove q (snd s);
  let tmp_cb := read_cb qw in
  let tmp_arg := read_cb_arg qw in
  let qw := mkQW (qw_fd qw) (queue_postable qw) (queue_postable_arg qw) None None in
  s ← runloop_queue_watcher_deregister qw (fst s, wd);
  cb ← deref tmp_cb;
  Ret (qw, q, s, (cb, tmp_arg, fnc)).

(** ** The interthread queue *)

Definition itqueue_postable (q : EventfdQueue) (s : st) : outcome (EventfdQueue * st) :=
  '(q, wd, queue_data) ← runloop_eventfd_queue_remove q (snd s);
  c_assert (negb (Functor_is_empty queue_data));;
  s ← runloop_post (f queue_data) (arg queue_data) (fst s, wd);
  Ret (q, s).

Definition itqueue_new (itqueue_postable_fn : fn) (itq_ref : arg_t) (fuel : nat) (s : st) :
    outcome (option (EventfdQueue * RunloopQueueWatcher * st)) :=
  o ← runloop_eventfd_queue_new fuel (snd s);
  match o with
  | None => Ret None
  | Some (q, wd) =>
      '(qw, s) ← runloop_queue_watcher_register (runloop_queue_watcher_new q)
                   (Some itqueue_postable_fn) (Some itq_ref) (fst s, wd);
      Ret (Some (q, qw, s))
  end.
Definition itqueue_add (q : EventfdQueue) (func : functor) (wd : world) : outcome (EventfdQueue * world) :=
  runloop_eventfd_queue_add q func wd.
Definition itqueue_remove (q : EventfdQueue) (wd : world) : outcome (EventfdQueue * world * functor) :=
  runloop_eventfd_queue_remove q wd.

(** ** Specification *)

Inductive eq_op := EAdd (x : functor) | ERemove.

(** Run a sequence of operations; the removed functors in order. *)
Fixpoint eq_run (ops : list eq_op) (q : EventfdQueue) (wd : world) :
    outcome (EventfdQueue * world * list functor) :=
  match ops with
  | [] => Ret (q, wd, [])
  | EAdd x :: ops => '(q, wd) ← itqueue_add q x wd; eq_run ops q wd
  | ERemove :: ops =>
      '(q, wd, x) ← itqueue_remove q wd;
      '(q, wd, out) ← eq_run ops q wd;
      Ret (q, wd, x :: out)
  end.

(** The queued functors and whether the loop has been woken since the last removal;
    [None] is the abort on a full queue. *)
Fixpoint eq_spec (ops : list eq_op) (xs : list functor) (woken : bool) : option (list functor * bool * list functor) :=
  match ops with
  | [] => Some (xs, woken, [])
  | EAdd x :: ops => if Zlen xs <? runloop_MAX_FDS - 1 then eq_spec ops (xs ++ [x]) true else None
  | ERemove :: ops =>
      '(ys, w, out) ← eq_spec ops (tail xs) false;
      Some (ys, w, default (mkFunctor None None) (hd_error xs) :: out)
  end.

Record eq_rep (q : EventfdQueue) (wd : world) (xs : list functor) (woken : bool) : Prop := {
  er_list : fl_rep (list_q q) xs;
  er_cap : capacity (list_q q) = runloop_MAX_FDS;
  er_fds : readfd q = writefd q;
  er_count : 0 ≤ ev_count wd (readfd q) ≤ Zlen xs;
  er_woken : ev_readable wd (readfd q) = woken
}.

(** ** Lemmas *)

Context `{!EventFdLaws world}.

Lemma eq_new_ok fuel wd :
  (1 ≤ fuel)%nat →
  ∃ q wd', runloop_eventfd_queue_new fuel wd = Ret (Some (q, wd')) ∧ eq_rep q wd' [] false.
Proof.
  intros Hf. unfold runloop_eventfd_queue_new, runloop_eventfd_queue_init, mk_fds.
  destruct (fl_new_ok (fn := fn) (arg_t := arg_t) runloop_MAX_FDS) as (l & -> & Hl & Hc); [by vm_compute|].
  rewrite bind_ret_l. pose proof (ev_create_count wd) as Hz. destruct (eventfd wd) as [wd' fd]. cbn [fst snd] in Hz.
  destruct fuel as [|fuel]; [lia|]. cbn [drain_fd]. rewrite (ev_read_zero _ _ Hz).
  eexists _, _. split; [done|]. constructor; cbn; try done; rewrite ?Hz; try done.
  unfold ev_readable. by rewrite Hz.
Qed.

Lemma eq_add_ok q wd xs woken x :
  eq_rep q wd xs woken →
  if Zlen xs <? runloop_MAX_FDS - 1
  then ∃ q' wd', itqueue_add q x wd = Ret (q', wd') ∧ eq_rep q' wd' (xs ++ [x]) true
  else itqueue_add q x wd = AssertFail.
Proof.
  intros [Hl Hc Hfd Hn Hw]. unfold itqueue_add, runloop_eventfd_queue_add. destruct (Zlen xs <? runloop_MAX_FDS - 1) eqn:E; bool_prop.
  - destruct (fl_add_ok _ _ x Hl) as (l & -> & Hl' & Hcap); [lia|]. rewrite bind_ret_l.
    assert (ev_count (ev_write (writefd q) 1 wd) (writefd q) = ev_count wd (readfd q) + 1) as Hcnt.
    { rewrite Hfd in *. apply ev_write_count; [lia|lia|]. unfold EV_MAX, runloop_MAX_FDS in *. lia. }
    eexists _, _. split; [done|]. constructor; cbn [list_q readfd writefd]; try done; [congruence| |].
    + rewrite Hfd in *. rewrite Hcnt, Zlen_app. change (Zlen [x]) with 1. lia.
    + unfold ev_readable. rewrite Hfd in *. rewrite Hcnt. apply Z.ltb_lt. lia.
  - rewrite (fl_add_full _ _ x Hl); [done|]. destruct Hl. lia.
Qed.

Lemma read_clears wd fd : 0 ≤ ev_count wd fd → ev_count (fst (ev_read fd wd)) fd = 0.
Proof.
  intros Hn. destruct (decide (ev_count wd fd = 0)) as [Hz|Hz].
  - by rewrite (ev_read_zero _ _ Hz).
  - by destruct (ev_read_pos fd wd) as (wd' & -> & Hc); [lia|].
Qed.

Lemma eq_remove_ok q wd xs woken :
  eq_rep q wd xs woken →
  ∃ q' wd', itqueue_remove q wd = Ret (q', wd', default (mkFunctor None None) (hd_error xs)) ∧
    eq_rep q' wd' (tail xs) false.
Proof.
  intros [Hl Hc Hfd Hn Hw]. unfold itqueue_remove, runloop_eventfd_queue_remove.
  rewrite (fl_size_ok _ _ Hl), bind_ret_l. pose proof (read_clears wd (readfd q) ltac:(lia)) as Hz.
  destruct xs as [|x xs].
  - change (Zlen []) with 0. rewrite Z.ltb_irrefl, bind_ret_l. eexists _, _. split; [done|].
    constructor; cbn; try done; unfold ev_readable; by rewrite Hz.
  - rewrite Zlen_cons. pose proof (Zlen_nonneg xs). rewrite (proj2 (Z.ltb_lt _ _)) by lia.
    destruct (fl_remove_ok _ _ _ Hl) as (l & -> & Hl' & Hcap). rewrite bind_ret_l. eexists _, _. split; [done|].
    constructor; cbn [list_q readfd writefd tail]; try done; [congruence| |]; unfold ev_readable; rewrite Hz; [lia|done].
Qed.

Lemma eq_run_ok ops : ∀ q wd xs woken,
  eq_rep q wd xs woken →
  match eq_spec ops xs woken with
  | Some (ys, w, out) => ∃ q' wd', eq_run ops q wd = Ret (q', wd', out) ∧ eq_rep q' wd' ys w
  | None => eq_run ops q wd = AssertFail
  end.
Proof.
  induction ops as [|[x|] ops IH]; intros q wd xs woken Hr; cbn [eq_spec eq_run]; [eauto| |].
  - pose proof (eq_add_ok q wd xs woken x Hr) as Ha. destruct (Zlen xs <? runloop_MAX_FDS - 1); [|by rewrite Ha].
    destruct Ha as (q' & wd' & -> & Hr'). rewrite bind_ret_l. by apply IH.
  - destruct (eq_remove_ok q wd xs woken Hr) as (q' & wd' & -> & Hr'). rewrite bind_ret_l.
    specialize (IH _ _ _ _ Hr'). destruct (eq_spec ops (tail xs) false) as [[[ys w] out]|]; cbn.
    + destruct IH as (q2 & wd2 & -> & ?). cbn. eauto.
    + by rewrite IH.
Qed.

(** ** Properties *)

(** C38: Functors handed over by any threads come out in the order they went in: from a
    new queue, any sequence of additions and removals behaves as a first-in first-out
    queue of at most 1023 functors, a removal from the empty queue giving the empty
    functor and an addition to a full one aborting; and the eventfd the loop watches
    is readable exactly when something was added since the last removal. *)
Theorem itqueue_refines_fifo ops fuel wd :
  (1 ≤ fuel)%nat →
  ∃ q wd0, runloop_eventfd_queue_new fuel wd = Ret (Some (q, wd0)) ∧
    match eq_spec ops [] false with
    | Some (ys, woken, out) => ∃ q' wd', eq_run ops q wd0 = Ret (q', wd', out) ∧
        functor_list_size (list_q q') = Ret (Zlen ys) ∧
        ev_readable wd' (runloop_eventfd_queue_readfd q') = woken
    | None => eq_run ops q wd0 = AssertFail
    end.
Proof.
  intros Hf. destruct (eq_new_ok fuel wd Hf) as (q & wd0 & Hq & Hr). exists q, wd0. split; [done|].
  pose proof (eq_run_ok ops q wd0 [] false Hr) as Hrun.
  destruct (eq_spec ops [] false) as [[[ys w] out]|]; [|done].
  destruct Hrun as (q' & wd' & Hrun & [Hl _ _ _ Hw]). exists q', wd'. split_and!; [done| |done]. by apply fl_size_ok.
Qed.

(** One wake-up of the loop moves one functor: the handler of the queue posts the
    oldest functor and clears the eventfd, whatever else is queued. Two functors added
    before the loop gets to run thus leave the second one queued with no event pending,
    until something else is added; with nothing queued the handler aborts. *)
Theorem itqueue_postable_moves_one (efd : Z) (closed : bool) q xs woken (s : st) a :
  eq_rep q (snd s) xs woken → loop_rep efd closed s a → Zlen (queue a) < 2047 →
  match xs with
  | [] => itqueue_postable q s = AssertFail
  | mkFunctor (Some g) (Some x) :: xs' => ∃ q' s', itqueue_postable q s = Ret (q', s') ∧
      eq_rep q' (snd s') xs' false ∧
      loop_rep efd closed s' (mkA (regs a) (queue a ++ [(g, x)]) (snd s'))
  | _ :: _ => itqueue_postable q s = AssertFail
  end.
Proof.
  intros Hq Hs Hlen. destruct s as [rl wd]. unfold itqueue_postable. cbn [fst snd] in *.
  destruct (eq_remove_ok q wd xs woken Hq) as (q' & wd' & Hrm & Hr'). unfold itqueue_remove in Hrm.
  rewrite Hrm, bind_ret_l. destruct xs as [|[[g|] [x|]] xs]; cbn [hd_error default tail] in *; try done.
  assert (loop_rep efd closed (rl, wd') (mkA (regs a) (queue a) wd')) as Hs' by (destruct Hs; by constructor).
  destruct (post_ok efd closed g x _ _ Hs' Hlen) as (s' & Hp & Hl & Hw). exists q', s'.
  cbn [snd world_of regs queue] in *. rewrite Hw. unfold id. cbn [Functor_is_empty f arg negb c_assert].
  rewrite bind_ret_l, Hp. done.
Qed.
End EventfdQueue.

Arguments EventfdQueue : clear implicits.
Arguments eq_op : clear implicits.

(** ** Witnesses: one eventfd, whose counter is the world *)

#[global] Instance ex_eventfd : EventFd Z := {|
  eventfd := fun _ => (0, 7);
  ev_read := fun _ n => if 0 <? n then (0, Some n) else (n, None);
  ev_write := fun _ k n => if n + k <=? EV_MAX then n + k else n;
  ev_count := fun n _ => n
|}.

#[global] Instance ex_eventfd_laws : EventFdLaws Z.
Proof.
  constructor; cbn; try done.
  - intros _ n Hn. rewrite (proj2 (Z.ltb_lt _ _)) by done. eauto.
  - intros _ n Hn. rewrite (proj2 (Z.ltb_ge _ _)) by lia. done.
  - intros _ k n Hk Hn Hle. by rewrite (proj2 (Z.leb_le _ _)).
Qed.

Lemma itqueue_refines_fifo_witness :
  ∃ q wd0, runloop_eventfd_queue_new (fn := nat) (arg_t := nat) 1 0 = Ret (Some (q, wd0)) ∧
    ∃ q' wd', eq_run [EAdd (ex_functor 1); EAdd (ex_functor 2); ERemove] q wd0 = Ret (q', wd', [ex_functor 1]) ∧
      functor_list_size (list_q q') = Ret 1 ∧ ev_readable wd' (runloop_eventfd_queue_readfd q') = false.
Proof.
  apply (itqueue_refines_fifo [EAdd (ex_functor 1); EAdd (ex_functor 2); ERemove] 1 0). lia.
Defined.

(** Two functors are queued when the loop wakes up: one is posted, the other waits with
    no event pending. *)
Definition ex_eq_kernel : kernel nat Z :=
  mkKernel (fun n => (n, 3)) (fun _ _ _ _ _ n => (n, 0)) (fun _ _ n => (n, WaitError 9)) (fun _ n => (n, 0))
    (fun _ w => Some (Z.of_nat w)).

Lemma itqueue_postable_moves_one_witness :
  ∃ (q : EventfdQueue nat nat) (s : Runloop nat nat nat * Z) q' s',
    itqueue_postable q s = Ret (q', s') ∧ eq_rep q' (snd s') [ex_functor 2] false.
Proof.
  destruct (eq_new_ok (fn := nat) (arg_t := nat) 1 0 (le_n 1)) as (q0 & wd0 & _ & Hq0).
  destruct (eq_add_ok q0 wd0 [] false (ex_functor 1) Hq0) as (q1 & wd1 & _ & Hq1).
  destruct (eq_add_ok q1 wd1 _ true (ex_functor 2) Hq1) as (q2 & wd2 & _ & Hq2).
  destruct (runloop_new (fn := nat) (arg_t := nat) ex_eq_kernel true wd2) as [s| |] eqn:E; [|exfalso; discriminate E..].
  assert (snd s = wd2 ∧ epoll_fd (fst s) = 3) as [Hw He].
  { unfold runloop_new, runloop_init in E. cbn in E. injection E as <-. done. }
  pose proof (runloop_new_rep ex_eq_kernel 3 false true wd2 s E He eq_refl) as Hs. rewrite <- Hw in Hq2.
  destruct (itqueue_postable_moves_one 3 false q2 _ true s _ Hq2 Hs) as (q' & s' & H1 & H2 & _); [reflexivity|].
  exists q2, s, q', s'. split; [exact H1|exact H2].
Defined.
