(* ===== verification/Loop.v ===== *)
(** * Loop: what the event loop promises to the components that run on it

    The streams and connections use the loop through a handful of its functions; their
    theorems are proved against this interface, and the loop of [Runloop] implements it
    when epoll_ctl behaves as documented. *)

From S2P Require Import Prelude FunctorList FdTable Runloop.
Open Scope Z_scope.

Class LoopOps (L watcher fn arg_t : Type) := {
  post : option fn → option arg_t → L → outcome L;
  register : Z → Z → watcher → L → outcome (L * Z);
  deregister : Z → L → outcome (L * Z);
  reregister : Z → Z → watcher → L → outcome (L * Z);
  table_remove : Z → L → outcome L;
  close_fd : Z → L → L
}.
Arguments post {L watcher fn arg_t _}.
Arguments register {L watcher fn arg_t _}.
Arguments deregister {L watcher fn arg_t _}.
Arguments reregister {L watcher fn arg_t _}.
Arguments table_remove {L watcher fn arg_t _}.
Arguments close_fd {L watcher fn arg_t _}.

(** A view of the loop: the posted functors, the registered watchers, and the
    descriptors the kernel watches for it, each with its event mask. *)
Record view (watcher fn arg_t : Type) := mkView {
  posted : list (fn * arg_t);
  watched : gmap Z watcher;
  armed : gmap Z Z
}.
Arguments mkView {watcher fn arg_t}.
Arguments posted {watcher fn arg_t}.
Arguments watched {watcher fn arg_t}.
Arguments armed {watcher fn arg_t}.

Definition fd_ok (fd : Z) : Prop := 0 ≤ fd < runloop_FDTABLE_MAX.

Class LoopLaws (L watcher fn arg_t : Type) `{LoopOps L watcher fn arg_t}
    (loop_view : L → view watcher fn arg_t → Prop) : Prop := {
  post_law l v g a :
    loop_view l v → Zlen (posted v) < 2047 →
    ∃ l', post (watcher := watcher) (Some g) (Some a) l = Ret l' ∧ loop_view l' (mkView (posted v ++ [(g, a)]) (watched v) (armed v));
  register_law l v fd i w :
    loop_view l v → fd_ok fd → watched v !! fd = None → armed v !! fd = None → add_mask_ok (u32 i) = true →
    ∃ l', register (fn := fn) (arg_t := arg_t) fd i w l = Ret (l', 0) ∧
      loop_view l' (mkView (posted v) (<[fd := w]> (watched v)) (<[fd := u32 i]> (armed v)));
  register_exists l v fd i w m :
    loop_view l v → fd_ok fd → armed v !! fd = Some m →
    register (fn := fn) (arg_t := arg_t) fd i w l = AssertFail;
  deregister_law l v fd w m :
    loop_view l v → fd_ok fd → watched v !! fd = Some w → armed v !! fd = Some m →
    ∃ l', deregister (watcher := watcher) (fn := fn) (arg_t := arg_t) fd l = Ret (l', 0) ∧
      loop_view l' (mkView (posted v) (delete fd (watched v)) (delete fd (armed v)));
  deregister_absent l v fd :
    loop_view l v → fd_ok fd → watched v !! fd = None →
    deregister (watcher := watcher) (fn := fn) (arg_t := arg_t) fd l = AssertFail;
  reregister_law l v fd i w m :
    loop_view l v → fd_ok fd → watched v !! fd = Some w → armed v !! fd = Some m →
    exclusive m = false → exclusive i = false →
    ∃ l', reregister (fn := fn) (arg_t := arg_t) fd i w l = Ret (l', 0) ∧
      loop_view l' (mkView (posted v) (watched v) (<[fd := u32 i]> (armed v)));
  reregister_exclusive l v fd i w m :
    loop_view l v → fd_ok fd → watched v !! fd = Some w → armed v !! fd = Some m →
    exclusive m || exclusive i = true →
    reregister (fn := fn) (arg_t := arg_t) fd i w l = AssertFail;
  reregister_absent l v fd i w :
    loop_view l v → fd_ok fd → watched v !! fd = None →
    reregister (fn := fn) (arg_t := arg_t) fd i w l = AssertFail;
  table_remove_law l v fd w :
    loop_view l v → fd_ok fd → watched v !! fd = Some w →
    ∃ l', table_remove (watcher := watcher) (fn := fn) (arg_t := arg_t) fd l = Ret l' ∧
      loop_view l' (mkView (posted v) (delete fd (watched v)) (armed v));
  close_law l v fd :
    loop_view l v →
    loop_view (close_fd (watcher := watcher) (fn := fn) (arg_t := arg_t) fd l)
      (mkView (posted v) (watched v) (delete fd (armed v)))
}.

(** ** The loop of [Runloop] *)

Section Instance.
Context {watcher fn arg_t world : Type} `{EqDecision watcher}.
Variable K : kernel watcher world.
Variable efd : Z.
Variable interest : world → Z → option (Z * watcher).
Variable pollable : Z → Prop.

Abbreviation st := (Runloop watcher fn arg_t * world)%type.

#[local] Instance runloop_ops : LoopOps st watcher fn arg_t := {|
  post cb a s := runloop_post cb a s;
  register fd i w s := runloop_register K fd i w s;
  deregister fd s := runloop_deregister K fd s;
  reregister fd i w s := runloop_reregister K fd i w s;
  table_remove fd s := t ← FdTable_remove (table (fst s)) fd; Ret (set_table (fst s) t, snd s);
  close_fd fd s := (fst s, fst (close K fd (snd s)))
|}.

(** Closing a descriptor takes it out of the interest list, and leaves the others. *)
Hypothesis close_interest : ∀ fd wd fd',
  interest (fst (close K fd wd)) fd' = if decide (fd' = fd) then None else interest wd fd'.
Hypothesis all_pollable : ∀ fd, fd_ok fd → pollable fd.
Hypothesis laws : epoll_laws K efd interest pollable.

Definition runloop_view (s : st) (v : view watcher fn arg_t) : Prop :=
  loop_rep efd false s (mkA (watched v) (posted v) (snd s)) ∧
  ∀ fd, armed v !! fd = fst <$> interest (snd s) fd.

Lemma fd_ok_in fd : fd_ok fd → in_table fd = true.
Proof. intros ?. by apply in_table_iff. Qed.

Lemma runloop_post_law l v g a :
  runloop_view l v → Zlen (posted v) < 2047 →
  ∃ l', runloop_post (Some g) (Some a) l = Ret l' ∧ runloop_view l' (mkView (posted v ++ [(g, a)]) (watched v) (armed v)).
Proof.
  intros [Hr Ha] Hlen. destruct (post_ok efd false g a l _ Hr Hlen) as (l' & Hp & Hr' & Hw).
  exists l'. split; [done|]. split; rewrite Hw; [exact Hr'|exact Ha].
Qed.

(** Transfer of one operation from the specification of the loop. *)
Lemma op_view op l v a' :
  runloop_view l v → a_op K efd op (mkA (watched v) (posted v) (snd l)) = Ret a' →
  ∃ l', exec_op K op l = Ret l' ∧ loop_rep efd false l' a' ∧ snd l' = world_of a'.
Proof.
  intros [Hr _] Ha. pose proof (op_refines K efd false op l _ Hr) as Ho. rewrite Ha in Ho.
  destruct Ho as (l' & Hl & Hr'). exists l'. split_and!; [done|done|]. apply (lr_world _ _ _ _ Hr').
Qed.

Lemma register_zero fd i w (l l' : st) z : runloop_register K fd i w l = Ret (l', z) → z = 0.
Proof. unfold runloop_register. intros He. inv_bind He. destruct a as [rl wd]. inv_bind He. by injection He. Qed.

Lemma deregister_zero fd (l l' : st) z : runloop_deregister K fd l = Ret (l', z) → z = 0.
Proof.
  unfold runloop_deregister. intros He. inv_bind He. inv_bind He. destruct a0 as [rl wd]. inv_bind He. by injection He.
Qed.

Lemma reregister_zero fd i w (l l' : st) z : runloop_reregister K fd i w l = Ret (l', z) → z = 0.
Proof.
  unfold runloop_reregister. intros He. inv_bind He. inv_bind He. destruct a0 as [rl wd].
  inv_bind He. inv_bind He. by injection He.
Qed.

Lemma armed_some l v fd m : runloop_view l v → armed v !! fd = Some m → ∃ u, interest (snd l) fd = Some (m, u).
Proof. intros [_ Ha] Hm. rewrite Ha in Hm. destruct (interest (snd l) fd) as [[m' u]|]; [|done]. injection Hm as <-. eauto. Qed.

(** A change of one entry of the interest list, seen in the masks. *)
Lemma armed_change (l l' : st) v fd (o : option (Z * watcher)) :
  runloop_view l v → (∀ x, interest (snd l') x = if decide (x = fd) then o else interest (snd l) x) →
  ∀ x, match o with Some (m, _) => <[fd := m]> (armed v) | None => delete fd (armed v) end !! x = fst <$> interest (snd l') x.
Proof.
  intros [_ Ha] Hi x. rewrite Hi. destruct o as [[m u]|]; [rewrite lookup_insert|rewrite lookup_delete];
    repeat case_decide; try congruence; (done || apply Ha).
Qed.

Lemma runloop_register_law l v fd i w :
  runloop_view l v → fd_ok fd → watched v !! fd = None → armed v !! fd = None → add_mask_ok (u32 i) = true →
  ∃ l', runloop_register K fd i w l = Ret (l', 0) ∧
    runloop_view l' (mkView (posted v) (<[fd := w]> (watched v)) (<[fd := u32 i]> (armed v))).
Proof.
  intros Hv Hfd Hn Hna Hmask. pose proof Hv as [Hr Ha]. rewrite Ha in Hna.
  destruct (interest (snd l) fd) as [?|] eqn:Ei; [done|].
  destruct (el_add _ _ _ _ laws fd (u32 i) w (snd l) (all_pollable _ Hfd) Hmask Ei) as (wd' & Hctl & Hi).
  destruct (op_view (ORegister fd i w) l v (mkA (<[fd := w]> (watched v)) (posted v) wd') Hv) as (l' & He & Hr' & Hw).
  { cbn [a_op]. unfold a_ctl. cbn [world_of regs queue]. rewrite Hctl. cbn [Z.eqb c_assert]. rewrite !bind_ret_l.
    cbn [world_of regs queue]. by rewrite (fd_ok_in _ Hfd), bool_decide_true. }
  cbn [exec_op world_of] in He, Hw.
  destruct (runloop_register K fd i w l) as [[l2 z]| |] eqn:Er; [|done..]. cbn in He. injection He as ->.
  apply register_zero in Er as Hz. subst z.
  exists l'. split; [done|]. split; [by rewrite Hw|].
  apply (armed_change l l' v fd (Some (u32 i, w)) Hv). by rewrite Hw.
Qed.

Lemma runloop_register_exists l v fd i w m :
  runloop_view l v → fd_ok fd → armed v !! fd = Some m → runloop_register K fd i w l = AssertFail.
Proof.
  intros Hv Hfd Har. destruct (armed_some l v fd m Hv Har) as [u Hu].
  destruct (el_exists _ _ _ _ laws fd (u32 i) w (snd l) _ Hu) as (wd' & Hctl).
  pose proof (op_refines K efd false (ORegister fd i w) l _ (proj1 Hv)) as Ho. cbn [a_op] in Ho.
  unfold a_ctl in Ho. cbn [world_of] in Ho. rewrite Hctl in Ho. cbn in Ho.
  by destruct (runloop_register K fd i w l) as [[]| |].
Qed.

Lemma runloop_deregister_law l v fd w m :
  runloop_view l v → fd_ok fd → watched v !! fd = Some w → armed v !! fd = Some m →
  ∃ l', runloop_deregister K fd l = Ret (l', 0) ∧
    runloop_view l' (mkView (posted v) (delete fd (watched v)) (delete fd (armed v))).
Proof.
  intros Hv Hfd Hn Har. destruct (armed_some l v fd m Hv Har) as [u Hu].
  destruct (el_del _ _ _ _ laws fd (u32 (Z.lor EPOLLEXCLUSIVE EPOLLIN)) (snd l) _ Hu) as (wd' & Hctl & Hi).
  destruct (op_view (ODeregister fd) l v (mkA (delete fd (watched v)) (posted v) wd') Hv) as (l' & He & Hr' & Hw).
  { cbn [a_op]. rewrite (a_lookup_eq fd (mkA (watched v) (posted v) (snd l)) w (fd_ok_in _ Hfd) Hn), bind_ret_l.
    unfold a_ctl. cbn [world_of regs queue]. rewrite Hctl. cbn [Z.eqb c_assert]. by rewrite !bind_ret_l. }
  cbn [exec_op world_of] in He, Hw.
  destruct (runloop_deregister K fd l) as [[l2 z]| |] eqn:Er; [|done..]. cbn in He. injection He as ->.
  apply deregister_zero in Er as Hz. subst z.
  exists l'. split; [done|]. split; [by rewrite Hw|].
  apply (armed_change l l' v fd None Hv). by rewrite Hw.
Qed.

Lemma runloop_absent l v fd :
  runloop_view l v → fd_ok fd → watched v !! fd = None → FdTable_lookup (table (fst l)) fd = AssertFail.
Proof.
  intros [Hr _] Hfd Hn. rewrite (lookup_refines _ _ _ _ fd Hr). unfold a_lookup. cbn [regs].
  by rewrite (fd_ok_in _ Hfd), Hn.
Qed.

Lemma runloop_reregister_law l v fd i w m :
  runloop_view l v → fd_ok fd → watched v !! fd = Some w → armed v !! fd = Some m →
  exclusive m = false → exclusive i = false →
  ∃ l', runloop_reregister K fd i w l = Ret (l', 0) ∧
    runloop_view l' (mkView (posted v) (watched v) (<[fd := u32 i]> (armed v))).
Proof.
  intros Hv Hfd Hn Har Hm Hx. destruct (armed_some l v fd m Hv Har) as [u Hu].
  destruct (el_mod _ _ _ _ laws fd (u32 i) w (snd l) m u Hu Hm) as (wd' & Hctl & Hi); [by rewrite exclusive_u32|].
  destruct (op_view (OReregister fd i w) l v (mkA (watched v) (posted v) wd') Hv) as (l' & He & Hr' & Hw).
  { cbn [a_op]. rewrite (a_lookup_eq fd (mkA (watched v) (posted v) (snd l)) w (fd_ok_in _ Hfd) Hn), bind_ret_l.
    unfold a_ctl. cbn [world_of regs queue]. rewrite Hctl. cbn [Z.eqb c_assert]. rewrite !bind_ret_l.
    by rewrite bool_decide_true. }
  cbn [exec_op world_of] in He, Hw.
  destruct (runloop_reregister K fd i w l) as [[l2 z]| |] eqn:Er; [|done..]. cbn in He. injection He as ->.
  apply reregister_zero in Er as Hz. subst z.
  exists l'. split; [done|]. split; [by rewrite Hw|].
  apply (armed_change l l' v fd (Some (u32 i, w)) Hv). by rewrite Hw.
Qed.

Lemma runloop_reregister_exclusive l v fd i w m :
  runloop_view l v → fd_ok fd → watched v !! fd = Some w → armed v !! fd = Some m →
  exclusive m || exclusive i = true → runloop_reregister K fd i w l = AssertFail.
Proof.
  intros Hv Hfd Hn Har Hx. destruct (armed_some l v fd m Hv Har) as [u Hu].
  destruct (el_mod_exclusive _ _ _ _ laws fd (u32 i) w (snd l) m u Hu) as (wd' & Hctl); [by rewrite exclusive_u32|].
  pose proof (op_refines K efd false (OReregister fd i w) l _ (proj1 Hv)) as Ho. cbn [a_op] in Ho.
  rewrite (a_lookup_eq fd (mkA (watched v) (posted v) (snd l)) w (fd_ok_in _ Hfd) Hn), bind_ret_l in Ho.
  unfold a_ctl in Ho. cbn [world_of] in Ho. rewrite Hctl in Ho. cbn in Ho.
  by destruct (runloop_reregister K fd i w l) as [[]| |].
Qed.

Lemma runloop_table_remove_law l v fd w :
  runloop_view l v → fd_ok fd → watched v !! fd = Some w →
  ∃ l', (t ← FdTable_remove (table (fst l)) fd; Ret (set_table (fst l) t, snd l)) = Ret l' ∧
    runloop_view l' (mkView (posted v) (delete fd (watched v)) (armed v)).
Proof.
  intros [Hr Ha] Hfd Hn. destruct l as [rl wd].
  destruct (tr_remove _ _ fd w (lr_table _ _ _ _ Hr) (fd_ok_in _ Hfd) Hn) as (t' & Ht & Ht').
  cbn [fst snd] in *. rewrite Ht, bind_ret_l. eexists. split; [done|]. split; [|done].
  exact (set_table_rep _ _ _ _ _ _ _ Hr Ht').
Qed.

(** What the kernel refuses to add aborts the program. *)
Lemma runloop_register_refused fd i w (l : st) wd status :
  epoll_ctl K (epoll_fd (fst l)) EPOLL_CTL_ADD fd (u32 i) (Some w) (snd l) = (wd, status) → status ≠ 0 →
  runloop_register K fd i w l = AssertFail.
Proof.
  destruct l as [rl w0]. cbn [fst snd]. intros Hc Hs. unfold runloop_register, runloop_epoll_ctl.
  by rewrite Hc, (proj2 (Z.eqb_neq status 0) Hs).
Qed.

Lemma runloop_close_law l v fd :
  runloop_view l v →
  runloop_view (fst l, fst (close K fd (snd l))) (mkView (posted v) (watched v) (delete fd (armed v))).
Proof.
  intros Hv. split; [destruct Hv as [Hr _], l as [rl wd]; exact (rep_world _ _ _ _ _ _ Hr)|].
  apply (armed_change l (fst l, _) v fd None Hv). intros x. apply close_interest.
Qed.

(** C37: The event loop keeps what it promises to streams and connections: with epoll_ctl
    and close behaving as documented, its functions satisfy the laws of the interface -
    posting appends to the ready functors; registering, re-registering and deregistering
    change only the watcher concerned and the mask the kernel holds for it; they abort
    on a descriptor that is not (or, registering, already) registered and,
    re-registering, on an exclusive one;
    removal and closing take exactly one descriptor out. *)
Theorem runloop_laws : LoopLaws st watcher fn arg_t runloop_view.
Proof.
  constructor.
  - exact runloop_post_law.
  - exact runloop_register_law.
  - exact runloop_register_exists.
  - exact runloop_deregister_law.
  - intros l v fd Hv Hfd Hn. cbn. unfold runloop_deregister. by rewrite (runloop_absent l v fd Hv Hfd Hn).
  - exact runloop_reregister_law.
  - exact runloop_reregister_exclusive.
  - intros l v fd i w Hv Hfd Hn. cbn. unfold runloop_reregister. by rewrite (runloop_absent l v fd Hv Hfd Hn).
  - exact runloop_table_remove_law.
  - exact runloop_close_law.
Qed.
End Instance.

Lemma runloop_laws_witness :
  LoopLaws (Runloop nat nat nat * ex_world) nat nat nat (H := runloop_ops ex_kernel)
    (runloop_view 3 (fun wd fd => ex_interest wd !! fd)).
Proof.
  apply (runloop_laws ex_kernel 3 (fun wd fd => ex_interest wd !! fd) (fun _ => True)).
  - intros fd wd fd'. cbn [ex_kernel close fst ex_interest]. rewrite lookup_delete. by repeat case_decide.
  - intros. exact I.
  - exact ex_epoll_laws.
Defined.

(** ** A reference loop: the view itself, for the witnesses of the clients *)

Section Reference.
Context {watcher fn arg_t : Type}.

Record ref_loop := mkRef { r_posted : list (fn * arg_t); r_watched : gmap Z watcher; r_armed : gmap Z Z }.

(** A descriptor is registered when it is in both maps. *)
#[global] Instance ref_ops : LoopOps ref_loop watcher fn arg_t := {|
  post cb a l :=
    match cb, a with
    | Some g, Some x => if Zlen (r_posted l) <? 2047
                        then Ret (mkRef (r_posted l ++ [(g, x)]) (r_watched l) (r_armed l)) else AssertFail
    | _, _ => AssertFail
    end;
  register fd i w l :=
    match r_armed l !! fd with
    | Some _ => AssertFail
    | None => Ret (mkRef (r_posted l) (<[fd := w]> (r_watched l)) (<[fd := u32 i]> (r_armed l)), 0)
    end;
  deregister fd l :=
    match r_watched l !! fd with
    | Some _ => Ret (mkRef (r_posted l) (delete fd (r_watched l)) (delete fd (r_armed l)), 0)
    | None => AssertFail
    end;
  reregister fd i w l :=
    match r_watched l !! fd, r_armed l !! fd with
    | Some _, Some m =>
        if exclusive m || exclusive i then AssertFail
        else Ret (mkRef (r_posted l) (r_watched l) (<[fd := u32 i]> (r_armed l)), 0)
    | _, _ => AssertFail
    end;
  table_remove fd l := Ret (mkRef (r_posted l) (delete fd (r_watched l)) (r_armed l));
  close_fd fd l := mkRef (r_posted l) (r_watched l) (delete fd (r_armed l))
|}.

Definition ref_view (l : ref_loop) (v : view watcher fn arg_t) : Prop :=
  v = mkView (r_posted l) (r_watched l) (r_armed l).

#[global] Instance ref_laws : LoopLaws ref_loop watcher fn arg_t ref_view.
Proof.
  constructor; unfold ref_view; intros; subst; cbn [post register deregister reregister table_remove close_fd ref_ops
    posted watched armed] in *.
  - rewrite (proj2 (Z.ltb_lt _ _)) by done. by eexists.
  - rewrite H2. by eexists.
  - by rewrite H1.
  - rewrite H1. by eexists.
  - by rewrite H1.
  - rewrite H1, H2, H3, H4. by eexists.
  - by rewrite H1, H2, H3.
  - by rewrite H1.
  - by eexists.
  - done.
Qed.

(** A loop that watches descriptor 5. *)
Definition ref_start (w : watcher) : ref_loop := mkRef [] {[5 := w]} {[5 := 0]}.
Definition ref_start_view (w : watcher) : view watcher fn arg_t := mkView [] {[5 := w]} {[5 := 0]}.
End Reference.
Arguments ref_loop : clear implicits.
