(* ===== verification/Timer.v ===== *)
(** * Timer: the timer watcher (src/runloop/epoll_runloop/w_timerfd.c)

    A timer is a timerfd registered with the loop. The timerfd calls of the kernel and
    the function behind the postable are parameters; reading the clock only serves
    the log. The timer is a heap object: [None] is a freed one. *)

From S2P Require Import Prelude Runloop Loop.
Open Scope Z_scope.

(** Conversion of an [uint64_t] to [long]. *)
Definition s64 (z : Z) : Z := (z + 2 ^ 63) mod 2 ^ 64 - 2 ^ 63.

Record itimerspec := mkIts { value_sec : Z; value_nsec : Z; interval_sec : Z; interval_nsec : Z }.

Section Timer.
Context {L watcher fn arg_t W app : Type} `{!LoopOps L watcher fn arg_t}.

(** [context], [handler] and [type] are constants and left out. *)
Record RunloopTimer := mkTimer {
  t_fd : Z;
  interval : Z;
  repeating : bool;
  timer_postable : option fn;
  timer_postable_arg : option arg_t
}.

Record tsys := mkTS { timer : option RunloopTimer; t_loop : L; t_kernel : W; t_app : app }.

Variable self : watcher.
Variable timerfd_create : W → W * Z.
Variable timerfd_settime : Z → itimerspec → W → W * Z.
(** [read] on the timerfd, which resets its event. *)
Variable timerfd_read : Z → W → W.
Variable call : fn → option arg_t → tsys → outcome tsys.

Definition t_with (s : tsys) (x : option RunloopTimer) : tsys := mkTS x (t_loop s) (t_kernel s) (t_app s).
Definition t_with_loop (s : tsys) (l : L) : tsys := mkTS (timer s) l (t_kernel s) (t_app s).
Definition t_with_kernel (s : tsys) (w : W) : tsys := mkTS (timer s) (t_loop s) w (t_app s).

Definition runloop_timer_init (s : tsys) : tsys :=
  let '(w, fd) := timerfd_create (t_kernel s) in
  t_with (t_with_kernel s w) (Some (mkTimer fd 0 false None None)).
Definition runloop_timer_new (s : tsys) : tsys := runloop_timer_init s.

Definition runloop_timer_free (s : tsys) : outcome tsys :=
  x ← deref (timer s);
  Ret (t_with (t_with_loop s (close_fd (watcher := watcher) (fn := fn) (arg_t := arg_t) (t_fd x) (t_loop s))) None).

(** [(long)v / 1000000] and [(long)v % 1000000] truncate towards zero. *)
Definition WTimerFd_update_interval (this : RunloopTimer) (interval_ms : Z) (rep : bool)
    : RunloopTimer * itimerspec :=
  let this := mkTimer (t_fd this) interval_ms rep (timer_postable this) (timer_postable_arg this) in
  let ex_time_ns := u64 (1000 * interval_ms) in
  let sec := Z.quot (s64 ex_time_ns) 1000000 in
  let nsec := Z.rem (s64 ex_time_ns) 1000000 in
  (this, if repeating this then mkIts sec nsec sec nsec else mkIts sec nsec 11 0).

(** Setting the timerfd; the call must succeed. *)
Definition settime (x : RunloopTimer) (its : itimerspec) (s : tsys) : outcome tsys :=
  let '(w, rc) := timerfd_settime (t_fd x) its (t_kernel s) in
  c_assert (rc =? 0);;
  Ret (t_with (t_with_kernel s w) (Some x)).

Definition runloop_timer_register (cb : option fn) (ctx : option arg_t) (interval_ms : Z) (rep : bool) (s : tsys)
    : outcome tsys :=
  x ← deref (timer s);
  let x := mkTimer (t_fd x) interval_ms rep cb ctx in
  let '(x, its) := WTimerFd_update_interval x interval_ms rep in
  s ← settime x its s;
  '(l, res) ← register (fn := fn) (arg_t := arg_t) (t_fd x) (Z.lor EPOLLIN EPOLLERR) self (t_loop s);
  c_assert (res =? 0);;
  Ret (t_with_loop s l).

Definition runloop_timer_update (interval_ms : Z) (rep : bool) (s : tsys) : outcome tsys :=
  x ← deref (timer s);
  let interest := 0 in
  let '(x, its) := WTimerFd_update_interval x interval_ms rep in
  s ← settime x its s;
  '(l, res) ← reregister (fn := fn) (arg_t := arg_t) (t_fd x) interest self (t_loop s);
  c_assert (res =? 0);;
  Ret (t_with_loop s l).

Definition runloop_timer_disarm (s : tsys) : outcome tsys :=
  x ← deref (timer s);
  let '(x, its) := WTimerFd_update_interval x (interval x) (repeating x) in
  settime x its s.

Definition runloop_timer_rearm_old (cb : option fn) (ctx : option arg_t) (interval_ms : Z) (rep : bool) (s : tsys)
    : outcome tsys :=
  x ← deref (timer s);
  let x := mkTimer (t_fd x) (interval x) rep cb ctx in
  let '(x, its) := WTimerFd_update_interval x interval_ms rep in
  settime x its s.

Definition runloop_timer_rearm (s : tsys) : outcome tsys :=
  x ← deref (timer s);
  let interval_ms := interval x in
  let rep := repeating x in
  let '(x, its) := WTimerFd_update_interval x interval_ms rep in
  settime x its s.

Definition runloop_timer_deregister (s : tsys) : outcome tsys :=
  x ← deref (timer s);
  '(l, res) ← deregister (watcher := watcher) (fn := fn) (arg_t := arg_t) (t_fd x) (t_loop s);
  c_assert (res =? 0);;
  Ret (t_with_loop s l).

Definition runloop_timer_get_fd (s : tsys) : outcome Z := x ← deref (timer s); Ret (t_fd x).

Definition runloop_timer_set (cb : option fn) (ctx : option arg_t) (interval_ms : Z) (rep : bool) (s : tsys)
    : outcome tsys :=
  runloop_timer_register cb ctx interval_ms rep (runloop_timer_new s).

Definition runloop_timer_clear (s : tsys) : outcome tsys :=
  s ← runloop_timer_deregister s; runloop_timer_free s.

(** The handler the loop calls for an event. *)
Definition timer_handler (s : tsys) : outcome tsys :=
  x ← deref (timer s);
  let s := t_with_kernel s (timerfd_read (t_fd x) (t_kernel s)) in
  s ← (if negb (repeating x) then runloop_timer_deregister s else Ret s);
  x ← deref (timer s);
  c_assert (bool_decide (is_Some (timer_postable x)));;
  g ← deref (timer_postable x);
  call g (timer_postable_arg x) s.

(** ** Specification *)

(** What timerfd_settime accepts: a time that is not negative, nanoseconds below 10^9. *)
Definition timespec_ok (sec nsec : Z) : bool := (0 <=? sec) && (0 <=? nsec) && (nsec <=? 999999999).
Definition its_ok (its : itimerspec) : bool :=
  timespec_ok (value_sec its) (value_nsec its) && timespec_ok (interval_sec its) (interval_nsec its).

(** The time to the first expiry, in nanoseconds. *)
Definition first_expiry (its : itimerspec) : Z := 10 ^ 9 * value_sec its + value_nsec its.
(** The time between expiries. *)
Definition period (its : itimerspec) : Z := 10 ^ 9 * interval_sec its + interval_nsec its.

(** The documented results of timerfd_settime. *)
Hypothesis settime_law : ∀ fd its w,
  if its_ok its then ∃ w', timerfd_settime fd its w = (w', 0) else ∃ w', timerfd_settime fd its w = (w', -1).

Variable loop_view : L → view watcher fn arg_t → Prop.
Context `{!LoopLaws L watcher fn arg_t loop_view}.

(** A live timer [x] on a loop seen as [v]. *)
Record timer_rep (s : tsys) (x : RunloopTimer) (v : view watcher fn arg_t) : Prop := {
  tm_live : timer s = Some x;
  tm_fd : fd_ok (t_fd x);
  tm_loop : loop_view (t_loop s) v
}.
Definition timer_watched (x : RunloopTimer) (v : view watcher fn arg_t) (m : Z) : Prop :=
  watched v !! t_fd x = Some self ∧ armed v !! t_fd x = Some m ∧ exclusive m = false.

(** ** Lemmas *)

Lemma s64_small z : 0 ≤ z < 2 ^ 63 → s64 z = z.
Proof. intros. unfold s64. rewrite Z.mod_small; lia. Qed.

Lemma s64_large z : 2 ^ 63 ≤ z < 2 ^ 64 → s64 z = z - 2 ^ 64.
Proof.
  intros. unfold s64. replace (z + 2 ^ 63) with ((z - 2 ^ 63) + 1 * 2 ^ 64) by lia.
  rewrite Z.mod_add, Z.mod_small by lia. lia.
Qed.

Lemma interval_small x ms rep :
  0 ≤ ms → 1000 * ms < 2 ^ 63 →
  WTimerFd_update_interval x ms rep =
    (mkTimer (t_fd x) ms rep (timer_postable x) (timer_postable_arg x),
     let sec := ms / 1000 in let nsec := 1000 * (ms mod 1000) in
     if rep then mkIts sec nsec sec nsec else mkIts sec nsec 11 0).
Proof.
  intros H0 H1. unfold WTimerFd_update_interval. rewrite u64_small, s64_small by lia.
  rewrite Z.quot_div_nonneg, Z.rem_mod_nonneg by lia.
  replace 1000000 with (1000 * 1000) by lia.
  rewrite Z.div_mul_cancel_l, Z.mul_mod_distr_l by lia. done.
Qed.

Lemma interval_ok x ms rep :
  u64 (1000 * ms) < 2 ^ 63 → its_ok (snd (WTimerFd_update_interval x ms rep)) = true.
Proof.
  intros H1. unfold WTimerFd_update_interval. set (v := u64 (1000 * ms)) in *.
  assert (0 ≤ v) by (apply Z.mod_pos_bound; lia). rewrite s64_small by lia.
  rewrite Z.quot_div_nonneg, Z.rem_mod_nonneg by lia.
  pose proof (Z.mod_pos_bound v 1000000). pose proof (Z.div_pos v 1000000).
  cbn [snd repeating]. unfold its_ok, timespec_ok.
  destruct rep; cbn [value_sec value_nsec interval_sec interval_nsec]; bool_prop; lia.
Qed.

Lemma interval_negative x ms rep :
  2 ^ 63 ≤ u64 (1000 * ms) → its_ok (snd (WTimerFd_update_interval x ms rep)) = false.
Proof.
  intros H. unfold WTimerFd_update_interval. set (v := u64 (1000 * ms)) in *.
  assert (v < 2 ^ 64) by (apply Z.mod_pos_bound; lia). rewrite s64_large by lia.
  set (k := v - 2 ^ 64). assert (k < 0) by lia. cbn [snd repeating].
  assert (timespec_ok (Z.quot k 1000000) (Z.rem k 1000000) = false) as Hk.
  { unfold timespec_ok. destruct (0 <=? Z.quot k 1000000) eqn:E1; [|done].
    destruct (0 <=? Z.rem k 1000000) eqn:E2; [|done]. bool_prop.
    pose proof (Z.quot_rem' k 1000000). lia. }
  destruct rep; unfold its_ok; cbn [value_sec value_nsec]; by rewrite Hk.
Qed.

Lemma settime_ok x its s :
  its_ok its = true → ∃ w, settime x its s = Ret (t_with (t_with_kernel s w) (Some x)).
Proof.
  intros Hi. unfold settime. pose proof (settime_law (t_fd x) its (t_kernel s)) as H. rewrite Hi in H.
  destruct H as [w ->]. by exists w.
Qed.

Lemma settime_bad x its s : its_ok its = false → settime x its s = AssertFail.
Proof.
  intros Hi. unfold settime. pose proof (settime_law (t_fd x) its (t_kernel s)) as H. rewrite Hi in H.
  by destruct H as [w ->].
Qed.

Lemma update_fst x ms rep :
  fst (WTimerFd_update_interval x ms rep) = mkTimer (t_fd x) ms rep (timer_postable x) (timer_postable_arg x).
Proof. done. Qed.

Lemma deregister_ok s x v m :
  timer_rep s x v → timer_watched x v m →
  ∃ l, runloop_timer_deregister s = Ret (t_with_loop s l) ∧
    timer_rep (t_with_loop s l) x (mkView (posted v) (delete (t_fd x) (watched v)) (delete (t_fd x) (armed v))).
Proof.
  intros [Hx Hf Hl] (Hw & Ha & _). unfold runloop_timer_deregister. rewrite Hx. cbn [deref]. rewrite bind_ret_l.
  destruct (deregister_law (t_loop s) v (t_fd x) self m Hl Hf Hw Ha) as (l & -> & Hl').
  rewrite bind_ret_l. exists l. split; [done|]. by constructor.
Qed.

Lemma deregister_gone s x v :
  timer_rep s x v → watched v !! t_fd x = None → runloop_timer_deregister s = AssertFail.
Proof.
  intros [Hx Hf Hl] Hw. unfold runloop_timer_deregister. rewrite Hx. cbn [deref]. rewrite bind_ret_l.
  by rewrite (deregister_absent (t_loop s) v (t_fd x) Hl Hf Hw).
Qed.

Lemma update_gone s x v ms rep :
  timer_rep s x v → watched v !! t_fd x = None → runloop_timer_update ms rep s = AssertFail.
Proof.
  intros [Hx Hf Hl] Hw. unfold runloop_timer_update. rewrite Hx. cbn [deref]. rewrite bind_ret_l.
  destruct (WTimerFd_update_interval x ms rep) as [x' its] eqn:E.
  assert (t_fd x' = t_fd x) as Hfd by (pose proof (update_fst x ms rep) as Hf'; rewrite E in Hf'; by cbn in Hf'; subst).
  destruct (its_ok its) eqn:Ei; [|by rewrite settime_bad].
  destruct (settime_ok x' its s Ei) as [w ->]. rewrite bind_ret_l. cbn [t_with t_with_kernel t_loop]. rewrite Hfd.
  by rewrite (reregister_absent (t_loop s) v (t_fd x) 0 self Hl Hf Hw).
Qed.

(** ** Properties *)

(** The time a timer is set to. An interval of [ms] milliseconds is converted to
    microseconds and stored as seconds and nanoseconds, so the timer expires after the
    whole seconds of the interval plus only a thousandth of the rest: too early by
    999000 ns for each millisecond above the last whole second. A repeating timer
    repeats with the same interval, a one-shot timer every 11 seconds. The kernel accepts
    every interval whose number of microseconds modulo 2^64 is below 2^63, and no other;
    any other aborts the timer's registration. *)
Theorem timer_interval_conversion x ms rep :
  0 ≤ ms →
  let '(x', its) := WTimerFd_update_interval x ms rep in
  x' = mkTimer (t_fd x) ms rep (timer_postable x) (timer_postable_arg x) ∧
  its_ok its = (u64 (1000 * ms) <? 2 ^ 63) ∧
  (1000 * ms < 2 ^ 63 →
     first_expiry its = 10 ^ 6 * ms - 999000 * (ms mod 1000) ∧
     period its = if rep then first_expiry its else 11 * 10 ^ 9) ∧
  (∀ cb ctx s, timer s = Some x → 2 ^ 63 ≤ u64 (1000 * ms) → runloop_timer_register cb ctx ms rep s = AssertFail).
Proof.
  intros H0. destruct (WTimerFd_update_interval x ms rep) as [x' its] eqn:E. split_and!.
  - pose proof (update_fst x ms rep) as Hf. by rewrite E in Hf.
  - destruct (u64 (1000 * ms) <? 2 ^ 63) eqn:Eu; bool_prop.
    + pose proof (interval_ok x ms rep Eu) as Hi. by rewrite E in Hi.
    + pose proof (interval_negative x ms rep Eu) as Hi. by rewrite E in Hi.
  - intros H1. rewrite interval_small in E by done. injection E as <- <-.
    pose proof (Z.div_mod ms 1000). unfold first_expiry, period. destruct rep; cbn; lia.
  - intros cb ctx s Hs Hu. unfold runloop_timer_register. rewrite Hs. cbn [deref]. rewrite bind_ret_l.
    pose proof (interval_negative (mkTimer (t_fd x) ms rep cb ctx) ms rep Hu) as Hi.
    destruct (WTimerFd_update_interval (mkTimer _ _ _ _ _) ms rep) as [x2 its2]. by rewrite settime_bad.
Qed.

(** C30: Registering a timer makes the loop watch it for input, and an event on it reads the
    timerfd and calls the function with its argument. A repeating timer stays watched; a
    one-shot timer is taken out of the loop first, so that clearing or updating it later
    aborts the program, and re-arming it sets the timerfd without anybody watching it. *)
Theorem timer_registers_and_fires s x v cb g a ms rep :
  timer_rep s x v → watched v !! t_fd x = None → armed v !! t_fd x = None →
  0 ≤ ms → 1000 * ms < 2 ^ 63 → cb = Some g →
  ∃ s' v', runloop_timer_register cb a ms rep s = Ret s' ∧
    timer_rep s' (mkTimer (t_fd x) ms rep cb a) v' ∧
    v' = mkView (posted v) (<[t_fd x := self]> (watched v)) (<[t_fd x := Z.lor EPOLLIN EPOLLERR]> (armed v)) ∧
    ∃ s1, timer_handler s' = call g a s1 ∧ t_kernel s1 = timerfd_read (t_fd x) (t_kernel s') ∧
      if rep then timer_rep s1 (mkTimer (t_fd x) ms rep cb a) v'
      else timer_rep s1 (mkTimer (t_fd x) ms rep cb a) v ∧
           runloop_timer_clear s1 = AssertFail ∧ (∀ ms' rep', runloop_timer_update ms' rep' s1 = AssertFail) ∧
           ∃ s2, runloop_timer_rearm s1 = Ret s2 ∧ timer_rep s2 (mkTimer (t_fd x) ms rep cb a) v.
Proof.
  intros [Hx Hf Hl] Hw Ha H0 H1 ->.
  set (x' := mkTimer (t_fd x) ms rep (Some g) a).
  set (v' := mkView (posted v) (<[t_fd x := self]> (watched v)) (<[t_fd x := Z.lor EPOLLIN EPOLLERR]> (armed v))).
  assert (its_ok (snd (WTimerFd_update_interval x' ms rep)) = true) as Hi by (apply interval_ok; rewrite u64_small; lia).
  destruct (settime_ok x' _ s Hi) as [w Hset].
  destruct (register_law (t_loop s) v (t_fd x) (Z.lor EPOLLIN EPOLLERR) self Hl Hf Hw Ha eq_refl) as (l & Hreg & Hl').
  exists (t_with_loop (t_with (t_with_kernel s w) (Some x')) l), v'. split_and!; [|by constructor|done|].
  { unfold runloop_timer_register. rewrite Hx. cbn [deref]. rewrite bind_ret_l.
    change (WTimerFd_update_interval (mkTimer (t_fd x) ms rep (Some g) a) ms rep)
      with (x', snd (WTimerFd_update_interval x' ms rep)). cbn iota.
    rewrite Hset, bind_ret_l. cbn [t_with t_loop]. change (t_loop (t_with_kernel s w)) with (t_loop s).
    change (t_fd x') with (t_fd x). rewrite Hreg. by rewrite bind_ret_l. }
  set (s' := t_with_loop _ l). set (s0 := t_with_kernel s' (timerfd_read (t_fd x) (t_kernel s'))).
  assert (timer_rep s0 x' v') as Hr0 by by constructor.
  assert (timer_watched x' v' (Z.lor EPOLLIN EPOLLERR)) as Hwa.
  { split_and!; [apply lookup_insert_eq..|done]. }
  unfold timer_handler. change (timer s') with (Some x'). cbn [deref]. rewrite bind_ret_l.
  change (repeating x') with rep. change (t_fd x') with (t_fd x). fold s0. destruct rep; cbn [negb].
  - exists s0. split_and!; [done|done|done].
  - destruct (deregister_ok s0 x' v' _ Hr0 Hwa) as (l1 & Hd & Hr1). rewrite Hd, bind_ret_l.
    exists (t_with_loop s0 l1).
    assert (mkView (posted v') (delete (t_fd x') (watched v')) (delete (t_fd x') (armed v')) = v) as Hv.
    { unfold v'. cbn [posted watched armed]. change (t_fd x') with (t_fd x).
      rewrite !delete_insert_id by done. by destruct v. }
    rewrite Hv in Hr1. split_and!; [done|done|done|..].
    + unfold runloop_timer_clear. by rewrite (deregister_gone _ x' v Hr1 Hw).
    + intros. exact (update_gone _ x' v _ _ Hr1 Hw).
    + unfold runloop_timer_rearm. cbn [t_with_loop timer]. change (timer s0) with (Some x'). cbn [deref]. rewrite bind_ret_l.
      change (WTimerFd_update_interval x' (interval x') (repeating x')) with (x', snd (WTimerFd_update_interval x' ms false)).
      cbn iota. destruct (settime_ok x' _ (t_with_loop s0 l1) Hi) as [w2 ->]. eexists. split; [done|].
      destruct Hr1. by constructor.
Qed.

(** Changing the interval of a timer silences it: [runloop_timer_update] sets the
    timerfd, but leaves the loop waiting for none of its events; and disarming a timer
    starts it again, exactly like re-arming it. *)
Theorem timer_update_silences s x v m ms rep :
  timer_rep s x v → timer_watched x v m → 0 ≤ ms → 1000 * ms < 2 ^ 63 →
  (∃ s', runloop_timer_update ms rep s = Ret s' ∧
    timer_rep s' (mkTimer (t_fd x) ms rep (timer_postable x) (timer_postable_arg x))
      (mkView (posted v) (watched v) (<[t_fd x := 0]> (armed v)))) ∧
  runloop_timer_disarm s = runloop_timer_rearm s.
Proof.
  intros [Hx Hf Hl] (Hw & Ha & Hm) H0 H1. split; [|done].
  set (x' := mkTimer (t_fd x) ms rep (timer_postable x) (timer_postable_arg x)).
  assert (its_ok (snd (WTimerFd_update_interval x ms rep)) = true) as Hi by (apply interval_ok; rewrite u64_small; lia).
  destruct (settime_ok x' _ s Hi) as [w Hset].
  destruct (reregister_law (t_loop s) v (t_fd x) 0 self m Hl Hf Hw Ha Hm eq_refl) as (l & Hreg & Hl').
  exists (t_with_loop (t_with (t_with_kernel s w) (Some x')) l). split; [|by constructor].
  unfold runloop_timer_update. rewrite Hx. cbn [deref]. rewrite bind_ret_l.
  change (WTimerFd_update_interval x ms rep) with (x', snd (WTimerFd_update_interval x ms rep)). cbn iota.
  rewrite Hset, bind_ret_l. change (t_loop (t_with _ _)) with (t_loop s). change (t_fd x') with (t_fd x).
  rewrite Hreg. by rewrite bind_ret_l.
Qed.
End Timer.

Arguments RunloopTimer : clear implicits.
Arguments tsys : clear implicits.

(** ** Witnesses

    The kernel's side is the last time set; the functions called log their argument. *)

Definition ex_settime (fd : Z) (its : itimerspec) (w : list itimerspec) : list itimerspec * Z :=
  if its_ok its then (w ++ [its], 0) else (w, -1).
Definition ex_tcall (g : nat) (a : option nat) (s : tsys (ref_loop nat nat nat) nat nat (list itimerspec) (list nat)) :
    outcome (tsys (ref_loop nat nat nat) nat nat (list itimerspec) (list nat)) :=
  Ret (mkTS (timer s) (t_loop s) (t_kernel s) (t_app s ++ [g])).
Definition ex_timer : RunloopTimer nat nat := mkTimer 5 0 false None None.

Lemma ex_settime_law fd its w :
  if its_ok its then ∃ w', ex_settime fd its w = (w', 0) else ∃ w', ex_settime fd its w = (w', -1).
Proof. unfold ex_settime. destruct (its_ok its); eauto. Qed.

(** 1500 ms expire after one second and half a millisecond. *)
Lemma timer_interval_conversion_witness :
  first_expiry (snd (WTimerFd_update_interval ex_timer 1500 true)) = 1000500000.
Proof.
  pose proof (timer_interval_conversion (L := ref_loop nat nat nat) (app := list nat) 5%nat ex_settime ex_settime_law
    ex_timer 1500 true) as H.
  destruct (WTimerFd_update_interval ex_timer 1500 true) as [x' its] eqn:E.
  destruct (H ltac:(lia)) as (_ & _ & H2 & _). destruct H2 as [H2 _]; [lia|]. cbn [snd]. rewrite H2. reflexivity.
Defined.

Lemma timer_registers_and_fires_witness :
  ∃ s' s1, runloop_timer_register 5%nat ex_settime (Some 1%nat) (Some 7%nat) 20 false
      (mkTS (Some ex_timer) (mkRef [] ∅ ∅) [] []) = Ret s' ∧
    timer_handler (fun _ w => w) ex_tcall s' = ex_tcall 1%nat (Some 7%nat) s1 ∧ runloop_timer_clear s1 = AssertFail.
Proof.
  destruct (timer_registers_and_fires 5%nat ex_settime (fun _ w => w) ex_tcall ex_settime_law ref_view
    (mkTS (Some ex_timer) (mkRef [] ∅ ∅) [] []) ex_timer (mkView [] ∅ ∅) (Some 1%nat) 1%nat (Some 7%nat) 20 false)
    as (s' & v' & H1 & _ & _ & s1 & H2 & _ & _ & H3 & _); [by constructor|reflexivity|reflexivity|lia|lia|reflexivity|].
  exists s', s1. split; [exact H1|split; [exact H2|exact H3]].
Defined.

Lemma timer_update_silences_witness :
  ∃ s', runloop_timer_update 5%nat ex_settime 20 true (mkTS (Some ex_timer) (mkRef [] {[5 := 5%nat]} {[5 := EPOLLIN]}) [] ([] : list nat)) = Ret s' ∧
    timer_rep ref_view s' (mkTimer 5 20 true None None) (mkView [] {[5 := 5%nat]} (<[5 := 0]> {[5 := EPOLLIN]})).
Proof.
  destruct (timer_update_silences (app := list nat) (fn := nat) (arg_t := nat) 5%nat ex_settime ex_settime_law ref_view
    (mkTS (Some ex_timer) (mkRef [] {[5 := 5%nat]} {[5 := EPOLLIN]}) [] []) ex_timer
    (mkView [] {[5 := 5%nat]} {[5 := EPOLLIN]}) EPOLLIN 20 true) as [H _];
    [by constructor|by split_and!|lia|lia|exact H].
Defined.
