(* ===== verification/Listener.v ===== *)
(** * Listener: accepting connections (src/runloop/epoll_runloop/w_listener.c)

    A listener watcher and, on top of it, the [AsioListener] that accepts one connection
    for each [asio_accept]. Both are heap objects: [None] is a freed one. *)

From S2P Require Import Prelude Runloop Loop SocketFunctions.
Open Scope Z_scope.

Section Listener.
(** [acb] are the accept callbacks of the program. *)
Context {L watcher fn arg_t W addr app acb : Type} `{!LoopOps L watcher fn arg_t} `{EqDecision fn}.

(** [context], [handler] and [type] are constants and left out. *)
Record RunloopListener := mkRL {
  l_fd : Z;
  listen_postable : option fn;
  listen_postable_arg : option arg_t
}.

(** [rl_listener_ref]: whether the pointer to the watcher is set. *)
Record AsioListener := mkAL {
  rl_listener_ref : bool;
  on_accept_callback : option acb;
  on_accept_callback_arg : option arg_t
}.

Record lsys := mkLS {
  listener : option RunloopListener;
  asio : option AsioListener;
  l_loop : L;
  l_kernel : W;
  l_app : app
}.

(** The addresses of the two objects, the function [on_listening_postable], the socket
    calls, [accept] with its error number, and the program's accept callbacks: argument,
    socket, error. *)
Variable self : watcher.
Variable asio_self : arg_t.
Variable on_listening : fn.
Variable N : net W addr.
Variable accept : Z → W → W * Z * Z.
Variable call_accept : acb → option arg_t → Z → Z → lsys → outcome lsys.

Definition l_with (s : lsys) (x : option RunloopListener) : lsys := mkLS x (asio s) (l_loop s) (l_kernel s) (l_app s).
Definition l_with_asio (s : lsys) (a : option AsioListener) : lsys := mkLS (listener s) a (l_loop s) (l_kernel s) (l_app s).
Definition l_with_loop (s : lsys) (l : L) : lsys := mkLS (listener s) (asio s) l (l_kernel s) (l_app s).
Definition l_with_kernel (s : lsys) (w : W) : lsys := mkLS (listener s) (asio s) (l_loop s) w (l_app s).

(** ** The watcher *)

Definition runloop_listener_init (fd : Z) (s : lsys) : lsys := l_with s (Some (mkRL fd None None)).
Definition runloop_listener_new (fd : Z) (s : lsys) : lsys := runloop_listener_init fd s.

(** [deinit] only checks the tags. *)
Definition runloop_listener_deinit (s : lsys) : outcome lsys := _ ← deref (listener s); Ret s.

Definition runloop_listener_free (s : lsys) : outcome lsys :=
  x ← deref (listener s);
  Ret (l_with (l_with_loop s (close_fd (watcher := watcher) (fn := fn) (arg_t := arg_t) (l_fd x) (l_loop s))) None).

Definition runloop_listener_register (postable : option fn) (postable_arg : option arg_t) (s : lsys) : outcome lsys :=
  x ← deref (listener s);
  let x := mkRL (l_fd x) (or_else postable (listen_postable x)) (or_else postable_arg (listen_postable_arg x)) in
  let interest := Z.lor EPOLLIN EPOLLEXCLUSIVE in
  '(l, res) ← register (fn := fn) (arg_t := arg_t) (l_fd x) interest self (l_loop s);
  c_assert (res =? 0);;
  Ret (l_with_loop (l_with s (Some x)) l).

Definition runloop_listener_deregister (s : lsys) : outcome lsys :=
  x ← deref (listener s);
  '(l, _) ← deregister (watcher := watcher) (fn := fn) (arg_t := arg_t) (l_fd x) (l_loop s);
  Ret (l_with_loop s l).

Definition runloop_listener_arm (postable : option fn) (postable_arg : option arg_t) (s : lsys) : outcome lsys :=
  x ← deref (listener s);
  let x := mkRL (l_fd x) (or_else postable (listen_postable x)) (or_else postable_arg (listen_postable_arg x)) in
  '(l, res) ← reregister (fn := fn) (arg_t := arg_t) (l_fd x) EPOLLIN self (l_loop s);
  c_assert (res =? 0);;
  Ret (l_with_loop (l_with s (Some x)) l).

Definition runloop_listener_disarm (s : lsys) : outcome lsys :=
  x ← deref (listener s);
  '(l, res) ← reregister (fn := fn) (arg_t := arg_t) (l_fd x) 0 self (l_loop s);
  c_assert (res =? 0);;
  Ret (l_with_loop s l).

Definition runloop_listener_get_fd (s : lsys) : outcome Z := x ← deref (listener s); Ret (l_fd x).

(** ** The asynchronous listener *)

(** The pointer to the watcher must be set before it is followed. *)
Definition through_ref (a : AsioListener) : outcome unit := if rl_listener_ref a then Ret () else Ub.

Definition asio_listener_init (socket_fd : Z) (s : lsys) : lsys :=
  l_with_asio (runloop_listener_new socket_fd s) (Some (mkAL true None None)).
Definition asio_listener_new (socket_fd : Z) (s : lsys) : lsys := asio_listener_init socket_fd s.

Definition asio_listener_init_from_port_host (port : Z) (host : list byte) (s : lsys) : outcome lsys :=
  '(w, fd) ← create_listener_socket N port host (l_kernel s);
  w ← socket_set_non_blocking N fd w;
  Ret (asio_listener_init fd (l_with_kernel s w)).
Definition asio_listener_new_from_port_host (port : Z) (host : list byte) (s : lsys) : outcome lsys :=
  '(w, fd) ← create_listener_socket N port host (l_kernel s);
  w ← socket_set_non_blocking N fd w;
  Ret (asio_listener_new fd (l_with_kernel s w)).

Definition asio_listener_deinit (s : lsys) : outcome lsys :=
  a ← deref (asio s);
  through_ref a;;
  s ← runloop_listener_free s;
  Ret (l_with_asio s (Some (mkAL false None None))).
Definition asio_listener_free (s : lsys) : outcome lsys :=
  s ← asio_listener_deinit s; Ret (l_with_asio s None).

Definition asio_accept (cb : option acb) (a : option arg_t) (s : lsys) : outcome lsys :=
  x ← deref (asio s);
  let x := mkAL (rl_listener_ref x) cb a in
  through_ref x;;
  runloop_listener_register (Some on_listening) (Some asio_self) (l_with_asio s (Some x)).

(** The callback is cleared, the watcher disarmed or deregistered, and the program's
    callback called last. *)
Definition on_listening_postable (s : lsys) : outcome lsys :=
  x ← deref (asio s);
  through_ref x;;
  fd ← runloop_listener_get_fd s;
  let cb := on_accept_callback x in
  let cb_arg := on_accept_callback_arg x in
  let '(w, sock2, errno) := accept fd (l_kernel s) in
  let s := l_with_kernel s w in
  let s := l_with_asio s (Some (mkAL (rl_listener_ref x) None None)) in
  if sock2 <=? 0 then
    s ← runloop_listener_disarm s;
    g ← deref cb;
    call_accept g cb_arg sock2 errno s
  else
    s ← runloop_listener_deregister s;
    g ← deref cb;
    call_accept g cb_arg sock2 0 s.

(** The handler the loop calls for an event; the function it calls is the one that
    [asio_accept] has set. *)
Definition listener_handler (s : lsys) : outcome lsys :=
  x ← deref (listener s);
  match listen_postable x with
  | None => Ret s
  | Some g => if decide (g = on_listening) then on_listening_postable s else Ub
  end.

(** ** Specification *)

Variable loop_view : L → view watcher fn arg_t → Prop.
Context `{!LoopLaws L watcher fn arg_t loop_view}.

(** A live listener on descriptor [fd], on a loop seen as [v]. *)
Record listener_rep (s : lsys) (fd : Z) (cb : option acb) (a : option arg_t) (v : view watcher fn arg_t) : Prop := {
  lr_listener : ∃ p q, listener s = Some (mkRL fd p q);
  lr_asio : asio s = Some (mkAL true cb a);
  lr_fd : fd_ok fd;
  lr_view : loop_view (l_loop s) v
}.

(** ** Properties *)

(** C29: Accepting connections. On an idle listener, [asio_accept] makes the loop watch the
    socket, exclusively. The event that brings a connection stops the watching and
    calls the callback once, with its argument, the new socket and no error, on a
    listener that is idle again, so the callback may accept the next one. The event of
    a connection that cannot be accepted aborts the program: the listener is disarmed by
    modifying an entry that was added as exclusive, and the kernel refuses that.
    Accepting again before the event aborts as well. *)
Theorem asio_accept_delivers s fd cb0 a0 v g a :
  listener_rep s fd cb0 a0 v → watched v !! fd = None → armed v !! fd = None →
  ∃ s1 v1, asio_accept (Some g) a s = Ret s1 ∧ listener_rep s1 fd (Some g) a v1 ∧
    v1 = mkView (posted v) (<[fd := self]> (watched v)) (<[fd := Z.lor EPOLLIN EPOLLEXCLUSIVE]> (armed v)) ∧
    l_kernel s1 = l_kernel s ∧ l_app s1 = l_app s ∧
    (∀ h b, asio_accept (Some h) b s1 = AssertFail) ∧
    ∀ w sock2 errno, accept fd (l_kernel s) = (w, sock2, errno) →
      if 0 <? sock2 then
        ∃ s2, listener_handler s1 = call_accept g a sock2 0 s2 ∧ listener_rep s2 fd None None v ∧
          l_kernel s2 = w ∧ l_app s2 = l_app s
      else listener_handler s1 = AssertFail.
Proof.
  intros [(p & q & Hx) Ha Hf Hl] Hw Har.
  destruct (register_law (l_loop s) v fd (Z.lor EPOLLIN EPOLLEXCLUSIVE) self Hl Hf Hw Har eq_refl) as (l & Hreg & Hl').
  set (v1 := mkView (posted v) (<[fd := self]> (watched v)) (<[fd := u32 (Z.lor EPOLLIN EPOLLEXCLUSIVE)]> (armed v))) in *.
  set (s1 := mkLS (Some (mkRL fd (Some on_listening) (Some asio_self))) (Some (mkAL true (Some g) a)) l (l_kernel s) (l_app s)).
  assert (asio_accept (Some g) a s = Ret s1) as Hacc.
  { unfold asio_accept. rewrite Ha. cbn [deref]. rewrite bind_ret_l. unfold through_ref. cbn [rl_listener_ref].
    rewrite bind_ret_l. unfold runloop_listener_register. cbn [l_with_asio listener]. rewrite Hx. cbn [deref].
    rewrite bind_ret_l. cbn [l_fd l_loop l_with_asio l_with_kernel l_with]. rewrite Hreg. by rewrite bind_ret_l. }
  assert (watched v1 !! fd = Some self) as Hw1 by apply lookup_insert_eq.
  assert (armed v1 !! fd = Some (Z.lor EPOLLIN EPOLLEXCLUSIVE)) as Ha1 by apply lookup_insert_eq.
  exists s1, v1. split_and!; [done| |done|done|done| |].
  - constructor; [by eexists _, _|done|done|done].
  - intros h b. unfold asio_accept. cbn [s1 asio deref]. rewrite bind_ret_l. unfold through_ref. cbn [rl_listener_ref].
    rewrite bind_ret_l. unfold runloop_listener_register. cbn [s1 l_with_asio listener deref]. rewrite bind_ret_l.
    cbn [s1 l_fd l_loop l_with_asio l_with_kernel l_with]. by rewrite (register_exists l v1 fd _ self _ Hl' Hf Ha1).
  - intros w sock2 errno Hacpt. unfold listener_handler. cbn [s1 listener deref]. rewrite bind_ret_l.
    cbn [listen_postable]. rewrite decide_True by done. unfold on_listening_postable. cbn [s1 asio deref].
    rewrite bind_ret_l. unfold through_ref. cbn [rl_listener_ref]. rewrite bind_ret_l.
    unfold runloop_listener_get_fd. cbn [s1 listener deref]. rewrite !bind_ret_l. cbn [s1 l_fd l_kernel l_with_asio].
    rewrite Hacpt. cbn [on_accept_callback on_accept_callback_arg].
    destruct (0 <? sock2) eqn:E; bool_prop.
    + rewrite (proj2 (Z.leb_gt _ _)) by done. unfold runloop_listener_deregister.
      cbn [s1 l_with_kernel l_with_asio listener deref]. rewrite bind_ret_l. cbn [s1 l_fd l_loop l_with_asio l_with_kernel l_with].
      destruct (deregister_law l v1 fd self _ Hl' Hf Hw1 Ha1) as (l2 & -> & Hl2). rewrite !bind_ret_l.
      eexists. split; [done|]. split_and!; [|done|done]. constructor; [by eexists _, _|done|done|].
      unfold v1 in Hl2. cbn [posted watched armed] in Hl2. rewrite !delete_insert_id in Hl2 by done. by destruct v.
    + rewrite (proj2 (Z.leb_le _ _)) by done. unfold runloop_listener_disarm.
      cbn [s1 l_with_kernel l_with_asio listener deref]. rewrite bind_ret_l. cbn [s1 l_fd l_loop l_with_asio l_with_kernel l_with].
      by rewrite (reregister_exclusive l v1 fd 0 self _ Hl' Hf Hw1 Ha1).
Qed.
End Listener.

Arguments RunloopListener : clear implicits.
Arguments AsioListener : clear implicits.
Arguments lsys : clear implicits.

(** ** Witness: a listener on descriptor 5 and a queue of incoming connections *)

Abbreviation ex_lsys := (lsys (ref_loop nat nat nat) nat nat (list Z) (list Z) unit).
Definition ex_accept (fd : Z) (w : list Z) : list Z * Z * Z :=
  match w with [] => ([], -1, 11) | c :: w => (w, c, 0) end.
(** The callback records the socket. *)
Definition ex_call_accept (c : unit) (a : option nat) (sock2 err : Z) (s : ex_lsys) : outcome ex_lsys :=
  Ret (mkLS (listener s) (asio s) (l_loop s) (l_kernel s) (l_app s ++ [sock2])).
Definition ex_listener (w : list Z) : ex_lsys :=
  mkLS (Some (mkRL 5 None None)) (Some (mkAL true None None)) (mkRef [] ∅ ∅) w [].

Lemma asio_accept_delivers_witness :
  ∃ s1 s2, asio_accept 5%nat 9%nat 1%nat (Some ()) (Some 7%nat) (ex_listener [8]) = Ret s1 ∧
    listener_handler 5%nat 1%nat ex_accept ex_call_accept s1 = Ret s2 ∧ l_app s2 = [8] ∧ l_kernel s2 = [].
Proof.
  destruct (asio_accept_delivers 5%nat 9%nat 1%nat ex_accept ex_call_accept ref_view (ex_listener [8]) 5 None None
    (mkView [] ∅ ∅) () (Some 7%nat)) as (s1 & v1 & H1 & _ & _ & _ & _ & _ & H2);
    [by constructor; [eexists _, _|..]|reflexivity|reflexivity|].
  destruct (H2 [] 8 0 eq_refl) as (s2 & H3 & _ & H4 & H5).
  eexists s1, _. split; [exact H1|]. split; [rewrite H3; reflexivity|]. cbn [l_app l_kernel]. split; [by rewrite H5|exact H4].
Defined.
