(* ===== verification/EventfdWatcher.v ===== *)
(** * EventfdWatcher: user events (src/runloop/epoll_runloop/w_eventfd.c)

    A watcher on an eventfd in semaphore mode, the configuration of the file. The kernel's
    eventfd is a parameter with the documented counter; the watcher is a heap object:
    [None] is a freed one. *)

From S2P Require Import Prelude Runloop Loop.
Open Scope Z_scope.

Definition EFD_EAGAIN : Z := 11.

Section Eventfd.
Context {L watcher fn arg_t W app : Type} `{!LoopOps L watcher fn arg_t}.

(** The constructor leaves the postable, its argument and [write_fd] uninitialised: [None]
    stands for that too, since the first two are set before the loop can see the watcher
    and the third is not used in this configuration. *)
Record RunloopEventfd := mkEfd {
  e_fd : Z;
  fdevent_postable : option fn;
  fdevent_postable_arg : option arg_t
}.

Record esys := mkES { efd : option RunloopEventfd; e_loop : L; e_kernel : W; e_app : app }.

Variable self : watcher.
(** The kernel: [eventfd], [read] of 8 bytes with the error number, [write] of the value 1. *)
Variable eventfd : W → W * Z.
Variable efd_read : Z → W → W * Z * Z.
Variable efd_write : Z → W → W * Z.
Variable call : fn → option arg_t → esys → outcome esys.

Definition e_with (s : esys) (x : option RunloopEventfd) : esys := mkES x (e_loop s) (e_kernel s) (e_app s).
Definition e_with_loop (s : esys) (l : L) : esys := mkES (efd s) l (e_kernel s) (e_app s).
Definition e_with_kernel (s : esys) (w : W) : esys := mkES (efd s) (e_loop s) w (e_app s).

Definition runloop_eventfd_init (s : esys) : esys :=
  let '(w, fd) := eventfd (e_kernel s) in e_with (e_with_kernel s w) (Some (mkEfd fd None None)).
Definition runloop_eventfd_new (s : esys) : esys := runloop_eventfd_init s.

Definition runloop_eventfd_free (s : esys) : outcome esys :=
  x ← deref (efd s);
  Ret (e_with (e_with_loop s (close_fd (watcher := watcher) (fn := fn) (arg_t := arg_t) (e_fd x) (e_loop s))) None).

Definition runloop_eventfd_register (s : esys) : outcome esys :=
  x ← deref (efd s);
  let x := mkEfd (e_fd x) None None in
  '(l, res) ← register (fn := fn) (arg_t := arg_t) (e_fd x) 0 self (e_loop s);
  c_assert (res =? 0);;
  Ret (e_with_loop (e_with s (Some x)) l).

(** [watch_what] is cut to 32 bits. *)
Definition runloop_eventfd_change_watch (postable : option fn) (a : option arg_t) (watch_what : Z) (s : esys)
    : outcome esys :=
  x ← deref (efd s);
  let x := mkEfd (e_fd x) (or_else postable (fdevent_postable x)) (or_else a (fdevent_postable_arg x)) in
  '(l, res) ← reregister (fn := fn) (arg_t := arg_t) (e_fd x) (u32 watch_what) self (e_loop s);
  c_assert (res =? 0);;
  Ret (e_with_loop (e_with s (Some x)) l).

Definition runloop_eventfd_deregister (s : esys) : outcome esys :=
  x ← deref (efd s);
  '(l, res) ← deregister (watcher := watcher) (fn := fn) (arg_t := arg_t) (e_fd x) (e_loop s);
  c_assert (res =? 0);;
  Ret (e_with_loop s l).

Definition eventfd_interest : Z := Z.lor (Z.lor EPOLLIN EPOLLERR) EPOLLRDHUP.
Definition runloop_eventfd_arm (postable : option fn) (a : option arg_t) (s : esys) : outcome esys :=
  x ← deref (efd s);
  let x := mkEfd (e_fd x) (or_else postable (fdevent_postable x)) (or_else a (fdevent_postable_arg x)) in
  '(l, res) ← reregister (fn := fn) (arg_t := arg_t) (e_fd x) eventfd_interest self (e_loop s);
  c_assert (res =? 0);;
  Ret (e_with_loop (e_with s (Some x)) l).

(** The result is not looked at. *)
Definition runloop_eventfd_disarm (s : esys) : outcome esys :=
  x ← deref (efd s);
  '(l, _) ← reregister (fn := fn) (arg_t := arg_t) (e_fd x) 0 self (e_loop s);
  Ret (e_with_loop s l).

Definition runloop_eventfd_fire (s : esys) : outcome esys :=
  x ← deref (efd s);
  let '(w, n) := efd_write (e_fd x) (e_kernel s) in
  c_assert (n =? 8);;
  Ret (e_with_kernel s w).

Definition runloop_eventfd_clear_one_event (s : esys) : outcome esys :=
  x ← deref (efd s);
  let '(w, _, _) := efd_read (e_fd x) (e_kernel s) in
  Ret (e_with_kernel s w).

(** The loop that reads until nothing is left; [None]: the fuel is spent. *)
Fixpoint clear_loop (fuel : nat) (fd : Z) (w : W) : outcome (option W) :=
  match fuel with
  | O => Ret None
  | S fuel =>
      let '(w, nread, errno) := efd_read fd w in
      if nread =? -1 then c_assert (errno =? EFD_EAGAIN);; Ret (Some w)
      else clear_loop fuel fd w
  end.
Definition runloop_eventfd_clear_all_events (fuel : nat) (s : esys) : outcome (option esys) :=
  x ← deref (efd s);
  r ← clear_loop fuel (e_fd x) (e_kernel s);
  Ret (match r with Some w => Some (e_with_kernel s w) | None => None end).

Definition runloop_eventfd_get_fd (s : esys) : outcome Z := x ← deref (efd s); Ret (e_fd x).

(** The handler the loop calls for an event. *)
Definition eventfd_handler (s : esys) : outcome esys :=
  x ← deref (efd s);
  let '(w, nread, _) := efd_read (e_fd x) (e_kernel s) in
  let s := e_with_kernel s w in
  if nread =? 8 then
    g ← deref (fdevent_postable x);
    call g (fdevent_postable_arg x) s
  else Ret s.

(** ** Specification *)

(** The documented behaviour of a non-blocking eventfd in semaphore mode, [counter] being
    the counter of an open one: reading takes one from a positive counter and fails with
    EAGAIN on zero; writing 1 adds one, up to 2^64 - 2. *)
Record eventfd_laws (counter : W → Z → option Z) : Prop := {
  el_read : ∀ fd w n, counter w fd = Some n → 0 < n →
    ∃ w' e, efd_read fd w = (w', 8, e) ∧ counter w' fd = Some (n - 1);
  el_read_zero : ∀ fd w, counter w fd = Some 0 →
    ∃ w', efd_read fd w = (w', -1, EFD_EAGAIN) ∧ counter w' fd = Some 0;
  el_write : ∀ fd w n, counter w fd = Some n → n < 2 ^ 64 - 2 →
    ∃ w', efd_write fd w = (w', 8) ∧ counter w' fd = Some (n + 1)
}.

Variable counter : W → Z → option Z.
Hypothesis kernel_ok : eventfd_laws counter.

(** A live watcher [x] whose eventfd counts [n]. *)
Definition efd_rep (s : esys) (x : RunloopEventfd) (n : Z) : Prop :=
  efd s = Some x ∧ counter (e_kernel s) (e_fd x) = Some n.

Fixpoint fire_times (k : nat) (s : esys) : outcome esys :=
  match k with O => Ret s | S k => s ← runloop_eventfd_fire s; fire_times k s end.

(** ** Lemmas *)

Lemma fire_ok s x n :
  efd_rep s x n → n < 2 ^ 64 - 2 →
  ∃ w, runloop_eventfd_fire s = Ret (e_with_kernel s w) ∧ efd_rep (e_with_kernel s w) x (n + 1).
Proof.
  intros [Hx Hn] Hlt. unfold runloop_eventfd_fire. rewrite Hx. cbn [deref]. rewrite bind_ret_l.
  destruct (el_write _ kernel_ok (e_fd x) (e_kernel s) n Hn Hlt) as (w & -> & Hw). cbn [Z.eqb Pos.eqb c_assert].
  rewrite bind_ret_l. exists w. by split.
Qed.

Lemma fire_times_ok k : ∀ s x n,
  efd_rep s x n → n + Z.of_nat k ≤ 2 ^ 64 - 2 →
  ∃ w, fire_times k s = Ret (e_with_kernel s w) ∧ efd_rep (e_with_kernel s w) x (n + Z.of_nat k).
Proof.
  induction k as [|k IH]; intros s x n Hr Hle; cbn [fire_times].
  - exists (e_kernel s). rewrite Z.add_0_r. by destruct s.
  - destruct (fire_ok s x n Hr) as (w & -> & Hr1); [lia|]. rewrite bind_ret_l.
    destruct (IH (e_with_kernel s w) x (n + 1) Hr1) as (w2 & -> & Hr2); [lia|]. exists w2. split; [done|].
    by replace (n + Z.of_nat (S k)) with (n + 1 + Z.of_nat k) by lia.
Qed.

Lemma clear_loop_ok k : ∀ fd w,
  counter w fd = Some (Z.of_nat k) → ∀ fuel, (k < fuel)%nat →
  ∃ w', clear_loop fuel fd w = Ret (Some w') ∧ counter w' fd = Some 0.
Proof.
  induction k as [|k IH]; intros fd w Hn [|fuel] Hf; try lia; cbn [clear_loop].
  - destruct (el_read_zero _ kernel_ok fd w Hn) as (w' & -> & Hw'). by exists w'.
  - destruct (el_read _ kernel_ok fd w _ Hn) as (w' & e & -> & Hw'); [lia|]. cbn [Z.eqb].
    apply IH; [rewrite Hw'; f_equal; lia|lia].
Qed.

Lemma clear_loop_short k : ∀ fd w,
  counter w fd = Some (Z.of_nat k) → ∀ fuel, (fuel ≤ k)%nat → clear_loop fuel fd w = Ret None.
Proof.
  induction k as [|k IH]; intros fd w Hn [|fuel] Hf; try done; try lia. cbn [clear_loop].
  destruct (el_read _ kernel_ok fd w _ Hn) as (w' & e & -> & Hw'); [lia|]. cbn [Z.eqb].
  apply IH; [rewrite Hw'; f_equal; lia|lia].
Qed.

(** ** Properties *)

(** C31: User events are counted, not merged: firing [k] times adds [k] to the counter
    whatever it held; each event the loop then delivers takes one off and calls the
    function once, with its argument; and an event delivered when nothing is left calls
    nothing. Clearing one event takes one off, if there is one. *)
Theorem eventfd_events_counted s x n k g :
  efd_rep s x n → 0 ≤ n → n + Z.of_nat k ≤ 2 ^ 64 - 2 → fdevent_postable x = Some g →
  ∃ w w', fire_times k s = Ret (e_with_kernel s w) ∧ efd_rep (e_with_kernel s w) x (n + Z.of_nat k) ∧
    runloop_eventfd_clear_one_event (e_with_kernel s w) = Ret (e_with_kernel s w') ∧
    efd_rep (e_with_kernel s w') x (Z.max 0 (n + Z.of_nat k - 1)) ∧
    eventfd_handler (e_with_kernel s w) =
      if 0 <? n + Z.of_nat k then call g (fdevent_postable_arg x) (e_with_kernel s w') else Ret (e_with_kernel s w').
Proof.
  intros Hr H0 Hle Hg. destruct (fire_times_ok k s x n Hr Hle) as (w & Hf & [Hx Hn]). exists w.
  unfold eventfd_handler, runloop_eventfd_clear_one_event. rewrite Hx. cbn [deref]. rewrite !bind_ret_l.
  change (e_kernel (e_with_kernel s w)) with w in *.
  destruct (0 <? n + Z.of_nat k) eqn:E; bool_prop.
  - destruct (el_read _ kernel_ok _ _ _ Hn E) as (w' & e & -> & Hw'). cbn [Z.eqb Pos.eqb]. rewrite Hg. cbn [deref].
    rewrite bind_ret_l. exists w'. split; [done|]. split; [by split|]. split; [done|]. split; [|done].
    split; [done|]. change (e_kernel _) with w'. rewrite Hw'. f_equal. lia.
  - assert (n + Z.of_nat k = 0) as Hz by lia. rewrite Hz in *.
    destruct (el_read_zero _ kernel_ok _ _ Hn) as (w' & -> & Hw'). cbn [Z.eqb]. exists w'.
    split; [done|]. split; [by split|]. split; [done|]. split; [by split|done].
Qed.

(** Clearing all events ends: the loop reads the eventfd once for every event counted
    and once more, not less, and leaves the counter at zero. *)
Theorem eventfd_clear_all_terminates s x n fuel :
  efd_rep s x n → 0 ≤ n →
  if Z.of_nat fuel <=? n then runloop_eventfd_clear_all_events fuel s = Ret None
  else ∃ w, runloop_eventfd_clear_all_events fuel s = Ret (Some (e_with_kernel s w)) ∧
         efd_rep (e_with_kernel s w) x 0.
Proof.
  intros [Hx Hn] H0. unfold runloop_eventfd_clear_all_events. rewrite Hx. cbn [deref]. rewrite bind_ret_l.
  replace n with (Z.of_nat (Z.to_nat n)) in Hn by lia. destruct (Z.of_nat fuel <=? n) eqn:E; bool_prop.
  - by rewrite (clear_loop_short _ _ _ Hn) by lia.
  - destruct (clear_loop_ok _ _ _ Hn fuel) as (w & -> & Hw); [lia|]. by exists w.
Qed.
End Eventfd.

Arguments RunloopEventfd : clear implicits.
Arguments esys : clear implicits.

(** ** Witnesses: one eventfd, its counter *)

Abbreviation ex_esys := (esys (ref_loop nat nat nat) nat nat Z (list nat)).
Definition ex_efd_read (fd : Z) (w : Z) : Z * Z * Z := if 0 <? w then (w - 1, 8, 0) else (w, -1, EFD_EAGAIN).
Definition ex_efd_write (fd : Z) (w : Z) : Z * Z := if w <? 2 ^ 64 - 2 then (w + 1, 8) else (w, -1).
Definition ex_ecall (g : nat) (a : option nat) (s : ex_esys) : outcome ex_esys :=
  Ret (mkES (efd s) (e_loop s) (e_kernel s) (e_app s ++ [g])).
Definition ex_efd (n : Z) : ex_esys := mkES (Some (mkEfd 5 (Some 1%nat) (Some 7%nat))) (mkRef [] ∅ ∅) n [].

Lemma ex_eventfd_laws : eventfd_laws ex_efd_read ex_efd_write (fun w _ => Some w).
Proof.
  constructor; unfold ex_efd_read, ex_efd_write.
  - intros _ w n [= ->] Hn. rewrite (proj2 (Z.ltb_lt _ _)) by done. by exists (n - 1), 0.
  - intros _ w [= ->]. by exists 0.
  - intros _ w n [= ->] Hn. rewrite (proj2 (Z.ltb_lt _ _)) by done. by exists (n + 1).
Qed.

(** Two events fired and one handled leave one. *)
Lemma eventfd_events_counted_witness :
  ∃ w', eventfd_handler ex_efd_read ex_ecall (e_with_kernel (ex_efd 0) 2) =
      ex_ecall 1%nat (Some 7%nat) (e_with_kernel (ex_efd 0) w') ∧ efd_rep (fun w _ => Some w) (e_with_kernel (ex_efd 0) w')
      (mkEfd 5 (Some 1%nat) (Some 7%nat)) 1.
Proof.
  destruct (eventfd_events_counted (L := ref_loop nat nat nat) ex_efd_read ex_efd_write ex_ecall (fun w _ => Some w)
    ex_eventfd_laws (ex_efd 0) (mkEfd 5 (Some 1%nat) (Some 7%nat)) 0 2 1%nat)
    as (w & w' & _ & [_ H1] & _ & H2 & H3); [by split|lia|lia|reflexivity|].
  injection H1 as H1. cbn in H1. subst w. exists w'. split; [exact H3|exact H2].
Defined.

Lemma eventfd_clear_all_terminates_witness :
  ∃ w, runloop_eventfd_clear_all_events ex_efd_read 4 (ex_efd 3) = Ret (Some (e_with_kernel (ex_efd 3) w)) ∧
    efd_rep (fun w _ => Some w) (e_with_kernel (ex_efd 3) w) (mkEfd 5 (Some 1%nat) (Some 7%nat)) 0.
Proof.
  exact (eventfd_clear_all_terminates (L := ref_loop nat nat nat) ex_efd_read ex_efd_write (fun w _ => Some w)
    ex_eventfd_laws (ex_efd 3) (mkEfd 5 (Some 1%nat) (Some 7%nat)) 3 4 ltac:(by split) ltac:(lia)).
Defined.
