(* ===== verification/AsioStream.v ===== *)
(** * AsioStream: asynchronous reads and writes on a socket
    (src/runloop/epoll_runloop/w_stream.c, asio_stream.c)

    A stream tries each operation at once; when the socket is not ready it arms its
    watcher and tries again on the event. The stream object and its watcher are heap
    objects that a callback may free: [None] is a freed object, and touching it is
    undefined. The level-triggered configuration is modelled, the one compiled. *)

From S2P Require Import Prelude FunctorList FdTable Runloop Loop.
Open Scope Z_scope.

Definition READ_STATE_IDLE : Z := 11.
Definition READ_STATE_ACTIVE : Z := 12.
Definition READ_STATE_EAGAIN : Z := 13.
Definition WRITE_STATE_IDLE : Z := 21.
Definition WRITE_STATE_ACTIVE : Z := 22.
Definition WRITE_STATE_EAGAIN : Z := 22.
Definition EAGAIN : Z := 11.
Definition EWOULDBLOCK : Z := 11.
Definition EPOLLET : Z := 2 ^ 31.

(** The result of [read] or [write]: the bytes read (none at end of file), the number
    written, or an error number. *)
Inductive read_result := RData (bs : list byte) | RErr (errno : Z).
Inductive write_result := WCount (n : Z) | WErr (errno : Z).
#[global] Instance read_result_eq_dec : EqDecision read_result.
Proof. solve_decision. Defined.

Section AsioStream.
(** [L] is the loop, [W] the socket's side of the kernel, [app] the rest of the
    program, [buf] the pointers to its buffers. *)
Context {L watcher fn arg_t W app buf rcb wcb : Type} `{!LoopOps L watcher fn arg_t}.

Record RunloopStream := mkRS {
  rs_fd : Z;
  event_mask : Z;
  read_postable_cb : option fn;
  read_postable_arg : option arg_t;
  write_postable_cb : option fn;
  write_postable_arg : option arg_t
}.

(** Buffers and the write callback are not set by the constructor: [None]. *)
Record AsioStream := mkAS {
  fd : Z;
  read_state : Z;
  read_buffer : option buf;
  read_buffer_size : Z;
  read_callback : option rcb;
  read_callback_arg : option arg_t;
  write_state : Z;
  write_buffer : option buf;
  write_buffer_size : Z;
  write_callback : option wcb;
  write_callback_arg : option arg_t
}.

Record sys := mkSys {
  stream : option AsioStream;
  rstream : option RunloopStream;
  loop : L;
  sock : W;
  the_app : app
}.

(** The addresses of the watcher and of the stream, and the two functions posted for
    events. *)
Variable self_rs : watcher.
Variable self : arg_t.
Variable epollin_postable epollout_postable : fn.
Variable sock_read : Z → Z → W → W * read_result.
Variable sock_write : Z → list byte → W → W * write_result.
Variable set_non_blocking : Z → W → W.
(** Access to the caller's buffers. *)
Variable buf_store : buf → list byte → app → outcome app.
Variable buf_load : buf → Z → app → outcome (list byte).
(** The functions behind the callbacks: argument, byte count, status. *)
Variable call_read : rcb → option arg_t → Z → Z → sys → outcome sys.
Variable call_write : wcb → option arg_t → Z → Z → sys → outcome sys.

Definition with_stream (s : sys) (x : option AsioStream) : sys := mkSys x (rstream s) (loop s) (sock s) (the_app s).
Definition with_rs (s : sys) (r : option RunloopStream) : sys := mkSys (stream s) r (loop s) (sock s) (the_app s).
Definition with_loop (s : sys) (l : L) : sys := mkSys (stream s) (rstream s) l (sock s) (the_app s).
Definition with_sock (s : sys) (w : W) : sys := mkSys (stream s) (rstream s) (loop s) w (the_app s).
Definition with_app (s : sys) (a : app) : sys := mkSys (stream s) (rstream s) (loop s) (sock s) a.

(** ** The watcher (w_stream.c) *)

Definition runloop_stream_init (f : Z) : RunloopStream := mkRS f 0 None None None None.
Definition runloop_stream_new (f : Z) : RunloopStream := runloop_stream_init f.

Definition runloop_stream_register (s : sys) : outcome sys :=
  r ← deref (rstream s);
  '(l, res) ← register (fn := fn) (arg_t := arg_t) (rs_fd r) 0 self_rs (loop s);
  c_assert (res =? 0);; Ret (with_loop s l).
Definition runloop_stream_deregister (s : sys) : outcome sys :=
  r ← deref (rstream s);
  '(l, res) ← deregister (watcher := watcher) (fn := fn) (arg_t := arg_t) (rs_fd r) (loop s);
  c_assert (res =? 0);; Ret (with_loop s l).

(** The watcher with its new mask and callbacks is re-registered. *)
Definition stream_rearm (r : RunloopStream) (s : sys) : outcome sys :=
  '(l, res) ← reregister (fn := fn) (arg_t := arg_t) (rs_fd r) (event_mask r) self_rs (loop s);
  c_assert (res =? 0);; Ret (with_loop (with_rs s (Some r)) l).


Definition error_events : Z := Z.lor EPOLLERR (Z.lor EPOLLHUP EPOLLRDHUP).

Definition runloop_stream_arm_both (rcb' : option fn) (rarg : option arg_t) (wcb' : option fn) (warg : option arg_t)
    (s : sys) : outcome sys :=
  r ← deref (rstream s);
  stream_rearm (mkRS (rs_fd r) (Z.lor (Z.lor EPOLLET (Z.lor EPOLLOUT (Z.lor EPOLLIN error_events))) (event_mask r))
    (or_else rcb' (read_postable_cb r)) (or_else rarg (read_postable_arg r))
    (or_else wcb' (write_postable_cb r)) (or_else warg (write_postable_arg r))) s.
Definition runloop_stream_arm_read (cb : option fn) (a : option arg_t) (s : sys) : outcome sys :=
  r ← deref (rstream s);
  stream_rearm (mkRS (rs_fd r) (Z.lor (Z.lor EPOLLIN error_events) (event_mask r))
    (or_else cb (read_postable_cb r)) (or_else a (read_postable_arg r)) (write_postable_cb r) (write_postable_arg r)) s.
Definition runloop_stream_arm_write (cb : option fn) (a : option arg_t) (s : sys) : outcome sys :=
  r ← deref (rstream s);
  stream_rearm (mkRS (rs_fd r) (Z.lor (Z.lor EPOLLOUT error_events) (event_mask r))
    (read_postable_cb r) (read_postable_arg r) (or_else cb (write_postable_cb r)) (or_else a (write_postable_arg r))) s.
Definition runloop_stream_disarm_read (s : sys) : outcome sys :=
  r ← deref (rstream s);
  stream_rearm (mkRS (rs_fd r) (Z.land (event_mask r) (Z.lnot EPOLLIN)) None None
    (write_postable_cb r) (write_postable_arg r)) s.
Definition runloop_stream_disarm_write (s : sys) : outcome sys :=
  r ← deref (rstream s);
  stream_rearm (mkRS (rs_fd r) (Z.land (Z.lnot EPOLLOUT) (event_mask r)) (read_postable_cb r) (read_postable_arg r)
    None None) s.

Definition runloop_stream_free (s : sys) : outcome sys :=
  r ← deref (rstream s);
  Ret (with_rs (with_loop s (close_fd (watcher := watcher) (fn := fn) (arg_t := arg_t) (rs_fd r) (loop s))) None).
Definition runloop_stream_get_fd (s : sys) : outcome Z := r ← deref (rstream s); Ret (rs_fd r).

(** ** Reading (asio_stream.c) *)

Definition asio_stream_get_fd (s : sys) : outcome Z := _ ← deref (stream s); runloop_stream_get_fd s.

Definition set_read (x : AsioStream) (st : Z) (cb : option rcb) : AsioStream :=
  mkAS (fd x) st (read_buffer x) (read_buffer_size x) cb (read_callback_arg x) (write_state x) (write_buffer x)
    (write_buffer_size x) (write_callback x) (write_callback_arg x).
Definition set_write (x : AsioStream) (st : Z) (cb : option wcb) : AsioStream :=
  mkAS (fd x) (read_state x) (read_buffer x) (read_buffer_size x) (read_callback x) (read_callback_arg x) st
    (write_buffer x) (write_buffer_size x) cb (write_callback_arg x).

(** The callback is called, and only then cleared, on whatever the object is by then. *)
Definition finish_read (n status : Z) (s : sys) : outcome sys :=
  x ← deref (stream s);
  cb ← deref (read_callback x);
  s ← call_read cb (read_callback_arg x) n status s;
  x ← deref (stream s);
  Ret (with_stream s (Some (set_read x (read_state x) None))).

Definition read_eagain (s : sys) : outcome sys :=
  x ← deref (stream s);
  runloop_stream_arm_read (Some epollin_postable) (Some self)
    (with_stream s (Some (set_read x READ_STATE_EAGAIN (read_callback x)))).

Definition try_read (s : sys) : outcome sys :=
  x ← deref (stream s);
  let '(w, r) := sock_read (fd x) (read_buffer_size x) (sock s) in
  let s := with_sock s w in
  match r with
  | RData [] => finish_read 0 0 s
  | RData bs =>
      b ← deref (read_buffer x);
      a ← buf_store b bs (the_app s);
      finish_read (Zlen bs) 0 (with_stream (with_app s a) (Some (set_read x READ_STATE_IDLE (read_callback x))))
  | RErr e => if (e =? EAGAIN) || (e =? EWOULDBLOCK) then read_eagain s else finish_read 0 e s
  end.

Definition asio_stream_read (buffer : option buf) (max_length : Z) (cb : option rcb) (a : option arg_t) (s : sys) :
    outcome sys :=
  x ← deref (stream s);
  c_assert (read_state x =? READ_STATE_IDLE);;
  c_assert (bool_decide (is_Some buffer));;
  c_assert (0 <? max_length);;
  try_read (with_stream s (Some (mkAS (fd x) READ_STATE_ACTIVE buffer max_length cb a (write_state x) (write_buffer x)
    (write_buffer_size x) (write_callback x) (write_callback_arg x)))).

Definition epollin_postable_cb (s : sys) : outcome sys :=
  x ← deref (stream s);
  if read_state x =? READ_STATE_EAGAIN then
    match read_callback x with
    | None => Ret (with_stream s (Some (set_read x READ_STATE_IDLE None)))
    | Some _ => s ← runloop_stream_disarm_read s; try_read s
    end
  else Ret s.

(** ** Writing *)

(** On an end of file or an error the callback gets the argument of the last read. *)
Definition finish_write (a : option arg_t) (n status : Z) (s : sys) : outcome sys :=
  x ← deref (stream s);
  cb ← deref (write_callback x);
  s ← call_write cb a n status s;
  x ← deref (stream s);
  Ret (with_stream s (Some (set_write x (write_state x) None))).

Definition write_eagain (s : sys) : outcome sys :=
  x ← deref (stream s);
  runloop_stream_arm_write (Some epollout_postable) (Some self)
    (with_stream s (Some (set_read x READ_STATE_EAGAIN (read_callback x)))).

Definition try_write (s : sys) : outcome sys :=
  x ← deref (stream s);
  b ← deref (write_buffer x);
  bs ← buf_load b (write_buffer_size x) (the_app s);
  let '(w, r) := sock_write (fd x) bs (sock s) in
  let s := with_sock s w in
  match r with
  | WCount n =>
      if 0 <? n then
        finish_write (write_callback_arg x) n 0 (with_stream s (Some (set_write x WRITE_STATE_IDLE (write_callback x))))
      else finish_write (read_callback_arg x) 0 0 s
  | WErr e => if (e =? EAGAIN) || (e =? EWOULDBLOCK) then write_eagain s else finish_write (read_callback_arg x) 0 e s
  end.

Definition asio_stream_write (buffer : option buf) (length : Z) (cb : option wcb) (a : option arg_t) (s : sys) :
    outcome sys :=
  x ← deref (stream s);
  c_assert (write_state x =? WRITE_STATE_IDLE);;
  c_assert (bool_decide (is_Some buffer));;
  c_assert (0 <? length);;
  try_write (with_stream s (Some (mkAS (fd x) (read_state x) (read_buffer x) (read_buffer_size x) (read_callback x)
    (read_callback_arg x) WRITE_STATE_ACTIVE buffer length cb a))).

Definition epollout_postable_cb (s : sys) : outcome sys :=
  x ← deref (stream s);
  if write_state x =? WRITE_STATE_EAGAIN then
    match write_callback x with
    | None => Ret (with_stream s (Some (set_write x WRITE_STATE_IDLE None)))
    | Some _ => try_read s
    end
  else Ret s.

(** The function a watcher calls through its postables. *)
Definition call_postable `{EqDecision fn} (g : fn) (s : sys) : outcome sys :=
  if decide (g = epollin_postable) then epollin_postable_cb s
  else if decide (g = epollout_postable) then epollout_postable_cb s
  else Ub.

(** The handler of w_stream.c: it looks at what is armed, not at the event. *)
Definition handler_in `{EqDecision fn} (s : sys) : outcome sys :=
  r ← deref (rstream s);
  if negb (Z.land (event_mask r) EPOLLIN =? 0)
  then match read_postable_cb r with Some g => call_postable g s | None => Ret s end else Ret s.
Definition handler_out `{EqDecision fn} (s : sys) : outcome sys :=
  r ← deref (rstream s);
  if negb (Z.land (event_mask r) EPOLLOUT =? 0)
  then match write_postable_cb r with Some g => call_postable g s | None => Ret s end else Ret s.
Definition stream_handler `{EqDecision fn} (event : Z) (s : sys) : outcome sys :=
  s ← handler_in s; handler_out s.

(** ** Opening and closing *)

Definition asio_stream_init (socket : Z) (s : sys) : outcome sys :=
  let x := mkAS socket READ_STATE_IDLE None 1000000 None None WRITE_STATE_IDLE None 0 None None in
  runloop_stream_register
    (with_sock (with_rs (with_stream s (Some x)) (Some (runloop_stream_new socket))) (set_non_blocking socket (sock s))).
Definition asio_stream_new (socket : Z) (s : sys) : outcome sys := asio_stream_init socket s.

Definition asio_stream_close (s : sys) : outcome sys :=
  x ← deref (stream s);
  c_assert (0 <? fd x);;
  r ← deref (rstream s);
  l ← table_remove (watcher := watcher) (fn := fn) (arg_t := arg_t) (fd x) (loop s);
  let l := close_fd (watcher := watcher) (fn := fn) (arg_t := arg_t) (fd x) l in
  let x := mkAS (-1) (read_state x) (read_buffer x) (read_buffer_size x) (read_callback x) (read_callback_arg x)
             (write_state x) (write_buffer x) (write_buffer_size x) (write_callback x) (write_callback_arg x) in
  let r := mkRS (-1) (event_mask r) (read_postable_cb r) (read_postable_arg r) (write_postable_cb r) (write_postable_arg r) in
  Ret (with_rs (with_stream (with_loop s l) (Some x)) (Some r)).

Definition asio_stream_destroy (s : sys) : outcome sys :=
  x ← deref (stream s);
  r ← deref (rstream s);
  c_assert (rs_fd r =? fd x);;
  s ← (if 0 <? rs_fd r then asio_stream_close s else Ret s);
  Ret (with_rs s None).
Definition asio_stream_free (s : sys) : outcome sys :=
  s ← asio_stream_destroy s; Ret (with_stream s None).

(** ** Representation *)

Context `{EqDecision fn}.
Variable loop_view : L → view watcher fn arg_t → Prop.
Context `{!LoopLaws L watcher fn arg_t loop_view}.

(** The view [v] with the mask [m] for descriptor [f]. *)
Definition masked (f m : Z) (v : view watcher fn arg_t) : view watcher fn arg_t :=
  mkView (posted v) (watched v) (<[f := u32 m]> (armed v)).

(** An open stream [x] with watcher [r] on a loop that watches it; the kernel holds the
    mask of the watcher, and [v] is the rest of the loop. *)
Record open_rep (s : sys) (x : AsioStream) (r : RunloopStream) (v : view watcher fn arg_t) : Prop := {
  or_stream : stream s = Some x;
  or_rs : rstream s = Some r;
  or_fd : fd x = rs_fd r;
  or_ok : fd_ok (fd x);
  or_loop : loop_view (loop s) (masked (fd x) (event_mask r) v);
  or_watched : watched v !! fd x = Some self_rs;
  or_mask : exclusive (event_mask r) = false
}.

(** What the rest of the program sees unchanged. *)
Definition same_env (s s' : sys) : Prop := sock s' = sock s ∧ the_app s' = the_app s.

(** [k] reads find the socket not ready. *)
Fixpoint not_ready (k : nat) (f n : Z) (w : W) : option W :=
  match k with
  | O => Some w
  | S k => let '(w, r) := sock_read f n w in
           match r with RErr e => if e =? EAGAIN then not_ready k f n w else None | _ => None end
  end.

(** What a read that does not block reports to its callback: byte count and status,
    and the program with the bytes in the buffer. *)
Definition completes (b : buf) (r : read_result) (a : app) : outcome (Z * Z * app) :=
  match r with
  | RData [] => Ret (0, 0, a)
  | RData bs => a ← buf_store b bs a; Ret (Zlen bs, 0, a)
  | RErr e => if e =? EAGAIN then Ub else Ret (0, e, a)
  end.

Fixpoint events (k : nat) (s : sys) : outcome sys :=
  match k with O => Ret s | S k => s ← stream_handler 0 s; events k s end.

(** ** Lemmas *)

Lemma rearm_ok s x r r' v :
  open_rep s x r v → rs_fd r' = rs_fd r → exclusive (event_mask r') = false →
  ∃ s', stream_rearm r' s = Ret s' ∧ open_rep s' x r' v ∧ same_env s s'.
Proof.
  intros [Hx Hr Hfd Hok Hl Hw Hm] Hfd' Hm'. unfold stream_rearm. rewrite Hfd in *. rewrite Hfd'.
  assert (armed (masked (rs_fd r) (event_mask r) v) !! rs_fd r = Some (u32 (event_mask r))) as Ha
    by apply lookup_insert_eq.
  rewrite <- exclusive_u32 in Hm.
  destruct (reregister_law (loop s) (masked (rs_fd r) (event_mask r) v) (rs_fd r) (event_mask r') self_rs _ Hl Hok Hw Ha Hm Hm') as (l' & -> & Hl').
  unfold masked in Hl'. cbn [posted watched armed] in Hl'. rewrite insert_insert_eq in Hl'.
  rewrite bind_ret_l. eexists. split; [done|]. split; [|done]. constructor; cbn; rewrite ?Hfd; done.
Qed.

Lemma open_rep_stream s x r v x' :
  open_rep s x r v → fd x' = fd x → open_rep (with_stream s (Some x')) x' r v.
Proof. intros [] Hf. constructor; cbn; try done; by rewrite Hf. Qed.

Lemma open_rep_env s x r v w a : open_rep s x r v → open_rep (with_app (with_sock s w) a) x r v.
Proof. intros []. by constructor. Qed.

Lemma open_rep_sock s x r v w : open_rep s x r v → open_rep (with_sock s w) x r v.
Proof. intros []. by constructor. Qed.

Lemma arm_read_ok s x r v :
  open_rep s x r v →
  ∃ s' r', runloop_stream_arm_read (Some epollin_postable) (Some self) s = Ret s' ∧ open_rep s' x r' v ∧ same_env s s' ∧
    read_postable_cb r' = Some epollin_postable ∧ event_mask r' = Z.lor (Z.lor EPOLLIN error_events) (event_mask r) ∧
    write_postable_cb r' = write_postable_cb r.
Proof.
  intros Ho. unfold runloop_stream_arm_read. rewrite (or_rs _ _ _ _ Ho). cbn [deref]. rewrite bind_ret_l.
  match goal with |- context [stream_rearm ?r' s] => destruct (rearm_ok s x r r' v Ho eq_refl)
    as (s' & Hs & Ho' & He); [by apply exclusive_lor, (or_mask _ _ _ _ Ho)|] end.
  exists s'. eexists. split_and!; [exact Hs|exact Ho'|apply He..|reflexivity|reflexivity|reflexivity].
Qed.

Lemma disarm_read_ok s x r v :
  open_rep s x r v →
  ∃ s' r', runloop_stream_disarm_read s = Ret s' ∧ open_rep s' x r' v ∧ same_env s s' ∧
    event_mask r' = Z.land (event_mask r) (Z.lnot EPOLLIN) ∧ write_postable_cb r' = write_postable_cb r.
Proof.
  intros Ho. unfold runloop_stream_disarm_read. rewrite (or_rs _ _ _ _ Ho). cbn [deref]. rewrite bind_ret_l.
  match goal with |- context [stream_rearm ?r' s] => destruct (rearm_ok s x r r' v Ho eq_refl)
    as (s' & Hs & Ho' & He); [apply exclusive_land, (or_mask _ _ _ _ Ho)|] end.
  exists s'. eexists. split_and!; [exact Hs|exact Ho'|apply He..|reflexivity|reflexivity].
Qed.

(** Bits of the event mask. *)
Lemma mask_in m : (Z.land (Z.lor (Z.lor EPOLLIN error_events) m) EPOLLIN =? 0) = false.
Proof.
  apply Z.eqb_neq. intros Hz. assert (Z.testbit (Z.land (Z.lor (Z.lor EPOLLIN error_events) m) EPOLLIN) 0 = false) as Ht
    by (by rewrite Hz, Z.bits_0).
  by rewrite Z.land_spec, !Z.lor_spec in Ht.
Qed.

Lemma land_small_bit m k : 0 ≤ k → Z.land m (2 ^ k) = 0 ↔ Z.testbit m k = false.
Proof.
  intros Hk. split.
  - intros Hz. assert (Z.testbit (Z.land m (2 ^ k)) k = false) as Ht by (by rewrite Hz, Z.bits_0).
    rewrite Z.land_spec, Z.pow2_bits_true, andb_true_r in Ht by done. done.
  - intros Hb. apply Z.bits_inj'. intros n Hn. rewrite Z.land_spec, Z.bits_0, Z.pow2_bits_eqb by done.
    destruct (Z.eqb_spec k n); [subst; by rewrite Hb|apply andb_false_r].
Qed.

Lemma mask_out_arm m : Z.land m EPOLLOUT = 0 → Z.land (Z.lor (Z.lor EPOLLIN error_events) m) EPOLLOUT = 0.
Proof.
  change EPOLLOUT with (2 ^ 2). rewrite !land_small_bit by done. intros Hb. by rewrite Z.lor_spec, Hb.
Qed.

Lemma mask_in_disarm m : Z.land (Z.land m (Z.lnot EPOLLIN)) EPOLLIN = 0.
Proof. change EPOLLIN with (2 ^ 0). rewrite land_small_bit by done. by rewrite Z.land_spec, andb_false_r. Qed.

Lemma mask_out_disarm m : Z.land m EPOLLOUT = 0 → Z.land (Z.land m (Z.lnot EPOLLIN)) EPOLLOUT = 0.
Proof.
  change EPOLLOUT with (2 ^ 2). rewrite !land_small_bit by done. intros Hb. by rewrite Z.land_spec, Hb.
Qed.

(** The parts of a stream a pending read lives on. *)
Definition pending (x : AsioStream) (cb : rcb) (a : option arg_t) (b : buf) (n : Z) : Prop :=
  read_callback x = Some cb ∧ read_callback_arg x = a ∧ read_buffer x = Some b ∧ read_buffer_size x = n.

(** Waiting for the socket: the callback comes with the next event. *)
Definition waiting (x : AsioStream) (r : RunloopStream) : Prop :=
  read_state x = READ_STATE_EAGAIN ∧ read_postable_cb r = Some epollin_postable ∧
  (Z.land (event_mask r) EPOLLIN =? 0) = false ∧ Z.land (event_mask r) EPOLLOUT = 0.

Lemma try_read_not_ready s x r v cb a b n w :
  open_rep s x r v → pending x cb a b n → Z.land (event_mask r) EPOLLOUT = 0 →
  sock_read (fd x) n (sock s) = (w, RErr EAGAIN) →
  ∃ s' x' r', try_read s = Ret s' ∧ open_rep s' x' r' v ∧ pending x' cb a b n ∧ waiting x' r' ∧
    fd x' = fd x ∧ sock s' = w ∧ the_app s' = the_app s.
Proof.
  intros Ho (Hcb & Ha & Hb & Hn) Hm Hr. unfold try_read. rewrite (or_stream _ _ _ _ Ho). cbn [deref].
  rewrite bind_ret_l, Hn, Hr. cbn [Z.eqb orb EAGAIN Pos.eqb]. unfold read_eagain. cbn [with_sock stream].
  rewrite (or_stream _ _ _ _ Ho). cbn [deref]. rewrite bind_ret_l.
  set (x' := set_read x READ_STATE_EAGAIN (read_callback x)).
  destruct (arm_read_ok (with_stream (with_sock s w) (Some x')) x' r v) as (s' & r' & Hs & Ho' & [He1 He2] & H1 & H2 & H3).
  { apply (open_rep_stream (with_sock s w) x r v x'); [by apply open_rep_sock|done]. }
  exists s', x', r'. split_and!; try done.
  - unfold waiting. rewrite H1, H2, mask_in. split_and!; try done. by apply mask_out_arm.
Qed.

Lemma try_read_completes s x r v cb a b n w res cnt status app' :
  open_rep s x r v → pending x cb a b n →
  sock_read (fd x) n (sock s) = (w, res) → completes b res (the_app s) = Ret (cnt, status, app') →
  ∃ s' x', try_read s = finish_read cnt status s' ∧ open_rep s' x' r v ∧ pending x' cb a b n ∧
    sock s' = w ∧ the_app s' = app' ∧ (0 < cnt → read_state x' = READ_STATE_IDLE).
Proof.
  intros Ho Hp Hr Hc. pose proof Hp as (Hcb & Ha & Hb & Hn). unfold try_read.
  rewrite (or_stream _ _ _ _ Ho). cbn [deref]. rewrite bind_ret_l, Hn, Hr.
  assert (open_rep (with_sock s w) x r v) as Ho' by by apply open_rep_sock.
  destruct res as [[|y bs]|e]; cbn [completes] in Hc.
  - injection Hc as <- <- <-. exists (with_sock s w), x. split_and!; try done; lia.
  - rewrite Hb. cbn [deref the_app with_sock]. rewrite bind_ret_l.
    destruct (buf_store b (y :: bs) (the_app s)) as [a'| |] eqn:Es; [|done..]. cbn in Hc. injection Hc as <- <- <-.
    rewrite bind_ret_l. eexists _, (set_read x READ_STATE_IDLE (read_callback x)).
    split; [reflexivity|]. split_and!; try done.
    apply (open_rep_stream (with_app (with_sock s w) a') x r v); [by apply open_rep_env|done].
  - destruct (e =? EAGAIN) eqn:Ee; [done|]. injection Hc as <- <- <-. unfold EWOULDBLOCK. change 11 with EAGAIN.
    rewrite Ee. cbn [orb]. exists (with_sock s w), x. split_and!; try done; lia.
Qed.

Lemma handler_waiting s x r v cb a b n :
  open_rep s x r v → pending x cb a b n → waiting x r →
  ∃ s' r', handler_in s = try_read s' ∧ open_rep s' x r' v ∧ same_env s s' ∧ Z.land (event_mask r') EPOLLOUT = 0 ∧
    Z.land (event_mask r') EPOLLIN = 0.
Proof.
  intros Ho (Hcb & Ha & Hb & Hn) (Hs & Hg & Hin & Hout). unfold handler_in. rewrite (or_rs _ _ _ _ Ho). cbn [deref].
  rewrite bind_ret_l, Hin, Hg. cbn [negb]. unfold call_postable. rewrite decide_True by done.
  unfold epollin_postable_cb. rewrite (or_stream _ _ _ _ Ho). cbn [deref]. rewrite bind_ret_l, Hs, Z.eqb_refl, Hcb.
  destruct (disarm_read_ok s x r v Ho) as (s' & r' & -> & Ho' & He & Hm & _). rewrite bind_ret_l.
  exists s', r'. split_and!; try done; [apply He..| |]; rewrite Hm; [by apply mask_out_disarm|apply mask_in_disarm].
Qed.

Lemma handler_out_idle s x r v :
  open_rep s x r v → Z.land (event_mask r) EPOLLOUT = 0 → handler_out s = Ret s.
Proof. intros Ho Hm. unfold handler_out. rewrite (or_rs _ _ _ _ Ho). cbn [deref]. by rewrite bind_ret_l, Hm. Qed.

(** Events that find the socket not ready keep the stream waiting. *)
Lemma events_waiting k : ∀ s x r v cb a b n w,
  open_rep s x r v → pending x cb a b n → waiting x r → not_ready k (fd x) n (sock s) = Some w →
  ∃ s' x' r', events k s = Ret s' ∧ open_rep s' x' r' v ∧ pending x' cb a b n ∧ waiting x' r' ∧
    fd x' = fd x ∧ sock s' = w ∧ the_app s' = the_app s.
Proof.
  induction k as [|k IH]; intros s x r v cb a b n w Ho Hp Hw Hk; cbn [not_ready events] in *.
  - injection Hk as <-. exists s, x, r. done.
  - destruct (sock_read (fd x) n (sock s)) as [w1 [|e]] eqn:Er; [done|]. destruct (e =? EAGAIN) eqn:Ee; [|done]. bool_prop. subst e.
    destruct (handler_waiting s x r v cb a b n Ho Hp Hw) as (s1 & r1 & Hh & Ho1 & [He1 He2] & Hm1 & _).
    destruct (try_read_not_ready s1 x r1 v cb a b n w1 Ho1 Hp Hm1) as (s2 & x2 & r2 & Ht & Ho2 & Hp2 & Hw2 & Hf2 & Hs2 & Ha2).
    { by rewrite He1. }
    unfold stream_handler. rewrite Hh, Ht, bind_ret_l, (handler_out_idle s2 x2 r2 v Ho2) by apply Hw2. rewrite bind_ret_l.
    destruct (IH s2 x2 r2 v cb a b n w Ho2 Hp2 Hw2) as (s' & x' & r' & H1 & H2 & H3 & H4 & H5 & H6 & H7).
    { by rewrite Hf2, Hs2. }
    exists s', x', r'. split_and!; try done; congruence.
Qed.

(** The stream with a read just started. *)
Definition start_read (x : AsioStream) (b : buf) (n : Z) (cb : rcb) (a : option arg_t) : AsioStream :=
  mkAS (fd x) READ_STATE_ACTIVE (Some b) n (Some cb) a (write_state x) (write_buffer x) (write_buffer_size x)
    (write_callback x) (write_callback_arg x).

Lemma asio_stream_read_start s x r v b n cb a :
  open_rep s x r v → read_state x = READ_STATE_IDLE → 0 < n →
  asio_stream_read (Some b) n (Some cb) a s = try_read (with_stream s (Some (start_read x b n cb a))) ∧
  open_rep (with_stream s (Some (start_read x b n cb a))) (start_read x b n cb a) r v ∧
  pending (start_read x b n cb a) cb a b n.
Proof.
  intros Ho Hst Hn. split_and!; [|by apply (open_rep_stream s x r v)|done].
  unfold asio_stream_read. rewrite (or_stream _ _ _ _ Ho). cbn [deref]. rewrite bind_ret_l, Hst, Z.eqb_refl.
  rewrite bool_decide_true, (proj2 (Z.ltb_lt _ _)) by eauto. done.
Qed.

(** A read that does not block calls its callback at once. *)
Lemma asio_stream_read_now s x r v b n cb a w res cnt status app' :
  open_rep s x r v → read_state x = READ_STATE_IDLE → 0 < n →
  sock_read (fd x) n (sock s) = (w, res) → completes b res (the_app s) = Ret (cnt, status, app') →
  ∃ s' x', asio_stream_read (Some b) n (Some cb) a s = finish_read cnt status s' ∧ open_rep s' x' r v ∧
    pending x' cb a b n ∧ sock s' = w ∧ the_app s' = app' ∧ (0 < cnt → read_state x' = READ_STATE_IDLE).
Proof.
  intros Ho Hst Hn Hr Hc. destruct (asio_stream_read_start s x r v b n cb a Ho Hst Hn) as (-> & Ho1 & Hp1).
  destruct (try_read_completes _ _ r v cb a b n w res cnt status app' Ho1 Hp1 Hr Hc) as (s' & x' & Hrest).
  by exists s', x'.
Qed.

(** Freeing an open stream takes it out of the loop and closes its descriptor. *)
Lemma asio_stream_free_ok s x r v :
  stream s = Some x → rstream s = Some r → fd x = rs_fd r → fd_ok (fd x) → loop_view (loop s) v →
  watched v !! fd x = Some self_rs → 0 < fd x →
  ∃ s', asio_stream_free s = Ret s' ∧ stream s' = None ∧ rstream s' = None ∧ the_app s' = the_app s ∧ sock s' = sock s ∧
    loop_view (loop s') (mkView (posted v) (delete (fd x) (watched v)) (delete (fd x) (armed v))).
Proof.
  intros Hx Hr Hfds Hok Hl Hw Hfd.
  unfold asio_stream_free, asio_stream_destroy. rewrite Hx, Hr. cbn [deref]. rewrite !bind_ret_l, <- Hfds, Z.eqb_refl.
  cbn [c_assert]. rewrite bind_ret_l, (proj2 (Z.ltb_lt _ _)) by done.
  unfold asio_stream_close. rewrite Hx, Hr. cbn [deref]. rewrite bind_ret_l, (proj2 (Z.ltb_lt _ _)) by done. cbn [c_assert].
  rewrite !bind_ret_l. destruct (table_remove_law (loop s) v (fd x) self_rs Hl Hok Hw) as (l' & -> & Hl').
  rewrite !bind_ret_l. eexists. split; [done|]. split_and!; try done. by apply (close_law _ _ (fd x)) in Hl'.
Qed.

Lemma arm_write_ok s x r v :
  open_rep s x r v →
  ∃ s' r', runloop_stream_arm_write (Some epollout_postable) (Some self) s = Ret s' ∧ open_rep s' x r' v ∧ same_env s s' ∧
    write_postable_cb r' = Some epollout_postable ∧
    event_mask r' = Z.lor (Z.lor EPOLLOUT error_events) (event_mask r).
Proof.
  intros Ho. unfold runloop_stream_arm_write. rewrite (or_rs _ _ _ _ Ho). cbn [deref]. rewrite bind_ret_l.
  match goal with |- context [stream_rearm ?r' s] => destruct (rearm_ok s x r r' v Ho eq_refl)
    as (s' & Hs & Ho' & He); [by apply exclusive_lor, (or_mask _ _ _ _ Ho)|] end.
  exists s'. eexists. split_and!; [exact Hs|exact Ho'|apply He..|reflexivity|reflexivity].
Qed.

Lemma mask_arm_write m :
  Z.land m EPOLLIN = 0 →
  (Z.land (Z.lor (Z.lor EPOLLOUT error_events) m) EPOLLIN =? 0) = true ∧
  (Z.land (Z.lor (Z.lor EPOLLOUT error_events) m) EPOLLOUT =? 0) = false.
Proof.
  intros Hm. rewrite Z.eqb_eq, Z.eqb_neq. change EPOLLIN with (2 ^ 0) in *. change EPOLLOUT with (2 ^ 2).
  rewrite !land_small_bit in * by done. rewrite !Z.lor_spec, Hm. done.
Qed.

(** A read without a callback cannot complete. *)
Lemma finish_read_no_callback s x r v n st :
  open_rep s x r v → read_callback x = None → finish_read n st s = Ub.
Proof. intros Ho Hc. unfold finish_read. rewrite (or_stream _ _ _ _ Ho). cbn [deref]. by rewrite bind_ret_l, Hc. Qed.

Lemma try_read_no_callback s x r v :
  open_rep s x r v → read_callback x = None →
  let '(w, res) := sock_read (fd x) (read_buffer_size x) (sock s) in
  if decide (res = RErr EAGAIN)
  then ∃ s' x' r', try_read s = Ret s' ∧ open_rep s' x' r' v ∧ sock s' = w ∧ the_app s' = the_app s ∧
         x' = set_read x READ_STATE_EAGAIN None
  else is_ret (try_read s) = false.
Proof.
  intros Ho Hc. unfold try_read. rewrite (or_stream _ _ _ _ Ho). cbn [deref]. rewrite bind_ret_l.
  destruct (sock_read _ _ _) as [w [[|y bs]|e]].
  - rewrite decide_False by done. by rewrite (finish_read_no_callback _ x r v) by (try done; by apply open_rep_sock).
  - rewrite decide_False by done. destruct (read_buffer x) as [b|]; [|done]. cbn [deref]. rewrite bind_ret_l.
    destruct (buf_store b (y :: bs) _) as [a'| |]; [|done..]. rewrite bind_ret_l.
    erewrite (finish_read_no_callback _ (set_read x READ_STATE_IDLE (read_callback x)) r v); [done| |done].
    apply (open_rep_stream (with_app (with_sock s w) a') x r v); [by apply open_rep_env|done].
  - destruct (decide (RErr e = RErr EAGAIN)) as [[= ->]|Hne].
    + cbn [Z.eqb orb EAGAIN Pos.eqb]. unfold read_eagain. cbn [with_sock stream].
      rewrite (or_stream _ _ _ _ Ho). cbn [deref]. rewrite bind_ret_l, Hc.
      set (x' := set_read x READ_STATE_EAGAIN None).
      destruct (arm_read_ok (with_stream (with_sock s w) (Some x')) x' r v) as (s' & r' & Hs & Ho' & [He1 He2] & _).
      { apply (open_rep_stream (with_sock s w) x r v x'); [by apply open_rep_sock|done]. }
      by exists s', x', r'.
    + unfold EWOULDBLOCK. change 11 with EAGAIN.
      destruct (e =? EAGAIN) eqn:Ee; [bool_prop; congruence|]. cbn [orb].
      by rewrite (finish_read_no_callback _ x r v) by (try done; by apply open_rep_sock).
Qed.

(** ** Properties *)

(** C11: An asynchronous read reports to its callback exactly once, with what the socket
    gave, however long that takes: if the socket is not ready [k] times and then gives
    bytes, the end of the file or an error, the read and [k - 1] events leave the stream
    waiting with its read event armed in the kernel and the program untouched, and the
    next event (the read itself for k = 0) reads into the caller's buffer and calls the
    callback with the byte count and status, the read event disarmed. *)
Theorem asio_stream_read_delivers s x r v b n cb a k w w' res cnt status app' :
  open_rep s x r v → read_state x = READ_STATE_IDLE → Z.land (event_mask r) EPOLLOUT = 0 → 0 < n →
  not_ready k (fd x) n (sock s) = Some w → sock_read (fd x) n w = (w', res) →
  completes b res (the_app s) = Ret (cnt, status, app') →
  ∃ s' x' r', open_rep s' x' r' v ∧ pending x' cb a b n ∧ sock s' = w' ∧ the_app s' = app' ∧
    match k with
    | O => asio_stream_read (Some b) n (Some cb) a s = finish_read cnt status s'
    | S k => ∃ s1 s2 x2 r2, asio_stream_read (Some b) n (Some cb) a s = Ret s1 ∧ events k s1 = Ret s2 ∧
        open_rep s2 x2 r2 v ∧ waiting x2 r2 ∧ the_app s2 = the_app s ∧ Z.land (event_mask r') EPOLLOUT = 0 ∧ Z.land (event_mask r') EPOLLIN = 0 ∧
        stream_handler 0 s2 = (s3 ← finish_read cnt status s'; handler_out s3)
    end.
Proof.
  intros Ho Hst Hm Hn Hk Hr Hc. destruct (asio_stream_read_start s x r v b n cb a Ho Hst Hn) as (Hread & Ho1 & Hp1).
  set (x1 := start_read x b n cb a) in *. rewrite Hread. destruct k as [|k].
  - cbn [not_ready] in Hk. injection Hk as <-.
    destruct (try_read_completes _ x1 r v cb a b n w' res cnt status app' Ho1 Hp1 Hr Hc) as (s' & x' & H1 & H2 & H3 & H4 & H5 & _).
    exists s', x', r. done.
  - cbn [not_ready] in Hk. destruct (sock_read (fd x) n (sock s)) as [w1 [|e]] eqn:Er; [done|].
    destruct (e =? EAGAIN) eqn:Ee; [|done]. bool_prop. subst e.
    destruct (try_read_not_ready _ x1 r v cb a b n w1 Ho1 Hp1 Hm Er) as (s1 & x2 & r1 & Ht & Ho2 & Hp2 & Hw2 & Hf2 & Hs2 & Ha2).
    destruct (events_waiting k s1 x2 r1 v cb a b n w Ho2 Hp2 Hw2) as (s2 & x3 & r2 & Hev & Ho3 & Hp3 & Hw3 & Hf3 & Hs3 & Ha3).
    { rewrite Hf2, Hs2. exact Hk. }
    destruct (handler_waiting s2 x3 r2 v cb a b n Ho3 Hp3 Hw3) as (s3 & r3 & Hh & Ho4 & [He1 He2] & Hm4 & Hi4).
    destruct (try_read_completes s3 x3 r3 v cb a b n w' res cnt status app' Ho4 Hp3) as (s' & x' & H1 & H2 & H3 & H4 & H5 & _).
    { rewrite He1, Hf3, Hf2, Hs3. exact Hr. }
    { rewrite He2, Ha3, Ha2. exact Hc. }
    exists s', x', r3. split_and!; try done. exists s1, s2, x3, r2. split_and!; try done; [by rewrite Ha3, Ha2|].
    unfold stream_handler. by rewrite Hh, H1.
Qed.

(** A write that finds the socket not ready is never tried again: the stream arms
    the write event, but the event makes it try to read instead. If the socket has
    nothing to read either, the bytes stay unwritten with the write still marked active
    and one more read attempted; anything else to read runs into the missing read
    callback. *)
Theorem asio_stream_write_not_resumed s x r v b n bs cb a w :
  open_rep s x r v → write_state x = WRITE_STATE_IDLE → 0 < n → read_callback x = None →
  Z.land (event_mask r) EPOLLIN = 0 → epollin_postable ≠ epollout_postable →
  buf_load b n (the_app s) = Ret bs → sock_write (fd x) bs (sock s) = (w, WErr EAGAIN) →
  ∃ s1, asio_stream_write (Some b) n (Some cb) a s = Ret s1 ∧ the_app s1 = the_app s ∧ sock s1 = w ∧
    let '(w', res) := sock_read (fd x) (read_buffer_size x) w in
    if decide (res = RErr EAGAIN)
    then ∃ s2 x2, stream_handler 0 s1 = Ret s2 ∧ stream s2 = Some x2 ∧ sock s2 = w' ∧ the_app s2 = the_app s ∧
           write_state x2 = WRITE_STATE_ACTIVE ∧ write_buffer x2 = Some b ∧ write_callback x2 = Some cb
    else is_ret (stream_handler 0 s1) = false.
Proof.
  intros Ho Hst Hn Hrc Hm Hne Hload Hwr.
  set (x1 := mkAS (fd x) (read_state x) (read_buffer x) (read_buffer_size x) (read_callback x)
    (read_callback_arg x) WRITE_STATE_ACTIVE (Some b) n (Some cb) a).
  set (x2 := set_read x1 READ_STATE_EAGAIN (read_callback x1)).
  destruct (arm_write_ok (with_stream (with_sock (with_stream s (Some x1)) w) (Some x2)) x2 r v)
    as (s1 & r1 & Harm & Ho1 & [He1 He2] & Hg & Hmask).
  { apply (open_rep_stream (with_sock (with_stream s (Some x1)) w) x1 r v); [|done].
    apply open_rep_sock. by apply (open_rep_stream s x r v). }
  assert (asio_stream_write (Some b) n (Some cb) a s = Ret s1) as Hw.
  { unfold asio_stream_write. rewrite (or_stream _ _ _ _ Ho). cbn [deref]. rewrite bind_ret_l, Hst, Z.eqb_refl.
    rewrite bool_decide_true, (proj2 (Z.ltb_lt _ _)) by eauto. cbn [c_assert]. rewrite !bind_ret_l.
    fold x1. unfold try_write. cbn [with_stream stream deref]. rewrite bind_ret_l.
    change (write_buffer x1) with (Some b). change (write_buffer_size x1) with n. cbn [deref]. rewrite bind_ret_l.
    change (buf_load b n _) with (buf_load b n (the_app s)). rewrite Hload, bind_ret_l.
    change (sock_write _ _ _) with (sock_write (fd x) bs (sock s)). rewrite Hwr. exact Harm. }
  destruct (mask_arm_write _ Hm) as [Hin Hout]. rewrite <- Hmask in Hin, Hout.
  assert (stream_handler 0 s1 = try_read s1) as Hh.
  { unfold stream_handler, handler_in, handler_out. rewrite (or_rs _ _ _ _ Ho1). cbn [deref]. rewrite !bind_ret_l, Hin. cbn [negb].
    rewrite bind_ret_l, (or_rs _ _ _ _ Ho1). cbn [deref]. rewrite bind_ret_l, Hout, Hg. cbn [negb].
    unfold call_postable. rewrite decide_False, decide_True by done. unfold epollout_postable_cb.
    rewrite (or_stream _ _ _ _ Ho1). cbn [deref]. rewrite bind_ret_l. done. }
  exists s1. split_and!; [done|done|done|].
  pose proof (try_read_no_callback s1 x2 r1 v Ho1 Hrc) as Ht. change (fd x2) with (fd x) in Ht.
  change (read_buffer_size x2) with (read_buffer_size x) in Ht.
  replace (sock s1) with w in Ht by (by rewrite He1). destruct (sock_read _ _ _) as [w' res]. rewrite Hh.
  case_decide; [|done]. destruct Ht as (s2 & x3 & r3 & H1 & H2 & H3 & H4 & ->).
  eexists s2, _. split_and!; [done|by apply (or_stream _ _ _ _ H2)|done|by rewrite H4|done..].
Qed.
End AsioStream.

Arguments AsioStream : clear implicits.
Arguments RunloopStream : clear implicits.
Arguments sys : clear implicits.

(** ** Witnesses

    A socket that follows a script of read results and never takes a write; the buffers
    of the program are one list of bytes. *)

Definition ex_sock_read (f n : Z) (w : list read_result) : list read_result * read_result :=
  match w with [] => ([], RErr EAGAIN) | r :: w => (w, r) end.
Definition ex_sock_write (f : Z) (bs : list byte) (w : list read_result) : list read_result * write_result :=
  (w, WErr EAGAIN).
Abbreviation ex_sys := (sys (ref_loop nat nat nat) nat nat (list read_result) (list byte) unit unit unit).
Definition ex_stream : AsioStream nat unit unit unit :=
  mkAS 5 READ_STATE_IDLE None 1000000 None None WRITE_STATE_IDLE None 0 None None.
Definition ex_rs : RunloopStream nat nat := mkRS 5 0 None None None None.
Definition ex_open (w : list read_result) : ex_sys := mkSys (Some ex_stream) (Some ex_rs) (ref_start 5%nat) w [].
Definition ex_store (b : unit) (bs : list byte) (a : list byte) : outcome (list byte) := Ret bs.
Definition ex_load (b : unit) (n : Z) (a : list byte) : outcome (list byte) := Ret [x41; x42].
(** The callback records the byte count in the loop's posted functors. *)
Definition ex_call_read (c : unit) (a : option nat) (n st : Z) (s : ex_sys) : outcome ex_sys :=
  l ← post (Some (Z.to_nat n)) a (loop s); Ret (with_loop s l).

Lemma ex_open_rep w : open_rep 5%nat ref_view (ex_open w) ex_stream ex_rs (ref_start_view 5%nat).
Proof. by constructor. Qed.

(** Not ready, then two bytes: the event stores them and calls the callback. *)
Lemma asio_stream_read_delivers_witness :
  ∃ s' x' r', open_rep 5%nat ref_view s' x' r' (ref_start_view 5%nat) ∧
    pending x' () (Some 9%nat) () 100 ∧ sock s' = [] ∧ the_app s' = [x41; x42] ∧
    ∃ s1 s2 x2 r2, asio_stream_read 5%nat 9%nat 1%nat ex_sock_read ex_store ex_call_read (Some ()) 100 (Some ()) (Some 9%nat)
        (ex_open [RErr EAGAIN; RData [x41; x42]]) = Ret s1 ∧
      events 5%nat 9%nat 1%nat 2%nat ex_sock_read ex_store ex_call_read 0 s1 = Ret s2 ∧
      open_rep 5%nat ref_view s2 x2 r2 (ref_start_view 5%nat) ∧ waiting 1%nat x2 r2 ∧ the_app s2 = [] ∧
      Z.land (event_mask r') EPOLLOUT = 0 ∧ Z.land (event_mask r') EPOLLIN = 0 ∧
      stream_handler 5%nat 9%nat 1%nat 2%nat ex_sock_read ex_store ex_call_read 0 s2 =
        (s3 ← finish_read ex_call_read 2 0 s'; handler_out 5%nat 9%nat 1%nat 2%nat ex_sock_read ex_store ex_call_read s3).
Proof.
  eapply (asio_stream_read_delivers 5%nat 9%nat 1%nat 2%nat ex_sock_read ex_store ex_call_read ref_view
    (ex_open [RErr EAGAIN; RData [x41; x42]]) ex_stream ex_rs _ () 100 () (Some 9%nat) 1
    [RData [x41; x42]] [] (RData [x41; x42]) 2 0 [x41; x42]);
    [apply ex_open_rep|reflexivity..].
Defined.

(** A write of two bytes on a socket that is not ready; the event finds two bytes to
    read and no read callback. *)
Lemma asio_stream_write_not_resumed_witness :
  ∃ s1, asio_stream_write 5%nat 9%nat 2%nat ex_sock_write ex_load (fun _ _ _ _ s => Ret s) (Some ()) 2 (Some ()) (Some 9%nat)
      (ex_open [RData [x43]]) = Ret s1 ∧ the_app s1 = [] ∧ sock s1 = [RData [x43]] ∧
    is_ret (stream_handler 5%nat 9%nat 1%nat 2%nat ex_sock_read ex_store ex_call_read 0 s1) = false.
Proof.
  eapply (asio_stream_write_not_resumed 5%nat 9%nat 1%nat 2%nat ex_sock_read ex_sock_write ex_store ex_load ex_call_read
    (fun _ _ _ _ s => Ret s) ref_view (ex_open [RData [x43]]) ex_stream ex_rs _ () 2 [x41; x42] () (Some 9%nat) [RData [x43]]);
    [apply ex_open_rep|reflexivity|reflexivity|reflexivity|reflexivity|discriminate|reflexivity|reflexivity].
Defined.
