(* ===== verification/HttpConnection.v ===== *)
(** * HttpConnection: one client of the HTTP server (src/http_protocol/http_connection.c,
    http_handler.c, and the parts of http_server.c that open and close a client)

    The connection reads requests from its stream and writes responses to it; the handler
    turns requests into responses with the application's function. The connection, the
    handler and the stream are heap objects of one client, [None] once freed. Functions
    posted to the loop are named by [task], the objects given to them by [ptr]. *)

From S2P Require Import Prelude Cbuffer IOBuffer BufferChain HttpMessage HttpParser FunctorList FdTable Runloop Loop AsioStream.
Open Scope Z_scope.

Definition READ_STATE_IDLE : Z := 11.
Definition READ_STATE_ACTIVE : Z := 13.
Definition READ_STATE_STOP : Z := 14.
Definition WRITE_STATE_IDLE : Z := 21.
Definition WRITE_STATE_ACTIVE : Z := 23.
Definition WRITE_STATE_STOP : Z := 24.
Definition HttpConnectionErrCode_is_closed : Z := -31.

Inductive task :=
| T_epollin | T_epollout
| T_postable_writer | T_postable_write_call_cb
| T_postable_write_start | T_handler_postable_read_start.
#[global] Instance task_eq_dec : EqDecision task.
Proof. solve_decision. Defined.

Inductive ptr := P_stream | P_connection | P_handler.

(** The callbacks in use, and the buffers a stream is given. *)
Inductive read_cb := P_read_have_data_cb.
Inductive write_cb := P_writer_cb.
Inductive http_read_cb := P_on_new_message_handler.
Inductive http_write_cb := P_on_write_complete_cb.
Inductive cbuf := InputSpace | OutputData.

Section Http.
Context {L watcher W llhttp_t llhttp_errno_t : Type}.
Context `{!LoopOps L watcher task ptr, EqDecision llhttp_errno_t}.

(** llhttp and its names, as in [HttpParser] and [HttpMessage]. *)
Variable HPE_OK : llhttp_errno_t.
Variable errno_int : llhttp_errno_t → Z.
Variable llhttp_new : llhttp_t.
Variable llhttp_execute : llhttp_t → mem → llhttp_t * list event * llhttp_errno_t.
Variable llhttp_finish : llhttp_t → llhttp_t * list event * llhttp_errno_t.
Variable llhttp_message_needs_eof : llhttp_t → bool.
Variable llhttp_method_name : Z → list byte.
(** The socket and the watcher's address. *)
Variable self_rs : watcher.
Variable sock_read : Z → Z → W → W * read_result.
Variable sock_write : Z → list byte → W → W * write_result.
Variable set_non_blocking : Z → W → W.
(** The application: fills the response to a request. *)
Variable process_request : HttpMessage → HttpMessage → outcome HttpMessage.
(** The address of the handler, in the server's list. *)
Variable href : nat.

Record HttpConnection := mkConn {
  input_message_list : list HttpMessage;
  active_input_buffer : option IOBuffer;
  read_buffer_size : Z;
  active_output_buffer : option IOBuffer;
  parser : HttpMessageParser;
  ll : llhttp_t;
  c_read_state : Z;
  c_write_state : Z;
  on_read_cb : option http_read_cb;
  on_read_cb_arg : option ptr;
  on_write_cb : option http_write_cb;
  on_write_cb_arg : option ptr
}.

Record HttpHandler := mkHandler {
  output_list : list HttpMessage;
  active_response : option HttpMessage
}.

Record http_app := mkApp {
  conn : option HttpConnection;
  hdlr : option HttpHandler;
  handler_list : list nat
}.

Abbreviation state := (sys L task ptr W http_app cbuf read_cb write_cb).

Definition the_conn (s : state) : outcome HttpConnection := deref (conn (the_app s)).
Definition the_handler (s : state) : outcome HttpHandler := deref (hdlr (the_app s)).
Definition set_conn (s : state) (c : option HttpConnection) : state :=
  with_app s (mkApp c (hdlr (the_app s)) (handler_list (the_app s))).
Definition set_handler (s : state) (h : option HttpHandler) : state :=
  with_app s (mkApp (conn (the_app s)) h (handler_list (the_app s))).

(** Field updates of a connection. *)
Definition set_input (c : HttpConnection) (ms : list HttpMessage) (b : option IOBuffer) (st : Z) : HttpConnection :=
  mkConn ms b (read_buffer_size c) (active_output_buffer c) (parser c) (ll c) st (c_write_state c)
    (on_read_cb c) (on_read_cb_arg c) (on_write_cb c) (on_write_cb_arg c).
Definition set_output (c : HttpConnection) (b : option IOBuffer) (st : Z) : HttpConnection :=
  mkConn (input_message_list c) (active_input_buffer c) (read_buffer_size c) b (parser c) (ll c) (c_read_state c) st
    (on_read_cb c) (on_read_cb_arg c) (on_write_cb c) (on_write_cb_arg c).
Definition set_read_cb (c : HttpConnection) (cb : option http_read_cb) (a : option ptr) : HttpConnection :=
  mkConn (input_message_list c) (active_input_buffer c) (read_buffer_size c) (active_output_buffer c) (parser c) (ll c)
    (c_read_state c) (c_write_state c) cb a (on_write_cb c) (on_write_cb_arg c).
Definition set_write_cb (c : HttpConnection) (cb : option http_write_cb) (a : option ptr) : HttpConnection :=
  mkConn (input_message_list c) (active_input_buffer c) (read_buffer_size c) (active_output_buffer c) (parser c) (ll c)
    (c_read_state c) (c_write_state c) (on_read_cb c) (on_read_cb_arg c) cb a.
Definition set_parser (c : HttpConnection) (p : HttpMessageParser) (l : llhttp_t) (ms : list HttpMessage) : HttpConnection :=
  mkConn ms (active_input_buffer c) (read_buffer_size c) (active_output_buffer c) p l
    (c_read_state c) (c_write_state c) (on_read_cb c) (on_read_cb_arg c) (on_write_cb c) (on_write_cb_arg c).

(** The stream reads into the free space of the input buffer and writes the data of the
    output buffer; a buffer freed meanwhile is undefined to touch. *)
Definition buf_store (b : cbuf) (bs : list byte) (a : http_app) : outcome http_app :=
  c ← deref (conn a);
  match b with
  | InputSpace =>
      iob ← deref (active_input_buffer c);
      iob ← IOBuffer_fill iob (init bs);
      Ret (mkApp (Some (set_input c (input_message_list c) (Some iob) (c_read_state c))) (hdlr a) (handler_list a))
  | OutputData => Ub
  end.
Definition buf_load (b : cbuf) (n : Z) (a : http_app) : outcome (list byte) :=
  c ← deref (conn a);
  match b with
  | OutputData =>
      iob ← deref (active_output_buffer c);
      m ← mem_load (mem_p iob) (IOBuffer_data iob) n;
      deref (mapM id m)
  | InputSpace => Ub
  end.

Definition runloop_post_ (g : task) (a : ptr) (s : state) : outcome state :=
  l ← post (watcher := watcher) (Some g) (Some a) (loop s); Ret (with_loop s l).
Definition post_to_runloop (g : task) (s : state) : outcome state := runloop_post_ g P_connection s.

(** ** Closing *)

Fixpoint free_messages (ms : list HttpMessage) : outcome () :=
  match ms with [] => Ret () | m :: ms => _ ← http_message_free (Some m); free_messages ms end.

Definition free_buffer (b : option IOBuffer) : outcome () :=
  match b with Some iob => _ ← IOBuffer_free (Some iob); Ret () | None => Ret () end.

Definition http_connection_close (s : state) : outcome state :=
  _ ← the_conn s; asio_stream_close s.

Definition http_connection_free (s : state) : outcome state :=
  c ← the_conn s;
  fd ← asio_stream_get_fd s;
  let s := with_loop s (close_fd (watcher := watcher) (fn := task) (arg_t := ptr) fd (loop s)) in
  s ← asio_stream_free s;
  _ ← http_message_parser_free (Some (parser c));
  _ ← free_messages (input_message_list c);
  _ ← free_buffer (active_output_buffer c);
  _ ← free_buffer (active_input_buffer c);
  Ret (set_conn s None).

Definition http_handler_free (s : state) : outcome state :=
  h ← the_handler s;
  s ← http_connection_free s;
  c_assert (Zlen (output_list h) =? 0);;
  Ret (set_handler s None).

(** [List_find] and [List_itr_remove] take out the first entry found. *)
Fixpoint remove_first (p : nat) (l : list nat) : list nat :=
  match l with [] => [] | q :: l => if decide (p = q) then l else q :: remove_first p l end.

(** [on_handler_completion_cb] of http_server.c: out of the server's list, and freed. *)
Definition on_handler_completion_cb (s : state) : outcome state :=
  c_assert (bool_decide (href ∈ handler_list (the_app s)));;
  let a := the_app s in
  http_handler_free (with_app s (mkApp (conn a) (hdlr a) (remove_first href (handler_list a)))).

(** ** Requests (http_handler.c) *)

Definition on_new_message_handler (request : option HttpMessage) (error_code : Z) (s : state) : outcome state :=
  h ← the_handler s;
  if negb (error_code =? 0) then on_handler_completion_cb s
  else
    response ← http_message_new;
    req ← deref request;
    response ← process_request req response;
    _ ← http_message_free (Some req);
    let out := output_list h ++ [response] in
    let s := set_handler s (Some (mkHandler out (active_response h))) in
    if 1 <? Zlen out then AssertFail
    else if Zlen out =? 1 then runloop_post_ T_postable_write_start P_handler s
    else Ret s.

(** ** Reading (http_connection.c) *)

Definition call_on_read_cb (msg : option HttpMessage) (status : Z) (s : state) : outcome state :=
  c ← the_conn s;
  c_assert (bool_decide (is_Some (on_read_cb c)));;
  c_assert (bool_decide (is_Some (on_read_cb_arg c)));;
  on_new_message_handler msg status (set_conn s (Some (set_read_cb c None None))).

(** The parser hands complete messages to [on_parser_new_message_complete], which adds
    them to the input list. *)
Definition on_parser_new_message_complete (before after : HttpMessageParser) (ms : list HttpMessage) : list HttpMessage :=
  ms ++ drop (length (delivered before)) (delivered after).

Definition read_have_data_cb (bytes_available err_status : Z) (s : state) : outcome state :=
  c ← the_conn s;
  c_assert (bool_decide (is_Some (active_input_buffer c)));;
  iob ← deref (active_input_buffer c);
  if bytes_available =? 0 then call_on_read_cb None (-1) s
  else if bytes_available <? 0 then call_on_read_cb None (-2) s
  else
    iob ← IOBuffer_commit iob (s32 bytes_available);
    '(p, l, iob, en) ← http_message_parser_consume_buffer HPE_OK llhttp_execute llhttp_finish llhttp_message_needs_eof
                         (parser c) (ll c) iob;
    let ms := on_parser_new_message_complete (parser c) p (input_message_list c) in
    let c := set_parser c p l ms in
    c_assert (IOBuffer_data_len iob =? 0);;
    let c := set_input c ms None (c_read_state c) in
    if decide (en = HPE_OK) then
      match ms with
      | msg :: ms => call_on_read_cb (Some msg) 0 (set_conn s (Some (set_input c ms None READ_STATE_IDLE)))
      | [] => Ret (set_conn s (Some c))
      end
    else call_on_read_cb None (errno_int en) (set_conn s (Some c)).

Definition postable_call_on_read_cb (s : state) : outcome state :=
  c ← the_conn s;
  match input_message_list c with
  | [] => AssertFail
  | msg :: ms => call_on_read_cb (Some msg) 0 (set_conn s (Some (set_input c ms (active_input_buffer c) READ_STATE_IDLE)))
  end.

(** The stream's callback, as it sees it. *)
Definition call_read (cb : read_cb) (a : option ptr) (n st : Z) (s : state) : outcome state := read_have_data_cb n st s.

Definition http_connection_read (cb : option http_read_cb) (a : option ptr) (s : state) : outcome state :=
  c ← the_conn s;
  c_assert (bool_decide (is_Some cb));;
  c_assert (c_read_state c =? READ_STATE_IDLE);;
  c_assert (bool_decide (active_input_buffer c = None));;
  c_assert (bool_decide (on_read_cb c = None));;
  c_assert (bool_decide (on_read_cb_arg c = None));;
  let c := set_read_cb c cb a in
  match input_message_list c with
  | msg :: (m2 :: ms) => call_on_read_cb (Some msg) 0 (set_conn s (Some (set_input c (m2 :: ms) None (c_read_state c))))
  | [msg] => call_on_read_cb (Some msg) 0 (set_conn s (Some (set_input c [] None READ_STATE_ACTIVE)))
  | [] =>
      iob ← IOBuffer_new_with_capacity (s32 (read_buffer_size c));
      c_assert (IOBuffer_data_len iob =? 0);;
      let s := set_conn s (Some (set_input c [] (Some iob) READ_STATE_ACTIVE)) in
      asio_stream_read self_rs P_stream T_epollin sock_read buf_store call_read
        (Some InputSpace) (IOBuffer_space_len iob) (Some P_read_have_data_cb) (Some P_connection) s
  end.

(** ** Writing *)

Definition on_write_complete_cb (s : state) : outcome state :=
  h ← the_handler s;
  _ ← http_message_free (active_response h);
  let s := set_handler s (Some (mkHandler (output_list h) None)) in
  if 1 <=? Zlen (output_list h) then runloop_post_ T_postable_write_start P_handler s
  else runloop_post_ T_handler_postable_read_start P_handler s.

Definition call_on_write_cb (status : Z) (s : state) : outcome state :=
  c ← the_conn s;
  c_assert (bool_decide (is_Some (on_write_cb c)));;
  c_assert (bool_decide (is_Some (on_write_cb_arg c)));;
  on_write_complete_cb (set_conn s (Some (set_write_cb c None None))).

Definition http_connection_write (response : option HttpMessage) (cb : option http_write_cb) (a : option ptr) (s : state) :
    outcome state :=
  c ← the_conn s;
  c_assert (bool_decide (is_Some response));;
  c_assert (bool_decide (is_Some cb));;
  c_assert (c_write_state c =? WRITE_STATE_IDLE);;
  c_assert (bool_decide (on_write_cb c = None));;
  c_assert (bool_decide (active_output_buffer c = None));;
  resp ← deref response;
  iob ← http_message_serialize llhttp_method_name resp;
  let c := set_output (set_write_cb c cb a) (Some iob) WRITE_STATE_ACTIVE in
  let s := set_conn s (Some c) in
  if c_write_state c =? WRITE_STATE_STOP then call_on_write_cb HttpConnectionErrCode_is_closed s
  else post_to_runloop T_postable_writer s.

Definition writer_cb (bytes_written status : Z) (s : state) : outcome state :=
  c ← the_conn s;
  c_assert (bool_decide (is_Some (active_output_buffer c)));;
  iob ← deref (active_output_buffer c);
  c_assert (0 <? bytes_written);;
  iob ← IOBuffer_consume iob (s32 bytes_written);
  if 0 <? IOBuffer_data_len iob
  then runloop_post_ T_postable_writer P_connection (set_conn s (Some (set_output c (Some iob) (c_write_state c))))
  else post_to_runloop T_postable_write_call_cb (set_conn s (Some (set_output c None (c_write_state c)))).
Definition call_write (cb : write_cb) (a : option ptr) (n st : Z) (s : state) : outcome state := writer_cb n st s.

Definition postable_writer (s : state) : outcome state :=
  c ← the_conn s;
  if c_write_state c =? WRITE_STATE_STOP then
    _ ← IOBuffer_free (active_output_buffer c);
    call_on_write_cb HttpConnectionErrCode_is_closed (set_conn s (Some (set_output c None (c_write_state c))))
  else
    c_assert (bool_decide (is_Some (active_output_buffer c)));;
    c_assert (c_write_state c =? WRITE_STATE_IDLE);;
    iob ← deref (active_output_buffer c);
    asio_stream_write self_rs P_stream T_epollout sock_write buf_load call_write
      (Some OutputData) (IOBuffer_data_len iob) (Some P_writer_cb) (Some P_connection) s.

Definition postable_write_call_cb (s : state) : outcome state := call_on_write_cb 0 s.

Definition postable_write_start (s : state) : outcome state :=
  h ← the_handler s;
  match active_response h with
  | Some _ => Ret s
  | None =>
      match output_list h with
      | [] => Ret s
      | response :: out =>
          http_connection_write (Some response) (Some P_on_write_complete_cb) (Some P_handler)
            (set_handler s (Some (mkHandler out (Some response))))
      end
  end.

Definition handler_postable_read_start (s : state) : outcome state :=
  _ ← the_handler s;
  http_connection_read (Some P_on_new_message_handler) (Some P_handler) s.

(** ** Opening *)

Definition http_connection_init (socket : Z) (s : state) : outcome state :=
  s ← asio_stream_new self_rs set_non_blocking socket s;
  p ← http_message_parser_new;
  Ret (set_conn s (Some (mkConn [] None 1000 None p llhttp_new READ_STATE_IDLE WRITE_STATE_IDLE None None None None))).
Definition http_connection_new (socket : Z) (s : state) : outcome state := http_connection_init socket s.

Definition http_handler_init (socket : Z) (s : state) : outcome state :=
  s ← http_connection_new socket s;
  http_connection_read (Some P_on_new_message_handler) (Some P_handler) (set_handler s (Some (mkHandler [] None))).
Definition http_handler_new (socket : Z) (s : state) : outcome state := http_handler_init socket s.

(** [on_event_listening] of http_server.c, after accept. *)
Definition on_event_listening (sock2 : Z) (s : state) : outcome state :=
  s ← http_handler_new sock2 s;
  let a := the_app s in
  Ret (with_app s (mkApp (conn a) (hdlr a) (handler_list a ++ [href]))).

(** A posted function is called by the loop. *)
Definition run_task (t : task) (s : state) : outcome state :=
  match t with
  | T_epollin => epollin_postable_cb self_rs P_stream T_epollin sock_read buf_store call_read s
  | T_epollout => epollout_postable_cb self_rs P_stream T_epollin sock_read buf_store call_read s
  | T_postable_writer => postable_writer s
  | T_postable_write_call_cb => postable_write_call_cb s
  | T_postable_write_start => postable_write_start s
  | T_handler_postable_read_start => handler_postable_read_start s
  end.

(** ** Representation *)

Variable loop_view : L → view watcher task ptr → Prop.
Context `{!LoopLaws L watcher task ptr loop_view}.

Abbreviation open_stream := (open_rep (app := http_app) (buf := cbuf) (rcb := read_cb) (wcb := write_cb) self_rs loop_view).
Abbreviation hread := (http_connection_read (Some P_on_new_message_handler) (Some P_handler)).

(** An open client whose connection [c] is between reads. *)
Record between_reads (s : state) (x : AsioStream ptr cbuf read_cb write_cb) (r : RunloopStream task ptr)
    (v : view watcher task ptr) (c : HttpConnection) (h : HttpHandler) : Prop := {
  br_open : open_stream s x r v;
  br_idle : AsioStream.read_state x = AsioStream.READ_STATE_IDLE;
  br_conn : conn (the_app s) = Some c;
  br_handler : hdlr (the_app s) = Some h;
  br_state : c_read_state c = READ_STATE_IDLE;
  br_input : active_input_buffer c = None;
  br_cb : on_read_cb c = None ∧ on_read_cb_arg c = None;
  br_size : read_buffer_size c = 1000
}.

(** ** Lemmas *)

(** What remains to do in the stream when a read callback returns. *)
Definition after_callback (s : state) : outcome state :=
  x ← deref (stream s);
  Ret (with_stream s (Some (set_read x (AsioStream.read_state x) None))).

Lemma after_callback_ok s x :
  stream s = Some x →
  after_callback s = Ret (with_stream s (Some (set_read x (AsioStream.read_state x) None))).
Proof. intros Hs. unfold after_callback. by rewrite Hs. Qed.

(** The connection while a read is under way, [iob] holding what was read. *)
Definition reading (c : HttpConnection) (iob : IOBuffer) : HttpConnection :=
  set_input (set_read_cb c (Some P_on_new_message_handler) (Some P_handler)) [] (Some iob) READ_STATE_ACTIVE.

(** A read asks the stream for bytes in a new buffer. *)
Lemma hread_asks s x r v c h :
  between_reads s x r v c h → input_message_list c = [] →
  let s0 := set_conn s (Some (reading c (iob_at0 (malloc_block 1001) 1000 0))) in
  hread s = asio_stream_read self_rs P_stream T_epollin sock_read buf_store call_read
      (Some InputSpace) 1000 (Some P_read_have_data_cb) (Some P_connection) s0 ∧ open_stream s0 x r v.
Proof.
  intros [Ho Hidle Hc Hh Hst Hin [Hcb Hca] Hsz] Hl s0. split; [|destruct Ho; by constructor].
  unfold http_connection_read, the_conn. rewrite Hc. cbn [deref]. rewrite bind_ret_l, Hst, Hin, Hcb, Hca.
  rewrite !bool_decide_true by eauto. cbn [c_assert Z.eqb READ_STATE_IDLE Pos.eqb]. rewrite !bind_ret_l.
  cbn [set_read_cb input_message_list read_buffer_size]. rewrite Hl, Hsz.
  change (s32 1000) with 1000. rewrite new_with_capacity_ok by (unfold INT_MAX; lia). rewrite !bind_ret_l. done.
Qed.

Lemma read_calls_back s x r v c h w res cnt status iob :
  between_reads s x r v c h → input_message_list c = [] → sock_read (fd x) 1000 (sock s) = (w, res) →
  (∀ bs, res = RData bs → bs ≠ [] →
     cnt = Zlen bs ∧ status = 0 ∧ IOBuffer_fill (iob_at0 (malloc_block 1001) 1000 0) (init bs) = Ret iob) →
  (res = RData [] → cnt = 0 ∧ status = 0 ∧ iob = iob_at0 (malloc_block 1001) 1000 0) →
  (∀ e, res ≠ RErr e) →
  ∃ s1 x1, hread s = (s2 ← read_have_data_cb cnt status s1; after_callback s2) ∧
    open_stream s1 x1 r v ∧ sock s1 = w ∧ (0 < cnt → AsioStream.read_state x1 = AsioStream.READ_STATE_IDLE) ∧
    the_app s1 = mkApp (Some (reading c iob)) (Some h) (handler_list (the_app s)).
Proof.
  intros Hb Hl Hr Hdata Heof Herr. destruct (hread_asks s x r v c h Hb Hl) as [Hread Ho0].
  destruct Hb as [Ho Hidle Hc Hh Hst Hin [Hcb Hca] Hsz]. set (iob0 := iob_at0 (malloc_block 1001) 1000 0) in *.
  set (s0 := set_conn s (Some (reading c iob0))) in *.
  destruct (asio_stream_read_now self_rs P_stream T_epollin sock_read buf_store call_read loop_view s0 x r v
    InputSpace 1000 P_read_have_data_cb (Some P_connection) w res cnt status
    (mkApp (Some (reading c iob)) (Some h) (handler_list (the_app s))) Ho0 Hidle)
    as (s1 & x1 & H1 & H2 & (Hp1 & Hp2 & _) & H4 & H5 & H6); [lia|exact Hr| |].
  { cbn [s0 set_conn with_app the_app]. rewrite Hh. destruct res as [[|y bs]|e]; cbn [completes].
    - destruct (Heof eq_refl) as (-> & -> & ->). done.
    - destruct (Hdata _ eq_refl) as (-> & -> & Hf); [done|]. unfold buf_store. cbn [conn deref]. rewrite bind_ret_l.
      cbn [reading set_input active_input_buffer deref]. rewrite bind_ret_l. fold iob0. rewrite Hf. done.
    - by destruct (Herr e). }
  exists s1, x1. rewrite Hread, H1. split_and!; try done.
  unfold finish_read. rewrite (or_stream _ _ _ _ _ _ H2). cbn [deref]. rewrite bind_ret_l, Hp1. done.
Qed.

(** Bytes of the socket in a new input buffer. *)
Lemma fill_commit_fresh bs :
  (0 < length bs)%nat → Zlen bs ≤ 1000 →
  ∃ iob iob', IOBuffer_fill (iob_at0 (malloc_block 1001) 1000 0) (init bs) = Ret iob ∧
    IOBuffer_commit iob (Zlen bs) = Ret iob' ∧ iob_ok iob' ∧ iob_data iob' = init bs ∧ IOBuffer_data_len iob' = Zlen bs.
Proof.
  intros Hpos Hlen. pose proof (new_iob_ok 1000 ltac:(unfold INT_MAX; lia)) as Hok.
  change (1000 + 1) with 1001 in Hok. set (b := iob_at0 _ _ _) in *. unfold Zlen in *. rewrite <- msize_init in *.
  destruct (fill_commit_ok b (init bs) Hok) as (b' & He & Hok' & Hd & _ & _ & Hr & _); [unfold msize, init; rewrite length_fmap; lia| |].
  { rewrite space_len_ok by done. cbn. lia. }
  destruct (IOBuffer_fill b (init bs)) as [iob| |]; [|done..]. exists iob, b'. split_and!; done.
Qed.

(** The connection after the parser has been fed. *)
Definition parsed (c : HttpConnection) (p : HttpMessageParser) (l : llhttp_t) (ms : list HttpMessage) : HttpConnection :=
  set_input (set_parser c p l ms) ms None READ_STATE_ACTIVE.

(** The callback of the stream on bytes the parser accepts or rejects. *)
Lemma read_have_data_ok s1 c iob iob' bs ll' es e p' :
  conn (the_app s1) = Some (reading c iob) → (0 < length bs)%nat → Zlen bs ≤ 1000 →
  IOBuffer_commit iob (Zlen bs) = Ret iob' → iob_ok iob' → iob_data iob' = init bs → IOBuffer_data_len iob' = Zlen bs →
  llhttp_execute (ll c) (init bs) = (ll', es, e) → run_events (parser c) es = Ret p' →
  let ms := drop (length (delivered (parser c))) (delivered p') in
  let c1 := parsed (reading c iob) p' ll' ms in
  read_have_data_cb (Zlen bs) 0 s1 =
    if decide (e = HPE_OK) then
      match ms with
      | m :: ms => call_on_read_cb (Some m) 0 (set_conn s1 (Some (set_input c1 ms None READ_STATE_IDLE)))
      | [] => Ret (set_conn s1 (Some c1))
      end
    else AssertFail.
Proof.
  intros Hc Hpos Hlen Hcommit Hok Hd Hdl Hex Hrun ms c1.
  unfold read_have_data_cb, the_conn. rewrite Hc. cbn [deref]. rewrite bind_ret_l.
  cbn [reading set_input active_input_buffer]. rewrite bool_decide_true by eauto. cbn [c_assert deref]. rewrite !bind_ret_l.
  assert ((Zlen bs =? 0) = false) as -> by (unfold Zlen; bool_prop; lia).
  assert ((Zlen bs <? 0) = false) as -> by (unfold Zlen; bool_prop; lia).
  rewrite s32_small by (unfold INT_MIN, INT_MAX, Zlen in *; lia). rewrite Hcommit, bind_ret_l.
  cbn [reading set_read_cb set_input parser ll input_message_list].
  destruct (consume_buffer_ok HPE_OK llhttp_execute llhttp_finish llhttp_message_needs_eof (parser c) p' (ll c) ll' es e iob' Hok)
    as (iob2 & -> & Hyes & Hno); [unfold Zlen in *; lia|by rewrite Hd|done|]. rewrite bind_ret_l.
  destruct (decide (e = HPE_OK)) as [->|He].
  - destruct (Hyes eq_refl) as [Hl0 _]. rewrite Hl0. cbn [c_assert Z.eqb]. rewrite bind_ret_l. done.
  - rewrite (Hno He), Hdl. rewrite assert_false; [done|]. unfold Zlen. bool_prop. lia.
Qed.

Lemma free_cbuffers p : ∃ q, http_message_parser_free (Some p) = Ret q.
Proof. eexists. reflexivity. Qed.

(** The completion callback frees the whole client. *)
Lemma completion_frees s x r v c h :
  open_stream s x r v → conn (the_app s) = Some c → hdlr (the_app s) = Some h →
  input_message_list c = [] → output_list h = [] → 0 < fd x → href ∈ handler_list (the_app s) →
  ∃ s', on_handler_completion_cb s = Ret s' ∧ stream s' = None.
Proof.
  intros Ho Hc Hh Hl Hout Hfd Hin. unfold on_handler_completion_cb. rewrite bool_decide_true by done. cbn [c_assert].
  rewrite bind_ret_l. destruct Ho as [Hx Hr Hfds Hok Hv Hw Ha].
  set (s0 := with_app s _). set (s1 := with_loop s0 (close_fd (watcher := watcher) (fn := task) (arg_t := ptr) (fd x) (loop s0))).
  assert (loop_view (loop s1) (mkView (posted v) (watched v) (delete (fd x) (<[fd x := u32 (event_mask r)]> (armed v))))) as Hv1
    by exact (close_law (loop s) _ (fd x) Hv).
  destruct (asio_stream_free_ok self_rs loop_view s1 x r _ Hx Hr Hfds Hok Hv1 Hw Hfd)
    as (s2 & Hs2 & Hf2 & _ & Ha2 & _).
  assert (http_connection_free s0 = Ret (set_conn s2 None)) as Hfree.
  { unfold http_connection_free, the_conn. change (conn (the_app s0)) with (conn (the_app s)). rewrite Hc. cbn [deref].
    rewrite bind_ret_l. unfold asio_stream_get_fd, runloop_stream_get_fd. change (stream s0) with (stream s).
    change (rstream s0) with (rstream s). rewrite Hx, Hr. cbn [deref]. rewrite !bind_ret_l, <- Hfds. fold s1.
    rewrite Hs2, bind_ret_l, Hl. destruct (free_cbuffers (parser c)) as [q ->]. rewrite bind_ret_l. cbn [free_messages].
    rewrite bind_ret_l. by destruct (active_output_buffer c), (active_input_buffer c). }
  exists (set_handler (set_conn s2 None) None). split; [|done].
  unfold http_handler_free, the_handler. change (hdlr (the_app s0)) with (hdlr (the_app s)). rewrite Hh. cbn [deref].
  rewrite bind_ret_l, Hfree, bind_ret_l, Hout. done.
Qed.

(** ** Properties *)

(** C10: A request is dispatched: when the socket gives bytes that complete at least one
    message, the read hands the first message to the application's function, queues its
    response and posts the start of the write; the input buffer is released, the other
    messages wait in the input list, and the connection is ready for the next read. *)
Theorem http_request_dispatched s x r v c h bs w ll' es p' m rest resp0 resp :
  between_reads s x r v c h → input_message_list c = [] → sock_read (fd x) 1000 (sock s) = (w, RData bs) →
  (0 < length bs)%nat → Zlen bs ≤ 1000 →
  llhttp_execute (ll c) (init bs) = (ll', es, HPE_OK) → run_events (parser c) es = Ret p' →
  drop (length (delivered (parser c))) (delivered p') = m :: rest →
  http_message_new = Ret resp0 → process_request m resp0 = Ret resp → http_message_free (Some m) = Ret None →
  output_list h = [] → Zlen (posted v) < 2047 →
  ∃ s' x' c', hread s = Ret s' ∧ input_message_list c' = rest ∧
    between_reads s' x' r (mkView (posted v ++ [(T_postable_write_start, P_handler)]) (watched v) (armed v)) c'
      (mkHandler [resp] (active_response h)).
Proof.
  intros Hb Hl Hr Hpos Hlen Hex Hrun Hms Hnew Hproc Hfree Hout Hpost.
  destruct (fill_commit_fresh bs Hpos Hlen) as (iob & iob' & Hf & Hcm & Hok & Hd & Hdl).
  destruct (read_calls_back s x r v c h w (RData bs) (Zlen bs) 0 iob Hb Hl Hr) as (s1 & x1 & -> & Ho1 & Hs1 & Hi1 & Ha1).
  { by intros bs' [= ->]. } { intros [= ->]. cbn in Hpos. lia. } { done. }
  rewrite (read_have_data_ok s1 c iob iob' bs ll' es HPE_OK p') by (try done; by rewrite Ha1). cbn zeta.
  rewrite decide_True, Hms by done.
  unfold call_on_read_cb, the_conn. cbn [set_conn with_app the_app conn deref]. rewrite bind_ret_l.
  cbn [set_input parsed set_parser reading set_read_cb on_read_cb on_read_cb_arg].
  rewrite !bool_decide_true by eauto. cbn [c_assert]. rewrite !bind_ret_l.
  unfold on_new_message_handler, the_handler. cbn [set_conn with_app the_app hdlr]. rewrite Ha1. cbn [hdlr deref].
  rewrite bind_ret_l. cbn [negb Z.eqb]. rewrite Hnew, bind_ret_l. cbn [deref]. rewrite bind_ret_l, Hproc, bind_ret_l, Hfree, bind_ret_l, Hout.
  cbn [app]. change (1 <? Zlen [resp]) with false. change (Zlen [resp] =? 1) with true. cbn iota.
  unfold runloop_post_. cbn [set_handler set_conn with_app loop].
  destruct (post_law (loop s1) (masked (fd x1) (event_mask r) v) T_postable_write_start P_handler (or_loop _ _ _ _ _ _ Ho1) Hpost) as (l' & -> & Hl').
  rewrite !bind_ret_l, (after_callback_ok _ x1) by apply (or_stream _ _ _ _ _ _ Ho1).
  eexists _, _, _. split; [done|]. split; [|].
  2: { pose proof (br_size _ _ _ _ _ _ Hb). destruct Ho1. constructor; cbn; try done.
       apply Hi1. unfold Zlen. lia. }
  done.
Qed.

(** A request that does not come in one piece stalls its connection: when the socket
    gives bytes that the parser accepts but that complete no message, the read returns
    with nothing posted to the loop, no event armed and the stream without a callback,
    while the connection is still marked as reading and its callback never called; a
    new read aborts. *)
Theorem http_partial_message_stalls s x r v c h bs w ll' es p' :
  between_reads s x r v c h → input_message_list c = [] → sock_read (fd x) 1000 (sock s) = (w, RData bs) →
  (0 < length bs)%nat → Zlen bs ≤ 1000 →
  llhttp_execute (ll c) (init bs) = (ll', es, HPE_OK) → run_events (parser c) es = Ret p' →
  delivered p' = delivered (parser c) →
  ∃ s' x' c', hread s = Ret s' ∧ open_stream s' x' r v ∧ conn (the_app s') = Some c' ∧ hdlr (the_app s') = Some h ∧
    AsioStream.read_callback x' = None ∧ c_read_state c' = READ_STATE_ACTIVE ∧
    on_read_cb c' = Some P_on_new_message_handler ∧ hread s' = AssertFail.
Proof.
  intros Hb Hl Hr Hpos Hlen Hex Hrun Hdel.
  destruct (fill_commit_fresh bs Hpos Hlen) as (iob & iob' & Hf & Hcm & Hok & Hd & Hdl).
  destruct (read_calls_back s x r v c h w (RData bs) (Zlen bs) 0 iob Hb Hl Hr) as (s1 & x1 & -> & Ho1 & Hs1 & Hi1 & Ha1).
  { by intros bs' [= ->]. } { intros [= ->]. cbn in Hpos. lia. } { done. }
  rewrite (read_have_data_ok s1 c iob iob' bs ll' es HPE_OK p') by (try done; by rewrite Ha1). cbn zeta.
  rewrite decide_True, Hdel, drop_all, bind_ret_l, (after_callback_ok _ x1) by (try done; apply (or_stream _ _ _ _ _ _ Ho1)).
  eexists _, (set_read x1 (AsioStream.read_state x1) None), _. split; [done|]. split; [|split; [done|]].
  - destruct Ho1. by constructor.
  - split; [cbn; by rewrite Ha1|]. done.
Qed.

(** A malformed request aborts the server: when the parser rejects what the socket
    gave, the input buffer still holds it and the check that the buffer was consumed
    fails, before the error can be reported to the handler. *)
Theorem http_parse_error_aborts s x r v c h bs w ll' es e p' :
  between_reads s x r v c h → input_message_list c = [] → sock_read (fd x) 1000 (sock s) = (w, RData bs) →
  (0 < length bs)%nat → Zlen bs ≤ 1000 →
  llhttp_execute (ll c) (init bs) = (ll', es, e) → run_events (parser c) es = Ret p' → e ≠ HPE_OK →
  hread s = AssertFail.
Proof.
  intros Hb Hl Hr Hpos Hlen Hex Hrun He.
  destruct (fill_commit_fresh bs Hpos Hlen) as (iob & iob' & Hf & Hcm & Hok & Hd & Hdl).
  destruct (read_calls_back s x r v c h w (RData bs) (Zlen bs) 0 iob Hb Hl Hr) as (s1 & x1 & -> & Ho1 & Hs1 & Hi1 & Ha1).
  { by intros bs' [= ->]. } { intros [= ->]. cbn in Hpos. lia. } { done. }
  rewrite (read_have_data_ok s1 c iob iob' bs ll' es e p') by (try done; by rewrite Ha1). cbn zeta.
  by rewrite decide_False.
Qed.

(** A client that closes its side makes the server touch freed memory: the read
    reports the end of the file, the handler, its connection and its stream are freed,
    and back in the stream the code still clears the callback of the freed stream. *)
Theorem http_client_close_use_after_free s x r v c h w :
  between_reads s x r v c h → input_message_list c = [] → sock_read (fd x) 1000 (sock s) = (w, RData []) →
  href ∈ handler_list (the_app s) → output_list h = [] → 0 < fd x →
  hread s = Ub.
Proof.
  intros Hb Hl Hr Hin Hout Hfd.
  destruct (read_calls_back s x r v c h w (RData []) 0 0 (iob_at0 (malloc_block 1001) 1000 0) Hb Hl Hr)
    as (s1 & x1 & -> & Ho1 & Hs1 & Hi1 & Ha1); [by intros ? [= <-]|done|done|].
  unfold read_have_data_cb, the_conn. rewrite Ha1. cbn [conn deref]. rewrite bind_ret_l.
  cbn [reading set_input active_input_buffer]. rewrite bool_decide_true by eauto. cbn [c_assert deref Z.eqb]. rewrite !bind_ret_l.
  destruct (completion_frees (set_conn s1 (Some (set_read_cb (reading c (iob_at0 (malloc_block 1001) 1000 0)) None None)))
    x1 r v (set_read_cb (reading c (iob_at0 (malloc_block 1001) 1000 0)) None None) h) as (s2 & Hs2 & Hf2); try done.
  { destruct Ho1. by constructor. } { cbn. by rewrite Ha1. }
  { by rewrite (or_fd _ _ _ _ _ _ Ho1), <- (or_fd _ _ _ _ _ _ (br_open _ _ _ _ _ _ Hb)). } { cbn. by rewrite Ha1. }
  unfold call_on_read_cb, the_conn. rewrite Ha1. cbn [conn deref]. rewrite bind_ret_l.
  cbn [reading set_input set_read_cb on_read_cb on_read_cb_arg].
  rewrite !bool_decide_true by eauto. cbn [c_assert]. rewrite !bind_ret_l.
  unfold on_new_message_handler, the_handler. cbn [set_conn with_app the_app hdlr]. rewrite Ha1. cbn [hdlr deref].
  rewrite bind_ret_l. cbn [negb Z.eqb]. fold (set_conn s1). rewrite Hs2, bind_ret_l. unfold after_callback. by rewrite Hf2.
Qed.

(** C39: No response is ever written: starting the write of a response serialises it and
    posts the writer, and the writer aborts, because the connection is already marked
    as writing. *)
Theorem http_response_aborts s v c resp rest iob :
  loop_view (loop s) v → Zlen (posted v) < 2047 →
  conn (the_app s) = Some c → hdlr (the_app s) = Some (mkHandler (resp :: rest) None) →
  c_write_state c = WRITE_STATE_IDLE → on_write_cb c = None → active_output_buffer c = None →
  http_message_serialize llhttp_method_name resp = Ret iob →
  ∃ s', run_task T_postable_write_start s = Ret s' ∧
    loop_view (loop s') (mkView (posted v ++ [(T_postable_writer, P_connection)]) (watched v) (armed v)) ∧
    run_task T_postable_writer s' = AssertFail.
Proof.
  intros Hv Hlen Hc Hh Hst Hcb Hob Hser. cbn [run_task]. unfold postable_write_start, the_handler. rewrite Hh.
  cbn [deref]. rewrite bind_ret_l. cbn [active_response output_list].
  unfold http_connection_write, the_conn. cbn [set_handler with_app the_app conn]. rewrite Hc. cbn [deref]. rewrite bind_ret_l.
  rewrite Hst, Hcb, Hob, !bool_decide_true by eauto. cbn [c_assert Z.eqb WRITE_STATE_IDLE Pos.eqb]. rewrite !bind_ret_l.
  rewrite Hser, bind_ret_l. cbn [set_output set_write_cb c_write_state].
  change (WRITE_STATE_ACTIVE =? WRITE_STATE_STOP) with false. cbn iota.
  unfold post_to_runloop, runloop_post_. cbn [set_conn set_handler with_app loop].
  destruct (post_law (loop s) v T_postable_writer P_connection Hv Hlen) as (l' & -> & Hl'). rewrite bind_ret_l.
  eexists. split; [done|]. split; [exact Hl'|]. done.
Qed.
End Http.

(** ** Witnesses

    A scripted socket; an llhttp that finds in any bytes beginning with G a whole
    request, accepts those beginning with P as part of one, and rejects the rest. *)

Definition get_or {A} (d : A) (o : outcome A) : A := match o with Ret a => a | _ => d end.
Definition ex_cb : Cbuffer := mkCbuffer [] 0 0 0 common_strategy.
Definition ex_parser : HttpMessageParser :=
  get_or (mkParser false None 0 ex_cb ex_cb ex_cb ex_cb []) http_message_parser_new.
Definition ex_llhttp (l : unit) (m : mem) : unit * list event * Z :=
  match m with
  | Some x47 :: _ => (l, events_of ex_request, 0)
  | Some x50 :: _ => (l, [on_message_begin; on_url (bytes "/a")], 0)
  | _ => (l, [], 1)
  end.
Definition ex_after (m : mem) : HttpMessageParser := get_or ex_parser (run_events ex_parser (snd (fst (ex_llhttp () m)))).
Definition ex_message (r : rmsg) : HttpMessage :=
  match delivered (get_or ex_parser (run_events ex_parser (events_of r))) with
  | m :: _ => m
  | [] => mkMsg None HdrList_new 1 1 None None None None None
  end.
Definition ex_response_to (req resp : HttpMessage) : outcome HttpMessage := Ret (ex_message ex_response).

Definition ex_conn : HttpConnection (llhttp_t := unit) :=
  mkConn [] None 1000 None ex_parser () READ_STATE_IDLE WRITE_STATE_IDLE None None None None.
Abbreviation ex_state := (sys (ref_loop nat task ptr) task ptr (list read_result) (http_app (llhttp_t := unit)) cbuf read_cb write_cb).
Definition ex_stream : AsioStream ptr cbuf read_cb write_cb :=
  mkAS 5 AsioStream.READ_STATE_IDLE None 1000000 None None AsioStream.WRITE_STATE_IDLE None 0 None None.
Definition ex_rs : RunloopStream task ptr := mkRS 5 0 None None None None.
Definition ex_client (out : list HttpMessage) (w : list read_result) : ex_state :=
  mkSys (Some ex_stream) (Some ex_rs) (ref_start 5%nat) w (mkApp (Some ex_conn) (Some (mkHandler out None)) [1%nat]).
Definition ex_read (w : list read_result) : outcome ex_state :=
  http_connection_read 0 id ex_llhttp (fun l => (l, [], 0)) (fun _ => false) 5%nat ex_sock_read ex_response_to 1%nat
    (Some P_on_new_message_handler) (Some P_handler) (ex_client [] w).

Lemma ex_between w :
  between_reads 5%nat ref_view (ex_client [] w) ex_stream ex_rs (ref_start_view 5%nat) ex_conn (mkHandler [] None).
Proof. by constructor. Qed.

Lemma http_request_dispatched_witness :
  ∃ s' x' c', ex_read [RData (bytes "GET")] = Ret s' ∧ input_message_list c' = [] ∧
    between_reads 5%nat ref_view s' x' ex_rs
      (mkView [(T_postable_write_start, P_handler)] {[5 := 5%nat]} {[5 := 0]}) c'
      (mkHandler [ex_message ex_response] None).
Proof.
  eapply (http_request_dispatched 0 id ex_llhttp (fun l => (l, [], 0)) (fun _ => false) 5%nat ex_sock_read ex_response_to
    1%nat ref_view (ex_client [] [RData (bytes "GET")]) ex_stream ex_rs (ref_start_view 5%nat) ex_conn (mkHandler [] None)
    (bytes "GET") [] () _ (ex_after (init (bytes "GET"))) (ex_message ex_request) []
    (get_or (ex_message ex_request) http_message_new));
    [apply ex_between|vm_compute; try reflexivity; try lia; try discriminate..].
Defined.

Lemma http_partial_message_stalls_witness :
  ∃ s' x' c', ex_read [RData (bytes "P")] = Ret s' ∧
    open_rep 5%nat ref_view s' x' ex_rs (ref_start_view 5%nat) ∧ conn (the_app s') = Some c' ∧
    hdlr (the_app s') = Some (mkHandler [] None) ∧
    AsioStream.read_callback x' = None ∧ c_read_state c' = READ_STATE_ACTIVE ∧
    on_read_cb c' = Some P_on_new_message_handler ∧
    http_connection_read 0 id ex_llhttp (fun l => (l, [], 0)) (fun _ => false) 5%nat ex_sock_read ex_response_to 1%nat
      (Some P_on_new_message_handler) (Some P_handler) s' = AssertFail.
Proof.
  eapply (http_partial_message_stalls 0 id ex_llhttp (fun l => (l, [], 0)) (fun _ => false) 5%nat ex_sock_read ex_response_to
    1%nat ref_view (ex_client [] [RData (bytes "P")]) ex_stream ex_rs (ref_start_view 5%nat) ex_conn (mkHandler [] None)
    (bytes "P") [] () _ (ex_after (init (bytes "P"))));
    [apply ex_between|vm_compute; try reflexivity; try lia; try discriminate..].
Defined.

Lemma http_parse_error_aborts_witness : ex_read [RData (bytes "x")] = AssertFail.
Proof.
  eapply (http_parse_error_aborts 0 id ex_llhttp (fun l => (l, [], 0)) (fun _ => false) 5%nat ex_sock_read ex_response_to
    1%nat ref_view (ex_client [] [RData (bytes "x")]) ex_stream ex_rs (ref_start_view 5%nat) ex_conn (mkHandler [] None)
    (bytes "x") [] () _ 1 ex_parser);
    [apply ex_between|vm_compute; try reflexivity; try lia; try discriminate..].
Defined.

Lemma http_client_close_use_after_free_witness : ex_read [RData []] = Ub.
Proof.
  eapply (http_client_close_use_after_free 0 id ex_llhttp (fun l => (l, [], 0)) (fun _ => false) 5%nat ex_sock_read
    ex_response_to 1%nat ref_view (ex_client [] [RData []]) ex_stream ex_rs (ref_start_view 5%nat) ex_conn (mkHandler [] None) []);
    [apply ex_between|reflexivity|reflexivity|apply elem_of_cons; left; reflexivity|reflexivity|reflexivity].
Defined.

Lemma http_response_aborts_witness :
  ∃ s', run_task 0 id ex_llhttp (fun l => (l, [], 0)) (fun _ => false) ex_method_name 5%nat ex_sock_read
          (fun _ _ w => (w, WErr EAGAIN)) ex_response_to 1%nat T_postable_write_start
          (ex_client [ex_message ex_response] []) = Ret s' ∧
    ref_view (loop s') (mkView [(T_postable_writer, P_connection)] {[5 := 5%nat]} {[5 := 0]}) ∧
    run_task 0 id ex_llhttp (fun l => (l, [], 0)) (fun _ => false) ex_method_name 5%nat ex_sock_read
      (fun _ _ w => (w, WErr EAGAIN)) ex_response_to 1%nat T_postable_writer s' = AssertFail.
Proof.
  eapply (http_response_aborts 0 id ex_llhttp (fun l => (l, [], 0)) (fun _ => false) ex_method_name 5%nat ex_sock_read
    (fun _ _ w => (w, WErr EAGAIN)) ex_response_to 1%nat ref_view (ex_client [ex_message ex_response] [])
    (ref_start_view 5%nat) ex_conn (ex_message ex_response) []);
    [reflexivity|reflexivity..|vm_compute; reflexivity].
Defined.
