(* ===== verification/HttpServer.v ===== *)
(** * HttpServer: the server of src/http_protocol/http_server.c

    What happens to a client between its acceptance and its first bytes, with the
    connection and the handler of [HttpConnection]; then the server object itself:
    construction, listening, and termination. *)

From S2P Require Import Prelude IOBuffer HttpMessage HttpParser FunctorList FdTable Runloop Loop AsioStream HttpConnection SocketFunctions Listener.
Open Scope Z_scope.

(** ** A new client *)

Section NewClient.
Context {L watcher W llhttp_t llhttp_errno_t : Type}.
Context `{!LoopOps L watcher task ptr, EqDecision llhttp_errno_t}.
Variable HPE_OK : llhttp_errno_t.
Variable errno_int : llhttp_errno_t → Z.
Variable llhttp_new : llhttp_t.
Variable llhttp_execute : llhttp_t → mem → llhttp_t * list event * llhttp_errno_t.
Variable llhttp_finish : llhttp_t → llhttp_t * list event * llhttp_errno_t.
Variable llhttp_message_needs_eof : llhttp_t → bool.
Variable self_rs : watcher.
Variable sock_read : Z → Z → W → W * read_result.
Variable set_non_blocking : Z → W → W.
Variable process_request : HttpMessage → HttpMessage → outcome HttpMessage.
Variable href : nat.
(** [accept]: the new socket, and the error number. *)
Variable accept : Z → W → W * Z * Z.

Abbreviation state := (sys L task ptr W (http_app (llhttp_t := llhttp_t)) cbuf read_cb write_cb).
Abbreviation on_event := (on_event_listening HPE_OK errno_int llhttp_new llhttp_execute llhttp_finish llhttp_message_needs_eof
  self_rs sock_read set_non_blocking process_request href).
Abbreviation call_read := (call_read HPE_OK errno_int llhttp_execute llhttp_finish llhttp_message_needs_eof process_request href).

Variable loop_view : L → view watcher task ptr → Prop.
Context `{!LoopLaws L watcher task ptr loop_view}.

(** [on_event_listening] from the start: whatever [accept] gives, the handler is made. *)
Definition on_listening_event (listening_socket_fd : Z) (s : state) : outcome state :=
  let '(w, sock2, _) := accept listening_socket_fd (sock s) in
  on_event sock2 (with_sock s w).

(** A loop with the new socket watched. *)
Definition with_client (fd : Z) (v : view watcher task ptr) : view watcher task ptr :=
  mkView (posted v) (<[fd := self_rs]> (watched v)) (armed v).
(** The socket is one that accept can give: in the table's range, and known to no one. *)
Definition new_fd (fd : Z) (v : view watcher task ptr) : Prop :=
  fd_ok fd ∧ watched v !! fd = None ∧ armed v !! fd = None.

Abbreviation hread := (http_connection_read HPE_OK errno_int llhttp_execute llhttp_finish llhttp_message_needs_eof
  self_rs sock_read process_request href (Some P_on_new_message_handler) (Some P_handler)).
Abbreviation waiting := (waiting (buf := cbuf) (rcb := read_cb) (wcb := write_cb) T_epollin).
Abbreviation between_reads := (between_reads self_rs loop_view).
Abbreviation open_stream := (open_rep (app := http_app (llhttp_t := llhttp_t)) (buf := cbuf) (rcb := read_cb) (wcb := write_cb) self_rs loop_view).

(** The client's objects, before the first read. *)
Definition client_stream (fd : Z) : AsioStream ptr cbuf read_cb write_cb :=
  mkAS fd AsioStream.READ_STATE_IDLE None 1000000 None None AsioStream.WRITE_STATE_IDLE None 0 None None.
Definition client_watcher (fd : Z) : RunloopStream task ptr := mkRS fd 0 None None None None.
Definition client_conn (p : HttpMessageParser) : HttpConnection :=
  mkConn [] None 1000 None p llhttp_new READ_STATE_IDLE WRITE_STATE_IDLE None None None None.

(** ** Lemmas *)

(** A new client is set up, and reads at once. *)
Lemma client_starts fd s v :
  loop_view (loop s) v → new_fd fd v →
  ∃ s1 p, http_message_parser_new = Ret p ∧
    on_event fd s = (s2 ← hread s1;
      Ret (with_app s2 (mkApp (conn (the_app s2)) (hdlr (the_app s2)) (handler_list (the_app s2) ++ [href])))) ∧
    between_reads s1 (client_stream fd) (client_watcher fd) (with_client fd v) (client_conn p) (mkHandler [] None) ∧
    sock s1 = set_non_blocking fd (sock s) ∧ handler_list (the_app s1) = handler_list (the_app s).
Proof.
  intros Hv (Hok & Hw & Ha). destruct new_idle as (p & Hp & _ & _).
  destruct (register_law (loop s) v fd 0 self_rs Hv Hok Hw Ha eq_refl) as (l & Hreg & Hl).
  set (s0 := with_loop (with_sock (with_rs (with_stream s (Some (client_stream fd))) (Some (client_watcher fd))) (set_non_blocking fd (sock s))) l).
  set (s1 := set_handler (set_conn s0 (Some (client_conn p))) (Some (mkHandler [] None))).
  assert (asio_stream_new self_rs set_non_blocking fd s = Ret s0) as Hnew.
  { unfold asio_stream_new, asio_stream_init, AsioStream.runloop_stream_register. cbn [rstream with_sock with_rs deref]. rewrite bind_ret_l.
    cbn [rs_fd runloop_stream_new runloop_stream_init]. change (loop (with_sock _ _)) with (loop s). rewrite Hreg. done. }
  exists s1, p. split; [done|]. split; [|split; [|done]].
  - unfold on_event_listening, http_handler_new, http_handler_init, http_connection_new, http_connection_init.
    rewrite Hnew, bind_ret_l, Hp, !bind_ret_l. done.
  - constructor; try done. constructor; try done. apply lookup_insert_eq.
Qed.

(** At the end of the file [on_handler_completion_cb] looks for the handler in the list,
    where it is not. *)
Lemma end_of_file_unlisted (s1 : state) c h l :
  the_app s1 = mkApp (Some (reading c (iob_at0 (malloc_block 1001) 1000 0))) (Some h) l → href ∉ l →
  read_have_data_cb HPE_OK errno_int llhttp_execute llhttp_finish llhttp_message_needs_eof process_request href 0 0 s1 = AssertFail.
Proof.
  intros Ha Hl. unfold read_have_data_cb, the_conn. rewrite Ha. cbn [conn deref]. rewrite bind_ret_l.
  cbn [reading set_input active_input_buffer]. rewrite bool_decide_true by eauto. cbn [c_assert deref Z.eqb]. rewrite !bind_ret_l.
  unfold call_on_read_cb, the_conn. rewrite Ha. cbn [conn deref]. rewrite bind_ret_l.
  cbn [reading set_input set_read_cb on_read_cb on_read_cb_arg].
  rewrite !bool_decide_true by eauto. cbn [c_assert]. rewrite !bind_ret_l.
  unfold on_new_message_handler, the_handler. cbn [set_conn with_app the_app hdlr]. rewrite Ha. cbn [hdlr deref].
  rewrite bind_ret_l. cbn [negb Z.eqb]. unfold on_handler_completion_cb.
  cbn [set_conn with_app the_app handler_list]. rewrite Ha. by rewrite bool_decide_false by done.
Qed.

(** ** Properties *)

(** A client that is gone when it is accepted aborts the server: the handler reads as
    soon as it is made, finds the end of the file, and reports its completion before
    the server has put it in the list where the completion looks for it. *)
Theorem http_client_vanishes lfd fd e s v w0 w :
  loop_view (loop s) v → new_fd fd v → href ∉ handler_list (the_app s) →
  accept lfd (sock s) = (w0, fd, e) → sock_read fd 1000 (set_non_blocking fd w0) = (w, RData []) →
  on_listening_event lfd s = AssertFail.
Proof.
  intros Hv Hfd Hl Hacc Hr. unfold on_listening_event. rewrite Hacc.
  destruct (client_starts fd (with_sock s w0) v Hv Hfd) as (s1 & p & _ & -> & Hb & Hs & Hh).
  cbn [with_sock sock] in Hs. rewrite <- Hs in Hr.
  destruct (read_calls_back HPE_OK errno_int llhttp_execute llhttp_finish llhttp_message_needs_eof self_rs sock_read
    process_request href loop_view s1 _ _ _ _ _ w (RData []) 0 0 (iob_at0 (malloc_block 1001) 1000 0) Hb eq_refl Hr)
    as (s2 & x2 & -> & _ & _ & _ & Ha); [by intros ? [= <-]|done|done|].
  rewrite (end_of_file_unlisted s2 _ _ _ Ha) by (by rewrite Hh). done.
Qed.

(** A client that has sent nothing yet is opened: its handler is the last of the
    server's list, its socket is watched for input, and the connection waits for the
    bytes with its callback set. *)
Theorem http_client_opens lfd fd e s v w0 w :
  loop_view (loop s) v → new_fd fd v →
  accept lfd (sock s) = (w0, fd, e) → sock_read fd 1000 (set_non_blocking fd w0) = (w, RErr EAGAIN) →
  ∃ s' x' r' (c' : HttpConnection (llhttp_t := llhttp_t)), on_listening_event lfd s = Ret s' ∧ open_stream s' x' r' (with_client fd v) ∧ AsioStream.fd x' = fd ∧
    waiting x' r' ∧ AsioStream.read_callback x' = Some P_read_have_data_cb ∧
    the_app s' = mkApp (Some c') (Some (mkHandler [] None)) (handler_list (the_app s) ++ [href]) ∧
    c_read_state c' = READ_STATE_ACTIVE ∧ on_read_cb c' = Some P_on_new_message_handler ∧ sock s' = w.
Proof.
  intros Hv Hfd Hacc Hr. unfold on_listening_event. rewrite Hacc.
  destruct (client_starts fd (with_sock s w0) v Hv Hfd) as (s1 & p & _ & -> & Hb & Hs & Hh).
  destruct (hread_asks HPE_OK errno_int llhttp_execute llhttp_finish llhttp_message_needs_eof self_rs sock_read process_request
    href loop_view s1 _ _ _ _ _ Hb eq_refl) as [-> Ho].
  set (s2 := set_conn s1 _) in *.
  destruct (asio_stream_read_start self_rs P_stream T_epollin sock_read buf_store call_read loop_view s2 _ _ _ InputSpace 1000
    P_read_have_data_cb (Some P_connection) Ho eq_refl ltac:(lia)) as (-> & Ho3 & Hp3).
  destruct (try_read_not_ready self_rs P_stream T_epollin sock_read buf_store call_read loop_view _ _ _ _ _ _ _ _ w Ho3 Hp3 eq_refl)
    as (s4 & x4 & r4 & -> & Ho4 & Hp4 & Hw4 & Hf4 & Hs4 & Ha4).
  { cbn. by rewrite Hs. }
  rewrite bind_ret_l. eexists _, x4, r4, (reading (client_conn p) _). split; [done|]. split; [destruct Ho4; by constructor|].
  split; [exact Hf4|]. split; [exact Hw4|]. split; [apply Hp4|]. split; [|split; [done|split; [done|exact Hs4]]].
  cbn [with_app the_app]. rewrite Ha4. cbn. by rewrite (br_handler _ _ _ _ _ _ _ _ Hb), Hh.
Qed.

(** An accept that fails, as it does for a connection that another process has taken,
    is not noticed: the handler is made for descriptor -1, which the loop refuses. *)
Theorem http_accept_failure_aborts lfd e s w :
  accept lfd (sock s) = (w, -1, e) →
  register (fn := task) (arg_t := ptr) (-1) 0 self_rs (loop s) = AssertFail →
  on_listening_event lfd s = AssertFail.
Proof.
  intros Hacc Hreg. unfold on_listening_event. rewrite Hacc.
  assert (asio_stream_new self_rs set_non_blocking (-1) (with_sock s w) = AssertFail) as Hnew.
  { unfold asio_stream_new, asio_stream_init, AsioStream.runloop_stream_register. cbn [rstream with_sock with_rs deref]. rewrite bind_ret_l.
    cbn [rs_fd runloop_stream_new runloop_stream_init]. change (loop (with_sock _ _)) with (loop s). by rewrite Hreg. }
  unfold on_event_listening, http_handler_new, http_handler_init, http_connection_new, http_connection_init. by rewrite Hnew.
Qed.
End NewClient.

(** ** The server object

    It runs on the loop of [Runloop]; its listener is the watcher of [Listener]. *)

Section Server.
Context {watcher fn arg_t world W addr acb prf : Type} `{EqDecision watcher}.
(** The epoll calls, the socket calls, and whether the loop's memory can be had. *)
Variable K : kernel watcher world.
Variable N : net W addr.
Variable malloc_ok : bool.
(** The listener's address, the server's, and the function [on_event_listening]. *)
Variable self : watcher.
Variable server_ref : arg_t.
Variable on_event_listening_fn : fn.

(** [runloop_ref] and [listening_watcher_ref] are the loop and the listener of the
    state; the completion callback is never set. *)
Record HttpServer := mkServer {
  port : Z;
  host : list byte;
  listening_socket_fd : Z;
  process_request_function : option prf;
  server_handlers : list nat
}.

Abbreviation loop_st := (Runloop watcher fn arg_t * world)%type.
Abbreviation ssys := (lsys loop_st fn arg_t W (option HttpServer) acb).
#[local] Instance loop_ops : LoopOps loop_st watcher fn arg_t := runloop_ops K.

(** [runloop_run] on the whole program: the loop of [Runloop] with the handlers of all
    the program's watchers. *)
Variable runloop_run_all : ssys → outcome ssys.

Definition with_server (s : ssys) (x : option HttpServer) : ssys :=
  mkLS (listener s) (asio s) (l_loop s) (l_kernel s) x.

Definition http_server_init (p : Z) (h : list byte) (listen_fd : Z) (f : option prf) (s : ssys) : outcome ssys :=
  w ← socket_set_non_blocking N listen_fd (l_kernel s);
  c_assert (bool_decide (is_Some f));;
  l ← runloop_new K malloc_ok (snd (l_loop s));
  let s := runloop_listener_new listen_fd (l_with_loop (l_with_kernel s w) l) in
  Ret (with_server s (Some (mkServer p h listen_fd f []))).
Definition http_server_new (p : Z) (h : list byte) (listen_fd : Z) (f : option prf) (s : ssys) : outcome ssys :=
  http_server_init p h listen_fd f s.

(** The world the loop is freed in; the loop's own memory is gone. *)
Definition free_the_loop (s : ssys) : outcome ssys :=
  o ← runloop_free K (l_loop s);
  match o with Some wd => Ret (l_with_loop s (fst (l_loop s), wd)) | None => Ub end.
Definition close_listening (fd : Z) (s : ssys) : ssys :=
  l_with_loop s (fst (l_loop s), fst (close K fd (snd (l_loop s)))).

Definition http_server_free (s : ssys) : outcome ssys :=
  this ← deref (l_app s);
  s ← runloop_listener_deregister s;
  s ← runloop_listener_free s;
  s ← free_the_loop s;
  let s := close_listening (listening_socket_fd this) s in
  c_assert (Zlen (server_handlers this) =? 0);;
  Ret (with_server s None).

Definition http_server_listen (s : ssys) : outcome ssys :=
  _ ← deref (l_app s);
  s ← runloop_listener_register self (Some on_event_listening_fn) (Some server_ref) s;
  runloop_run_all s.

Definition http_server_terminate (s : ssys) : outcome ssys :=
  this ← deref (l_app s);
  Ret (close_listening (listening_socket_fd this) s).

(** ** What the server relies on *)

Context (efd : Z) (interest : world → Z → option (Z * watcher)) (pollable : Z → Prop).
Context (laws : epoll_laws K efd interest pollable) (all_pollable : ∀ fd, fd_ok fd → pollable fd).
Context (close_interest : ∀ fd wd fd',
  interest (fst (close K fd wd)) fd' = if decide (fd' = fd) then None else interest wd fd').
(** Taking out an entry that is not there is an error. *)
Context (del_absent : ∀ fd i wd, interest wd fd = None → ∃ wd', epoll_ctl K efd EPOLL_CTL_DEL fd i None wd = (wd', -1)).

Abbreviation loop_view := (runloop_view (fn := fn) (arg_t := arg_t) efd interest).

(** A live server on descriptor [fd] with clients [hs]. *)
Record server_rep (s : ssys) (fd : Z) (hs : list nat) (v : view watcher fn arg_t) : Prop := {
  sr_server : ∃ p h f, l_app s = Some (mkServer p h fd f hs);
  sr_listener : ∃ p q, listener s = Some (mkRL fd p q);
  sr_fd : fd_ok fd;
  sr_view : loop_view (l_loop s) v
}.

(** The mask of a listening socket. *)
Definition listening : Z := Z.lor EPOLLIN EPOLLEXCLUSIVE.
Definition listening_view (fd : Z) : view watcher fn arg_t := mkView [] {[fd := self]} {[fd := listening]}.

(** ** Lemmas *)

Lemma http_server_listen_ok s fd hs v :
  server_rep s fd hs v → watched v !! fd = None → armed v !! fd = None →
  ∃ s1, http_server_listen s = runloop_run_all s1 ∧
    server_rep s1 fd hs (mkView (posted v) (<[fd := self]> (watched v)) (<[fd := listening]> (armed v))) ∧
    listener s1 = Some (mkRL fd (Some on_event_listening_fn) (Some server_ref)) ∧ l_kernel s1 = l_kernel s.
Proof using all_pollable laws.
  intros [(p & h & f & Hs) (q & r & Hl) Hfd Hv] Hw Ha.
  destruct (runloop_register_law K efd interest pollable all_pollable laws (l_loop s) v fd listening self Hv Hfd Hw Ha eq_refl)
    as (l & Hr & Hv').
  exists (l_with_loop (l_with s (Some (mkRL fd (Some on_event_listening_fn) (Some server_ref)))) l).
  split_and!; [|constructor; cbn; eauto|done|done].
  unfold http_server_listen, runloop_listener_register. rewrite Hs, Hl. cbn [deref]. rewrite !bind_ret_l.
  cbn [l_fd or_else]. change (register _ _ _ _) with (runloop_register K fd listening self (l_loop s)). by rewrite Hr, bind_ret_l.
Qed.

Lemma http_server_new_ok (is_open : Z → W → Prop) s p h fd f wd :
  malloc_ok = true → fd_ok fd → fcntl_laws N is_open → is_open fd (l_kernel s) →
  epoll_create1 K (snd (l_loop s)) = (wd, efd) → efd ≠ -1 → (∀ x, interest wd x = None) →
  ∃ s1, http_server_new p h fd (Some f) s = Ret s1 ∧ server_rep s1 fd [] (mkView [] ∅ ∅) ∧
    socket_is_blocking N fd (l_kernel s1) = Ret false.
Proof using Type.
  intros Hm Hfd HN Ho Hc He Hi.
  destruct (proj1 (socket_blocking_modes N is_open fd (l_kernel s) HN) Ho) as (w1 & _ & Hw1 & Hb & _).
  destruct (fl_new_ok (fn := fn) (arg_t := arg_t) runloop_READY_LIST_MAX) as (fl & Hfl & _); [by vm_compute|].
  assert (runloop_new K true (snd (l_loop s)) = Ret (mkRunloop efd false false FdTable_new fl, wd)) as Hl.
  { unfold runloop_new, runloop_init. rewrite Hc, (proj2 (Z.eqb_neq efd (-1)) He). cbn [c_assert negb].
    by rewrite !bind_ret_l, Hfl. }
  eexists. unfold http_server_new, http_server_init. rewrite Hw1, bind_ret_l, bool_decide_true by eauto.
  cbn [c_assert]. rewrite bind_ret_l, Hm, Hl. cbn. split_and!; [done| |exact Hb].
  constructor; cbn; eauto. split.
  - by apply (runloop_new_rep K efd false true (snd (l_loop s))).
  - intros x. change (None = fst <$> interest wd x). by rewrite Hi.
Qed.

(** The listener is taken out of the loop, and the kernel told so. *)
Lemma deregister_world s fd hs wd :
  server_rep s fd hs (listening_view fd) →
  epoll_ctl K efd EPOLL_CTL_DEL fd (u32 (Z.lor EPOLLEXCLUSIVE EPOLLIN)) None (snd (l_loop s)) = (wd, 0) →
  ∃ l, runloop_listener_deregister s = Ret (l_with_loop s l) ∧ loop_rep efd false l (mkA ∅ [] wd) ∧ snd l = wd.
Proof using laws.
  intros [_ (q & r & Hl) Hfd Hv] Hdel. pose proof (fd_ok_in fd Hfd) as Hin.
  destruct (op_view K efd interest (ODeregister fd) (l_loop s) _ (mkA (delete fd {[fd := self]}) [] wd) Hv) as (l & He & Hr & Hw).
  { cbn [a_op]. rewrite (a_lookup_eq fd _ self Hin) by apply lookup_insert_eq.
    unfold a_ctl. cbn [world_of]. rewrite bind_ret_l, Hdel. cbn [Z.eqb c_assert]. by rewrite !bind_ret_l. }
  exists l. split; [|rewrite delete_singleton_eq in Hr; done].
  unfold runloop_listener_deregister. rewrite Hl. cbn [deref]. rewrite bind_ret_l. cbn [l_fd exec_op] in *.
  change (deregister _ _) with (runloop_deregister K fd (l_loop s)).
  destruct (runloop_deregister K fd (l_loop s)) as [[l' z]| |]; [|done..]. cbn in He. by injection He as ->.
Qed.

(** The kernel no longer knows a listening socket that was closed behind the loop's back. *)
Lemma deregister_closed s fd hs :
  server_rep s fd hs (listening_view fd) → runloop_listener_deregister (close_listening fd s) = AssertFail.
Proof using close_interest del_absent.
  intros [_ (q & r & Hl) Hfd Hv]. pose proof (fd_ok_in fd Hfd) as Hin.
  destruct (runloop_close_law K efd interest close_interest (l_loop s) _ fd Hv) as [Hr _].
  pose proof (op_refines K efd false (ODeregister fd) _ _ Hr) as Ho. cbn [a_op] in Ho.
  rewrite (a_lookup_eq fd _ self Hin) in Ho by apply lookup_insert_eq. rewrite bind_ret_l in Ho.
  destruct (del_absent fd (u32 (Z.lor EPOLLEXCLUSIVE EPOLLIN)) (fst (close K fd (snd (l_loop s))))) as [wd' Hdel].
  { rewrite close_interest. by rewrite decide_True. }
  unfold a_ctl in Ho. cbn [world_of snd] in Ho. rewrite Hdel in Ho. cbn in Ho.
  unfold runloop_listener_deregister. cbn [close_listening l_with_loop listener]. rewrite Hl. cbn [deref l_fd l_loop]. rewrite bind_ret_l.
  change (deregister _ _) with (runloop_deregister K fd (fst (l_loop s), fst (close K fd (snd (l_loop s))))).
  by destruct (runloop_deregister K fd _) as [[]| |].
Qed.

(** A loop that watches nothing is freed with its epoll descriptor. *)
Lemma free_the_loop_ok s wd :
  loop_rep efd false (l_loop s) (mkA ∅ [] wd) → snd (close K efd wd) = 0 →
  free_the_loop s = Ret (l_with_loop s (fst (l_loop s), fst (close K efd wd))).
Proof using Type.
  intros Hr Hc. destruct (runloop_close_closes_all K efd false (l_loop s) _ (fst (close K efd wd)) Hr eq_refl) as (_ & Hu & Hf).
  { cbn [world_of]. by rewrite <- Hc, <- surjective_pairing. }
  assert (used_fds (table (fst (l_loop s))) 0 = []) as Hnil.
  { apply elem_of_nil_inv. intros fd Hin. apply Hu in Hin as [w Hw]. done. }
  unfold free_the_loop. rewrite Hf, Hnil. done.
Qed.

(** ** Properties *)

(** A server starts: over an open socket, the constructor makes the socket non-blocking
    and gives a server without clients on an empty loop; listening then runs the loop with
    that socket watched, exclusively, and its events going to the server. *)
Theorem http_server_serves (is_open : Z → W → Prop) s p h fd f wd :
  malloc_ok = true → fd_ok fd → fcntl_laws N is_open → is_open fd (l_kernel s) →
  epoll_create1 K (snd (l_loop s)) = (wd, efd) → efd ≠ -1 → (∀ x, interest wd x = None) →
  ∃ s1 s2, http_server_new p h fd (Some f) s = Ret s1 ∧ http_server_listen s1 = runloop_run_all s2 ∧
    server_rep s2 fd [] (listening_view fd) ∧ socket_is_blocking N fd (l_kernel s2) = Ret false ∧
    listener s2 = Some (mkRL fd (Some on_event_listening_fn) (Some server_ref)).
Proof using all_pollable laws.
  intros Hm Hfd HN Ho Hc He Hi.
  destruct (http_server_new_ok is_open s p h fd f wd Hm Hfd HN Ho Hc He Hi) as (s1 & H1 & Hr1 & Hb).
  destruct (http_server_listen_ok s1 fd [] _ Hr1 eq_refl eq_refl) as (s2 & H2 & Hr2 & Hl2 & Hk).
  exists s1, s2. rewrite Hk. done.
Qed.

(** C40: A server ends. Freeing one whose loop has returned takes the listening socket out of
    the loop, and closes it, then the epoll descriptor, and then the listening
    socket a second time; with a client left in the list it aborts instead. A server that
    has been terminated cannot be freed: its socket, closed, is no longer known to
    the kernel, and taking it out of the loop aborts. *)
Theorem http_server_ends s fd hs wd :
  server_rep s fd hs (listening_view fd) →
  epoll_ctl K efd EPOLL_CTL_DEL fd (u32 (Z.lor EPOLLEXCLUSIVE EPOLLIN)) None (snd (l_loop s)) = (wd, 0) →
  (∀ wd, snd (close K efd wd) = 0) →
  let closed fd wd := fst (close K fd wd) in
  (hs = [] → ∃ s', http_server_free s = Ret s' ∧ l_app s' = None ∧ listener s' = None ∧
    snd (l_loop s') = closed fd (closed efd (closed fd wd))) ∧
  (hs ≠ [] → http_server_free s = AssertFail) ∧
  ∃ s1, http_server_terminate s = Ret s1 ∧ http_server_free s1 = AssertFail.
Proof using laws close_interest del_absent.
  intros Hs Hdel Hce closed. destruct (deregister_world s fd hs wd Hs Hdel) as (l & Hd & Hr & Hw).
  pose proof Hs as [(p & h & f & Ha) (q & r & Hl) Hfd Hv].
  set (s2 := l_with (l_with_loop s (fst l, closed fd wd)) None).
  assert (http_server_free s = (c_assert (Zlen hs =? 0);; Ret (with_server (l_with_loop s2 (fst l, closed fd (closed efd (closed fd wd)))) None)))
    as Hfree.
  { unfold http_server_free. rewrite Ha. cbn [deref]. rewrite bind_ret_l, Hd, bind_ret_l.
    unfold runloop_listener_free. cbn [l_with_loop listener]. rewrite Hl. cbn [deref l_fd]. rewrite !bind_ret_l.
    change (free_the_loop _) with (free_the_loop (l_with (l_with_loop s (fst l, fst (close K fd (snd l)))) None)).
    rewrite Hw. fold (closed fd wd). fold s2. rewrite (free_the_loop_ok s2 (closed fd wd)), bind_ret_l; [done| |apply Hce].
    destruct l as [rl w]. exact (rep_world _ _ _ _ _ _ Hr). }
  split_and!.
  - intros ->. eexists. split; [exact Hfree|]. done.
  - intros Hne. rewrite Hfree. destruct hs; [done|]. rewrite assert_false; [done|]. unfold Zlen. bool_prop. cbn. lia.
  - eexists. unfold http_server_terminate. rewrite Ha. cbn [deref]. rewrite bind_ret_l. split; [done|].
    unfold http_server_free. cbn [close_listening l_with_loop l_app]. rewrite Ha. cbn [deref]. rewrite bind_ret_l.
    cbn [listening_socket_fd]. by rewrite (deregister_closed s fd hs Hs).
Qed.
End Server.

Arguments HttpServer : clear implicits.

(** ** Witnesses *)

Definition ex_accepting (w : list read_result) : sys (ref_loop nat task ptr) task ptr (list read_result) (http_app (llhttp_t := unit)) cbuf read_cb write_cb :=
  mkSys None None (mkRef [] ∅ ∅) w (mkApp None None [7%nat]).
(** Descriptor 6 is accepted. *)
Definition ex_accept1 (lfd : Z) (w : list read_result) : list read_result * Z * Z := (w, 6, 0).
Definition ex_accepts (w : list read_result) :=
  on_listening_event 0 id () ex_llhttp (fun l => (l, [], 0)) (fun _ => false) 5%nat ex_sock_read (fun _ w => w) ex_response_to 1%nat
    ex_accept1 5 (ex_accepting w).

Lemma http_client_vanishes_witness : ex_accepts [RData []] = AssertFail.
Proof.
  apply (http_client_vanishes 0 id () ex_llhttp (fun l => (l, [], 0)) (fun _ => false) 5%nat ex_sock_read (fun _ w => w) ex_response_to
    1%nat ex_accept1 ref_view 5 6 0 (ex_accepting [RData []]) (mkView [] ∅ ∅) [RData []] []);
    [reflexivity|by split_and!; [vm_compute|..]| |reflexivity|reflexivity].
  by intros ?%list_elem_of_singleton.
Defined.

Lemma http_client_opens_witness :
  ∃ s' x' r' c', ex_accepts [] = Ret s' ∧ open_rep 5%nat ref_view s' x' r' (with_client 5%nat 6 (mkView [] ∅ ∅)) ∧ AsioStream.fd x' = 6 ∧
    waiting T_epollin x' r' ∧ AsioStream.read_callback x' = Some P_read_have_data_cb ∧
    the_app s' = mkApp (Some c') (Some (mkHandler [] None)) [7%nat; 1%nat] ∧
    c_read_state c' = READ_STATE_ACTIVE ∧ on_read_cb c' = Some P_on_new_message_handler ∧ sock s' = [].
Proof.
  apply (http_client_opens 0 id () ex_llhttp (fun l => (l, [], 0)) (fun _ => false) 5%nat ex_sock_read (fun _ w => w) ex_response_to
    1%nat ex_accept1 ref_view 5 6 0 (ex_accepting []) (mkView [] ∅ ∅) [] []);
    [reflexivity|by split_and!; [vm_compute|..]|reflexivity|reflexivity].
Defined.

(** A server on descriptor 7 of a kernel with epoll descriptor 3. *)
Abbreviation ex_ssys := (lsys (Runloop nat nat nat * ex_world) nat nat (gmap Z Z) (option (HttpServer unit)) unit).
Definition ex_before : ex_ssys :=
  mkLS None None (mkRunloop 0 false false FdTable_new (mkFL 0 0 0 []), mkEx ∅ [] []) {[7 := 2]} None.
Definition ex_interest_of (wd : ex_world) (fd : Z) : option (Z * nat) := ex_interest wd !! fd.

Lemma ex_close_interest fd wd fd' :
  ex_interest_of (fst (close ex_kernel fd wd)) fd' = if decide (fd' = fd) then None else ex_interest_of wd fd'.
Proof. unfold ex_interest_of. cbn [ex_kernel close fst ex_interest]. rewrite lookup_delete. by repeat case_decide. Qed.

Lemma ex_del_absent fd i wd :
  ex_interest_of wd fd = None → ∃ wd', epoll_ctl ex_kernel 3 EPOLL_CTL_DEL fd i None wd = (wd', -1).
Proof. unfold ex_interest_of. intros Hi. cbn [ex_kernel epoll_ctl]. unfold ex_epoll_ctl. rewrite Hi. by eexists. Qed.

Lemma http_server_serves_witness :
  ∃ s1 s2, http_server_new ex_kernel ex_net true 80 [] 7 (Some ()) ex_before = Ret s1 ∧
    http_server_listen ex_kernel 5%nat 9%nat 1%nat Ret s1 = Ret s2 ∧
    server_rep 3 ex_interest_of s2 7 [] (listening_view 5%nat 7) ∧ socket_is_blocking ex_net 7 (l_kernel s2) = Ret false ∧
    listener s2 = Some (mkRL 7 (Some 1%nat) (Some 9%nat)).
Proof.
  apply (http_server_serves ex_kernel ex_net true 5%nat 9%nat 1%nat Ret 3 ex_interest_of (fun _ => True) ex_epoll_laws (fun _ _ => I)
    (fun s w => ex_getfl s w ≠ -1) ex_before 80 [] 7 () (mkEx ∅ [] []));
    [reflexivity|vm_compute; split; [discriminate|reflexivity]|exact ex_fcntl_laws|discriminate|reflexivity|discriminate|reflexivity].
Defined.

(** A server that listens. *)
Lemma ex_serving : ∃ s, server_rep (W := gmap Z Z) (acb := unit) (prf := unit) 3 ex_interest_of s 7 [] (listening_view (fn := nat) (arg_t := nat) 5%nat 7).
Proof.
  destruct (http_server_new_ok (acb := unit) (fn := nat) (arg_t := nat) ex_kernel ex_net true 3 ex_interest_of
    (fun s w => ex_getfl s w ≠ -1) ex_before 80 [] 7 () (mkEx ∅ [] [])) as (s1 & _ & Hr1 & _);
    [reflexivity|vm_compute; split; [discriminate|reflexivity]|exact ex_fcntl_laws|discriminate|reflexivity|discriminate|reflexivity|].
  destruct (http_server_listen_ok ex_kernel 5%nat 9%nat 1%nat Ret 3 ex_interest_of (fun _ => True) ex_epoll_laws (fun _ _ => I)
    s1 7 [] _ Hr1 eq_refl eq_refl) as (s2 & _ & Hr2 & _). by exists s2.
Qed.

Lemma http_server_ends_witness :
  ∃ s s' s1 : ex_ssys, server_rep 3 ex_interest_of s 7 [] (listening_view 5%nat 7) ∧
    http_server_free ex_kernel s = Ret s' ∧ l_app s' = None ∧
    http_server_terminate ex_kernel s = Ret s1 ∧ http_server_free ex_kernel s1 = AssertFail.
Proof.
  destruct ex_serving as [s Hs].
  assert (∃ wd, epoll_ctl ex_kernel 3 EPOLL_CTL_DEL 7 (u32 (Z.lor EPOLLEXCLUSIVE EPOLLIN)) None (snd (l_loop s)) = (wd, 0)) as [wd Hd].
  { destruct (sr_view _ _ _ _ _ _ Hs) as [_ Ha]. specialize (Ha 7). unfold ex_interest_of in Ha.
    cbn [ex_kernel epoll_ctl]. unfold ex_epoll_ctl.
    destruct (ex_interest (snd (l_loop s)) !! 7) as [[m u]|]; [by eexists|discriminate]. }
  destruct (http_server_ends ex_kernel 5%nat 3 ex_interest_of (fun _ => True) ex_epoll_laws ex_close_interest ex_del_absent s 7 [] wd Hs Hd)
    as (H1 & _ & (s1 & H2 & H3)); [reflexivity|].
  destruct (H1 eq_refl) as (s' & H4 & H5 & _). exists s, s', s1. by split_and!.
Defined.
