(* ===== verification/SyncSocket.v ===== *)
(** * SyncSocket: the blocking HTTP client (src/http_protocol/http_sync_socket.c)

    A client writes one message and reads one message at a time on a blocking socket.
    The socket calls are those of [SocketFunctions], llhttp is a parameter as in
    [HttpParser]; the input list is kept as the list of its messages ([LinkedList] shows
    that [List_add_back] and [List_remove_first] behave like that). *)

From S2P Require Import Prelude Cbuffer IOBuffer HttpMessage HttpParser SocketFunctions.
From S2P Require Import FunctorList FdTable Runloop Loop AsioStream HttpConnection.
Open Scope Z_scope.

Section Sync.
Context {W addr llhttp_t llhttp_errno_t : Type} `{EqDecision llhttp_errno_t}.
Variable N : net W addr.
Variable HPE_OK : llhttp_errno_t.
Variable llhttp_new : llhttp_t.
Variable llhttp_execute : llhttp_t → mem → llhttp_t * list event * llhttp_errno_t.
Variable llhttp_finish : llhttp_t → llhttp_t * list event * llhttp_errno_t.
Variable llhttp_message_needs_eof : llhttp_t → bool.
Variable llhttp_method_name : Z → list byte.

(** [None]: the descriptor that [http_syncsocket_new] leaves uninitialised. The output
    list is never used. *)
Record HttpSyncSocket := mkSync {
  s_sock : option Z;
  s_parser : HttpMessageParser;
  s_ll : llhttp_t;
  s_input : list HttpMessage;
  s_output : list HttpMessage
}.

Definition s_with_sock (c : HttpSyncSocket) (f : Z) : HttpSyncSocket :=
  mkSync (Some f) (s_parser c) (s_ll c) (s_input c) (s_output c).
Definition s_with_input (c : HttpSyncSocket) (ms : list HttpMessage) : HttpSyncSocket :=
  mkSync (s_sock c) (s_parser c) (s_ll c) ms (s_output c).

(** The messages the parser delivers are added to the input list. *)
Definition on_new_message (before after : HttpMessageParser) (ms : list HttpMessage) : list HttpMessage :=
  ms ++ drop (length (delivered before)) (delivered after).

Definition http_syncsocket_init (sock : option Z) : outcome HttpSyncSocket :=
  p ← http_message_parser_new;
  Ret (mkSync sock p llhttp_new [] []).
Definition http_syncsocket_new : outcome HttpSyncSocket := http_syncsocket_init None.
Definition http_syncsocket_new_from_fd (f : Z) : outcome HttpSyncSocket :=
  c ← http_syncsocket_init None; Ret (s_with_sock c f).

(** The parser and the lists are not freed. *)
Definition http_syncsocket_free (c : HttpSyncSocket) (w : W) : outcome W :=
  f ← deref (s_sock c); Ret (fst (sys_close N f w)).

(** [inl]: the process exits; a failing connect is only logged. *)
Definition http_syncsocket_connect (c : HttpSyncSocket) (host : list byte) (port : Z) (w : W)
    : W + HttpSyncSocket * W :=
  let '(w, sockfd) := socket N AF_INET SOCK_STREAM 0 w in
  match gethostbyname N host w with
  | None => inl w
  | Some (_, a) =>
      let '(w, _) := connect N sockfd AF_INET (u16 port) a w in
      inr (s_with_sock c sockfd, w)
  end.

Definition http_syncsocket_close (c : HttpSyncSocket) : HttpSyncSocket := c.

(** The last component is the value returned; [errno] is whatever it is after the call. *)
Definition http_syncsocket_write_message (c : HttpSyncSocket) (msg : HttpMessage) (w : W) : outcome (W * Z) :=
  outbuf ← http_message_serialize llhttp_method_name msg;
  let out_len := IOBuffer_data_len outbuf in
  c_assert (0 <? out_len);;
  f ← deref (s_sock c);
  m ← mem_load (mem_p outbuf) (IOBuffer_data outbuf) out_len;
  out ← deref (mapM id m);
  let '(w, bytes_written, errno) := sys_write N f out w in
  if negb (bytes_written =? out_len) then
    if 0 <? bytes_written then AssertFail
    else if bytes_written =? 0 then Ret (w, -1)
    else Ret (w, errno)
  else Ret (w, errno).

(** What a read leaves in the new input buffer. *)
Definition received (bs : list byte) (n : Z) : outcome IOBuffer :=
  iob ← IOBuffer_new_with_capacity 20000;
  iob ← IOBuffer_fill iob (init bs);
  IOBuffer_commit iob (s32 n).

(** The loop of [http_syncsocket_read_message]; the fuel bounds its rounds, and [None] is
    its end. The result is the return value and the message stored. *)
Fixpoint http_syncsocket_read_message (fuel : nat) (c : HttpSyncSocket) (w : W)
    : outcome (option (HttpSyncSocket * W * Z * option HttpMessage)) :=
  match fuel with
  | O => Ret None
  | S fuel =>
      match s_input c with
      | m :: ms => Ret (Some (s_with_input c ms, w, 0, Some m))
      | [] =>
          iob0 ← IOBuffer_new_with_capacity 20000;
          f ← deref (s_sock c);
          let '(w, bytes_read, _, bs) := sys_read N f (IOBuffer_space_len iob0) w in
          if 0 <? bytes_read then
            iob ← received bs bytes_read;
            '(p, l, _, rc) ← http_message_parser_consume_buffer HPE_OK llhttp_execute llhttp_finish
                              llhttp_message_needs_eof (s_parser c) (s_ll c) iob;
            let c := mkSync (s_sock c) p l (on_new_message (s_parser c) p (s_input c)) (s_output c) in
            if decide (rc = HPE_OK) then http_syncsocket_read_message fuel c w
            else Ret (Some (c, w, -1, None))
          else Ret (Some (c, w, -1, None))
      end
  end.

(** ** Specification *)

(** The socket gives the chunks, in order, and then is in the state returned. *)
Fixpoint gives (f : Z) (chunks : list (list byte)) (w : W) : option W :=
  match chunks with
  | [] => Some w
  | bs :: chunks =>
      let '(w', n, _, bs') := sys_read N f 20000 w in
      if decide (bs' = bs ∧ n = Zlen bs ∧ 0 < n ≤ 20000) then gives f chunks w' else None
  end.

(** The parser takes the chunks, and none of them completes a message. *)
Fixpoint takes (chunks : list (list byte)) (l : llhttp_t) (p : HttpMessageParser)
    : option (llhttp_t * HttpMessageParser) :=
  match chunks with
  | [] => Some (l, p)
  | bs :: chunks =>
      let '(l', es, e) := llhttp_execute l (init bs) in
      match run_events p es with
      | Ret p' =>
          if decide (e = HPE_OK ∧ drop (length (delivered p)) (delivered p') = []) then takes chunks l' p' else None
      | _ => None
      end
  end.

(** ** Lemmas *)

Lemma received_ok bs :
  0 < Zlen bs ≤ 20000 →
  ∃ iob, received bs (Zlen bs) = Ret iob ∧ iob_ok iob ∧ iob_data iob = init bs ∧ IOBuffer_data_len iob = Zlen bs.
Proof.
  intros Hl. unfold received. rewrite new_with_capacity_ok by done. rewrite bind_ret_l.
  pose proof (new_iob_ok 20000 ltac:(done)) as Hok. set (b := iob_at0 _ _ _) in *.
  rewrite s32_small by (unfold INT_MIN, INT_MAX; lia). unfold Zlen in *. rewrite <- msize_init in *.
  destruct (fill_commit_ok b (init bs) Hok) as (b' & -> & Hok' & Hd & _ & _ & Hr & _); [lia| |].
  { rewrite space_len_ok by done. cbn. lia. }
  exists b'. by split_and!.
Qed.

(** One round of the loop with an empty input list. *)
Lemma read_round fuel c w f bs w' er l' es e p' :
  s_input c = [] → s_sock c = Some f → sys_read N f 20000 w = (w', Zlen bs, er, bs) → 0 < Zlen bs ≤ 20000 →
  llhttp_execute (s_ll c) (init bs) = (l', es, e) → run_events (s_parser c) es = Ret p' →
  let c' := mkSync (Some f) p' l' (drop (length (delivered (s_parser c))) (delivered p')) (s_output c) in
  http_syncsocket_read_message (S fuel) c w =
    if decide (e = HPE_OK) then http_syncsocket_read_message fuel c' w' else Ret (Some (c', w', -1, None)).
Proof.
  intros Hi Hs Hr Hl Hex Hrun c'. cbn [http_syncsocket_read_message]. rewrite Hi, new_with_capacity_ok by done.
  rewrite bind_ret_l, Hs. cbn [deref]. rewrite bind_ret_l.
  change (IOBuffer_space_len (iob_at0 (malloc_block (20000 + 1)) 20000 0)) with 20000. rewrite Hr.
  rewrite (proj2 (Z.ltb_lt _ _)) by lia.
  destruct (received_ok bs Hl) as (iob & -> & Hok & Hd & Hdl). rewrite bind_ret_l.
  destruct (consume_buffer_ok HPE_OK llhttp_execute llhttp_finish llhttp_message_needs_eof (s_parser c) p' (s_ll c) l'
    es e iob Hok) as (iob2 & -> & _); [lia|by rewrite Hd|done|]. rewrite bind_ret_l. by case_decide.
Qed.

Lemma read_chunks chunks : ∀ n c w f w1 l1 p1,
  s_input c = [] → s_sock c = Some f → gives f chunks w = Some w1 → takes chunks (s_ll c) (s_parser c) = Some (l1, p1) →
  http_syncsocket_read_message (length chunks + n) c w =
    http_syncsocket_read_message n (mkSync (Some f) p1 l1 [] (s_output c)) w1.
Proof.
  induction chunks as [|bs chunks IH]; intros n c w f w1 l1 p1 Hi Hs Hg Ht; cbn [gives takes length Nat.add] in *.
  - injection Hg as <-. injection Ht as <- <-. destruct c. cbn in *. by subst.
  - destruct (sys_read N f 20000 w) as [[[w' k] er] bs'] eqn:Er.
    case_decide as Hc; [|done]. destruct Hc as (-> & -> & Hl).
    destruct (llhttp_execute (s_ll c) (init bs)) as [[l' es] e] eqn:Ex.
    destruct (run_events (s_parser c) es) as [p'| |] eqn:Ee; [|done..].
    destruct (decide (e = HPE_OK ∧ _)) as [[-> Hd]|]; [|done].
    rewrite (read_round _ c w f bs w' er l' es HPE_OK p') by done. rewrite decide_True, Hd by done.
    by rewrite (IH n _ w' f w1 l1 p1).
Qed.

(** ** Properties *)

(** C28: Reading a message on the blocking socket. The read first gives what is already in
    the input list, without touching the socket. Otherwise it reads and parses as many
    chunks as it takes, in one round for each: it returns 0 with the first message as
    soon as a chunk completes one, leaving the others in the list, and -1 when the parser
    rejects a chunk, or when the socket ends or fails - also when the end of the
    connection is what would have completed the message. *)
Theorem http_syncsocket_reads_message c f chunks w w1 l1 p1 w2 n er bs :
  s_sock c = Some f → s_input c = [] → gives f chunks w = Some w1 →
  takes chunks (s_ll c) (s_parser c) = Some (l1, p1) → sys_read N f 20000 w1 = (w2, n, er, bs) →
  (∀ m ms fuel, http_syncsocket_read_message (S fuel) (s_with_input c (m :: ms)) w =
     Ret (Some (s_with_input c ms, w, 0, Some m))) ∧
  (n ≤ 0 → ∀ fuel, (length chunks < fuel)%nat →
     http_syncsocket_read_message fuel c w = Ret (Some (mkSync (Some f) p1 l1 [] (s_output c), w2, -1, None))) ∧
  (∀ l2 es e p2, n = Zlen bs → 0 < n ≤ 20000 → llhttp_execute l1 (init bs) = (l2, es, e) → run_events p1 es = Ret p2 →
     let ms := drop (length (delivered p1)) (delivered p2) in
     ∀ fuel, (length chunks + 1 < fuel)%nat →
       if decide (e = HPE_OK) then
         ∀ m rest, ms = m :: rest →
           http_syncsocket_read_message fuel c w = Ret (Some (mkSync (Some f) p2 l2 rest (s_output c), w2, 0, Some m))
       else http_syncsocket_read_message fuel c w = Ret (Some (mkSync (Some f) p2 l2 ms (s_output c), w2, -1, None))).
Proof.
  intros Hs Hi Hg Ht Hr. split_and!; [done|..].
  - intros Hn fuel Hf. replace fuel with (length chunks + S (fuel - length chunks - 1))%nat by lia.
    rewrite (read_chunks _ _ c w f w1 l1 p1) by done. cbn [http_syncsocket_read_message s_input].
    rewrite new_with_capacity_ok by done. rewrite bind_ret_l. cbn [s_sock deref]. rewrite bind_ret_l.
    change (IOBuffer_space_len (iob_at0 (malloc_block (20000 + 1)) 20000 0)) with 20000. rewrite Hr.
    by rewrite (proj2 (Z.ltb_ge _ _)) by lia.
  - intros l2 es e p2 -> Hl Hex Hrun ms fuel Hf.
    replace fuel with (length chunks + S (S (fuel - length chunks - 2)))%nat by lia.
    rewrite (read_chunks _ _ c w f w1 l1 p1) by done.
    rewrite (read_round _ (mkSync (Some f) p1 l1 [] (s_output c)) w1 f bs w2 er l2 es e p2) by done.
    cbn [s_parser s_output]. fold ms. case_decide; [|done]. intros m rest ->. done.
Qed.

(** Writing a message on the blocking socket: the value returned tells little. When the
    kernel takes the whole text the function returns the error number left over from
    earlier calls, not a success; when it takes only part of it the program aborts;
    when it fails the error number is returned as in the success case, and only a write
    of nothing gives -1. *)
Theorem http_syncsocket_write_status c f msg iob out w w' n er :
  s_sock c = Some f → http_message_serialize llhttp_method_name msg = Ret iob →
  iob_ok iob → iob_data iob = init out → out ≠ [] → sys_write N f out w = (w', n, er) → n ≤ Zlen out →
  http_syncsocket_write_message c msg w =
    if n =? Zlen out then Ret (w', er)
    else if 0 <? n then AssertFail else Ret (w', if n =? 0 then -1 else er).
Proof.
  intros Hs Hser Hok Hd Hne Hw Hn. unfold http_syncsocket_write_message. rewrite Hser, bind_ret_l.
  pose proof (iob_data_size iob Hok) as Hsz. rewrite Hd, msize_init in Hsz.
  unfold IOBuffer_data_len, IOBuffer_data. rewrite <- Hsz.
  rewrite assert_true by (destruct out; [done|]; cbn; bool_prop; lia). rewrite bind_ret_l, Hs. cbn [deref].
  rewrite bind_ret_l. destruct Hok. rewrite mem_load_ok by lia. rewrite bind_ret_l, Hsz. fold (iob_data iob). rewrite Hd.
  assert (mapM id (init out) = Some out) as ->.
  { clear. induction out as [|b out IH]; [done|]. change (init (b :: out)) with (Some b :: init out).
    cbn [mapM]. cbn. by rewrite IH. }
  cbn [deref]. rewrite bind_ret_l, Hw. unfold Zlen. rewrite <- Hsz.
  destruct (n =? Z.of_nat (length out)); [done|]. cbn [negb]. destruct (0 <? n); [done|]. by destruct (n =? 0).
Qed.
End Sync.
Arguments HttpSyncSocket : clear implicits.

(** ** Witnesses: a socket that gives its chunks and takes four bytes at most; the llhttp
    of [HttpConnection] *)

Definition ex_sync_net : net (list (list byte)) unit := mkNet _ _
  (fun _ _ _ w => (w, 5)) (fun _ _ _ _ w => (w, 0)) (fun _ => ()) (fun _ _ => None)
  (fun _ _ _ _ w => (w, 0)) (fun _ _ w => (w, 0)) (fun _ _ _ _ w => (w, 0))
  (fun _ _ => 0) (fun _ _ w => (w, 0)) (fun _ _ w => (w, 0))
  (fun _ _ w => match w with [] => ([], 0, 0, []) | bs :: w => (w, Zlen bs, 0, bs) end)
  (fun _ out w => (w, Z.min 4 (Zlen out), 0)) (fun _ w => (w, 0)).
Definition ex_sync : HttpSyncSocket unit := mkSync (Some 5) ex_parser () [] [].

(** A whole request in the first chunk, then the end of the connection. *)
Lemma http_syncsocket_reads_message_witness :
  ∃ c w, http_syncsocket_read_message ex_sync_net 0 ex_llhttp (fun l => (l, [], 0)) (fun _ => false) 2 ex_sync [bytes "GET"] =
    Ret (Some (c, w, 0, Some (ex_message ex_request))) ∧ w = [].
Proof.
  destruct (http_syncsocket_reads_message ex_sync_net 0 ex_llhttp (fun l => (l, [], 0)) (fun _ => false)
    ex_sync 5 [] [bytes "GET"] [bytes "GET"] () ex_parser [] 3 0 (bytes "GET")) as (_ & _ & H); [reflexivity..|].
  specialize (H () (snd (fst (ex_llhttp () (init (bytes "GET"))))) 0 (ex_after (init (bytes "GET"))) eq_refl).
  eexists _, _. split; [|reflexivity].
  refine (H _ _ _ 2%nat _ (ex_message ex_request) [] _); [lia|reflexivity|vm_compute; reflexivity|cbn; lia|vm_compute; reflexivity].
Defined.

(** A text longer than four bytes ends the program. *)
Lemma http_syncsocket_write_status_witness :
  http_syncsocket_write_message ex_sync_net ex_method_name ex_sync (ex_message ex_response) [] = AssertFail.
Proof.
  destruct (http_message_serialize ex_method_name (ex_message ex_response)) as [iob| |] eqn:E;
    [|vm_compute in E; discriminate E..].
  set (out := match mapM id (iob_data iob) with Some l => l | None => [] end).
  assert (iob_ok iob ∧ iob_data iob = init out ∧ 4 < Zlen out) as (Hok & Hd & Hl).
  { unfold out. vm_compute in E. injection E as <-. split; [constructor; vm_compute; done|]. by split; vm_compute. }
  assert ((4 =? Zlen out) = false) as E4 by (apply Z.eqb_neq; lia).
  pose proof (http_syncsocket_write_status ex_sync_net ex_method_name ex_sync 5 (ex_message ex_response) iob out [] []
    4 0 eq_refl E Hok Hd) as H.
  rewrite E4 in H. apply H; [intros Ho; rewrite Ho in Hl; discriminate Hl| |lia].
  cbn [ex_sync_net sys_write]. by rewrite Z.min_l by lia.
Defined.
