(* ===== verification/KqRunloop.v ===== *)
(** * KqRunloop: the event loop over kqueue (src/runloop/kqueue_runloop/runloop.c,
    rl_internal.h, rl_events_internal.h)

    The same loop for another kernel. Its watchers are events, objects of the pool of
    [EventTable]; the kernel hands the pointer to an event back with each occurrence. The
    loop runs the functors that are ready, and waits in kevent when there is none. The
    kernel, the handlers of the events and the functions behind functors are parameters
    that act on the loop and on the world. *)

From S2P Require Import Prelude FunctorList EventTable.
Open Scope Z_scope.

Definition EVFILT_READ : Z := -1.
Definition EVFILT_WRITE : Z := -2.
Definition EVFILT_SIGNAL : Z := -6.
Definition EVFILT_TIMER : Z := -7.
Definition EVFILT_USER : Z := -10.
Definition EV_ADD : Z := 1.
Definition EV_DELETE : Z := 2.
Definition EV_ENABLE : Z := 4.
Definition EV_DISABLE : Z := 8.
Definition EV_ONESHOT : Z := 16.
Definition EV_RECEIPT : Z := 64.
Definition EV_DISPATCH : Z := 128.
Definition NOTE_TRIGGER : Z := 16777216.
Definition EINTR : Z := 4.

(** [struct kevent], and EV_SET. A pointer to an event is the index of its slab. *)
Record kevent_t := mkKev { ident : Z; filter : Z; flags : Z; fflags : Z; data : Z; udata : option Z }.
Definition EV_SET : Z → Z → Z → Z → Z → option Z → kevent_t := mkKev.

(** The result of kevent: the events that occurred (none after the timeout), or an error. *)
Inductive kevent_result := KEvents (events : list kevent_t) | KError (errno : Z).

(** The calls of the kernel: the arguments of kevent are the queue, the changes, the
    number of events asked for, and the timeout in seconds and nanoseconds. *)
Record kqueue_sys (W : Type) := mkKq {
  kqueue : W → W * Z;
  kevent : Z → list kevent_t → Z → option (Z * Z) → W → W * kevent_result;
  close : Z → W → W * Z
}.
Arguments mkKq {W}.
Arguments kqueue {W}.
Arguments kevent {W}.
Arguments close {W}.

(** ** Events *)

Section Events.
Context {fn arg_t : Type}.

Record timer_t := mkTimer {
  interval : Z;
  repeating : bool;
  timer_postable : option fn;
  timer_postable_arg : option arg_t
}.
Record listener_t := mkListener {
  l_fd : Z;
  listen_postable : option fn;
  listen_postable_arg : option arg_t
}.
Record stream_t := mkStream {
  s_fd : Z;
  event_mask : Z;
  read_postable_cb : option fn;
  read_postable_arg : option arg_t;
  write_postable_cb : option fn;
  write_postable_arg : option arg_t
}.
(** The descriptors are those of a configuration that is not compiled; they and the
    postable are not set by the constructor. *)
Record uevent_t := mkUevent {
  uevent_postable : option fn;
  uevent_postable_arg : option arg_t;
  write_fd : option Z;
  read_fd : option Z
}.

(** The tags at both ends of an event: a string each, set by the constructors, and by the
    operations of streams and user events. *)
Inductive etag := STREAM_TAG | Listener_TAG | Timer_TAG | EventFd_TAG.
Definition etag_eqb (a b : etag) : bool :=
  match a, b with
  | STREAM_TAG, STREAM_TAG | Listener_TAG, Listener_TAG | Timer_TAG, Timer_TAG | EventFd_TAG, EventFd_TAG => true
  | _, _ => false
  end.

(** The union as bytes: six words, in which the members are laid out one over the other
    (a descriptor is the low half of a word). [W_any] is a word that nothing has set. *)
Inductive word :=
| W_int (z : Z)
| W_bool (b : bool)
| W_fn (g : option fn)
| W_arg (a : option arg_t)
| W_fds (wfd rfd : option Z)
| W_any.

(** The tags and the union: those of one member, as its constructor and its own operations
    leave them, or any other mixture, which the operations of another member leave. *)
Inductive variant :=
| V_timer (t : timer_t)
| V_listener (l : listener_t)
| V_stream (s : stream_t)
| V_uevent (u : uevent_t)
| V_mixed (tag end_tag : etag) (ws : list word).

Definition tag_of (v : variant) : etag :=
  match v with
  | V_timer _ => Timer_TAG | V_listener _ => Listener_TAG | V_stream _ => STREAM_TAG | V_uevent _ => EventFd_TAG
  | V_mixed t _ _ => t
  end.
Definition end_tag_of (v : variant) : etag := match v with V_mixed _ t _ => t | _ => tag_of v end.

Definition unset {A} (mk : option A → word) (o : option A) : word := match o with Some _ => mk o | None => W_any end.
Definition words_of (v : variant) : list word :=
  match v with
  | V_timer t => [W_any; W_int (interval t); W_bool (repeating t); W_fn (timer_postable t); W_arg (timer_postable_arg t); W_any]
  | V_listener l => [W_int (l_fd l); W_fn (listen_postable l); W_arg (listen_postable_arg l); W_any; W_any; W_any]
  | V_stream s => [W_int (s_fd s); W_int (event_mask s); W_fn (read_postable_cb s); W_arg (read_postable_arg s);
                   W_fn (write_postable_cb s); W_arg (write_postable_arg s)]
  | V_uevent u => [unset W_fn (uevent_postable u); unset W_arg (uevent_postable_arg u); W_fds (write_fd u) (read_fd u); W_any; W_any; W_any]
  | V_mixed _ _ ws => ws
  end.

(** The member that tags and words are, when they are one. *)
Definition fn_or_unset (w : word) : option (option fn) := match w with W_fn (Some g) => Some (Some g) | W_any => Some None | _ => None end.
Definition arg_or_unset (w : word) : option (option arg_t) := match w with W_arg (Some a) => Some (Some a) | W_any => Some None | _ => None end.
Definition to_variant (tag end_tag : etag) (ws : list word) : variant :=
  match tag, end_tag, ws with
  | Timer_TAG, Timer_TAG, [W_any; W_int i; W_bool r; W_fn g; W_arg a; W_any] => V_timer (mkTimer i r g a)
  | Listener_TAG, Listener_TAG, [W_int d; W_fn g; W_arg a; W_any; W_any; W_any] => V_listener (mkListener d g a)
  | STREAM_TAG, STREAM_TAG, [W_int d; W_int m; W_fn g; W_arg a; W_fn h; W_arg b] => V_stream (mkStream d m g a h b)
  | EventFd_TAG, EventFd_TAG, [w0; w1; W_fds wfd rfd; W_any; W_any; W_any] =>
      match fn_or_unset w0, arg_or_unset w1 with
      | Some g, Some a => V_uevent (mkUevent g a wfd rfd)
      | _, _ => V_mixed tag end_tag ws
      end
  | _, _, _ => V_mixed tag end_tag ws
  end.

(** Stores at words of the union, in order. *)
Definition store_words (ups : list (nat * word)) (ws : list word) : list word :=
  foldl (λ ws u, <[fst u := snd u]> ws) ws ups.

(** The first-level handlers, one for each kind of event. *)
Inductive first_level := H_timer | H_listener | H_stream | H_user_event.

(** [runloop] says whether the event still points to its loop; [context], which nothing
    reads, is left out. *)
Record RunloopEvent := mkEvent {
  runloop : bool;
  handler : option first_level;
  var : variant
}.

(** ** The loop *)

Record Runloop := mkRunloop {
  kqueue_fd : Z;
  closed_flag : bool;
  runloop_executing : bool;
  event_table : EventTable RunloopEvent;
  change : list kevent_t;
  ready_list : FunctorList fn arg_t
}.
End Events.
Arguments timer_t : clear implicits.
Arguments listener_t : clear implicits.
Arguments stream_t : clear implicits.
Arguments uevent_t : clear implicits.
Arguments variant : clear implicits.
Arguments word : clear implicits.
Arguments RunloopEvent : clear implicits.
Arguments Runloop : clear implicits.

Definition runloop_MAX_EVENTS : Z := runloop_MAX_FDS * 2.

Section KqRunloop.
Context {fn arg_t W : Type}.
Variable K : kqueue_sys W.
Abbreviation loop := (Runloop fn arg_t).
Abbreviation st := (loop * W)%type.

Definition set_closed (rl : loop) : loop :=
  mkRunloop (kqueue_fd rl) true (runloop_executing rl) (event_table rl) (change rl) (ready_list rl).
Definition set_executing (b : bool) (rl : loop) : loop :=
  mkRunloop (kqueue_fd rl) (closed_flag rl) b (event_table rl) (change rl) (ready_list rl).
Definition set_ready (rl : loop) (l : FunctorList fn arg_t) : loop :=
  mkRunloop (kqueue_fd rl) (closed_flag rl) (runloop_executing rl) (event_table rl) (change rl) l.
Definition set_events (rl : loop) (t : EventTable (RunloopEvent fn arg_t)) : loop :=
  mkRunloop (kqueue_fd rl) (closed_flag rl) (runloop_executing rl) t (change rl) (ready_list rl).

(** No change is ever put in the change table. *)
Definition runloop_init (wd : W) : outcome st :=
  let '(wd, fd) := kqueue K wd in
  c_assert (negb (fd =? -1));;
  t ← event_table_new true;
  l ← functor_list_new runloop_READY_LIST_MAX;
  Ret (mkRunloop fd false false t [] l, wd).
Definition runloop_new (malloc_ok : bool) (wd : W) : outcome st := c_assert malloc_ok;; runloop_init wd.

Definition runloop_close (s : st) : outcome st :=
  let '(rl, wd) := s in
  let '(wd, status) := close K (kqueue_fd rl) wd in
  c_assert (negb (status =? -1));;
  Ret (set_closed rl, wd).
Definition runloop_free (s : st) : outcome W :=
  '(rl, wd) ← (if negb (closed_flag (fst s)) then runloop_close s else Ret s);
  _ ← functor_list_free (Some (ready_list rl));
  Ret wd.

(** The calls that change what the queue watches ignore its answer. *)
Definition kevent_change (changes : list kevent_t) (s : st) : st :=
  let '(wd, _) := kevent K (kqueue_fd (fst s)) changes 0 None (snd s) in (fst s, wd).

Definition runloop_register_timer (id : Z) (one_shot : bool) (milli_secs : Z) (s : st) : st * Z :=
  let flags := Z.lor (Z.lor (Z.lor EV_ADD EV_ENABLE) EV_RECEIPT) (if one_shot then EV_ONESHOT else 0) in
  (kevent_change [EV_SET id EVFILT_TIMER flags 0 milli_secs None] s, 0).
Definition runloop_cancel_timer (id : Z) (s : st) : st * Z :=
  (kevent_change [EV_SET id EVFILT_TIMER (Z.lor EV_DELETE EV_RECEIPT) 0 0 None] s, 0).
Definition runloop_register (fd interest : Z) (s : st) : st * Z := (s, 0).

Definition runloop_get_change_table (rl : loop) : list kevent_t := change rl.
Definition runloop_get_change_table_size (rl : loop) : Z := Zlen (change rl).
Definition runloop_get_max_events (rl : loop) : Z := runloop_MAX_EVENTS.

Definition runloop_post (cb : option fn) (a : option arg_t) (s : st) : outcome st :=
  let '(rl, wd) := s in
  c_assert (bool_decide (is_Some cb));;
  c_assert (bool_decide (is_Some a));;
  l ← functor_list_add (ready_list rl) (mkFunctor cb a);
  Ret (set_ready rl l, wd).

(** The functions behind functors, and the first-level handlers with the pointer to the
    event, the filter and the flags of the occurrence. *)
Variable call : fn → option arg_t → st → outcome st.
Variable call_handler : first_level → Z → Z → Z → st → outcome st.

Definition dispatch_event (ke : kevent_t) (s : st) : outcome st :=
  p ← deref (udata ke);
  e ← get_event (event_table (fst s)) p;
  h ← deref (handler e);
  call_handler h p (u16 (filter ke)) (u16 (flags ke)) s.
Fixpoint dispatch_events (events : list kevent_t) (s : st) : outcome st :=
  match events with
  | [] => Ret s
  | ke :: events => s ← dispatch_event ke s; dispatch_events events s
  end.

(** The inner loop of [runloop_run]: ready functors, those posted meanwhile included. *)
Fixpoint run_ready (fuel : nat) (s : st) : outcome (option st) :=
  match fuel with
  | O => Ret None
  | S fuel =>
      let '(rl, wd) := s in
      n ← functor_list_size (ready_list rl);
      if n =? 0 then Ret (Some s) else
      '(l, func) ← functor_list_remove (ready_list rl);
      g ← deref (f func);
      '(rl, wd) ← call g (arg func) (set_executing true (set_ready rl l), wd);
      let rl := set_executing false rl in
      n ← functor_list_size (ready_list rl);
      if n =? 0 then Ret (Some (rl, wd)) else run_ready fuel (rl, wd)
  end.

(** Milliseconds as the code turns them into a timespec. *)
Definition timeout_of (timeout_ms : Z) : option (Z * Z) :=
  if 0 <? timeout_ms then Some (Z.quot timeout_ms 1000, 1000 * Z.rem timeout_ms 1000) else None.

Fixpoint runloop_run (fuel : nat) (timeout_ms : Z) (s : st) : outcome (option (st * Z)) :=
  match fuel with
  | O => Ret None
  | S fuel =>
      let '(rl, wd) := s in
      n ← functor_list_size (ready_list rl);
      if (n =? 0) && (0 =? event_table_number_in_use (event_table rl)) then Ret (Some (s, 0))
      else if n =? 0 then
        let '(wd, r) := kevent K (kqueue_fd rl) (runloop_get_change_table rl) (runloop_get_max_events rl)
                          (timeout_of timeout_ms) wd in
        match r with
        | KError e => Ret (Some ((rl, wd), if e =? EINTR then -1 else if closed_flag rl then 0 else -1))
        | KEvents [] => let '(wd, _) := close K (kqueue_fd rl) wd in Ret (Some ((set_closed rl, wd), 0))
        | KEvents events => s ← dispatch_events events (rl, wd); runloop_run fuel timeout_ms s
        end
      else
        r ← run_ready fuel (rl, wd);
        match r with Some s => runloop_run fuel timeout_ms s | None => Ret None end
  end.

(** ** The abstract loop: the ready ring is a queue, and the functors run one by one *)

Record astate := mkA {
  queue : list (fn * arg_t);
  pool_of : EventTable (RunloopEvent fn arg_t);
  a_closed : bool;
  world_of : W
}.
Definition a_with (q : list (fn * arg_t)) (a : astate) : astate := mkA q (pool_of a) (a_closed a) (world_of a).

Variable kq : Z.
Variable acall : fn → arg_t → astate → outcome astate.
Variable ahandler : first_level → Z → Z → Z → astate → outcome astate.

Fixpoint a_events (events : list kevent_t) (a : astate) : outcome astate :=
  match events with
  | [] => Ret a
  | ke :: events =>
      p ← deref (udata ke);
      e ← get_event (pool_of a) p;
      h ← deref (handler e);
      a ← ahandler h p (u16 (filter ke)) (u16 (flags ke)) a;
      a_events events a
  end.

(** One step: the next functor; when there is none, the end if no event is in use, and
    otherwise one wait. *)
Definition a_step (timeout_ms : Z) (a : astate) : outcome (astate + astate * Z) :=
  match queue a with
  | (g, x) :: q => a ← acall g x (a_with q a); Ret (inl a)
  | [] =>
      if 0 =? event_table_number_in_use (pool_of a) then Ret (inr (a, 0)) else
      let '(wd, r) := kevent K kq [] runloop_MAX_EVENTS (timeout_of timeout_ms) (world_of a) in
      match r with
      | KError e => Ret (inr (mkA [] (pool_of a) (a_closed a) wd, if e =? EINTR then -1 else if a_closed a then 0 else -1))
      | KEvents [] => let '(wd, _) := close K kq wd in Ret (inr (mkA [] (pool_of a) true wd, 0))
      | KEvents events => a ← a_events events (mkA [] (pool_of a) (a_closed a) wd); Ret (inl a)
      end
  end.

(** At most [n] steps. *)
Fixpoint a_run (n : nat) (timeout_ms : Z) (a : astate) : outcome (option (astate * Z)) :=
  match n with
  | O => Ret None
  | S n =>
      r ← a_step timeout_ms a;
      match r with inl a => a_run n timeout_ms a | inr r => Ret (Some r) end
  end.

(** ** Representation *)

Definition to_functor (p : fn * arg_t) : Functor fn arg_t := mkFunctor (Some (fst p)) (Some (snd p)).

Record loop_rep (s : st) (a : astate) : Prop := {
  lr_kq : kqueue_fd (fst s) = kq;
  lr_change : change (fst s) = [];
  lr_pool : event_table (fst s) = pool_of a;
  lr_closed : closed_flag (fst s) = a_closed a;
  lr_ready : fl_rep (ready_list (fst s)) (to_functor <$> queue a);
  lr_cap : capacity (ready_list (fst s)) = runloop_READY_LIST_MAX;
  lr_world : snd s = world_of a
}.

(** Functions and handlers do to the loop what their counterparts do to the abstract one. *)
Hypothesis call_sim : ∀ g x s a, loop_rep s a → refines loop_rep (call g (Some x) s) (acall g x a).
Hypothesis handler_sim : ∀ h p fi fl s a,
  loop_rep s a → refines loop_rep (call_handler h p fi fl s) (ahandler h p fi fl a).

(** Results of runs: the same exit code, and states that match. *)
Definition exits (o : option (st * Z)) (r : option (astate * Z)) : Prop :=
  match o, r with
  | Some (s, n), Some (a, m) => n = m ∧ loop_rep s a
  | None, None => True
  | _, _ => False
  end.

Lemma events_sim events : ∀ s a, loop_rep s a → refines loop_rep (dispatch_events events s) (a_events events a).
Proof using handler_sim.
  induction events as [|ke events IH]; intros s a Hrep; cbn [dispatch_events a_events]; [by exists s|].
  unfold dispatch_event. rewrite (lr_pool _ _ Hrep), !bind_assoc. apply refines_same. intros p _.
  rewrite !bind_assoc. apply refines_same. intros e _. rewrite !bind_assoc. apply refines_same. intros h _.
  eapply refines_bind; [by apply handler_sim|]. intros s' a' _ _ Hrep'. by apply IH.
Qed.

Lemma post_sim g x s a :
  loop_rep s a →
  refines loop_rep (runloop_post (Some g) (Some x) s)
    (if Zlen (queue a) <? runloop_READY_LIST_MAX - 1 then Ret (a_with (queue a ++ [(g, x)]) a) else AssertFail).
Proof.
  intros [Hk Hch Hp Hc Hr Hcap Hw]. destruct s as [rl wd]. cbn [fst snd] in *. unfold runloop_post.
  rewrite !bool_decide_true by eauto. cbn [c_assert]. rewrite !bind_ret_l.
  assert (Zlen (to_functor <$> queue a) = Zlen (queue a)) as Hz by (unfold Zlen; by rewrite length_fmap).
  destruct (Z.ltb_spec (Zlen (queue a)) (runloop_READY_LIST_MAX - 1)); cbn [refines].
  - destruct (fl_add_ok _ _ (mkFunctor (Some g) (Some x)) Hr) as (l' & -> & Hr' & Hc'); [lia|].
    rewrite bind_ret_l. eexists. split; [done|].
    constructor; cbn [fst snd set_ready kqueue_fd change event_table closed_flag ready_list queue a_with pool_of a_closed world_of];
      try done; [by rewrite fmap_app|by rewrite Hc'].
  - destruct Hr as [? ? ? ? Hroom ?] eqn:Er. by rewrite (fl_add_full _ _ _ Hr) by lia.
Qed.

Lemma executing_rep b s a : loop_rep s a → loop_rep (set_executing b (fst s), snd s) a.
Proof. intros []. by constructor. Qed.

Lemma ready_rep rl wd a p q l :
  loop_rep (rl, wd) a → queue a = p :: q → fl_rep l (to_functor <$> q) → capacity l = capacity (ready_list rl) →
  loop_rep (set_ready rl l, wd) (a_with q a).
Proof. intros [] Hq Hl Hc. constructor; cbn in *; try done. congruence. Qed.

Lemma rep_size rl wd a : loop_rep (rl, wd) a → functor_list_size (ready_list rl) = Ret (Zlen (queue a)).
Proof. intros Hrep. change rl with (fst (rl, wd)). rewrite (fl_size_ok _ _ (lr_ready _ _ Hrep)). unfold Zlen. by rewrite length_fmap. Qed.

(** The inner loop takes some of the steps of the abstract run, or fails as it does. *)
Lemma drain n : ∀ f t s a,
  loop_rep s a → queue a ≠ [] → (n ≤ f)%nat → a_run n t a ≠ Ret None →
  (∃ s' a' n', (n' < n)%nat ∧ run_ready f s = Ret (Some s') ∧ loop_rep s' a' ∧ a_run n t a = a_run n' t a') ∨
  (run_ready f s = AssertFail ∧ a_run n t a = AssertFail) ∨ (run_ready f s = Ub ∧ a_run n t a = Ub).
Proof using call_sim.
  induction n as [|n IH]; intros f t s a Hrep Hq Hle Hr; [done|].
  destruct f as [|f]; [lia|]. destruct (queue a) as [|[g x] q] eqn:Eq; [done|]. destruct s as [rl wd].
  cbn [run_ready]. rewrite (rep_size _ _ _ Hrep), bind_ret_l, Eq, Zlen_cons.
  pose proof (Zlen_nonneg q). rewrite (proj2 (Z.eqb_neq _ _)) by lia.
  pose proof (lr_ready _ _ Hrep) as Hfl. rewrite Eq in Hfl. cbn [fmap list_fmap fst] in Hfl.
  destruct (fl_remove_ok _ _ _ Hfl) as (l & -> & Hl & Hcap). rewrite bind_ret_l. cbn [to_functor FunctorList.f arg fst snd deref].
  rewrite bind_ret_l. pose proof (ready_rep rl wd a _ q l Hrep Eq Hl Hcap) as Hrep1.
  pose proof (call_sim g x _ _ (executing_rep true _ _ Hrep1)) as Hc. cbn [fst snd] in Hc.
  revert Hr. cbn [a_run]. unfold a_step. rewrite Eq.
  destruct (acall g x (a_with q a)) as [a1| |]; cbn [refines] in Hc; intros Hr;
    [|right; left; by rewrite Hc|right; right; by rewrite Hc].
  destruct Hc as ([rl1 wd1] & -> & Hrep2). rewrite bind_ret_l in *.
  pose proof (executing_rep false _ _ Hrep2) as Hrep3. cbn [fst snd] in Hrep3.
  rewrite (rep_size _ _ _ Hrep3), bind_ret_l.
  destruct (Z.eqb_spec (Zlen (queue a1)) 0) as [H0|H0].
  - left. exists (set_executing false rl1, wd1), a1, n. split_and!; [lia|done|done|done].
  - destruct (IH f t _ a1 Hrep3) as [(s' & a' & n' & Hlt & Hs & Hrep' & He)|H1].
    + by intros E; rewrite E in H0.
    + lia.
    + done.
    + left. exists s', a', n'. split_and!; [lia|done|done|done].
    + by right.
Qed.

Lemma run_sim t f : ∀ n s a,
  loop_rep s a → (n < f)%nat → a_run n t a ≠ Ret None → refines exits (runloop_run f t s) (a_run n t a).
Proof using call_sim handler_sim.
  induction f as [|f IH]; intros n s a Hrep Hlt Hr; [lia|].
  destruct n as [|n]; [done|]. destruct s as [rl wd]. cbn [runloop_run].
  rewrite (rep_size _ _ _ Hrep), bind_ret_l. destruct (queue a) as [|p q] eqn:Eq.
  - change (Zlen [] =? 0) with true. cbn [andb]. revert Hr. cbn [a_run]. unfold a_step. rewrite Eq.
    pose proof Hrep as [Hk Hch Hp Hc Hfl Hcap Hw]. cbn [fst snd] in Hk, Hch, Hp, Hc, Hfl, Hcap, Hw.
    rewrite Hp, Hk. unfold runloop_get_change_table, runloop_get_max_events. rewrite Hch, Hw.
    destruct (0 =? event_table_number_in_use (pool_of a)); [intros _; by eexists|].
    destruct (kevent K kq [] runloop_MAX_EVENTS (timeout_of t) (world_of a)) as [wd' r].
    assert (∀ c wd1, loop_rep (mkRunloop (kqueue_fd rl) c (runloop_executing rl) (event_table rl) (change rl) (ready_list rl), wd1)
      (mkA [] (pool_of a) c wd1)) as Hany by (intros; constructor; cbn; rewrite ?Eq in Hfl; done).
    destruct r as [[|ke evs]|e].
    + destruct (close K kq wd') as [wd'' r]. intros _. eexists. split; [done|]. split; [done|]. apply Hany.
    + pose proof (events_sim (ke :: evs) _ _ (Hany (closed_flag rl) wd')) as He. rewrite <- Hc.
      assert (mkRunloop (kqueue_fd rl) (closed_flag rl) (runloop_executing rl) (event_table rl) (change rl) (ready_list rl) = rl)
        as Heta by (by destruct rl). rewrite Heta in He.
      destruct (a_events (ke :: evs) _) as [a1| |]; cbn [refines] in He; intros Hr; [|by rewrite He..].
      destruct He as (s1 & -> & Hrep1). rewrite !bind_ret_l in *. apply IH; [done|lia|done].
    + intros _. eexists. split; [done|]. split; [by rewrite Hc|]. rewrite <- Hc.
      specialize (Hany (closed_flag rl) wd'). by destruct rl.
  - rewrite Zlen_cons. pose proof (Zlen_nonneg q). rewrite (proj2 (Z.eqb_neq _ _)) by lia. cbn [andb].
    destruct (drain (S n) f t _ a Hrep) as [(s' & a' & n' & Hn & Hs & Hrep' & He)|[[Hs He]|[Hs He]]];
      [by rewrite Eq|lia|done|..]; rewrite Hs; [|by rewrite He..].
    rewrite bind_ret_l, He. apply IH; [done|lia|by rewrite <- He].
Qed.

(** C21: The kqueue loop computes the runs of the abstract loop: when the functions behind
    functors and the handlers of events do what their abstract counterparts do, a run
    that the abstract loop finishes within [n] steps is, with any fuel above [n], a run
    of the loop with the same exit code and a matching state, and an abort or undefined
    behaviour of one is that of the other. In particular functors run one at a time in
    the order they were posted, all that are ready before the next wait, and the loop
    returns 0 when no functor is ready and no event in use. *)
Theorem kq_runloop_run_refines t n fuel s a :
  loop_rep s a → a_run n t a ≠ Ret None → (n < fuel)%nat →
  refines exits (runloop_run fuel t s) (a_run n t a).
Proof using call_sim handler_sim. intros Hrep Hr Hf. by apply run_sim. Qed.
End KqRunloop.

Arguments astate : clear implicits.

(** ** Witness: one timer, whose handler gives the event back and posts function 1, which
    posts function 2, which writes its argument to the log *)

Definition ex_kq_world : Type := list (list kevent_t) * list nat.
Definition ex_kq : kqueue_sys ex_kq_world := mkKq (λ w, (w, 3))
  (λ _ _ _ _ w, match fst w with [] => (w, KError EINTR) | b :: bs => ((bs, snd w), KEvents b) end) (λ _ w, (w, 0)).
Abbreviation ex_kst := (Runloop nat nat * ex_kq_world)%type.
Abbreviation ex_ka := (astate nat nat ex_kq_world).

Definition ex_kcall (g : nat) (x : option nat) (s : ex_kst) : outcome ex_kst :=
  if (g =? 1)%nat then runloop_post (Some 2%nat) x s
  else n ← deref x; Ret (fst s, (fst (snd s), n :: snd (snd s))).
Definition ex_post (g x : nat) (a : ex_ka) : outcome ex_ka :=
  if Zlen (queue a) <? runloop_READY_LIST_MAX - 1 then Ret (a_with (queue a ++ [(g, x)]) a) else AssertFail.
Definition ex_kacall (g x : nat) (a : ex_ka) : outcome ex_ka :=
  if (g =? 1)%nat then ex_post 2 x a
  else Ret (mkA (queue a) (pool_of a) (a_closed a) (fst (world_of a), x :: snd (world_of a))).
Definition ex_khandler (h : first_level) (p fi fl : Z) (s : ex_kst) : outcome ex_kst :=
  t ← event_table_release_entry (event_table (fst s)) p;
  runloop_post (Some 1%nat) (Some 5%nat) (set_events (fst s) t, snd s).
Definition ex_kahandler (h : first_level) (p fi fl : Z) (a : ex_ka) : outcome ex_ka :=
  t ← event_table_release_entry (pool_of a) p;
  ex_post 1 5 (mkA (queue a) t (a_closed a) (world_of a)).

Definition ex_pool : outcome (EventTable (RunloopEvent nat nat)) :=
  t ← event_table_new true;
  '(t, p) ← event_table_get_entry t;
  set_event t p (mkEvent true (Some H_timer) (V_timer (mkTimer 10 false None None))).
Definition ex_kstart (t : EventTable (RunloopEvent nat nat)) : ex_ka :=
  mkA [] t false ([[mkKev 0 EVFILT_TIMER 0 0 1 (Some 0)]], []).
Definition ex_krun (t : EventTable (RunloopEvent nat nat)) : outcome (option (ex_ka * Z)) :=
  a_run ex_kq 3 ex_kacall ex_kahandler 5 100 (ex_kstart t).

Lemma ex_krun_ends :
  match ex_pool with
  | Ret t => match ex_krun t with Ret (Some (a, 0)) => bool_decide (snd (world_of a) = [5%nat]) | _ => false end
  | _ => false
  end = true.
Proof. vm_compute. reflexivity. Qed.

Lemma ex_kcall_sim g x s (a : ex_ka) :
  loop_rep 3 s a → refines (loop_rep 3) (ex_kcall g (Some x) s) (ex_kacall g x a).
Proof.
  intros Hrep. unfold ex_kcall, ex_kacall. destruct (g =? 1)%nat; [by apply post_sim|]. cbn [deref].
  rewrite bind_ret_l. eexists. split; [done|]. destruct Hrep as [? ? ? ? ? ? Hw]. by constructor; cbn; rewrite ?Hw.
Qed.

Lemma ex_khandler_sim h p fi fl s (a : ex_ka) :
  loop_rep 3 s a → refines (loop_rep 3) (ex_khandler h p fi fl s) (ex_kahandler h p fi fl a).
Proof.
  intros Hrep. unfold ex_khandler, ex_kahandler. rewrite (lr_pool _ _ _ Hrep). apply refines_same. intros t _.
  apply post_sim. destruct Hrep. by constructor.
Qed.

Lemma kq_runloop_run_refines_witness :
  ∃ t s, ex_pool = Ret t ∧ loop_rep 3 s (ex_kstart t) ∧
    refines (exits 3) (runloop_run ex_kq ex_kcall ex_khandler 6 100 s)
      (a_run ex_kq 3 ex_kacall ex_kahandler 5 100 (ex_kstart t)) ∧
    ∃ a, a_run ex_kq 3 ex_kacall ex_kahandler 5 100 (ex_kstart t) = Ret (Some (a, 0)) ∧ snd (world_of a) = [5%nat].
Proof.
  pose proof ex_krun_ends as H. destruct ex_pool as [t| |]; [|discriminate H..]. unfold ex_krun in H.
  destruct (fl_new_ok (fn := nat) (arg_t := nat) runloop_READY_LIST_MAX) as (l & _ & Hl & Hc); [split; discriminate|].
  exists t, (mkRunloop 3 false false t [] l, ([[mkKev 0 EVFILT_TIMER 0 0 1 (Some 0)]], [])).
  split; [reflexivity|]. assert (loop_rep 3 (mkRunloop 3 false false t [] l, ([[mkKev 0 EVFILT_TIMER 0 0 1 (Some 0)]], [])) (ex_kstart t))
    as Hrep by (by constructor).
  split; [exact Hrep|]. split.
  - apply (kq_runloop_run_refines ex_kq ex_kcall ex_khandler 3 ex_kacall ex_kahandler ex_kcall_sim ex_khandler_sim);
      [exact Hrep| |lia].
    intros E. by rewrite E in H.
  - destruct (a_run _ _ _ _ _ _ _) as [[[a [| |]]|]| |]; try discriminate H. exists a.
    split; [reflexivity|]. by apply bool_decide_eq_true in H.
Defined.
