(* ===== verification/KqHelpers.v ===== *)
(** * KqHelpers: what the events ask the kernel to watch
    (src/runloop/kqueue_runloop/kqueue_helpers.c)

    One function for each kind of event and request; each makes a list of changes and
    passes it to kevent, whose answer is ignored. A change names a descriptor or, for
    timers, signals and user events, the address of the event. *)

From S2P Require Import Prelude FunctorList EventTable KqRunloop.
Open Scope Z_scope.

(** Flags joined with [|]. *)
Definition ADD_ENABLE : Z := Z.lor (Z.lor EV_ADD EV_ENABLE) EV_RECEIPT.
Definition ADD_DISABLE : Z := Z.lor (Z.lor EV_ADD EV_DISABLE) EV_RECEIPT.
Definition DELETE : Z := Z.lor EV_DELETE EV_RECEIPT.

Section KqHelpers.
Context {fn arg_t W : Type}.
Variable K : kqueue_sys W.
(** The address of the event in a slab. *)
Variable addr : Z → Z.
Abbreviation st := (Runloop fn arg_t * W)%type.
Abbreviation event := (RunloopEvent fn arg_t).

Definition event_at (p : Z) (s : st) : outcome event := get_event (event_table (fst s)) p.
Definition store_event (p : Z) (e : event) (s : st) : outcome st :=
  t ← set_event (event_table (fst s)) p e; Ret (set_events (fst s) t, snd s).

(** The fields of the union, by the word they are in; a word that does not hold a value of
    the type of the field has no value that could be relied on. And the loop of an event. *)
Definition word_at (k : nat) (e : event) : word fn arg_t := default W_any (words_of (var e) !! k).
Definition int_at (k : nat) (e : event) : outcome Z := match word_at k e with W_int z => Ret z | _ => Ub end.
Definition bool_at (k : nat) (e : event) : outcome bool := match word_at k e with W_bool b => Ret b | _ => Ub end.
Definition fn_at (k : nat) (e : event) : outcome (option fn) := match word_at k e with W_fn g => Ret g | _ => Ub end.
Definition arg_at (k : nat) (e : event) : outcome (option arg_t) := match word_at k e with W_arg a => Ret a | _ => Ub end.
Definition write_fd_at (e : event) : outcome Z := match word_at 2 e with W_fds (Some d) _ => Ret d | _ => Ub end.
Definition read_fd_at (e : event) : outcome Z := match word_at 2 e with W_fds _ (Some d) => Ret d | _ => Ub end.
Definition has_loop (e : event) : outcome unit := if runloop e then Ret () else Ub.

(** Checks of the tags, and stores to them and to the union. *)
Definition check_tag (t : etag) (e : event) : outcome unit := c_assert (etag_eqb (tag_of (var e)) t).
Definition check_end_tag (t : etag) (e : event) : outcome unit := c_assert (etag_eqb (end_tag_of (var e)) t).
Definition check_tags (t : etag) (e : event) : outcome unit := check_tag t e;; check_end_tag t e.
Definition with_var (v : variant fn arg_t) (e : event) : event := mkEvent (runloop e) (handler e) v.

(** Each function reads the loop of the event, and answers 0. *)
Definition kqh_fd (get : event → outcome Z) (changes : Z → list kevent_t) (p : Z) (s : st) : outcome (st * Z) :=
  e ← event_at p s;
  fd ← get e;
  has_loop e;;
  Ret (kevent_change K (changes (u64 fd)) s, 0).
(** The descriptor is the first field of both members. *)
Definition stream_fd (e : event) : outcome Z := int_at 0 e.
Definition listener_fd (e : event) : outcome Z := int_at 0 e.
Definition kqh_event (changes : list kevent_t) (p : Z) (s : st) : outcome (st * Z) :=
  e ← event_at p s;
  has_loop e;;
  Ret (kevent_change K changes s, 0).

(** ** Descriptors *)

Definition kqh_readerwriter_register (p : Z) : st → outcome (st * Z) :=
  kqh_fd stream_fd (λ id, [EV_SET id EVFILT_READ (Z.lor ADD_ENABLE EV_DISPATCH) 0 0 (Some p);
                           EV_SET id EVFILT_WRITE (Z.lor ADD_ENABLE EV_DISPATCH) 0 0 (Some p)]) p.
Definition kqh_readerwriter_cancel (p : Z) : st → outcome (st * Z) :=
  kqh_fd stream_fd (λ id, [EV_SET id EVFILT_READ DELETE 0 0 None; EV_SET id EVFILT_WRITE DELETE 0 0 None]) p.
Definition kqh_readerwriter_pause_reader (p : Z) : st → outcome (st * Z) :=
  kqh_fd stream_fd (λ id, [EV_SET id EVFILT_READ ADD_DISABLE 0 0 None; EV_SET id EVFILT_WRITE ADD_ENABLE 0 0 None]) p.
Definition kqh_readerwriter_pause (p : Z) : st → outcome (st * Z) :=
  kqh_fd stream_fd (λ id, [EV_SET id EVFILT_READ ADD_ENABLE 0 0 None; EV_SET id EVFILT_WRITE ADD_DISABLE 0 0 None]) p.

Definition kqh_writer_register (p : Z) : st → outcome (st * Z) :=
  kqh_fd stream_fd (λ id, [EV_SET id EVFILT_WRITE (Z.lor ADD_ENABLE EV_DISPATCH) 0 0 (Some p)]) p.
Definition kqh_writer_cancel (p : Z) : st → outcome (st * Z) :=
  kqh_fd stream_fd (λ id, [EV_SET id EVFILT_WRITE DELETE 0 0 None]) p.
Definition kqh_writer_pause (p : Z) : st → outcome (st * Z) :=
  kqh_fd stream_fd (λ id, [EV_SET id EVFILT_WRITE ADD_DISABLE 0 0 None]) p.

(** The flags computed first, with EV_DISPATCH, are not the ones passed. *)
Definition kqh_reader_register (p : Z) : st → outcome (st * Z) :=
  kqh_fd stream_fd (λ id, [EV_SET id EVFILT_READ ADD_ENABLE 0 0 (Some p)]) p.
Definition kqh_reader_cancel (p : Z) : st → outcome (st * Z) :=
  kqh_fd stream_fd (λ id, [EV_SET id EVFILT_READ DELETE 0 0 None]) p.
Definition kqh_reader_pause (p : Z) : st → outcome (st * Z) :=
  kqh_fd stream_fd (λ id, [EV_SET id EVFILT_READ ADD_DISABLE 0 0 None]) p.

Definition kqh_listener_register (p : Z) : st → outcome (st * Z) :=
  kqh_fd listener_fd (λ id, [EV_SET id EVFILT_READ (Z.lor ADD_ENABLE EV_DISPATCH) 0 0 (Some p)]) p.
(** The filter is EVFILT_TIMER. *)
Definition kqh_listener_cancel (p : Z) : st → outcome (st * Z) :=
  kqh_fd listener_fd (λ id, [EV_SET id EVFILT_TIMER DELETE 0 0 None]) p.
Definition kqh_listener_pause (p : Z) : st → outcome (st * Z) :=
  kqh_fd listener_fd (λ id, [EV_SET id EVFILT_READ ADD_DISABLE 0 0 None]) p.

(** ** Signals, timers and user events *)

Definition kqh_signal_register (p : Z) : st → outcome (st * Z) :=
  kqh_event [EV_SET (addr p) EVFILT_SIGNAL ADD_ENABLE 0 0 (Some p)] p.
Definition kqh_signal_cancel (p : Z) : st → outcome (st * Z) :=
  kqh_event [EV_SET (addr p) EVFILT_SIGNAL DELETE 0 0 None] p.
Definition kqh_signal_pause (p : Z) : st → outcome (st * Z) :=
  kqh_event [EV_SET (addr p) EVFILT_SIGNAL ADD_DISABLE 0 0 None] p.

Definition kqh_timer_register (one_shot : bool) (milli_secs : Z) (p : Z) : st → outcome (st * Z) :=
  kqh_event [EV_SET (addr p) EVFILT_TIMER (Z.lor ADD_ENABLE (if one_shot then EV_ONESHOT else 0)) 0 milli_secs (Some p)] p.
Definition kqh_timer_cancel (p : Z) : st → outcome (st * Z) :=
  kqh_event [EV_SET (addr p) EVFILT_TIMER DELETE 0 0 None] p.
Definition kqh_timer_pause (p : Z) : st → outcome (st * Z) :=
  kqh_event [EV_SET (addr p) EVFILT_TIMER ADD_DISABLE 0 0 None] p.

Definition kqh_user_event_register (p : Z) : st → outcome (st * Z) :=
  kqh_event [EV_SET (addr p) EVFILT_USER ADD_ENABLE 0 0 (Some p)] p.
Definition kqh_user_event_trigger (d : Z) (p : Z) : st → outcome (st * Z) :=
  kqh_event [EV_SET (addr p) EVFILT_USER ADD_ENABLE NOTE_TRIGGER d (Some p)] p.
(** The filter is EVFILT_TIMER. *)
Definition kqh_user_event_cancel (p : Z) : st → outcome (st * Z) :=
  kqh_event [EV_SET (addr p) EVFILT_TIMER DELETE 0 0 None] p.
Definition kqh_user_event_pause (p : Z) : st → outcome (st * Z) :=
  kqh_event [EV_SET (addr p) EVFILT_TIMER ADD_DISABLE 0 0 None] p.

(** ** The documented effect of changes

    A queue keeps one note for each identifier and filter. EV_ADD makes the note, or
    replaces what the note there says; it is enabled unless EV_DISABLE is given.
    EV_DELETE removes a note; without one it is an error, and the changes after the one
    in error are not made. *)
Record note := mkNote {
  enabled : bool;
  oneshot : bool;
  dispatch : bool;
  n_fflags : Z;
  n_data : Z;
  n_udata : option Z
}.

Definition has_flag (m : Z) (c : kevent_t) : bool := negb (Z.land (flags c) m =? 0).

Definition apply_change (c : kevent_t) (ns : gmap (Z * Z) note) : option (gmap (Z * Z) note) :=
  let k := (ident c, filter c) in
  if has_flag EV_ADD c then
    Some (<[k := mkNote (negb (has_flag EV_DISABLE c)) (has_flag EV_ONESHOT c) (has_flag EV_DISPATCH c)
                   (fflags c) (data c) (udata c)]> ns)
  else if has_flag EV_DELETE c then
    match ns !! k with Some _ => Some (delete k ns) | None => None end
  else None.
Fixpoint apply_changes (cs : list kevent_t) (ns : gmap (Z * Z) note) : gmap (Z * Z) note :=
  match cs with
  | [] => ns
  | c :: cs => match apply_change c ns with Some ns => apply_changes cs ns | None => ns end
  end.

(** Notes on descriptors need open ones. *)
Definition change_valid (fd_open : W → Z → bool) (w : W) (c : kevent_t) : Prop :=
  (filter c = EVFILT_READ ∨ filter c = EVFILT_WRITE) → has_flag EV_ADD c = true → fd_open w (ident c) = true.

Record kqueue_laws (notes : W → Z → gmap (Z * Z) note) (fd_open : W → Z → bool) : Prop := {
  kl_change : ∀ kq cs w, Forall (change_valid fd_open w) cs →
    notes (fst (kevent K kq cs 0 None w)) kq = apply_changes cs (notes w kq)
}.

(** ** Lemmas *)

Context (notes : W → Z → gmap (Z * Z) note) (fd_open : W → Z → bool) (HL : kqueue_laws notes fd_open).

(** The notes of the loop's queue. *)
Definition watching (s : st) : gmap (Z * Z) note := notes (snd s) (kqueue_fd (fst s)).

Lemma change_ok cs s :
  Forall (change_valid fd_open (snd s)) cs →
  fst (kevent_change K cs s) = fst s ∧ watching (kevent_change K cs s) = apply_changes cs (watching s).
Proof using HL.
  intros Hv. unfold kevent_change, watching. pose proof (kl_change _ _ HL (kqueue_fd (fst s)) cs (snd s) Hv) as H.
  destruct (kevent K _ cs 0 None (snd s)) as [w r]. done.
Qed.

Lemma kqh_event_ok cs p s e :
  event_at p s = Ret e → runloop e = true → Forall (change_valid fd_open (snd s)) cs →
  ∃ s', kqh_event cs p s = Ret (s', 0) ∧ fst s' = fst s ∧ watching s' = apply_changes cs (watching s).
Proof using HL.
  intros He Hr Hv. unfold kqh_event, has_loop. rewrite He, bind_ret_l, Hr, bind_ret_l.
  eexists. split; [done|]. by apply change_ok.
Qed.

Lemma kqh_fd_ok get cs p s e fd :
  event_at p s = Ret e → get e = Ret fd → runloop e = true → Forall (change_valid fd_open (snd s)) (cs (u64 fd)) →
  ∃ s', kqh_fd get cs p s = Ret (s', 0) ∧ fst s' = fst s ∧ watching s' = apply_changes (cs (u64 fd)) (watching s).
Proof using HL.
  intros He Hg Hr Hv. unfold kqh_fd, has_loop. rewrite He, bind_ret_l, Hg, bind_ret_l, Hr, bind_ret_l.
  eexists. split; [done|]. by apply change_ok.
Qed.

Lemma valid_other w c : filter c ≠ EVFILT_READ → filter c ≠ EVFILT_WRITE → change_valid fd_open w c.
Proof. intros H1 H2 [H|H]; by intros. Qed.
End KqHelpers.

(** ** A kernel that is a part of a larger world *)

Section Lift.
Context {KW W : Type} (K : kqueue_sys KW) (get : W → KW) (put : W → KW → W).

Definition kq_lift : kqueue_sys W := mkKq
  (λ w, let '(k, r) := kqueue K (get w) in (put w k, r))
  (λ q cs n t w, let '(k, r) := kevent K q cs n t (get w) in (put w k, r))
  (λ fd w, let '(k, r) := close K fd (get w) in (put w k, r)).

Lemma kq_lift_laws notes fd_open :
  (∀ w k, get (put w k) = k) → kqueue_laws K notes fd_open →
  kqueue_laws kq_lift (λ w, notes (get w)) (λ w, fd_open (get w)).
Proof.
  intros Hg HL. constructor. intros q cs w Hv. unfold kq_lift. cbn [kevent].
  pose proof (kl_change _ _ _ HL q cs (get w) Hv) as H. destruct (kevent K q cs 0 None (get w)) as [k r]. cbn [fst] in *. by rewrite Hg.
Qed.
End Lift.
