(* ===== verification/KqWatchers.v ===== *)
(** * KqWatchers: the events of the kqueue loop (src/runloop/kqueue_runloop/stream.c,
    listener.c, timer.c, user_event.c)

    Streams, listeners, timers and user events are objects of the event pool; a pointer to
    one is the index of its slab. The kernel's side is the set of notes of KqHelpers.v. *)

From S2P Require Import Prelude FunctorList EventTable KqRunloop KqHelpers.
Open Scope Z_scope.

Definition s16 (z : Z) : Z := (z + 2 ^ 15) mod 2 ^ 16 - 2 ^ 15.

(** The error number of a read that would block, on the systems that have kqueue. *)
Definition KQ_EAGAIN : Z := 35.

Section KqWatchers.
Context {fn arg_t W : Type}.
Variable K : kqueue_sys W.
Variable addr : Z → Z.
(** The pointer to an event, as the argument of a postable. *)
Variable event_arg : Z → arg_t.
(** The functions behind postables. *)
Variable call : fn → option arg_t → (Runloop fn arg_t * W) → outcome (Runloop fn arg_t * W).
(** [read] of eight bytes: the count and the error number. *)
Variable read8 : Z → W → W * Z * Z.
Abbreviation st := (Runloop fn arg_t * W)%type.
Abbreviation event := (RunloopEvent fn arg_t).

(** [assert(res == 0)] on the answer of a helper. *)
Definition expect_zero (r : outcome (st * Z)) : outcome st := '(s, res) ← r; c_assert (res =? 0);; Ret s.

Definition new_event (init : Z → st → outcome st) (s : st) : outcome (st * Z) :=
  '(t, p) ← event_table_get_entry (event_table (fst s));
  s ← init p (set_events (fst s) t, snd s);
  Ret (s, p).
Definition release_event (p : Z) (s : st) : outcome st :=
  e ← event_at p s;
  has_loop e;;
  t ← event_table_release_entry (event_table (fst s)) p;
  Ret (set_events (fst s) t, snd s).
Definition close_descriptor (fd : Z) (s : st) : st := let '(w, _) := close K fd (snd s) in (fst s, w).

(** A store to a pointer, when it is not NULL. *)
Definition stored {A} (k : nat) (mk : option A → word fn arg_t) (o : option A) : list (nat * word fn arg_t) :=
  match o with Some _ => [(k, mk o)] | None => [] end.

(** ** Streams (stream.c) *)

(** Every operation stores both tags, whatever the event was, and then acts on the fields
    of a stream. An event that is a stream has the tags already. *)
Definition tag_stream (p : Z) (s : st) : outcome st :=
  e ← event_at p s;
  match var e with
  | V_stream _ => Ret s
  | v => store_event p (with_var (to_variant STREAM_TAG STREAM_TAG (words_of v)) e) s
  end.
Definition put_stream (ups : list (nat * word fn arg_t)) (p : Z) (s : st) : outcome st :=
  e ← event_at p s; store_event p (with_var (to_variant STREAM_TAG STREAM_TAG (store_words ups (words_of (var e)))) e) s.

Definition runloop_stream_init (fd : Z) (p : Z) (s : st) : outcome st :=
  store_event p (mkEvent true (Some H_stream) (V_stream (mkStream fd 0 None None None None))) s.
Definition runloop_stream_deinit (p : Z) (s : st) : outcome st :=
  store_event p (mkEvent false None (V_stream (mkStream 0 0 None None None None))) s.
Definition runloop_stream_new (fd : Z) : st → outcome (st * Z) := new_event (runloop_stream_init fd).

Definition runloop_stream_register (p : Z) (s : st) : outcome st :=
  s ← tag_stream p s; expect_zero (kqh_readerwriter_register K p s).
Definition runloop_stream_deregister (p : Z) (s : st) : outcome st :=
  s ← tag_stream p s; expect_zero (kqh_readerwriter_cancel K p s).
Definition runloop_stream_free (p : Z) (s : st) : outcome st :=
  s ← runloop_stream_deregister p s;
  e ← event_at p s;
  fd ← stream_fd e;
  release_event p (close_descriptor fd s).

Definition runloop_stream_arm_both (rcb : option fn) (rarg : option arg_t) (wcb : option fn) (warg : option arg_t)
    (p : Z) (s : st) : outcome st :=
  s ← put_stream (stored 2 W_fn rcb ++ stored 3 W_arg rarg ++ stored 4 W_fn wcb ++ stored 5 W_arg warg) p s;
  expect_zero (kqh_readerwriter_register K p s).
Definition runloop_stream_arm_read (cb : option fn) (a : option arg_t) (p : Z) (s : st) : outcome st :=
  s ← put_stream (stored 2 W_fn cb ++ stored 3 W_arg a) p s;
  expect_zero (kqh_reader_register K p s).
Definition runloop_stream_arm_write (cb : option fn) (a : option arg_t) (p : Z) (s : st) : outcome st :=
  s ← put_stream (stored 4 W_fn cb ++ stored 5 W_arg a) p s;
  expect_zero (kqh_writer_register K p s).
Definition runloop_stream_disarm_read (p : Z) (s : st) : outcome st :=
  s ← put_stream [(2%nat, W_fn None); (3%nat, W_arg None)] p s;
  expect_zero (kqh_reader_pause K p s).
Definition runloop_stream_disarm_write (p : Z) (s : st) : outcome st :=
  s ← put_stream [(1%nat, W_int 0); (4%nat, W_fn None); (5%nat, W_arg None)] p s;
  expect_zero (kqh_writer_pause K p s).
(** A pointer to the loop is whether it is still set. *)
Definition runloop_stream_get_runloop (p : Z) (s : st) : outcome (st * bool) :=
  s ← tag_stream p s; e ← event_at p s; Ret (s, runloop e).
Definition runloop_stream_verify (p : Z) (s : st) : outcome st := tag_stream p s.
Definition runloop_stream_checktag (p : Z) (s : st) : outcome st := tag_stream p s.
Definition runloop_stream_get_fd (p : Z) (s : st) : outcome (st * Z) :=
  s ← tag_stream p s; e ← event_at p s; fd ← stream_fd e; Ret (s, fd).

Definition call_if (g : option fn) (a : option arg_t) (s : st) : outcome st :=
  match g with Some g => call g a s | None => Ret s end.
(** The callback in word [k] with the argument in the next, unless it is NULL. *)
Definition call_field (k : nat) (e : event) (s : st) : outcome st :=
  g ← fn_at k e;
  match g with Some g => a ← arg_at (S k) e; call g a s | None => Ret s end.

(** After the callback for the filter, a second round for an event mask that is not 0;
    the event is read again, whatever it has become. *)
Definition masked_call (k : nat) (p : Z) (s : st) : outcome st :=
  e ← event_at p s;
  m ← int_at 1 e;
  if negb (m =? 0) then call_field k e s else Ret s.
Definition stream_handler (p filter flags : Z) (s : st) : outcome st :=
  e ← event_at p s;
  s ← (if s16 filter =? EVFILT_READ then call_field 2 e s
       else if s16 filter =? EVFILT_WRITE then call_field 4 e s
       else AssertFail);
  s ← masked_call 2 p s;
  masked_call 4 p s.

(** ** Listeners (listener.c) *)

(** The event, with the tags of a listener. *)
Definition listener_at (p : Z) (s : st) : outcome event := e ← event_at p s; check_tags Listener_TAG e;; Ret e.
Definition runloop_listener_verify (p : Z) (s : st) : outcome st := _ ← listener_at p s; Ret s.
Definition runloop_listener_get_runloop (p : Z) (s : st) : outcome bool := e ← listener_at p s; Ret (runloop e).
Definition put_listener (h : option first_level) (postable : option fn) (a : option arg_t) (p : Z) (e : event) (s : st) : outcome st :=
  store_event p (mkEvent (runloop e) h
    (to_variant Listener_TAG Listener_TAG (store_words (stored 1 W_fn postable ++ stored 2 W_arg a) (words_of (var e))))) s.

Definition runloop_listener_init (fd : Z) (p : Z) (s : st) : outcome st :=
  store_event p (mkEvent true (Some H_listener) (V_listener (mkListener fd None None))) s.
Definition runloop_listener_deinit (p : Z) (s : st) : outcome st := _ ← listener_at p s; Ret s.
Definition runloop_listener_new (fd : Z) : st → outcome (st * Z) := new_event (runloop_listener_init fd).
Definition runloop_listener_free (p : Z) (s : st) : outcome st :=
  e ← listener_at p s;
  fd ← listener_fd e;
  release_event p (close_descriptor fd s).

(** Registering also sets the handler again. *)
Definition runloop_listener_register (postable : option fn) (a : option arg_t) (p : Z) (s : st) : outcome st :=
  e ← listener_at p s;
  s ← put_listener (Some H_listener) postable a p e s;
  expect_zero (kqh_listener_register K p s).
Definition runloop_listener_deregister (p : Z) (s : st) : outcome st :=
  _ ← listener_at p s; '(s, _) ← kqh_listener_cancel K p s; Ret s.
Definition runloop_listener_arm (postable : option fn) (a : option arg_t) (p : Z) (s : st) : outcome st :=
  e ← listener_at p s;
  s ← put_listener (handler e) postable a p e s;
  expect_zero (kqh_listener_register K p s).
Definition runloop_listener_rearm (p : Z) (s : st) : outcome st := _ ← listener_at p s; expect_zero (kqh_listener_register K p s).
Definition runloop_listener_disarm (p : Z) (s : st) : outcome st := _ ← listener_at p s; expect_zero (kqh_listener_pause K p s).
Definition runloop_listener_get_fd (p : Z) (s : st) : outcome Z := e ← listener_at p s; listener_fd e.

Definition listener_handler (p filter flags : Z) (s : st) : outcome st := e ← listener_at p s; call_field 1 e s.

(** ** Timers (timer.c) *)

Definition timer_at (p : Z) (s : st) : outcome event := e ← event_at p s; check_tags Timer_TAG e;; Ret e.
Definition runloop_timer_verify (p : Z) (s : st) : outcome st := _ ← timer_at p s; Ret s.
Definition runloop_timer_checktag (p : Z) (s : st) : outcome st := _ ← timer_at p s; Ret s.
Definition runloop_timer_get_runloop (p : Z) (s : st) : outcome bool := e ← timer_at p s; Ret (runloop e).

Definition runloop_timer_init (p : Z) (s : st) : outcome st :=
  store_event p (mkEvent true (Some H_timer) (V_timer (mkTimer 0 false None None))) s.
Definition runloop_timer_new : st → outcome (st * Z) := new_event runloop_timer_init.
Definition runloop_timer_free (p : Z) (s : st) : outcome st := _ ← timer_at p s; release_event p s.

Definition runloop_timer_register (cb : option fn) (ctx : option arg_t) (interval_ms : Z) (rep : bool)
    (p : Z) (s : st) : outcome st :=
  e ← timer_at p s;
  s ← store_event p (mkEvent (runloop e) (Some H_timer) (to_variant Timer_TAG Timer_TAG
        (store_words [(1%nat, W_int interval_ms); (2%nat, W_bool rep); (3%nat, W_fn cb); (4%nat, W_arg ctx)] (words_of (var e))))) s;
  expect_zero (kqh_timer_register K addr (negb rep) interval_ms p s).
Definition runloop_timer_update (interval_ms : Z) (rep : bool) (p : Z) (s : st) : outcome st :=
  expect_zero (kqh_timer_register K addr (negb rep) interval_ms p s).
Definition runloop_timer_disarm (p : Z) (s : st) : outcome st := expect_zero (kqh_timer_pause K addr p s).
Definition runloop_timer_rearm (p : Z) (s : st) : outcome st :=
  e ← event_at p s;
  rep ← bool_at 2 e;
  ms ← int_at 1 e;
  expect_zero (kqh_timer_register K addr (negb rep) ms p s).
Definition runloop_timer_deregister (p : Z) (s : st) : outcome st :=
  _ ← timer_at p s; expect_zero (kqh_timer_cancel K addr p s).
Definition runloop_timer_set (cb : option fn) (ctx : option arg_t) (interval_ms : Z) (rep : bool) (s : st) :
    outcome (st * Z) :=
  '(s, p) ← runloop_timer_new s;
  s ← runloop_timer_register cb ctx interval_ms rep p s;
  Ret (s, p).
Definition runloop_timer_clear (p : Z) (s : st) : outcome st :=
  _ ← timer_at p s; s ← runloop_timer_deregister p s; runloop_timer_free p s.

(** The handler checks the tag at the start only. *)
Definition timer_handler (p filter flags : Z) (s : st) : outcome st :=
  e ← event_at p s;
  check_tag Timer_TAG e;;
  rep ← bool_at 2 e;
  s ← (if negb rep then runloop_timer_deregister p s else Ret s);
  e ← event_at p s;
  g ← fn_at 3 e;
  c_assert (bool_decide (is_Some g));;
  a ← arg_at 4 e;
  call_if g a s.

(** ** User events (user_event.c) *)

(** Every operation stores the tag at the start, and checks that one. *)
Definition put_uevent (ups : list (nat * word fn arg_t)) (p : Z) (s : st) : outcome st :=
  e ← event_at p s;
  store_event p (with_var (to_variant EventFd_TAG (end_tag_of (var e)) (store_words ups (words_of (var e)))) e) s.
Definition tag_uevent (p : Z) (s : st) : outcome st :=
  e ← event_at p s;
  match var e with V_uevent _ => Ret s | _ => put_uevent [] p s end.

(** The constructor sets neither the postable nor the descriptors. *)
Definition runloop_user_event_init (p : Z) (s : st) : outcome st :=
  store_event p (mkEvent true (Some H_user_event) (V_uevent (mkUevent None None None None))) s.
Definition runloop_user_event_new : st → outcome (st * Z) := new_event runloop_user_event_init.
(** It closes a descriptor that was never set, and frees memory inside the table. *)
Definition runloop_user_event_free (p : Z) (s : st) : outcome st :=
  s ← tag_uevent p s; e ← event_at p s; _ ← write_fd_at e; Ub.

Definition runloop_user_event_register (p : Z) (s : st) : outcome st :=
  s ← tag_uevent p s; '(s, _) ← kqh_user_event_register K addr p s; Ret s.
Definition runloop_user_event_change_watch (postable : option fn) (a : option arg_t) (watch_what : Z) (p : Z) (s : st) :
    outcome st := Ret s.
Definition runloop_user_event_deregister (p : Z) (s : st) : outcome st := Ret s.
Definition runloop_user_event_arm (postable : option fn) (a : option arg_t) (p : Z) (s : st) : outcome st :=
  s ← put_uevent (stored 0 W_fn postable ++ stored 1 W_arg a) p s;
  '(s, _) ← kqh_user_event_register K addr p s; Ret s.
Definition runloop_user_event_disarm (p : Z) (s : st) : outcome st :=
  s ← tag_uevent p s; '(s, _) ← kqh_user_event_pause K addr p s; Ret s.
Definition runloop_user_event_fire (p : Z) (s : st) : outcome st :=
  s ← tag_uevent p s; '(s, _) ← kqh_user_event_trigger K addr 1234 p s; Ret s.
Definition runloop_user_event_verify (p : Z) (s : st) : outcome st := tag_uevent p s.
Definition runloop_user_event_get_runloop (p : Z) (s : st) : outcome (st * bool) :=
  s ← tag_uevent p s; e ← event_at p s; Ret (s, runloop e).
Definition runloop_user_event_get_fd (p : Z) (s : st) : outcome (st * Z) :=
  s ← tag_uevent p s; e ← event_at p s; fd ← read_fd_at e; Ret (s, fd).

Definition read_event (p : Z) (s : st) : outcome (st * Z * Z) :=
  e ← event_at p s;
  fd ← read_fd_at e;
  let '(w, nread, errno) := read8 fd (snd s) in Ret ((fst s, w), nread, errno).
Definition runloop_user_event_clear_one_event (p : Z) (s : st) : outcome st :=
  s ← tag_uevent p s; '(s, _, _) ← read_event p s; Ret s.
Fixpoint clear_events_loop (fuel : nat) (p : Z) (s : st) : outcome (option st) :=
  match fuel with
  | O => Ret None
  | S fuel =>
      '(s, nread, errno) ← read_event p s;
      if nread =? -1 then c_assert (errno =? KQ_EAGAIN);; Ret (Some s) else clear_events_loop fuel p s
  end.
Definition runloop_user_event_clear_all_events (fuel : nat) (p : Z) (s : st) : outcome (option st) :=
  s ← tag_uevent p s; clear_events_loop fuel p s.

(** The postable gets the event, not the argument it was armed with. *)
Definition user_event_handler (p filter flags : Z) (s : st) : outcome st :=
  e ← event_at p s;
  check_tags EventFd_TAG e;;
  g ← fn_at 0 e;
  g ← deref g;
  call g (Some (event_arg p)) s.

(** The handlers the loop calls. *)
Definition first_level_handler (h : first_level) (p filter flags : Z) (s : st) : outcome st :=
  match h with
  | H_stream => stream_handler p filter flags s
  | H_listener => listener_handler p filter flags s
  | H_timer => timer_handler p filter flags s
  | H_user_event => user_event_handler p filter flags s
  end.

(** The loop runs the next [n] functors that are ready. *)
Fixpoint run_posted (n : nat) (s : st) : outcome st :=
  match n with
  | O => Ret s
  | S n =>
      '(l, func) ← functor_list_remove (ready_list (fst s));
      g ← deref (f func);
      s ← call g (arg func) (set_ready (fst s) l, snd s);
      run_posted n s
  end.

(** [k] events of a stream that can be read. *)
Fixpoint read_events (k : nat) (p : Z) (s : st) : outcome st :=
  match k with O => Ret s | S k => s ← stream_handler p (u16 EVFILT_READ) 0 s; read_events k p s end.

(** Several reads, each posted by the one before it: the [n]s are the events that each of
    them has to wait for. *)
Fixpoint drive (ns : list nat) (p : Z) (s : st) : outcome st :=
  match ns with
  | [] => Ret s
  | [n] => read_events n p s
  | n :: ns => s ← read_events n p s; s ← run_posted 1 s; drive ns p s
  end.

(** ** Properties, of a kernel that keeps notes as documented *)

(** Operations that leave the events of the loop as they are. *)
Definition keeps_events (g : st → outcome st) : Prop := ∀ s s', g s = Ret s' → event_table (fst s') = event_table (fst s).

Lemma post_keeps cb a : keeps_events (runloop_post cb a).
Proof.
  intros [rl w] s' H. unfold runloop_post in H. apply bind_ret_inv in H as (? & _ & H). apply bind_ret_inv in H as (? & _ & H).
  apply bind_ret_inv in H as (l & _ & H). by injection H as <-.
Qed.

(** A functor posted to an idle loop runs next, and leaves the loop idle. *)
Lemma post_then_run g a (s : st) :
  fl_rep (ready_list (fst s)) [] → 1 < capacity (ready_list (fst s)) →
  ∃ l l', runloop_post (Some g) (Some a) s = Ret (set_ready (fst s) l, snd s) ∧
    functor_list_remove l = Ret (l', mkFunctor (Some g) (Some a)) ∧ fl_rep l' [] ∧
    capacity l' = capacity (ready_list (fst s)).
Proof.
  intros Hr Hc. destruct s as [rl w]. cbn [fst snd] in *. unfold runloop_post. rewrite !bool_decide_true by eauto. cbn [c_assert].
  rewrite !bind_ret_l. destruct (fl_add_ok _ _ (mkFunctor (Some g) (Some a)) Hr) as (l & -> & Hr' & Hc1); [by cbn|].
  destruct (fl_remove_ok _ _ _ Hr') as (l' & Hl & Hr2 & Hc2). exists l, l'. by rewrite bind_ret_l, <- Hc1.
Qed.

Context (notes : W → Z → gmap (Z * Z) note) (fd_open : W → Z → bool) (HL : kqueue_laws K notes fd_open).
Abbreviation watching := (watching notes).

Definition on_read (fd : Z) : Z * Z := (u64 fd, EVFILT_READ).
Definition on_write (fd : Z) : Z * Z := (u64 fd, EVFILT_WRITE).
Definition on_timer (p : Z) : Z * Z := (addr p, EVFILT_TIMER).
Definition on_user (p : Z) : Z * Z := (addr p, EVFILT_USER).

(** An event [e] in slab [p], attached to the loop. *)
Definition live (p : Z) (e : event) (s : st) : Prop := event_at p s = Ret e ∧ runloop e = true.

Lemma store_ok p e e' s :
  live p e s → runloop e' = true →
  ∃ s', store_event p e' s = Ret s' ∧ live p e' s' ∧ snd s' = snd s ∧ watching s' = watching s ∧
    ready_list (fst s') = ready_list (fst s).
Proof.
  intros [He _] Hr. unfold store_event, event_at, get_event, set_event, slab_at in *.
  destruct (0 <=? p) eqn:Hp; [|done]. cbn [mbind outcome_bind] in *.
  destruct (memory (event_table (fst s)) !! Z.to_nat p) as [m|] eqn:Em; [|done]. cbn [deref] in *.
  rewrite !bind_ret_l in *. eexists. split; [done|]. split; [|done]. split; [|done].
  unfold event_at, get_event, slab_at. cbn [fst set_events event_table put_slab memory]. rewrite Hp.
  rewrite list_lookup_insert_eq by (by eapply lookup_lt_Some). cbn [deref entry]. by rewrite bind_ret_l.
Qed.

(** Nothing but the queues of the kernel changes. *)
Definition only_changes (s s' : st) : Prop :=
  ready_list (fst s') = ready_list (fst s) ∧ ∃ q cs, snd s' = fst (kevent K q cs 0 None (snd s)).

Lemma change_only cs s : only_changes s (kevent_change K cs s).
Proof.
  unfold only_changes, kevent_change. destruct (kevent K (kqueue_fd (fst s)) cs 0 None (snd s)) as [w r] eqn:E.
  split; [done|]. exists (kqueue_fd (fst s)), cs. by rewrite E.
Qed.

Lemma helper_fd_ok get cs p s e fd :
  live p e s → get e = Ret fd → Forall (change_valid fd_open (snd s)) (cs (u64 fd)) →
  ∃ s', expect_zero (kqh_fd K get cs p s) = Ret s' ∧ live p e s' ∧ watching s' = apply_changes (cs (u64 fd)) (watching s) ∧
    only_changes s s'.
Proof using HL.
  intros [He Hr] Hg Hv. unfold kqh_fd, has_loop. rewrite He, bind_ret_l, Hg, bind_ret_l, Hr, bind_ret_l.
  destruct (change_ok K notes fd_open HL (cs (u64 fd)) s Hv) as [Hf Hw].
  exists (kevent_change K (cs (u64 fd)) s). split; [done|]. split; [|split; [done|apply change_only]].
  unfold live, event_at in *. by rewrite Hf.
Qed.

Lemma helper_event_ok cs p s e :
  live p e s → Forall (change_valid fd_open (snd s)) cs →
  ∃ s', kqh_event K cs p s = Ret (s', 0) ∧ live p e s' ∧ watching s' = apply_changes cs (watching s).
Proof using HL.
  intros [He Hr] Hv. destruct (kqh_event_ok K notes fd_open HL cs p s e He Hr Hv) as (s' & Hs & Hf & Hw).
  exists s'. split; [done|]. split; [|done]. unfold live, event_at in *. by rewrite Hf.
Qed.

(** What stores to a stream make of it. *)
Definition stream_with (ups : list (nat * word fn arg_t)) (x x' : stream_t fn arg_t) : Prop :=
  to_variant STREAM_TAG STREAM_TAG (store_words ups (words_of (V_stream x))) = V_stream x'.

Lemma put_stream_ok p e x x' ups s :
  live p e s → var e = V_stream x → stream_with ups x x' →
  ∃ s', put_stream ups p s = Ret s' ∧ live p (mkEvent true (handler e) (V_stream x')) s' ∧ snd s' = snd s ∧ watching s' = watching s ∧
    ready_list (fst s') = ready_list (fst s).
Proof.
  intros Hl Hx Hu. unfold put_stream, with_var. rewrite (proj1 Hl), bind_ret_l, (proj2 Hl), Hx, Hu. by eapply store_ok.
Qed.

(** A stream has its tags. *)
Lemma tag_stream_ok p e x s : event_at p s = Ret e → var e = V_stream x → tag_stream p s = Ret s.
Proof. intros He Hx. unfold tag_stream. by rewrite He, bind_ret_l, Hx. Qed.
Lemma stream_fd_ok (e : event) x : var e = V_stream x → stream_fd e = Ret (s_fd x).
Proof. intros Hx. unfold stream_fd, int_at, word_at. by rewrite Hx. Qed.
Lemma listener_fd_ok (e : event) l : var e = V_listener l → listener_fd e = Ret (l_fd l).
Proof. intros Hx. unfold listener_fd, int_at, word_at. by rewrite Hx. Qed.
Lemma listener_at_ok p e l s : event_at p s = Ret e → var e = V_listener l → listener_at p s = Ret e.
Proof. intros He Hx. unfold listener_at, check_tags, check_tag, check_end_tag. rewrite He, bind_ret_l. by rewrite Hx. Qed.
Lemma listener_get_fd_ok p e l s : event_at p s = Ret e → var e = V_listener l → runloop_listener_get_fd p s = Ret (l_fd l).
Proof. intros He Hx. unfold runloop_listener_get_fd. rewrite (listener_at_ok p e l s He Hx), bind_ret_l. by apply listener_fd_ok. Qed.
Lemma timer_at_ok p e x s : event_at p s = Ret e → var e = V_timer x → timer_at p s = Ret e.
Proof. intros He Hx. unfold timer_at, check_tags, check_tag, check_end_tag. rewrite He, bind_ret_l. by rewrite Hx. Qed.
Lemma timer_fields (e : event) x : var e = V_timer x → check_tag Timer_TAG e = Ret () ∧ bool_at 2 e = Ret (repeating x).
Proof. intros Hx. unfold check_tag, bool_at, word_at. by rewrite Hx. Qed.
Lemma stream_get_fd_ok p e x s : event_at p s = Ret e → var e = V_stream x → runloop_stream_get_fd p s = Ret (s, s_fd x).
Proof.
  intros He Hx. unfold runloop_stream_get_fd. by rewrite (tag_stream_ok p e x s He Hx), bind_ret_l, He, bind_ret_l, (stream_fd_ok e x Hx), bind_ret_l.
Qed.
Lemma tag_uevent_ok p e u s : event_at p s = Ret e → var e = V_uevent u → tag_uevent p s = Ret s.
Proof. intros He Hx. unfold tag_uevent. by rewrite He, bind_ret_l, Hx. Qed.

(** The callbacks of a stream. *)
Lemma read_field_ok (e : event) x s : var e = V_stream x → call_field 2 e s = call_if (read_postable_cb x) (read_postable_arg x) s.
Proof. intros Hx. unfold call_field, fn_at, arg_at, word_at. rewrite Hx. cbn. by destruct (read_postable_cb x). Qed.
Lemma write_field_ok (e : event) x s : var e = V_stream x → call_field 4 e s = call_if (write_postable_cb x) (write_postable_arg x) s.
Proof. intros Hx. unfold call_field, fn_at, arg_at, word_at. rewrite Hx. cbn. by destruct (write_postable_cb x). Qed.
Lemma listener_field_ok (e : event) l s : var e = V_listener l → call_field 1 e s = call_if (listen_postable l) (listen_postable_arg l) s.
Proof. intros Hx. unfold call_field, fn_at, arg_at, word_at. rewrite Hx. cbn. by destruct (listen_postable l). Qed.
(** Without an event mask there is no second round. *)
Lemma masked_call_none k p e x s : event_at p s = Ret e → var e = V_stream x → event_mask x = 0 → masked_call k p s = Ret s.
Proof. intros He Hx Hm. unfold masked_call, int_at, word_at. rewrite He, bind_ret_l, Hx. cbn. by rewrite Hm. Qed.

Lemma valid_open w c : fd_open w (ident c) = true → change_valid fd_open w c.
Proof. by intros ? ? ?. Qed.

Definition armed_note (p : Z) (disp : bool) : note := mkNote true false disp 0 0 (Some p).
Definition paused_note : note := mkNote false false false 0 0 None.

(** A stream operation that stores new callbacks and asks for one change. *)
Lemma arm_ok p e fd x ups x' m c u s :
  live p e s → var e = V_stream x → stream_with ups x x' → s_fd x' = fd → fd_open (snd s) (u64 fd) = true →
  ∃ s', (s1 ← put_stream ups p s; expect_zero (kqh_fd K stream_fd (λ id, [EV_SET id m c 0 0 u]) p s1)) = Ret s' ∧
    live p (mkEvent true (handler e) (V_stream x')) s' ∧ watching s' = apply_changes [EV_SET (u64 fd) m c 0 0 u] (watching s) ∧
    only_changes s s'.
Proof using HL.
  intros Hl Hv Hu Hx Ho. destruct (put_stream_ok p e x x' ups s Hl Hv Hu) as (s1 & -> & Hl1 & Hw1 & Hn1 & Hr1). rewrite bind_ret_l.
  destruct (helper_fd_ok stream_fd (λ id, [EV_SET id m c 0 0 u]) p s1 _ fd Hl1) as (s2 & Hs & Hl2 & Hn2 & Hr2).
  - by rewrite <- Hx; apply stream_fd_ok.
  - repeat constructor. apply valid_open. cbn [EV_SET ident]. by rewrite Hw1.
  - exists s2. rewrite <- Hn1. split_and!; [done|done|done|]. unfold only_changes in *. by rewrite <- Hw1, <- Hr1.
Qed.

Lemma kq_arm_read_ok p e x cb a s :
  live p e s → var e = V_stream x → fd_open (snd s) (u64 (s_fd x)) = true →
  let x' := mkStream (s_fd x) (event_mask x) (Some cb) (Some a) (write_postable_cb x) (write_postable_arg x) in
  ∃ s', runloop_stream_arm_read (Some cb) (Some a) p s = Ret s' ∧ live p (mkEvent true (handler e) (V_stream x')) s' ∧
     watching s' = <[on_read (s_fd x) := armed_note p false]> (watching s) ∧ only_changes s s'.
Proof using HL.
  intros Hl Hx Ho x'.
  destruct (arm_ok p e (s_fd x) x (stored 2 W_fn (Some cb) ++ stored 3 W_arg (Some a)) x' EVFILT_READ ADD_ENABLE (Some p) s Hl Hx eq_refl eq_refl Ho)
    as (s' & Hs & Hl' & Hw & Hc).
  exists s'. split_and!; [exact Hs|exact Hl'|exact Hw|exact Hc].
Qed.

(** Registering or arming a listener; the first sets the handler again. *)
Lemma listener_arm_ok p e x h cb a s :
  live p e s → var e = V_listener x → fd_open (snd s) (u64 (l_fd x)) = true →
  let x' := mkListener (l_fd x) (Some cb) (Some a) in
  ∃ s', (s1 ← put_listener h (Some cb) (Some a) p e s; expect_zero (kqh_listener_register K p s1)) = Ret s' ∧
    live p (mkEvent true h (V_listener x')) s' ∧ watching s' = <[on_read (l_fd x) := armed_note p true]> (watching s) ∧
    only_changes s s'.
Proof using HL.
  intros Hl Hx Ho x'. unfold put_listener. rewrite (proj2 Hl), Hx. cbn [stored app words_of store_words foldl fst snd insert list_insert to_variant].
  change (mkListener _ _ _) with x'.
  destruct (store_ok p e (mkEvent true h (V_listener x')) s Hl eq_refl) as (s1 & -> & Hl1 & Hw1 & Hn1 & Hr1). rewrite bind_ret_l.
  destruct (helper_fd_ok listener_fd (λ id, [EV_SET id EVFILT_READ (Z.lor ADD_ENABLE EV_DISPATCH) 0 0 (Some p)]) p s1 _ (l_fd x) Hl1)
    as (s2 & Hs & Hl2 & Hn2 & Hr2); [done| |].
  - repeat constructor. apply valid_open. cbn [EV_SET ident]. by rewrite Hw1.
  - exists s2. split_and!; [exact Hs|done|by rewrite Hn2, Hn1|]. unfold only_changes in *. by rewrite <- Hw1, <- Hr1.
Qed.

(** The loop, up to the event at [p]. *)
Record loop_upto (p : Z) (rl rl' : Runloop fn arg_t) : Prop := {
  lu_ready : ready_list rl' = ready_list rl;
  lu_queue : kqueue_fd rl' = kqueue_fd rl;
  lu_change : change rl' = change rl;
  lu_others : ∀ q, q ≠ p → get_event (event_table rl') q = get_event (event_table rl) q;
  lu_pool : ∀ a, table_rep (event_table rl) a → table_rep (event_table rl') a
}.

Lemma loop_upto_refl p rl : loop_upto p rl rl.
Proof. by constructor. Qed.
Lemma loop_upto_trans p rl1 rl2 rl3 : loop_upto p rl1 rl2 → loop_upto p rl2 rl3 → loop_upto p rl1 rl3.
Proof. intros [? ? ? H1 ?] [? ? ? H2 ?]. constructor; try congruence; [intros q Hq; by rewrite H2, H1|eauto]. Qed.

Lemma store_upto p e (s s' : st) : store_event p e s = Ret s' → loop_upto p (fst s) (fst s').
Proof.
  intros (t & Ht & [= <-])%bind_ret_inv. constructor; try done; cbn [fst event_table set_events].
  - intros q Hq. by apply (get_set_event_ne _ _ _ _ _ Ht).
  - intros a Ha. by eapply set_event_ok.
Qed.

Lemma arm_read_upto cb a p (s s' : st) : runloop_stream_arm_read cb a p s = Ret s' → loop_upto p (fst s) (fst s').
Proof.
  unfold runloop_stream_arm_read, put_stream, expect_zero, kqh_reader_register, kqh_fd.
  intros (s1 & (e1 & _ & H1)%bind_ret_inv & H)%bind_ret_inv.
  apply store_upto in H1. apply bind_ret_inv in H as ([s2 r] & H2 & (? & _ & [= <-])%bind_ret_inv).
  repeat (apply bind_ret_inv in H2 as (? & _ & H2)). injection H2 as <- _. unfold kevent_change.
  by destruct (kevent _ _ _ _ _ _).
Qed.

(** Neither storing an event nor the kernel's calls take entries of the pool. *)
Definition pool_kept {W W' : Type} (s : Runloop fn arg_t * W) (s' : Runloop fn arg_t * W') : Prop :=
  ∀ a, table_rep (event_table (fst s)) a → table_rep (event_table (fst s')) a.

Lemma pool_kept_trans {W1 W2 W3 : Type} (s1 : Runloop fn arg_t * W1) (s2 : Runloop fn arg_t * W2) (s3 : Runloop fn arg_t * W3) :
  pool_kept s1 s2 → pool_kept s2 s3 → pool_kept s1 s3.
Proof. unfold pool_kept. auto. Qed.

Lemma listener_register_upto p e (s s' : st) :
  (s1 ← store_event p e s; expect_zero (kqh_listener_register K p s1)) = Ret s' → loop_upto p (fst s) (fst s').
Proof.
  intros H. apply bind_ret_inv in H as (s1 & H1%store_upto & H).
  unfold expect_zero in H. apply bind_ret_inv in H as ([s2 r] & H2 & H). apply bind_ret_inv in H as (_ & _ & [= <-]).
  unfold kqh_listener_register, kqh_fd in H2. repeat (apply bind_ret_inv in H2 as (? & _ & H2)). injection H2 as <- _.
  unfold kevent_change. by destruct (kevent _ _ _ _ _ _).
Qed.

(** The loop once entry [p], the first of the free ones, holds the event [e]. *)
Record takes (a : pool) (p : Z) (xs : list Z) (e : event) (rl rl' : Runloop fn arg_t) : Prop := {
  tk_ready : ready_list rl' = ready_list rl;
  tk_queue : kqueue_fd rl' = kqueue_fd rl;
  tk_event : get_event (event_table rl') p = Ret e;
  tk_others : ∀ q, q ≠ p → get_event (event_table rl') q = get_event (event_table rl) q;
  tk_pool : table_rep (event_table rl') (mkPool xs ({[p]} ∪ seen a))
}.

Lemma new_event_ok e (s : st) a p xs :
  table_rep (event_table (fst s)) a → free a = p :: xs →
  ∃ s', new_event (λ p, store_event p e) s = Ret (s', p) ∧ snd s' = snd s ∧ takes a p xs e (fst s) (fst s').
Proof.
  intros Ha Hf. pose proof (get_entry_ok _ _ Ha) as H. unfold pool_get in H. rewrite Hf in H. destruct H as ([t p'] & Ht & Hp & Hrep).
  cbn [fst snd] in *. subst p'. pose proof (proj1 (proj1 (Forall_cons _ _ _) ltac:(rewrite <- Hf; exact (fr_small _ _ (tr_free _ _ Ha))))) as Hr.
  unfold new_event. rewrite Ht, bind_ret_l. unfold store_event. cbn [fst snd set_events event_table].
  destruct (set_event t p e) as [t'| |] eqn:Es;
    [|unfold set_event, slab_at in Es; rewrite (proj2 (Z.leb_le _ _)) in Es by lia;
      destruct (lookup_lt_is_Some_2 (memory t) (Z.to_nat p)) as [m Hm]; [pose proof (tr_size _ _ Hrep); unfold Zlen in *; lia|];
      rewrite Hm in Es; discriminate Es..].
  rewrite !bind_ret_l. eexists. split; [done|]. split; [done|].
  constructor; cbn [fst set_events ready_list kqueue_fd event_table]; [done|done| | |by eapply set_event_ok].
  - by eapply get_set_event.
  - intros q Hq. rewrite (get_set_event_ne _ _ _ _ _ Es Hq). by apply (get_entry_others _ _ _ Ht).
Qed.

Lemma stream_new_ok fd (s : st) a p xs :
  table_rep (event_table (fst s)) a → free a = p :: xs →
  ∃ s', runloop_stream_new fd s = Ret (s', p) ∧ snd s' = snd s ∧
    takes a p xs (mkEvent true (Some H_stream) (V_stream (mkStream fd 0 None None None None))) (fst s) (fst s').
Proof. apply new_event_ok. Qed.
Lemma listener_new_ok fd (s : st) a p xs :
  table_rep (event_table (fst s)) a → free a = p :: xs →
  ∃ s', runloop_listener_new fd s = Ret (s', p) ∧ snd s' = snd s ∧
    takes a p xs (mkEvent true (Some H_listener) (V_listener (mkListener fd None None))) (fst s) (fst s').
Proof. apply new_event_ok. Qed.

(** Deregistering a stream deletes the two notes, up to the first that is not there. *)
Definition without_stream (fd : Z) (ns : gmap (Z * Z) note) : gmap (Z * Z) note :=
  match ns !! on_read fd with
  | Some _ => delete (on_write fd) (delete (on_read fd) ns)
  | None => ns
  end.

Lemma apply_delete id f ns :
  apply_change (EV_SET id f DELETE 0 0 None) ns = match ns !! (id, f) with Some _ => Some (delete (id, f) ns) | None => None end.
Proof. reflexivity. Qed.

Lemma delete_both fd ns :
  apply_changes [EV_SET (u64 fd) EVFILT_READ DELETE 0 0 None; EV_SET (u64 fd) EVFILT_WRITE DELETE 0 0 None] ns =
  without_stream fd ns.
Proof.
  unfold without_stream, on_read, on_write. cbn [apply_changes]. rewrite apply_delete.
  destruct (ns !! (u64 fd, EVFILT_READ)); [|done]. rewrite apply_delete, lookup_delete_ne by done.
  destruct (ns !! (u64 fd, EVFILT_WRITE)) eqn:E; [done|]. rewrite (delete_id (delete _ _)); [done|].
  by rewrite lookup_delete_ne.
Qed.

Lemma stream_deregister_ok p e x s :
  live p e s → var e = V_stream x → fd_open (snd s) (u64 (s_fd x)) = true →
  ∃ s', runloop_stream_deregister p s = Ret s' ∧ live p e s' ∧ watching s' = without_stream (s_fd x) (watching s) ∧ fst s' = fst s ∧
    snd s' = fst (kevent K (kqueue_fd (fst s))
      [EV_SET (u64 (s_fd x)) EVFILT_READ DELETE 0 0 None; EV_SET (u64 (s_fd x)) EVFILT_WRITE DELETE 0 0 None] 0 None (snd s)).
Proof using HL.
  intros [He Hr] Hx Ho. unfold runloop_stream_deregister, kqh_readerwriter_cancel, kqh_fd, has_loop, expect_zero.
  rewrite (tag_stream_ok p e x s He Hx), bind_ret_l, He, bind_ret_l, (stream_fd_ok e x Hx), !bind_ret_l, Hr, !bind_ret_l.
  match goal with |- context [kevent_change K ?cs s] => destruct (change_ok K notes fd_open HL cs s) as [Hf Hw]; [repeat constructor; by apply valid_open|] end.
  eexists. split; [reflexivity|]. split_and!; [|rewrite Hw; apply delete_both|done|].
  - unfold live, event_at in *. by rewrite Hf.
  - unfold kevent_change. by destruct (kevent K _ _ 0 None (snd s)).
Qed.

(** The loop once entry [p] is back in the pool. *)
Record gives_back (p : Z) (a : pool) (rl rl' : Runloop fn arg_t) : Prop := {
  gb_ready : ready_list rl' = ready_list rl;
  gb_queue : kqueue_fd rl' = kqueue_fd rl;
  gb_change : change rl' = change rl;
  gb_events : ∀ q, get_event (event_table rl') q = get_event (event_table rl) q;
  gb_pool : table_rep (event_table rl') (mkPool (free a ++ [p]) (seen a))
}.

(** The kernel once a stream is deregistered and its descriptor closed. *)
Definition forget_stream (q fd : Z) (w : W) : W :=
  fst (close K fd (fst (kevent K q [EV_SET (u64 fd) EVFILT_READ DELETE 0 0 None; EV_SET (u64 fd) EVFILT_WRITE DELETE 0 0 None] 0 None w))).

(** Freeing a stream gives its entry back to the pool; the other events stay. *)
Lemma stream_free_ok p e x s a :
  live p e s → var e = V_stream x → fd_open (snd s) (u64 (s_fd x)) = true →
  table_rep (event_table (fst s)) a → p ∈ seen a → Zlen (free a) < EVT_MAX →
  ∃ s', runloop_stream_free p s = Ret s' ∧ gives_back p a (fst s) (fst s') ∧ snd s' = forget_stream (kqueue_fd (fst s)) (s_fd x) (snd s).
Proof using HL.
  intros Hl Hx Ho Ha Hp Hroom. destruct (stream_deregister_ok p e x s Hl Hx Ho) as (s1 & Hd & [He Hr] & _ & Hf & Hk).
  unfold runloop_stream_free, forget_stream. rewrite Hd, bind_ret_l, He, bind_ret_l, (stream_fd_ok e x Hx), bind_ret_l, <- Hk. clear Hd Hk.
  unfold close_descriptor. destruct s1 as [rl w]. cbn [fst snd] in *. subst rl. destruct (close K (s_fd x) w) as [w' rc].
  unfold release_event. assert (event_at p (fst s, w') = Ret e) as -> by exact He. rewrite bind_ret_l. unfold has_loop. rewrite Hr, bind_ret_l.
  cbn [fst snd]. pose proof (release_ok _ _ p Ha) as Hrel. unfold pool_release in Hrel.
  rewrite decide_True, (proj2 (Z.ltb_lt _ _)) in Hrel by done. destruct Hrel as (t & Ht & Hrep). rewrite Ht, bind_ret_l.
  eexists. split; [reflexivity|]. split; [|done]. constructor; try done. intros q. by apply (get_release _ _ _ _ Ht).
Qed.

(** C24: What the kernel watches for a stream, when it keeps notes as documented:
    registering makes it watch both directions for one occurrence each; arming one
    direction stores the callback and makes it watch that direction for this stream, for
    one occurrence when writing and for every occurrence when reading; disarming keeps
    the note, disabled and without the stream; deregistering removes both notes, but none
    when the stream was armed for writing only. None of them aborts. *)
Theorem kq_stream_interest p e x s :
  live p e s → var e = V_stream x → fd_open (snd s) (u64 (s_fd x)) = true →
  (∃ s', runloop_stream_register p s = Ret s' ∧ live p e s' ∧
     watching s' = <[on_write (s_fd x) := armed_note p true]> (<[on_read (s_fd x) := armed_note p true]> (watching s))) ∧
  (∀ cb a, ∃ s', runloop_stream_arm_read (Some cb) (Some a) p s = Ret s' ∧
     live p (mkEvent true (handler e) (V_stream (mkStream (s_fd x) (event_mask x) (Some cb) (Some a) (write_postable_cb x) (write_postable_arg x)))) s' ∧
     watching s' = <[on_read (s_fd x) := armed_note p false]> (watching s)) ∧
  (∀ cb a, ∃ s', runloop_stream_arm_write (Some cb) (Some a) p s = Ret s' ∧
     live p (mkEvent true (handler e) (V_stream (mkStream (s_fd x) (event_mask x) (read_postable_cb x) (read_postable_arg x) (Some cb) (Some a)))) s' ∧
     watching s' = <[on_write (s_fd x) := armed_note p true]> (watching s)) ∧
  (∃ s', runloop_stream_disarm_read p s = Ret s' ∧ watching s' = <[on_read (s_fd x) := paused_note]> (watching s)) ∧
  (∃ s', runloop_stream_disarm_write p s = Ret s' ∧ watching s' = <[on_write (s_fd x) := paused_note]> (watching s)) ∧
  (∃ s', runloop_stream_deregister p s = Ret s' ∧ live p e s' ∧ watching s' = without_stream (s_fd x) (watching s)).
Proof using HL.
  intros Hl Hx Ho. pose proof (stream_fd_ok e x Hx) as Hfd. pose proof (proj1 Hl) as He.
  split_and!.
  - unfold runloop_stream_register. rewrite (tag_stream_ok p e x s He Hx), bind_ret_l.
    edestruct (helper_fd_ok stream_fd) as (s' & Hs & Hl' & Hw & _); [done|done| |exists s'; split_and!; [exact Hs|done|exact Hw]].
    repeat constructor; by apply valid_open.
  - intros cb a. destruct (kq_arm_read_ok p e x cb a s Hl Hx Ho) as (s' & Hs & Hl' & Hw & _). by exists s'.
  - intros cb a. unfold runloop_stream_arm_write.
    match goal with |- context [put_stream ?u] => edestruct (arm_ok p e (s_fd x) x u) as (s' & Hs & Hl' & Hw & _); [done|done|reflexivity|done..|] end.
    exists s'. split_and!; [exact Hs|exact Hl'|exact Hw].
  - unfold runloop_stream_disarm_read.
    match goal with |- context [put_stream ?u] => edestruct (arm_ok p e (s_fd x) x u) as (s' & Hs & _ & Hw & _); [done|done|reflexivity|done..|] end.
    exists s'. split; [exact Hs|exact Hw].
  - unfold runloop_stream_disarm_write.
    match goal with |- context [put_stream ?u] => edestruct (arm_ok p e (s_fd x) x u) as (s' & Hs & _ & Hw & _); [done|done|reflexivity|done..|] end.
    exists s'. split; [exact Hs|exact Hw].
  - destruct (stream_deregister_ok p e x s Hl Hx Ho) as (s' & ? & ? & ? & _). by exists s'.
Qed.

(** ** Timers *)

Definition timer_note (p ms : Z) (once : bool) : note := mkNote true once false 0 ms (Some p).

Lemma timer_changed cs p e s :
  live p e s → Forall (λ c, filter c = EVFILT_TIMER) cs →
  ∃ s', expect_zero (kqh_event K cs p s) = Ret s' ∧ live p e s' ∧ watching s' = apply_changes cs (watching s).
Proof using HL.
  intros Hl Hc. destruct (helper_event_ok cs p s e Hl) as (s' & Hs & Hl' & Hw).
  - eapply Forall_impl; [exact Hc|]. intros c Hf. by apply valid_other; rewrite Hf.
  - exists s'. unfold expect_zero. rewrite Hs, bind_ret_l. cbn [Z.eqb c_assert]. by rewrite bind_ret_l.
Qed.

Definition timer_event (ms : Z) (rep : bool) (cb : fn) (a : option arg_t) : event :=
  mkEvent true (Some H_timer) (V_timer (mkTimer ms rep (Some cb) a)).

Lemma register_timer p ms rep s :
  ∀ e, live p e s →
  ∃ s', expect_zero (kqh_timer_register K addr (negb rep) ms p s) = Ret s' ∧ live p e s' ∧
    watching s' = <[on_timer p := timer_note p ms (negb rep)]> (watching s).
Proof using HL.
  intros e Hl. unfold kqh_timer_register.
  match goal with |- context [kqh_event K ?cs] => destruct (timer_changed cs p e s Hl) as (s' & Hs & Hl' & Hw) end.
  - by repeat constructor.
  - exists s'. split_and!; [exact Hs|done|]. rewrite Hw. by destruct rep.
Qed.

Lemma timer_register_stores p e t cb a ms rep s :
  live p e s → var e = V_timer t →
  runloop_timer_register (Some cb) a ms rep p s =
    (s ← store_event p (timer_event ms rep cb a) s; expect_zero (kqh_timer_register K addr (negb rep) ms p s)).
Proof. intros [He Hr] Ht. unfold runloop_timer_register. by rewrite (timer_at_ok p e t s He Ht), bind_ret_l, Hr, Ht. Qed.

Lemma timer_handler_once p ms cb a fi fl s :
  live p (timer_event ms false cb a) s →
  ∃ s', timer_handler p fi fl s = call cb a s' ∧ live p (timer_event ms false cb a) s' ∧
    watching s' = delete (on_timer p) (watching s).
Proof using HL.
  intros Hl. unfold timer_handler. rewrite (proj1 Hl), bind_ret_l. destruct (timer_fields _ _ (eq_refl : var (timer_event ms false cb a) = _)) as [-> ->].
  rewrite !bind_ret_l. cbn [repeating negb]. unfold runloop_timer_deregister.
  rewrite (timer_at_ok p _ _ s (proj1 Hl) eq_refl), bind_ret_l. unfold kqh_timer_cancel.
  match goal with |- context [kqh_event K ?cs] => destruct (timer_changed cs p _ s Hl) as (s' & Hs & Hl' & Hw) end.
  - by repeat constructor.
  - exists s'. rewrite Hs, bind_ret_l, (proj1 Hl'), bind_ret_l. split; [done|]. split; [done|].
    rewrite Hw. cbn [apply_changes]. rewrite apply_delete. fold (on_timer p).
    destruct (watching s !! on_timer p) eqn:E; [done|]. by rewrite delete_id.
Qed.

(** A timer of the kqueue loop works whether it repeats or not: registering it makes
    the kernel watch it with its interval, for one occurrence or for all, and stores the
    callback; each occurrence calls the callback once with its argument, and before that
    a timer that does not repeat is taken out of the kernel's notes, with no abort when
    the kernel has already dropped it. *)
Theorem kq_timer_fires p e t cb a ms rep fi fl s :
  live p e s → var e = V_timer t →
  ∃ s1, runloop_timer_register (Some cb) a ms rep p s = Ret s1 ∧ live p (timer_event ms rep cb a) s1 ∧
    watching s1 = <[on_timer p := timer_note p ms (negb rep)]> (watching s) ∧
    ∀ s2, live p (timer_event ms rep cb a) s2 →
      if rep then timer_handler p fi fl s2 = call cb a s2
      else ∃ s3, timer_handler p fi fl s2 = call cb a s3 ∧ live p (timer_event ms rep cb a) s3 ∧
             watching s3 = delete (on_timer p) (watching s2).
Proof using HL.
  intros Hl Ht. rewrite (timer_register_stores p e t cb a ms rep s Hl Ht).
  destruct (store_ok p e (timer_event ms rep cb a) s Hl eq_refl) as (s1 & -> & Hl1 & _ & Hw1 & _). rewrite bind_ret_l.
  destruct (register_timer p ms rep s1 _ Hl1) as (s2 & -> & Hl2 & Hw2).
  exists s2. split_and!; [done|done|by rewrite Hw2, Hw1|]. intros s3 Hl3. destruct rep.
  - unfold timer_handler. rewrite (proj1 Hl3), bind_ret_l. destruct (timer_fields _ _ (eq_refl : var (timer_event ms true cb a) = _)) as [-> ->].
    rewrite !bind_ret_l. cbn [repeating negb]. by rewrite bind_ret_l, (proj1 Hl3), bind_ret_l.
  - by apply timer_handler_once.
Qed.

(** Updating a one-shot timer to a repeating one does not make it repeat: the kernel
    is told the new interval and to repeat, but the event keeps its old settings, and its
    first occurrence takes it out of the kernel's notes. *)
Theorem kq_timer_update_fires_once p e t cb a ms ms' fi fl s :
  live p e s → var e = V_timer t →
  ∃ s1 s2 s3, runloop_timer_register (Some cb) a ms false p s = Ret s1 ∧
    runloop_timer_update ms' true p s1 = Ret s2 ∧ watching s2 !! on_timer p = Some (timer_note p ms' false) ∧
    timer_handler p fi fl s2 = call cb a s3 ∧ watching s3 !! on_timer p = None.
Proof using HL.
  intros Hl Ht. rewrite (timer_register_stores p e t cb a ms false s Hl Ht).
  destruct (store_ok p e (timer_event ms false cb a) s Hl eq_refl) as (s1 & -> & Hl1 & _ & Hw1 & _). rewrite bind_ret_l.
  destruct (register_timer p ms false s1 _ Hl1) as (s2 & -> & Hl2 & _).
  destruct (register_timer p ms' true s2 _ Hl2) as (s3 & Hs3 & Hl3 & Hw3).
  destruct (timer_handler_once p ms cb a fi fl s3 Hl3) as (s4 & Hs4 & _ & Hw4).
  exists s2, s3, s4. split_and!; [done|exact Hs3| |exact Hs4|].
  - by rewrite Hw3, lookup_insert_eq.
  - by rewrite Hw4, lookup_delete_eq.
Qed.

(** ** Requests that name the wrong filter *)

(** Two requests to stop watching name EVFILT_TIMER and so stop nothing. Deregistering a
    listener leaves the note on its descriptor as it was. Disarming a user event leaves
    its note enabled, so firing it still calls the handler, and makes a useless timer
    note; deregistering a user event does nothing at all. The handler of a user event
    passes the event, not the argument given when it was armed. *)
Theorem kq_wrong_filter p e s :
  live p e s →
  (∀ l, var e = V_listener l →
    ∃ s', runloop_listener_deregister p s = Ret s' ∧ watching s' !! on_read (l_fd l) = watching s !! on_read (l_fd l)) ∧
  (∀ u cb a fi fl, var e = V_uevent u →
    ∃ s1 s2, runloop_user_event_arm (Some cb) (Some a) p s = Ret s1 ∧
      runloop_user_event_disarm p s1 = Ret s2 ∧ runloop_user_event_deregister p s2 = Ret s2 ∧
      watching s2 !! on_user p = Some (mkNote true false false 0 0 (Some p)) ∧
      watching s2 !! on_timer p = Some paused_note ∧
      user_event_handler p fi fl s2 = call cb (Some (event_arg p)) s2).
Proof using HL.
  intros Hl. split.
  - intros l Hv. unfold runloop_listener_deregister, kqh_listener_cancel. rewrite (listener_at_ok p e l s (proj1 Hl) Hv), bind_ret_l.
    destruct (kqh_fd_ok K notes fd_open HL listener_fd (λ id, [EV_SET id EVFILT_TIMER DELETE 0 0 None]) p s e (l_fd l))
      as (s' & -> & _ & Hw); [apply Hl|by apply listener_fd_ok|apply Hl| |].
    + repeat constructor. by apply valid_other.
    + rewrite bind_ret_l. exists s'. split; [done|]. rewrite Hw. cbn [apply_changes]. rewrite apply_delete.
      destruct (watching s !! (u64 (l_fd l), EVFILT_TIMER)); [|done]. by rewrite lookup_delete_ne.
  - intros u cb a fi fl Hv. unfold runloop_user_event_arm, put_uevent. rewrite (proj1 Hl), bind_ret_l. unfold with_var. rewrite (proj2 Hl), Hv.
    set (e' := mkEvent true (handler e) (V_uevent (mkUevent (Some cb) (Some a) (write_fd u) (read_fd u)))).
    destruct (store_ok p e e' s Hl eq_refl) as (s1 & Hs1 & Hl1 & _). change (store_event p _ s) with (store_event p e' s). rewrite Hs1.
    rewrite bind_ret_l. unfold kqh_user_event_register, runloop_user_event_disarm, kqh_user_event_pause.
    match goal with |- context [kqh_event K ?cs p s1] =>
      destruct (helper_event_ok cs p s1 _ Hl1) as (s2 & -> & Hl2 & Hw2); [by repeat constructor; apply valid_other|] end.
    rewrite bind_ret_l. exists s2. rewrite (tag_uevent_ok p e' _ s2 (proj1 Hl2) eq_refl), bind_ret_l.
    match goal with |- context [kqh_event K ?cs p] =>
      destruct (helper_event_ok cs p s2 _ Hl2) as (s3 & Hs3 & Hl3 & Hw3); [by repeat constructor; apply valid_other|] end.
    exists s3. rewrite Hs3. split_and!; [done|done|done| | |].
    + rewrite Hw3, Hw2. change (<[on_timer p := paused_note]> (<[on_user p := mkNote true false false 0 0 (Some p)]> (watching s1)) !! on_user p
          = Some (mkNote true false false 0 0 (Some p))). by rewrite lookup_insert_ne, lookup_insert_eq.
    + rewrite Hw3. change (<[on_timer p := paused_note]> (watching s2) !! on_timer p = Some paused_note). by rewrite lookup_insert_eq.
    + unfold user_event_handler. by rewrite (proj1 Hl3).
Qed.

(** A new user event has no descriptor: clearing its events, asking for its descriptor and
    freeing it read a field that nothing has set. *)
Theorem user_event_no_descriptor s s1 p fuel :
  runloop_user_event_new s = Ret (s1, p) →
  runloop_user_event_get_fd p s1 = Ub ∧ runloop_user_event_clear_one_event p s1 = Ub ∧
  runloop_user_event_clear_all_events (S fuel) p s1 = Ub ∧ runloop_user_event_free p s1 = Ub.
Proof.
  unfold runloop_user_event_new, new_event. intros H. inv_bind H. destruct a as [t q]. inv_bind H. injection H as -> ->.
  unfold runloop_user_event_init, store_event in E0. inv_bind E0. injection E0 as <-.
  assert (event_at p (set_events (set_events (fst s) t) a, snd s) = Ret (mkEvent true (Some H_user_event) (V_uevent (mkUevent None None None None)))) as He
    by (by eapply get_set_event).
  unfold runloop_user_event_get_fd, runloop_user_event_clear_one_event, runloop_user_event_clear_all_events, runloop_user_event_free.
  cbn [fst snd] in *. rewrite (tag_uevent_ok p _ _ _ He eq_refl), !bind_ret_l. cbn [clear_events_loop]. unfold read_event. by rewrite He.
Qed.
End KqWatchers.

(** ** Witnesses: a kernel that keeps the notes of its one queue *)

Definition ex_wkq : kqueue_sys (gmap (Z * Z) note) :=
  mkKq (λ w, (w, 3)) (λ _ cs _ _ w, (apply_changes cs w, KEvents [])) (λ _ w, (w, 0)).
Definition ex_notes (w : gmap (Z * Z) note) (kq : Z) : gmap (Z * Z) note := w.
Definition ex_fd_open (w : gmap (Z * Z) note) (fd : Z) : bool := true.

Lemma ex_wlaws : kqueue_laws ex_wkq ex_notes ex_fd_open.
Proof. constructor. by intros. Qed.

(** A loop with the event [e] in its first slab. *)
Definition ex_wloop (e : RunloopEvent nat nat) : Runloop nat nat * gmap (Z * Z) note :=
  (mkRunloop 3 false false (mkTable (mkFree 2047 2048 2049 1 0 []) [mkSlab (Some e) (Some 0)]) [] (mkFL 2 0 0 []), ∅).
Definition ex_stream_event : RunloopEvent nat nat := mkEvent true (Some H_stream) (V_stream (mkStream 5 0 None None None None)).
Definition ex_timer_event : RunloopEvent nat nat := mkEvent true (Some H_timer) (V_timer (mkTimer 0 false None None)).
Definition ex_user_event : RunloopEvent nat nat := mkEvent true (Some H_user_event) (V_uevent (mkUevent None None None None)).
Definition ex_addr (p : Z) : Z := 4096 + 8 * p.
Definition ex_event_arg (p : Z) : nat := Z.to_nat p.
Definition ex_wcall (g : nat) (a : option nat) (s : Runloop nat nat * gmap (Z * Z) note) :
    outcome (Runloop nat nat * gmap (Z * Z) note) := runloop_post (Some g) a s.

Lemma kq_stream_interest_witness :
  ∃ s', runloop_stream_register ex_wkq 0 (ex_wloop ex_stream_event) = Ret s' ∧ live 0 ex_stream_event s' ∧
    watching ex_notes s' = <[on_write 5 := armed_note 0 true]> (<[on_read 5 := armed_note 0 true]> ∅).
Proof.
  exact (proj1 (kq_stream_interest ex_wkq ex_notes ex_fd_open ex_wlaws 0 ex_stream_event
    (mkStream 5 0 None None None None) (ex_wloop ex_stream_event) (conj eq_refl eq_refl) eq_refl eq_refl)).
Defined.

Lemma kq_timer_fires_witness :
  ∃ s1, runloop_timer_register ex_wkq ex_addr (Some 1%nat) (Some 7%nat) 250 false 0 (ex_wloop ex_timer_event) = Ret s1 ∧
    watching ex_notes s1 = <[on_timer ex_addr 0 := timer_note 0 250 true]> ∅ ∧
    ∃ s3, timer_handler ex_wkq ex_addr ex_wcall 0 0 0 s1 = ex_wcall 1 (Some 7%nat) s3.
Proof.
  destruct (kq_timer_fires ex_wkq ex_addr ex_wcall ex_notes ex_fd_open ex_wlaws 0 ex_timer_event _ 1%nat (Some 7%nat) 250 false 0 0
    (ex_wloop ex_timer_event) (conj eq_refl eq_refl) eq_refl) as (s1 & Hs & Hl & Hw & Hf).
  exists s1. split; [exact Hs|]. split; [exact Hw|]. destruct (Hf s1 Hl) as (s3 & H3 & _). by exists s3.
Defined.

Lemma kq_timer_update_fires_once_witness :
  ∃ s1 s2 s3, runloop_timer_register ex_wkq ex_addr (Some 1%nat) None 250 false 0 (ex_wloop ex_timer_event) = Ret s1 ∧
    runloop_timer_update ex_wkq ex_addr 100 true 0 s1 = Ret s2 ∧
    watching ex_notes s2 !! on_timer ex_addr 0 = Some (timer_note 0 100 false) ∧
    timer_handler ex_wkq ex_addr ex_wcall 0 0 0 s2 = ex_wcall 1 None s3 ∧ watching ex_notes s3 !! on_timer ex_addr 0 = None.
Proof.
  exact (kq_timer_update_fires_once ex_wkq ex_addr ex_wcall ex_notes ex_fd_open ex_wlaws 0 ex_timer_event _ 1%nat None 250 100 0 0
    (ex_wloop ex_timer_event) (conj eq_refl eq_refl) eq_refl).
Defined.

Lemma kq_wrong_filter_witness :
  ∃ s1 s2, runloop_user_event_arm ex_wkq ex_addr (Some 1%nat) (Some 7%nat) 0 (ex_wloop ex_user_event) = Ret s1 ∧
    runloop_user_event_disarm ex_wkq ex_addr 0 s1 = Ret s2 ∧ runloop_user_event_deregister 0 s2 = Ret s2 ∧
    watching ex_notes s2 !! on_user ex_addr 0 = Some (mkNote true false false 0 0 (Some 0)) ∧
    watching ex_notes s2 !! on_timer ex_addr 0 = Some paused_note ∧
    user_event_handler ex_event_arg ex_wcall 0 0 0 s2 = ex_wcall 1 (Some 0%nat) s2.
Proof.
  exact (proj2 (kq_wrong_filter ex_wkq ex_addr ex_event_arg ex_wcall ex_notes ex_fd_open ex_wlaws 0 ex_user_event
    (ex_wloop ex_user_event) (conj eq_refl eq_refl)) _ 1%nat 7%nat 0 0 eq_refl).
Defined.
