(* ===== verification/KqTyping.v ===== *)
(** * KqTyping: the union in an event of the kqueue loop is used at the member it holds
    (src/runloop/kqueue_runloop/stream.c, listener.c, timer.c, user_event.c, runloop.c)

    Any pointer to an event can be given to any operation: those of streams and of user
    events store the tag that they check, and then store to the union whatever it holds.
    So what the types of the program do not say is stated here: in a program that uses
    each event as what it was made for, the loop and all its operations find the tags and
    the union to be of that kind, also when events are freed and their places are used for
    others. Runs with a check at each use are the runs without. *)

From S2P Require Import Prelude FunctorList EventTable KqRunloop KqHelpers KqWatchers.
Open Scope Z_scope.

Section KqTyping.
Context {fn arg_t W : Type}.
Variable K : kqueue_sys W.
Variable addr : Z → Z.
Variable event_arg : Z → arg_t.
Variable read8 : Z → W → W * Z * Z.
Abbreviation st := (Runloop fn arg_t * W)%type.
Abbreviation event := (RunloopEvent fn arg_t).

(** The calls a program makes on the loop and its events, with any pointer. *)
Inductive watcher_op :=
| OPost (cb : option fn) (a : option arg_t)
| OStreamNew (fd : Z) | OStreamRegister (p : Z) | OStreamDeregister (p : Z) | OStreamFree (p : Z) | OStreamDeinit (p : Z)
| OStreamArmBoth (rcb : option fn) (ra : option arg_t) (wcb : option fn) (wa : option arg_t) (p : Z)
| OStreamArmRead (cb : option fn) (a : option arg_t) (p : Z) | OStreamArmWrite (cb : option fn) (a : option arg_t) (p : Z)
| OStreamDisarmRead (p : Z) | OStreamDisarmWrite (p : Z) | OStreamVerify (p : Z) | OStreamGetRunloop (p : Z) | OStreamGetFd (p : Z)
| OListenerNew (fd : Z) | OListenerRegister (cb : option fn) (a : option arg_t) (p : Z) | OListenerDeregister (p : Z)
| OListenerArm (cb : option fn) (a : option arg_t) (p : Z) | OListenerRearm (p : Z) | OListenerDisarm (p : Z) | OListenerFree (p : Z) | OListenerVerify (p : Z)
| OTimerNew | OTimerSet (cb : option fn) (a : option arg_t) (ms : Z) (rep : bool)
| OTimerRegister (cb : option fn) (a : option arg_t) (ms : Z) (rep : bool) (p : Z) | OTimerUpdate (ms : Z) (rep : bool) (p : Z)
| OTimerDisarm (p : Z) | OTimerRearm (p : Z) | OTimerDeregister (p : Z) | OTimerClear (p : Z) | OTimerFree (p : Z)
| OTimerVerify (p : Z)
| OUserNew | OUserRegister (p : Z) | OUserArm (cb : option fn) (a : option arg_t) (p : Z) | OUserDisarm (p : Z)
| OUserDeregister (p : Z) | OUserFire (p : Z) | OUserClearOne (p : Z) | OUserFree (p : Z)
| OUserVerify (p : Z) | OUserGetRunloop (p : Z) | OUserGetFd (p : Z).

Definition drop_pointer {A} (r : outcome (st * A)) : outcome st := '(s, _) ← r; Ret s.

Definition exec (op : watcher_op) (s : st) : outcome st :=
  match op with
  | OPost cb a => runloop_post cb a s
  | OStreamNew fd => drop_pointer (runloop_stream_new fd s)
  | OStreamRegister p => runloop_stream_register K p s
  | OStreamDeregister p => runloop_stream_deregister K p s
  | OStreamFree p => runloop_stream_free K p s
  | OStreamDeinit p => runloop_stream_deinit p s
  | OStreamArmBoth rcb ra wcb wa p => runloop_stream_arm_both K rcb ra wcb wa p s
  | OStreamArmRead cb a p => runloop_stream_arm_read K cb a p s
  | OStreamArmWrite cb a p => runloop_stream_arm_write K cb a p s
  | OStreamDisarmRead p => runloop_stream_disarm_read K p s
  | OStreamDisarmWrite p => runloop_stream_disarm_write K p s
  | OStreamVerify p => runloop_stream_verify p s
  | OStreamGetRunloop p => drop_pointer (runloop_stream_get_runloop p s)
  | OStreamGetFd p => drop_pointer (runloop_stream_get_fd p s)
  | OListenerNew fd => drop_pointer (runloop_listener_new fd s)
  | OListenerRegister cb a p => runloop_listener_register K cb a p s
  | OListenerDeregister p => runloop_listener_deregister K p s
  | OListenerArm cb a p => runloop_listener_arm K cb a p s
  | OListenerRearm p => runloop_listener_rearm K p s
  | OListenerDisarm p => runloop_listener_disarm K p s
  | OListenerFree p => runloop_listener_free K p s
  | OListenerVerify p => runloop_listener_verify p s
  | OTimerNew => drop_pointer (runloop_timer_new s)
  | OTimerSet cb a ms rep => drop_pointer (runloop_timer_set K addr cb a ms rep s)
  | OTimerRegister cb a ms rep p => runloop_timer_register K addr cb a ms rep p s
  | OTimerUpdate ms rep p => runloop_timer_update K addr ms rep p s
  | OTimerDisarm p => runloop_timer_disarm K addr p s
  | OTimerRearm p => runloop_timer_rearm K addr p s
  | OTimerDeregister p => runloop_timer_deregister K addr p s
  | OTimerClear p => runloop_timer_clear K addr p s
  | OTimerFree p => runloop_timer_free p s
  | OTimerVerify p => runloop_timer_verify p s
  | OUserNew => drop_pointer (runloop_user_event_new s)
  | OUserRegister p => runloop_user_event_register K addr p s
  | OUserArm cb a p => runloop_user_event_arm K addr cb a p s
  | OUserDisarm p => runloop_user_event_disarm K addr p s
  | OUserDeregister p => runloop_user_event_deregister p s
  | OUserFire p => runloop_user_event_fire K addr p s
  | OUserClearOne p => runloop_user_event_clear_one_event read8 p s
  | OUserFree p => runloop_user_event_free p s
  | OUserVerify p => runloop_user_event_verify p s
  | OUserGetRunloop p => drop_pointer (runloop_user_event_get_runloop p s)
  | OUserGetFd p => drop_pointer (runloop_user_event_get_fd p s)
  end.
Fixpoint exec_ops (ops : list watcher_op) (s : st) : outcome st :=
  match ops with [] => Ret s | op :: ops => s ← exec op s; exec_ops ops s end.

(** A callback makes calls that depend on its argument and on all it can see. *)
Variable act : fn → option arg_t → st → list watcher_op.
Definition call (g : fn) (a : option arg_t) (s : st) : outcome st := exec_ops (act g a s) s.

(** ** Typing *)

(** The kind of an event is its first-level handler; one without has been deinitialised,
    which only a stream can be. *)
Definition kind (e : event) : first_level := default H_stream (handler e).
Definition member (h : first_level) (v : variant fn arg_t) : bool :=
  match h, v with H_stream, V_stream _ | H_listener, V_listener _ | H_timer, V_timer _ | H_user_event, V_uevent _ => true | _, _ => false end.
Definition typed (e : event) : Prop := member (kind e) (var e) = true.
Definition well_typed (s : st) : Prop := ∀ p e, event_at p s = Ret e → typed e.

(** The event an operation is made on, and the kind that the operation is for. *)
Definition target (op : watcher_op) : option (Z * first_level) :=
  match op with
  | OPost _ _ | OStreamNew _ | OListenerNew _ | OTimerNew | OTimerSet _ _ _ _ | OUserNew => None
  | OStreamRegister p | OStreamDeregister p | OStreamFree p | OStreamDeinit p | OStreamArmBoth _ _ _ _ p
  | OStreamArmRead _ _ p | OStreamArmWrite _ _ p | OStreamDisarmRead p | OStreamDisarmWrite p
  | OStreamVerify p | OStreamGetRunloop p | OStreamGetFd p => Some (p, H_stream)
  | OListenerRegister _ _ p | OListenerDeregister p | OListenerArm _ _ p | OListenerRearm p | OListenerDisarm p
  | OListenerFree p | OListenerVerify p => Some (p, H_listener)
  | OTimerRegister _ _ _ _ p | OTimerUpdate _ _ p | OTimerDisarm p | OTimerRearm p | OTimerDeregister p | OTimerClear p
  | OTimerFree p | OTimerVerify p => Some (p, H_timer)
  | OUserRegister p | OUserArm _ _ p | OUserDisarm p | OUserDeregister p | OUserFire p | OUserClearOne p
  | OUserFree p | OUserVerify p | OUserGetRunloop p | OUserGetFd p => Some (p, H_user_event)
  end.
(** The operation is made on an event of its kind; all of them are, one after the other. *)
Definition fits (op : watcher_op) (s : st) : Prop := ∀ p h e, target op = Some (p, h) → event_at p s = Ret e → kind e = h.
Fixpoint fitting (ops : list watcher_op) (s : st) : Prop :=
  match ops with [] => True | op :: ops => fits op s ∧ ∀ s', exec op s = Ret s' → fitting ops s' end.

(** The same with a check of the tags and the union at each use; [bad] is what a check
    that fails comes to. *)
Section Checked.
Variable bad : outcome st.
Definition checked (h : first_level) (p : Z) (o : outcome st) (s : st) : outcome st :=
  match event_at p s with Ret e => if member h (var e) then o else bad | _ => o end.
Definition exec' (op : watcher_op) (s : st) : outcome st :=
  match target op with Some (p, h) => checked h p (exec op s) s | None => exec op s end.
Fixpoint exec_ops' (ops : list watcher_op) (s : st) : outcome st :=
  match ops with [] => Ret s | op :: ops => s ← exec' op s; exec_ops' ops s end.
Definition call' (g : fn) (a : option arg_t) (s : st) : outcome st := exec_ops' (act g a s) s.
Definition handle' (h : first_level) (p filter flags : Z) (s : st) : outcome st :=
  checked h p (first_level_handler K addr event_arg call' h p filter flags s) s.
End Checked.

(** What returns, returns a well-typed loop. *)
Definition keeps (o : outcome st) : Prop := ∀ s, o = Ret s → well_typed s.

(** ** Lemmas *)

Lemma keeps_ret s : well_typed s → keeps (Ret s).
Proof. by intros Hs s' [= <-]. Qed.
Lemma keeps_bind {A} (m : outcome A) k : (∀ a, m = Ret a → keeps (k a)) → keeps (a ← m; k a).
Proof. intros H s Hs. apply bind_ret_inv in Hs as (a & Ha & Hs). by eapply H. Qed.
Lemma keeps_then (m : outcome st) k : keeps m → (∀ s, well_typed s → keeps (k s)) → keeps (s ← m; k s).
Proof. intros Hm Hk. apply keeps_bind. intros s Hs. by apply Hk, Hm. Qed.
Lemma keeps_eq s s' : event_table (fst s') = event_table (fst s) → well_typed s → well_typed s'.
Proof. intros He Hs p e Hp. apply (Hs p e). unfold event_at in *. by rewrite <- He. Qed.

Lemma store_keeps p e s : well_typed s → typed e → keeps (store_event p e s).
Proof.
  intros Hs He s' H. unfold store_event in H. apply bind_ret_inv in H as (t & Ht & H). injection H as <-.
  intros q e' Hq. unfold event_at in Hq. cbn in Hq. destruct (decide (q = p)) as [->|Hne].
  - rewrite (get_set_event _ _ _ _ Ht) in Hq. by injection Hq as <-.
  - rewrite (get_set_event_ne _ _ _ _ _ Ht Hne) in Hq. by apply (Hs q).
Qed.

Lemma change_keeps cs s : well_typed s → well_typed (kevent_change K cs s).
Proof. apply keeps_eq. unfold kevent_change. by destruct (kevent _ _ _ _ _ _). Qed.

Lemma kqh_fd_keeps get cs p s : well_typed s → keeps (drop_pointer (kqh_fd K get cs p s)).
Proof.
  intros Hs. unfold drop_pointer, kqh_fd. rewrite !bind_assoc. apply keeps_bind. intros e _. rewrite !bind_assoc. apply keeps_bind. intros fd _.
  rewrite !bind_assoc. apply keeps_bind. intros [] _. rewrite bind_ret_l. by apply keeps_ret, change_keeps.
Qed.
Lemma kqh_event_keeps cs p s : well_typed s → keeps (drop_pointer (kqh_event K cs p s)).
Proof.
  intros Hs. unfold drop_pointer, kqh_event. rewrite !bind_assoc. apply keeps_bind. intros e _. rewrite !bind_assoc. apply keeps_bind. intros [] _.
  rewrite bind_ret_l. by apply keeps_ret, change_keeps.
Qed.
Lemma expect_zero_keeps r : keeps (drop_pointer r) → keeps (expect_zero r).
Proof.
  intros Hr. unfold expect_zero. apply keeps_bind. intros [s z] Hz. apply keeps_bind. intros [] _.
  apply keeps_ret, Hr. unfold drop_pointer. by rewrite Hz.
Qed.

Lemma take_keeps t p s : event_table_get_entry (event_table (fst s)) = Ret (t, p) → well_typed s → well_typed (set_events (fst s) t, snd s).
Proof.
  intros H Hs q e Hq. apply (Hs q e). revert Hq. unfold event_at. cbn [fst set_events event_table].
  destruct (decide (q = p)) as [->|Hne]; [|by rewrite (get_entry_others _ _ _ H)].
  unfold event_table_get_entry in H. apply bind_ret_inv in H as ([fl ix] & _ & H). apply bind_ret_inv in H as (m & Hm & H).
  injection H as <- <-. unfold get_event, slab_at in *. destruct (Z.leb_spec 0 ix); [|done]. cbn [put_slab memory].
  destruct (memory (event_table (fst s)) !! Z.to_nat ix) as [m'|] eqn:Em; [|done]. cbn [deref] in Hm. injection Hm as <-.
  by rewrite list_lookup_insert_eq by (by eapply lookup_lt_Some).
Qed.

Lemma new_event_keeps init s :
  (∀ p s, well_typed s → keeps (init p s)) → well_typed s → keeps (drop_pointer (new_event init s)).
Proof.
  intros Hi Hs. unfold drop_pointer, new_event. rewrite !bind_assoc. apply keeps_bind. intros [t p] Ht. rewrite !bind_assoc.
  apply keeps_then; [by apply Hi, take_keeps with p|]. intros s' Hs'. rewrite bind_ret_l. by apply keeps_ret.
Qed.

Lemma release_keeps p s : well_typed s → keeps (release_event p s).
Proof.
  intros Hs. unfold release_event. apply keeps_bind. intros e _. apply keeps_bind. intros [] _. apply keeps_bind. intros t Ht.
  apply keeps_ret. intros q e' Hq. apply (Hs q e'). unfold event_table_release_entry in Ht.
  apply bind_ret_inv in Ht as (m & _ & Ht). apply bind_ret_inv in Ht as (ix & _ & Ht). apply bind_ret_inv in Ht as (fl & _ & Ht).
  by injection Ht as <-.
Qed.

Lemma post_keeps_typed cb a s : well_typed s → keeps (runloop_post cb a s).
Proof. intros Hs s' H. eapply keeps_eq; [|exact Hs]. by eapply post_keeps. Qed.

(** An event used as its kind holds that member. *)
Lemma fits_holds p e h s : well_typed s → event_at p s = Ret e → kind e = h → member h (var e) = true.
Proof. intros Hs He <-. exact (Hs p e He). Qed.
Lemma holds_stream e : kind e = H_stream → typed e → ∃ x, var e = V_stream x.
Proof. unfold typed. intros ->. destruct (var e); try done. by eexists. Qed.
Lemma holds_listener e : kind e = H_listener → typed e → ∃ x, var e = V_listener x.
Proof. unfold typed. intros ->. destruct (var e); try done. by eexists. Qed.
Lemma holds_timer e : kind e = H_timer → typed e → ∃ x, var e = V_timer x.
Proof. unfold typed. intros ->. destruct (var e); try done. by eexists. Qed.
Lemma holds_uevent e : kind e = H_user_event → typed e → ∃ x, var e = V_uevent x.
Proof. unfold typed. intros ->. destruct (var e); try done. by eexists. Qed.

Section Target.
Context (p : Z) (s : st) (Hs : well_typed s).

(** Stores to an event of the right kind. *)
Lemma put_stream_keeps ups :
  (∀ x, ∃ x', stream_with ups x x') → (∀ e, event_at p s = Ret e → kind e = H_stream) → keeps (put_stream ups p s).
Proof using Hs.
  intros Hu Hk. unfold put_stream. apply keeps_bind. intros e He. destruct (holds_stream e) as [x Hx]; [by apply Hk|by eapply Hs|].
  destruct (Hu x) as [x' Hx']. apply store_keeps; [done|]. rewrite Hx, Hx'. pose proof (Hk e He) as H. unfold typed, kind, with_var in *. cbn. by rewrite H.
Qed.
Lemma tag_stream_same : (∀ e, event_at p s = Ret e → kind e = H_stream) → ∀ s', tag_stream p s = Ret s' → s' = s.
Proof using Hs.
  intros Hk s' H. unfold tag_stream in H. apply bind_ret_inv in H as (e & He & H).
  destruct (holds_stream e) as [x Hx]; [by apply Hk|by eapply Hs|]. rewrite Hx in H. congruence.
Qed.
Lemma tag_uevent_same : (∀ e, event_at p s = Ret e → kind e = H_user_event) → ∀ s', tag_uevent p s = Ret s' → s' = s.
Proof using Hs.
  intros Hk s' H. unfold tag_uevent in H. apply bind_ret_inv in H as (e & He & H).
  destruct (holds_uevent e) as [x Hx]; [by apply Hk|by eapply Hs|]. rewrite Hx in H. congruence.
Qed.
Lemma put_uevent_keeps cb a :
  (∀ e, event_at p s = Ret e → kind e = H_user_event) → keeps (put_uevent (stored 0 W_fn cb ++ stored 1 W_arg a) p s).
Proof using Hs.
  intros Hk. unfold put_uevent. apply keeps_bind. intros e He. destruct (holds_uevent e) as [x Hx]; [by apply Hk|by eapply Hs|].
  apply store_keeps; [done|]. pose proof (Hk e He) as H. unfold typed, kind, with_var in *. cbn [handler var]. rewrite H, Hx.
  destruct x as [[] [] ? ?], cb, a; reflexivity.
Qed.
Lemma put_listener_keeps e h cb a :
  event_at p s = Ret e → kind e = H_listener → default H_stream h = H_listener → keeps (put_listener h cb a p e s).
Proof using Hs.
  intros He Hk Hh. unfold put_listener. destruct (holds_listener e Hk) as [x Hx]; [by eapply Hs|].
  apply store_keeps; [done|]. unfold typed, kind. cbn [handler var]. rewrite Hh, Hx. destruct x, cb, a; reflexivity.
Qed.
End Target.

Lemma at_inv (check : event → outcome unit) p (s : st) e : (e ← event_at p s; check e;; Ret e) = Ret e → event_at p s = Ret e.
Proof. intros (e' & He & (? & _ & [= <-])%bind_ret_inv)%bind_ret_inv. exact He. Qed.

Lemma close_keeps fd s : well_typed s → well_typed (close_descriptor K fd s).
Proof. apply keeps_eq. unfold close_descriptor. by destruct (close K fd (snd s)). Qed.

Create HintDb typing.
#[local] Hint Resolve keeps_ret store_keeps release_keeps close_keeps post_keeps_typed kqh_fd_keeps kqh_event_keeps expect_zero_keeps
  change_keeps : typing.

(** One step: an operation that keeps the typing, or a read. *)
Ltac keep_step :=
  match goal with
  | |- keeps (_ ← store_event _ _ _; _) => apply keeps_then; [|intros ? ?]
  | |- keeps (_ ← expect_zero _; _) => apply keeps_then; [|intros ? ?]
  | |- keeps (_ ← _; _) => apply keeps_bind; intros ? ?
  end.
Ltac keep := repeat keep_step; eauto 6 with typing.

Lemma stored_init e : typed e → ∀ p (s : st), well_typed s → keeps (store_event p e s).
Proof. eauto with typing. Qed.

(** A new timer is a timer. *)
Lemma timer_new_at (s s1 : st) p : runloop_timer_new s = Ret (s1, p) → event_at p s1 = Ret (mkEvent true (Some H_timer) (V_timer (mkTimer 0 false None None))).
Proof.
  unfold runloop_timer_new, new_event. intros ([t q] & _ & (s2 & H & [= -> ->])%bind_ret_inv)%bind_ret_inv.
  unfold runloop_timer_init, store_event in H. apply bind_ret_inv in H as (t' & Ht & [= <-]). by eapply get_set_event.
Qed.

Lemma timer_register_keeps cb a ms rep p s :
  well_typed s → (∀ e, event_at p s = Ret e → kind e = H_timer) → keeps (runloop_timer_register K addr cb a ms rep p s).
Proof.
  intros Hs Hk. unfold runloop_timer_register. apply keeps_bind. intros e He. apply at_inv in He.
  destruct (holds_timer e) as [x Hx]; [by apply Hk|by eapply Hs|]. apply keeps_then; [|eauto with typing].
  apply store_keeps; [done|]. rewrite Hx. reflexivity.
Qed.
Lemma timer_deregister_keeps p s : well_typed s → keeps (runloop_timer_deregister K addr p s).
Proof. intros Hs. unfold runloop_timer_deregister. keep. Qed.
Lemma timer_free_keeps p s : well_typed s → keeps (runloop_timer_free p s).
Proof. intros Hs. unfold runloop_timer_free. keep. Qed.

(** Operations that store the tags first. *)
Lemma after_tag_stream (k : st → outcome st) p s :
  well_typed s → (∀ e, event_at p s = Ret e → kind e = H_stream) → keeps (k s) → keeps (s ← tag_stream p s; k s).
Proof. intros Hs Hk H. apply keeps_bind. intros s' E. by rewrite (tag_stream_same p s Hs Hk s' E). Qed.
Lemma after_tag_uevent (k : st → outcome st) p s :
  well_typed s → (∀ e, event_at p s = Ret e → kind e = H_user_event) → keeps (k s) → keeps (s ← tag_uevent p s; k s).
Proof. intros Hs Hk H. apply keeps_bind. intros s' E. by rewrite (tag_uevent_same p s Hs Hk s' E). Qed.

(** What only tags and reads. *)
Lemma drop_keeps {A} (m : outcome (st * A)) s : well_typed s → (∀ s' a, m = Ret (s', a) → s' = s) → keeps (drop_pointer m).
Proof. intros Hs H. apply keeps_bind. intros [s' a] E. rewrite (H s' a E). by apply keeps_ret. Qed.
Lemma tag_stream_keeps p s : well_typed s → (∀ e, event_at p s = Ret e → kind e = H_stream) → keeps (tag_stream p s).
Proof. intros Hs Hk s' E. by rewrite (tag_stream_same p s Hs Hk s' E). Qed.
Lemma tag_uevent_keeps p s : well_typed s → (∀ e, event_at p s = Ret e → kind e = H_user_event) → keeps (tag_uevent p s).
Proof. intros Hs Hk s' E. by rewrite (tag_uevent_same p s Hs Hk s' E). Qed.
Lemma verify_keeps {A} (m : outcome A) s : well_typed s → keeps (_ ← m; Ret s).
Proof. intros Hs. apply keeps_bind. intros. by apply keeps_ret. Qed.

Lemma stream_free_keeps p s :
  well_typed s → (∀ e, event_at p s = Ret e → kind e = H_stream) → keeps (runloop_stream_free K p s).
Proof.
  intros Hs Hk. unfold runloop_stream_free. apply keeps_then.
  - unfold runloop_stream_deregister. apply after_tag_stream; eauto with typing.
  - intros s1 Hs1. keep.
Qed.

Lemma exec_keeps op s : well_typed s → fits op s → keeps (exec op s).
Proof.
  intros Hs Hf. assert (∀ p h, target op = Some (p, h) → ∀ e, event_at p s = Ret e → kind e = h) as Hk by (intros p h Ht e; by apply Hf).
  destruct op; cbn [exec target] in *; try (pose proof (Hk _ _ eq_refl) as Hp); clear Hk; eauto 6 with typing;
    try (apply after_tag_stream; [done|done|]; eauto 6 with typing);
    try (apply after_tag_uevent; [done|done|]; eauto 6 with typing);
    try (apply new_event_keeps; [|done]; by apply stored_init);
    try (apply keeps_then; [apply put_stream_keeps; [done| |done]; intros []; repeat match goal with o : option _ |- _ => destruct o end; eexists; reflexivity|eauto with typing]).
  - by apply stream_free_keeps.
  - by apply stored_init.
  - by apply tag_stream_keeps.
  - apply (drop_keeps _ s Hs). intros s' a (s1 & H1 & (e & _ & [= <- _])%bind_ret_inv)%bind_ret_inv. by apply (tag_stream_same p s Hs Hp).
  - apply (drop_keeps _ s Hs). intros s' a (s1 & H1 & (e & _ & (fd & _ & [= <- _])%bind_ret_inv)%bind_ret_inv)%bind_ret_inv. by apply (tag_stream_same p s Hs Hp).
  - unfold runloop_listener_register. apply keeps_bind. intros e He. apply at_inv in He.
    apply keeps_then; [|eauto with typing]. by apply put_listener_keeps; [|done|apply Hp|].
  - unfold runloop_listener_deregister. apply keeps_bind. intros e _. by apply kqh_fd_keeps.
  - unfold runloop_listener_arm. apply keeps_bind. intros e He. apply at_inv in He.
    apply keeps_then; [|eauto with typing]. by apply put_listener_keeps; [|done|apply Hp|apply Hp].
  - unfold runloop_listener_rearm. keep.
  - unfold runloop_listener_disarm. keep.
  - unfold runloop_listener_free. keep.
  - by apply verify_keeps.
  - unfold runloop_timer_set, drop_pointer. rewrite bind_assoc. apply keeps_bind. intros [s1 p] H1.
    assert (well_typed s1) as Hs1.
    { apply (new_event_keeps runloop_timer_init s); [by apply stored_init|done|]. unfold drop_pointer. change (new_event _ s) with (runloop_timer_new s). by rewrite H1. }
    rewrite bind_assoc. apply keeps_then; [|intros; by apply keeps_ret]. apply timer_register_keeps; [done|].
    intros e He. rewrite (timer_new_at _ _ _ H1) in He. by injection He as <-.
  - by apply timer_register_keeps.
  - unfold runloop_timer_rearm. keep.
  - by apply timer_deregister_keeps.
  - unfold runloop_timer_clear. apply keeps_bind. intros e _. apply keeps_then; [by apply timer_deregister_keeps|]. intros. by apply timer_free_keeps.
  - by apply timer_free_keeps.
  - by apply verify_keeps.
  - unfold runloop_user_event_arm. apply keeps_then; [by apply put_uevent_keeps|]. intros s1 Hs1. apply (kqh_event_keeps _ p s1 Hs1).
  - apply keeps_bind. intros [[s1 n] err] H1.
    do 2 (apply bind_ret_inv in H1 as (? & _ & H1)). destruct (read8 _ _) as [[w n'] err']. injection H1 as <- _ _.
    apply keeps_ret. by eapply keeps_eq.
  - keep. by intros ? [=].
  - by apply tag_uevent_keeps.
  - apply (drop_keeps _ s Hs). intros s' a (s1 & H1 & (e & _ & [= <- _])%bind_ret_inv)%bind_ret_inv. by apply (tag_uevent_same p s Hs Hp).
  - apply (drop_keeps _ s Hs). intros s' a (s1 & H1 & (e & _ & (fd & _ & [= <- _])%bind_ret_inv)%bind_ret_inv)%bind_ret_inv. by apply (tag_uevent_same p s Hs Hp).
Qed.

Lemma exec_ops_keeps ops : ∀ s, well_typed s → fitting ops s → keeps (exec_ops ops s).
Proof.
  induction ops as [|op ops IH]; intros s Hs Hf; cbn [exec_ops fitting] in *; [by apply keeps_ret|].
  apply keeps_bind. intros s1 H1. apply IH; [|by apply Hf]. by apply (exec_keeps op s Hs (proj1 Hf)).
Qed.

(** A check of an event of the kind succeeds. *)
Lemma checked_same bad h p o s : well_typed s → (∀ e, event_at p s = Ret e → kind e = h) → checked bad h p o s = o.
Proof. intros Hs Hk. unfold checked. destruct (event_at p s) as [e| |] eqn:He; [|done..]. by rewrite (fits_holds p e h s Hs He (Hk e eq_refl)). Qed.

Lemma exec_ops_same bad ops : ∀ s, well_typed s → fitting ops s → exec_ops' bad ops s = exec_ops ops s.
Proof.
  induction ops as [|op ops IH]; intros s Hs Hf; [done|]. cbn [exec_ops exec_ops' fitting] in *. destruct Hf as [Hop Hf].
  assert (exec' bad op s = exec op s) as ->.
  { unfold exec'. destruct (target op) as [[p h]|] eqn:Ht; [|done]. apply checked_same; [done|]. intros e. by apply Hop. }
  destruct (exec op s) as [s1| |] eqn:E; [|done..]. cbn [mbind outcome_bind]. apply IH; [|by apply Hf]. by apply (exec_keeps op s Hs Hop).
Qed.

(** A program whose callbacks use each event as what it is. *)
Hypothesis act_fits : ∀ g a s, well_typed s → fitting (act g a s) s.

Lemma call_keeps g a s : well_typed s → keeps (call g a s).
Proof using act_fits. intros Hs. apply exec_ops_keeps; auto. Qed.
Lemma call_if_keeps g a s : well_typed s → keeps (call_if call g a s).
Proof using act_fits. destruct g; [apply call_keeps|apply keeps_ret]. Qed.
Lemma call_field_keeps k e s : well_typed s → keeps (call_field call k e s).
Proof using act_fits.
  intros Hs. unfold call_field. apply keeps_bind. intros [g|] _; [|by apply keeps_ret]. apply keeps_bind. intros a _. by apply call_keeps.
Qed.
Lemma call_same bad g a s : well_typed s → call' bad g a s = call g a s.
Proof using act_fits. intros Hs. apply exec_ops_same; auto. Qed.
Lemma call_field_same bad k e s : well_typed s → call_field (call' bad) k e s = call_field call k e s.
Proof using act_fits.
  intros Hs. unfold call_field. destruct (fn_at k e) as [[g|]| |]; [|done..]. cbn [mbind outcome_bind].
  destruct (arg_at (S k) e); [|done..]. by apply call_same.
Qed.

Abbreviation handle := (first_level_handler K addr event_arg call).

Lemma masked_call_keeps k p s : well_typed s → keeps (masked_call call k p s).
Proof using act_fits.
  intros Hs. unfold masked_call. do 2 (apply keeps_bind; intros ? ?). destruct (negb _); [by apply call_field_keeps|by apply keeps_ret].
Qed.
Lemma masked_call_same bad k p s : well_typed s → masked_call (call' bad) k p s = masked_call call k p s.
Proof using act_fits.
  intros Hs. unfold masked_call. destruct (event_at p s) as [e| |]; [|done..]. cbn [mbind outcome_bind].
  destruct (int_at 1 e) as [m| |]; [|done..]. cbn [mbind outcome_bind]. destruct (negb _); [by apply call_field_same|done].
Qed.

(** What is done first decides what is done next. *)
Lemma bind_same {A} (m m' : outcome A) (k k' : A → outcome st) : m' = m → (∀ a, m = Ret a → k' a = k a) → (a ← m'; k' a) = (a ← m; k a).
Proof. intros -> H. destruct m; [by apply H|done..]. Qed.

Lemma stream_first_keeps fi e s : well_typed s →
  keeps (if s16 fi =? EVFILT_READ then call_field call 2 e s else if s16 fi =? EVFILT_WRITE then call_field call 4 e s else AssertFail).
Proof using act_fits. intros Hs. repeat case_match; try (by apply call_field_keeps). by intros ? [=]. Qed.

Lemma timer_first_keeps (rep : bool) p s : well_typed s → keeps (if negb rep then runloop_timer_deregister K addr p s else Ret s).
Proof. intros Hs. destruct rep; [by apply keeps_ret|by apply timer_deregister_keeps]. Qed.

Lemma handle_keeps h p fi fl s : well_typed s → keeps (handle h p fi fl s).
Proof using act_fits.
  intros Hs. destruct h; cbn [first_level_handler].
  - unfold timer_handler. do 3 (apply keeps_bind; intros ? ?). apply keeps_then; [by apply timer_first_keeps|].
    intros s1 Hs1. do 4 (apply keeps_bind; intros ? ?). by apply call_if_keeps.
  - unfold listener_handler. apply keeps_bind. intros ? ?. by apply call_field_keeps.
  - unfold stream_handler. apply keeps_bind. intros e He. apply keeps_then; [by apply stream_first_keeps|].
    intros s1 Hs1. apply keeps_then; [by apply masked_call_keeps|]. intros. by apply masked_call_keeps.
  - unfold user_event_handler. do 4 (apply keeps_bind; intros ? ?). by apply call_keeps.
Qed.

Lemma handler_same bad h p fi fl s : well_typed s → first_level_handler K addr event_arg (call' bad) h p fi fl s = handle h p fi fl s.
Proof using act_fits.
  intros Hs. destruct h; cbn [first_level_handler].
  - unfold timer_handler. do 3 (apply bind_same; [done|]; intros ? _). apply bind_same; [done|]. intros s1 H1.
    apply timer_first_keeps in H1; [|done]. do 4 (apply bind_same; [done|]; intros ? _). destruct (_ : option fn); [by apply call_same|done].
  - unfold listener_handler. apply bind_same; [done|]. intros e _. by apply call_field_same.
  - unfold stream_handler. apply bind_same; [done|]. intros e _. apply bind_same; [by repeat case_match; try apply call_field_same|].
    intros s1 H1. apply stream_first_keeps in H1; [|done]. apply bind_same; [by apply masked_call_same|]. intros s2 H2.
    apply masked_call_same. exact (masked_call_keeps _ _ _ H1 _ H2).
  - unfold user_event_handler. do 4 (apply bind_same; [done|]; intros ? _). by apply call_same.
Qed.

(** The loop: the events that a wait reports, whatever their number and their pointers. *)
Lemma event_keeps ke s : well_typed s → keeps (dispatch_event handle ke s).
Proof using act_fits. intros Hs. unfold dispatch_event. do 3 (apply keeps_bind; intros ? ?). by apply handle_keeps. Qed.
Lemma dispatch_keeps events : ∀ s, well_typed s → keeps (dispatch_events handle events s).
Proof using act_fits.
  induction events as [|ke events IH]; intros s Hs; cbn [dispatch_events]; [by apply keeps_ret|].
  apply keeps_then; [by apply event_keeps|exact IH].
Qed.
Lemma dispatch_same bad events : ∀ s, well_typed s → dispatch_events (handle' bad) events s = dispatch_events handle events s.
Proof using act_fits.
  induction events as [|ke events IH]; intros s Hs; cbn [dispatch_events]; [done|]. apply bind_same.
  - unfold dispatch_event. apply bind_same; [done|]. intros p _. apply bind_same; [done|]. intros e He. apply bind_same; [done|]. intros h Hh.
    unfold handle'. rewrite checked_same; [by apply handler_same|done|]. intros e' He'. unfold event_at in He'. rewrite He in He'.
    injection He' as <-. unfold kind. destruct (handler e) as [h'|]; [by injection Hh as ->|done].
  - intros s1 H1. apply IH. by apply (event_keeps ke s).
Qed.

(** The same for what a bounded run returns. *)
Definition keeps_some {A} (get : A → st) (o : outcome (option A)) : Prop := ∀ r, o = Ret (Some r) → well_typed (get r).
Lemma keeps_some_bind {A B} (get : A → st) (m : outcome B) k : (∀ b, m = Ret b → keeps_some get (k b)) → keeps_some get (b ← m; k b).
Proof. intros H r Hr. apply bind_ret_inv in Hr as (b & Hb & Hr). by eapply H. Qed.
Lemma bind_some_same {A B} (m m' : outcome A) (k k' : A → outcome B) : m' = m → (∀ a, m = Ret a → k' a = k a) → (a ← m'; k' a) = (a ← m; k a).
Proof. intros -> H. destruct m; [by apply H|done..]. Qed.

Lemma executing_keeps l (rl rl1 : Runloop fn arg_t) wd wd1 g a :
  well_typed (rl, wd) → call g a (set_executing true (set_ready rl l), wd) = Ret (rl1, wd1) → well_typed (set_executing false rl1, wd1).
Proof using act_fits.
  intros Hs Hc. eapply (keeps_eq (rl1, wd1)); [done|]. eapply call_keeps; [|exact Hc]. by eapply (keeps_eq (rl, wd)).
Qed.

Lemma run_ready_keeps fuel : ∀ s, well_typed s → keeps_some id (run_ready call fuel s).
Proof using act_fits.
  induction fuel as [|fuel IH]; intros [rl wd] Hs; cbn [run_ready]; [done|].
  apply keeps_some_bind. intros n _. destruct (n =? 0); [by intros r [= <-]|].
  apply keeps_some_bind. intros [l func] _. apply keeps_some_bind. intros g _. apply keeps_some_bind. intros [rl1 wd1] Hc.
  pose proof (executing_keeps l rl rl1 wd wd1 g _ Hs Hc) as Hs1.
  apply keeps_some_bind. intros m _. destruct (m =? 0); [by intros r [= <-]|]. by apply IH.
Qed.
Lemma run_ready_same bad fuel : ∀ s, well_typed s → run_ready (call' bad) fuel s = run_ready call fuel s.
Proof using act_fits.
  induction fuel as [|fuel IH]; intros [rl wd] Hs; cbn [run_ready]; [done|].
  apply bind_some_same; [done|]. intros n _. destruct (n =? 0); [done|].
  apply bind_some_same; [done|]. intros [l func] _. apply bind_some_same; [done|]. intros g _.
  apply bind_some_same; [by apply call_same, (keeps_eq (rl, wd))|]. intros [rl1 wd1] Hc.
  pose proof (executing_keeps l rl rl1 wd wd1 g _ Hs Hc) as Hs1. apply bind_some_same; [done|]. intros m _. destruct (m =? 0); [done|]. by apply IH.
Qed.

Lemma run_keeps fuel t : ∀ s, well_typed s → keeps_some fst (runloop_run K call handle fuel t s).
Proof using act_fits.
  induction fuel as [|fuel IH]; intros [rl wd] Hs; cbn [runloop_run]; [done|].
  apply keeps_some_bind. intros n _. destruct ((n =? 0) && _); [by intros r [= <-]|]. destruct (n =? 0).
  - destruct (kevent _ _ _ _ _ _) as [wd1 [[|ke evs]|e]].
    + destruct (close K (kqueue_fd rl) wd1) as [wd2 z]. intros r [= <-]. by eapply keeps_eq.
    + apply keeps_some_bind. intros s1 H1. apply IH. eapply dispatch_keeps; [|exact H1]. by eapply keeps_eq.
    + intros r [= <-]. by eapply keeps_eq.
  - apply keeps_some_bind. intros [s1|] H1; [|done]. apply IH. by apply (run_ready_keeps _ _ Hs _ H1).
Qed.
Lemma run_same bad fuel t : ∀ s, well_typed s → runloop_run K (call' bad) (handle' bad) fuel t s = runloop_run K call handle fuel t s.
Proof using act_fits.
  induction fuel as [|fuel IH]; intros [rl wd] Hs; cbn [runloop_run]; [done|].
  apply bind_some_same; [done|]. intros n _. destruct ((n =? 0) && _); [done|]. destruct (n =? 0).
  - destruct (kevent _ _ _ _ _ _) as [wd1 [[|ke evs]|e]]; [done| |done]. assert (well_typed (rl, wd1)) as Hs1 by (by eapply keeps_eq).
    apply bind_some_same; [by apply dispatch_same|]. intros s1 H1. apply IH. by eapply dispatch_keeps.
  - apply bind_some_same; [by apply run_ready_same|]. intros [s1|] H1; [|done]. apply IH. by apply (run_ready_keeps _ _ Hs _ H1).
Qed.

(** A new loop has no events. *)
Lemma empty_event fl k p e : get_event (mkTable fl (replicate k (mkSlab (E := event) None None))) p ≠ Ret e.
Proof.
  unfold get_event, slab_at. cbn [memory]. destruct (0 <=? p); [|done].
  destruct (replicate _ _ !! Z.to_nat p) as [m|] eqn:Em; [|done]. by apply lookup_replicate in Em as [-> _].
Qed.
Lemma ret_inj {A} (a b : A) : Ret a = Ret b → a = b.
Proof. by intros [= ->]. Qed.
Lemma new_table_empty b (t : EventTable event) :
  event_table_new b = Ret t → ∃ fl k, t = mkTable fl (replicate k (mkSlab None None)).
Proof.
  unfold event_table_new, event_table_init. generalize freelist_init, (Z.to_nat (EVT_MAX + 1)). intros o k H.
  apply bind_ret_inv in H as ([] & _ & H). apply bind_ret_inv in H as (fl & _ & H). exists fl, k. symmetry. exact (ret_inj _ _ H).
Qed.
Lemma new_typed b wd s : runloop_new K b wd = Ret s → well_typed s.
Proof.
  unfold runloop_new, runloop_init. intros H. apply bind_ret_inv in H as ([] & _ & H). destruct (kqueue K wd) as [wd1 fd].
  apply bind_ret_inv in H as ([] & _ & H). apply bind_ret_inv in H as (t & Ht & H). apply bind_ret_inv in H as (l & _ & H).
  apply ret_inj in H as <-. destruct (new_table_empty _ _ Ht) as (fl' & k & ->).
  intros p e He. by destruct (empty_event fl' k p e).
Qed.

(** ** Properties *)


(** Without that discipline nothing stops a program: arming a stream as a user event
    passes its check, as it has stored the tag itself, and writes over the descriptor and
    the event mask. The event keeps the handler of a stream, and has no descriptor. *)
Theorem kq_event_mistyped p e x cb a (s : st) :
  live p e s → var e = V_stream x →
  ∃ s' : st, runloop_user_event_arm K addr (Some cb) (Some a) p s = Ret s' ∧
    event_at p s' = Ret (mkEvent true (handler e) (V_mixed EventFd_TAG STREAM_TAG
      [W_fn (Some cb); W_arg (Some a); W_fn (read_postable_cb x); W_arg (read_postable_arg x); W_fn (write_postable_cb x); W_arg (write_postable_arg x)])) ∧
    runloop_stream_get_fd p s' = Ub.
Proof.
  intros Hl Hx. unfold runloop_user_event_arm, put_uevent, with_var. rewrite (proj1 Hl), bind_ret_l, (proj2 Hl), Hx.
  match goal with |- context [store_event p ?e' s] =>
    destruct (store_ok (λ _ _, ∅) p e e' s Hl eq_refl) as (s1 & -> & [He1 Hr1] & _) end.
  rewrite bind_ret_l. unfold kqh_user_event_register, kqh_event, has_loop. rewrite He1, bind_ret_l, Hr1, bind_ret_l.
  eexists. split; [reflexivity|]. unfold runloop_stream_get_fd, tag_stream. match goal with |- event_at p ?s2 = _ ∧ _ => set (t := s2); assert (event_at p t = event_at p s1) as He2 end.
  { unfold t, event_at, kevent_change. by destruct (kevent K _ _ _ _ _). }
  rewrite He1 in He2. split; [exact He2|]. rewrite He2, bind_ret_l. cbn [var].
  match goal with |- context [to_variant EventFd_TAG ?a ?b] => let v := eval hnf in (to_variant EventFd_TAG a b) in change (to_variant EventFd_TAG a b) with v end.
  cbn iota.
  match goal with |- context [store_event p ?e' t] =>
    destruct (store_ok (λ _ _, ∅) p _ e' t (conj He2 eq_refl) eq_refl) as (s3 & -> & [He3 _] & _) end.
  by rewrite bind_ret_l, He3, bind_ret_l.
Qed.
End KqTyping.

Arguments watcher_op : clear implicits.

(** ** Witness: a timer that occurs once, whose callback makes a stream *)

Abbreviation ex_tst := (Runloop nat nat * list (list kevent_t))%type.
Definition ex_tkq : kqueue_sys (list (list kevent_t)) := mkKq (λ w, (w, 3))
  (λ _ _ n _ w, if n =? 0 then (w, KEvents []) else match w with [] => (w, KError EINTR) | b :: w => (w, KEvents b) end)
  (λ _ w, (w, 0)).
Definition ex_read8 (fd : Z) (w : list (list kevent_t)) : list (list kevent_t) * Z * Z := (w, -1, KQ_EAGAIN).
(** The callback arms the stream in place 1, or makes one. *)
Definition ex_is_stream (s : ex_tst) : bool := match event_at 1 s with Ret e => match handler e with Some H_stream => true | _ => false end | _ => false end.
Definition ex_tact (g : nat) (a : option nat) (s : ex_tst) : list (watcher_op nat nat) :=
  if ex_is_stream s then [OStreamArmRead (Some 2%nat) (Some 8%nat) 1] else [OStreamNew 5].
Definition ex_occurs : list (list kevent_t) := [[mkKev 4096 EVFILT_TIMER 0 0 1 (Some 0)]; [mkKev 4096 EVFILT_TIMER 0 0 1 (Some 0)]].
Definition ex_ops : list (watcher_op nat nat) := [OTimerSet (Some 1%nat) (Some 7%nat) 250 true].
Abbreviation ex_starts := (runloop_new ex_tkq true ex_occurs : outcome ex_tst).
Abbreviation ex_prepares := (exec_ops ex_tkq ex_addr ex_read8 ex_ops).
Abbreviation ex_runs := (runloop_run ex_tkq (call ex_tkq ex_addr ex_read8 ex_tact)
    (first_level_handler ex_tkq ex_addr ex_event_arg (call ex_tkq ex_addr ex_read8 ex_tact)) 10 0).
Abbreviation ex_checked_runs bad := (runloop_run ex_tkq (call' ex_tkq ex_addr ex_read8 ex_tact bad) (handle' ex_tkq ex_addr ex_event_arg ex_read8 ex_tact bad) 10 0).

Lemma ex_acts_fit g a s : well_typed s → fitting ex_tkq ex_addr ex_read8 (ex_tact g a s) s.
Proof.
  intros _. unfold ex_tact, ex_is_stream. destruct (event_at 1 s) as [e| |] eqn:He; try by split.
  destruct (handler e) as [[]|] eqn:Hh; try by split.
  split; [|done]. intros p h e' [= <- <-] He'. rewrite He in He'. injection He' as <-. unfold kind. by rewrite Hh.
Qed.

Definition armed_at_1 (s : ex_tst) : bool :=
  match event_at 1 s with Ret e => match var e with V_stream x => bool_decide (read_postable_cb x = Some 2%nat) | _ => false end | _ => false end.
Lemma ex_all_run :
  match (s0 ← ex_starts; s1 ← ex_prepares s0; r ← ex_runs s1;
         match r with Some (s, _) => Ret (armed_at_1 s) | None => Ub end) with Ret b => b | _ => false end = true.
Proof. vm_compute. reflexivity. Qed.


(** The stream of a small loop, armed as a user event. *)
Lemma kq_event_mistyped_witness :
  ∃ s', runloop_user_event_arm ex_wkq ex_addr (Some 1%nat) (Some 7%nat) 0 (ex_wloop ex_stream_event) = Ret s' ∧ runloop_stream_get_fd 0 s' = Ub.
Proof.
  destruct (kq_event_mistyped ex_wkq ex_addr 0 ex_stream_event _ 1%nat 7%nat (ex_wloop ex_stream_event) (conj eq_refl eq_refl) eq_refl) as (s' & H & _ & Hu).
  by exists s'.
Defined.
