(* ===== verification/TcpStream.v ===== *)
(** * TcpStream: reading and writing a connection on the kqueue loop
    (src/apps/tcp/tcp_stream.c, tcp_reader.c, tcp_writer.c, tcp_stream_internal.h)

    A TCP stream tries each operation at once. A read that finds nothing arms the stream
    event of the loop and is tried again when the event occurs; a write that is taken in
    part posts its own continuation. The buffers belong to the callers and are shared
    with them: they live in a store, and a pointer to one is its key. *)

From S2P Require Import Prelude Cbuffer IOBuffer SocketFunctions FunctorList EventTable KqRunloop KqHelpers KqWatchers.
Open Scope Z_scope.

Definition RD_STATE_INITIAL : Z := 11.
Definition RD_STATE_EAGAIN : Z := 22.
Definition RD_STATE_STOPPED : Z := 33.
Definition RD_STATE_READY : Z := 44.
Definition RD_STATE_ERROR : Z := 55.
Definition WRT_STATE_EAGAIN : Z := 11.
Definition WRT_STATE_READY : Z := 22.
Definition WRT_STATE_ERROR : Z := 33.
Definition WRT_STATE_STOPPED : Z := 44.
Definition WRT_STATE_INITIAL : Z := 55.

(** A pointer field: [Unset] until something is stored there. *)
Inductive field (A : Type) := Unset | Null | Ptr (a : A).
Arguments Unset {A}.
Arguments Null {A}.
Arguments Ptr {A}.
Definition to_field {A} (o : option A) : field A := match o with Some a => Ptr a | None => Null end.
(** Reading the field; using what it points to. *)
Definition load {A} (x : field A) : outcome (option A) :=
  match x with Unset => Ub | Null => Ret None | Ptr a => Ret (Some a) end.

Section TcpStream.
(** [KW] is the kernel, [App] the rest of the program. *)
Context {fn arg_t KW App rcb wcb address : Type}.

Record TcpReader := mkReader {
  read_state : Z;
  input_buffer : field nat;
  read_cb : field rcb;
  read_cb_arg : field arg_t
}.
Record TcpWriter := mkWriter {
  write_state : Z;
  write_cb : field wcb;
  write_cb_arg : field arg_t;
  output_buffer : field nat
}.
Record TcpStream := mkTcp {
  rlstream_ref : Z;
  stream_fd : Z;
  reader : TcpReader;
  writer : TcpWriter
}.

Record world := mkWorld {
  tcp : option TcpStream;
  iobs : gmap nat IOBuffer;
  kern : KW;
  the_app : App
}.
Abbreviation st := (Runloop fn arg_t * world)%type.

Definition w_tcp (t : option TcpStream) (s : st) : st :=
  (fst s, mkWorld t (iobs (snd s)) (kern (snd s)) (the_app (snd s))).
Definition w_iob (b : nat) (iob : IOBuffer) (s : st) : st :=
  (fst s, mkWorld (tcp (snd s)) (<[b := iob]> (iobs (snd s))) (kern (snd s)) (the_app (snd s))).
Definition w_kern (k : KW) (s : st) : st :=
  (fst s, mkWorld (tcp (snd s)) (iobs (snd s)) k (the_app (snd s))).

Variable K : kqueue_sys KW.
Variable N : net KW address.
(** The callbacks of the callers, with their argument and the error. *)
Variable call_read : rcb → option arg_t → Z → st → outcome st.
Variable call_write : wcb → option arg_t → Z → st → outcome st.
(** The functions given to the loop, and the address of the stream. *)
Variable fn_read_ready fn_try_write : fn.
Variable self : arg_t.

(** The kernel's queue calls, on the world. *)
Definition on_kern (w : world) (k : KW) : world := mkWorld (tcp w) (iobs w) k (the_app w).
Definition kq_world : kqueue_sys world := kq_lift K kern on_kern.

Definition the_tcp (s : st) : outcome TcpStream := deref (tcp (snd s)).
Definition the_iob (b : nat) (s : st) : outcome IOBuffer := deref (iobs (snd s) !! b).
Definition put_reader (r : TcpReader) (s : st) : outcome st :=
  t ← the_tcp s; Ret (w_tcp (Some (mkTcp (rlstream_ref t) (stream_fd t) r (writer t))) s).
Definition put_writer (x : TcpWriter) (s : st) : outcome st :=
  t ← the_tcp s; Ret (w_tcp (Some (mkTcp (rlstream_ref t) (stream_fd t) (reader t) x)) s).

(** ** The stream (tcp_stream.c) *)

(** The buffers and callbacks of a new stream are not set. *)
Definition tcp_stream_init (f : Z) (s : st) : outcome st :=
  '(s, p) ← runloop_stream_new f s;
  '(s, sfd) ← runloop_stream_get_fd p s;
  Ret (w_tcp (Some (mkTcp p sfd (mkReader RD_STATE_INITIAL Unset Unset Unset)
                                (mkWriter WRT_STATE_INITIAL Unset Unset Unset))) s).
Definition tcp_stream_new (f : Z) (s : st) : outcome st := tcp_stream_init f s.
Definition tcp_stream_deinit (s : st) : outcome st := t ← the_tcp s; runloop_stream_deinit (rlstream_ref t) s.
(** The object itself is not freed. *)
Definition tcp_stream_free (s : st) : outcome st := t ← the_tcp s; runloop_stream_free kq_world (rlstream_ref t) s.
Definition async_socket_set_nonblocking (socket : Z) (s : st) : outcome st :=
  let flags := fcntl_getfl N socket (kern (snd s)) in
  let '(k, result) := fcntl_setfl N socket (Z.lor flags O_NONBLOCK) (kern (snd s)) in
  c_assert (result =? 0);; Ret (w_kern k s).

(** ** Reading (tcp_reader.c) *)

Definition is_ptr {A} (o : option A) : bool := match o with Some _ => true | None => false end.

Definition is_read_pending (s : st) : outcome bool :=
  t ← the_tcp s;
  b ← load (input_buffer (reader t));
  c ← load (read_cb (reader t));
  c_assert (Bool.eqb (is_ptr b) (is_ptr c));;
  Ret (is_ptr b && is_ptr c).

Definition invoke_read_cb (errno_value : Z) (s : st) : outcome st :=
  t ← the_tcp s;
  cb ← load (read_cb (reader t));
  c_assert (is_ptr cb);;
  a ← load (read_cb_arg (reader t));
  s ← put_reader (mkReader (read_state (reader t)) Null Null Null) s;
  cb ← deref cb;
  call_read cb a errno_value s.

Definition set_read_state (z : Z) (s : st) : outcome st :=
  t ← the_tcp s; put_reader (mkReader z (input_buffer (reader t)) (read_cb (reader t)) (read_cb_arg (reader t))) s.

Definition try_read (s : st) : outcome st :=
  t ← the_tcp s;
  _ ← event_at (rlstream_ref t) s;
  b ← load (input_buffer (reader t));
  c_assert (is_ptr b);;
  '(s, sfd) ← runloop_stream_get_fd (rlstream_ref t) s;
  c_assert (stream_fd t =? sfd);;
  let z := read_state (reader t) in
  if (z =? RD_STATE_ERROR) || (z =? RD_STATE_STOPPED) then Ret s
  else if negb ((z =? RD_STATE_EAGAIN) || (z =? RD_STATE_INITIAL) || (z =? RD_STATE_READY)) then AssertFail
  else
    b ← deref b;
    iob ← the_iob b s;
    let '(k, r, errno_saved, bs) := sys_read N sfd (IOBuffer_space_len iob) (kern (snd s)) in
    let s := w_kern k s in
    let nread := s32 r in
    if 0 <? nread then
      s ← set_read_state RD_STATE_READY s;
      iob ← IOBuffer_fill iob (init bs);
      iob ← IOBuffer_commit iob nread;
      invoke_read_cb 0 (w_iob b iob s)
    else if nread =? 0 then invoke_read_cb errno_saved s
    else if errno_saved =? KQ_EAGAIN then
      s ← set_read_state RD_STATE_EAGAIN s;
      runloop_stream_arm_read kq_world (Some fn_read_ready) (Some self) (rlstream_ref t) s
    else invoke_read_cb errno_saved s.

Definition tcp_read (b : nat) (cb : option rcb) (a : option arg_t) (s : st) : outcome st :=
  pending ← is_read_pending s;
  c_assert (negb pending);;
  iob ← the_iob b s;
  c_assert (negb (IOBuffer_space_len iob =? 0));;
  t ← the_tcp s;
  _ ← event_at (rlstream_ref t) s;
  s ← put_reader (mkReader (read_state (reader t)) (Ptr b) (to_field cb) (to_field a)) s;
  try_read s.

Definition read_ready_callback (s : st) : outcome st :=
  t ← the_tcp s;
  let z := read_state (reader t) in
  if (z =? RD_STATE_INITIAL) || (z =? RD_STATE_READY) || (z =? RD_STATE_EAGAIN) then
    s ← set_read_state RD_STATE_READY s; try_read s
  else if (z =? RD_STATE_ERROR) || (z =? RD_STATE_STOPPED) then Ret s
  else AssertFail.
Definition postable_reader (s : st) : outcome st := try_read s.

(** ** Writing (tcp_writer.c) *)

Definition is_write_pending (s : st) : outcome bool :=
  t ← the_tcp s;
  b ← load (output_buffer (writer t));
  c ← load (write_cb (writer t));
  c_assert (Bool.eqb (is_ptr b) (is_ptr c));;
  Ret (is_ptr b).

Definition invoke_write_callback (errnoval : Z) (s : st) : outcome st :=
  t ← the_tcp s;
  cb ← load (write_cb (writer t));
  a ← load (write_cb_arg (writer t));
  s ← put_writer (mkWriter (write_state (writer t)) Null Null Null) s;
  cb ← deref cb;
  call_write cb a errnoval s.

Definition set_write_state (z : Z) (s : st) : outcome st :=
  t ← the_tcp s; put_writer (mkWriter z (write_cb (writer t)) (write_cb_arg (writer t)) (output_buffer (writer t))) s.

(** The active bytes of a buffer. *)
Definition iob_bytes (iob : IOBuffer) : outcome (list byte) :=
  m ← mem_load (mem_p iob) (IOBuffer_data iob) (IOBuffer_data_len iob); deref (mapM id m).

Definition try_write (s : st) : outcome st :=
  t ← the_tcp s;
  _ ← event_at (rlstream_ref t) s;
  b ← load (output_buffer (writer t));
  b ← deref b;
  iob ← the_iob b s;
  out ← iob_bytes iob;
  let '(k, r, errno_saved) := sys_write N (stream_fd t) out (kern (snd s)) in
  let s := w_kern k s in
  let nwrite := s32 r in
  if 0 <? nwrite then
    iob ← IOBuffer_consume iob nwrite;
    s ← set_write_state WRT_STATE_READY (w_iob b iob s);
    if IOBuffer_data_len iob =? 0 then invoke_write_callback 0 s
    else runloop_post (Some fn_try_write) (Some self) s
  else if nwrite =? 0 then invoke_write_callback errno_saved s
  else if errno_saved =? KQ_EAGAIN then set_write_state WRT_STATE_EAGAIN s
  else s ← set_write_state WRT_STATE_ERROR s; invoke_write_callback errno_saved s.

Definition tcp_write (outbuf : nat) (cb : option wcb) (a : option arg_t) (s : st) : outcome st :=
  pending ← is_write_pending s;
  c_assert (negb pending);;
  c_assert (is_ptr cb);;
  t ← the_tcp s;
  s ← put_writer (mkWriter (write_state (writer t)) (to_field cb) (to_field a) (Ptr outbuf)) s;
  try_write s.
Definition postable_try_write (s : st) : outcome st := try_write s.

(** Nothing arms the stream for writing with it. *)
Definition wrtr_cb (s : st) : outcome st :=
  t ← the_tcp s;
  let z := write_state (writer t) in
  if z =? WRT_STATE_EAGAIN then s ← set_write_state WRT_STATE_READY s; try_write s
  else if (z =? WRT_STATE_INITIAL) || (z =? WRT_STATE_READY) || (z =? WRT_STATE_ERROR) || (z =? WRT_STATE_STOPPED) then Ret s
  else AssertFail.

(** What the loop calls; other functions belong to the rest of the program. The argument
    must be the stream. *)
Variable other_call : fn → option arg_t → st → outcome st.
Definition call_postable `{EqDecision fn, EqDecision arg_t} (g : fn) (a : option arg_t) (s : st) : outcome st :=
  if decide (g = fn_read_ready) then on_self self read_ready_callback a s
  else if decide (g = fn_try_write) then on_self self postable_try_write a s
  else other_call g a s.

(** ** Specification *)

Context `{EqDecision fn, EqDecision arg_t}.
Context (notes : KW → Z → gmap (Z * Z) note) (fd_open : KW → Z → bool) (HL : kqueue_laws K notes fd_open).

(** What the reads of a socket will find, and what its writes will take. *)
Inductive arrival := Nothing | Bytes (bs : list byte) | End (errno : Z) | Fail (errno : Z).
Inductive room := Taken (n : Z) | Full | Broken (errno : Z).
Context (incoming : KW → Z → list arrival) (outgoing : KW → Z → list room) (sent : KW → Z → list byte).

(** The result of a read that finds [a]; the number of an end of file is the one an
    earlier call left. *)
Definition read_gives (a : arrival) (r er : Z) (bs : list byte) : Prop :=
  match a with
  | Nothing => r = -1 ∧ er = KQ_EAGAIN
  | Bytes bs0 => r = Zlen bs0 ∧ bs = bs0
  | End e => r = 0 ∧ er = e
  | Fail e => r = -1 ∧ er = e
  end.
Definition write_gives (a : room) (len r er : Z) : Prop :=
  match a with
  | Taken n => r = Z.min n len
  | Full => r = -1 ∧ er = KQ_EAGAIN
  | Broken e => r = -1 ∧ er = e
  end.
Definition taken (a : room) (bs : list byte) : list byte :=
  match a with Taken n => take (Z.to_nat n) bs | _ => [] end.

(** Sockets and queues leave each other alone. *)
Record io_laws : Prop := {
  io_read : ∀ f n k q, notes (fst (fst (fst (sys_read N f n k)))) q = notes k q;
  io_read_open : ∀ f n k d, fd_open (fst (fst (fst (sys_read N f n k)))) d = fd_open k d;
  io_write : ∀ f bs k q, notes (fst (fst (sys_write N f bs k))) q = notes k q;
  io_write_open : ∀ f bs k d, fd_open (fst (fst (sys_write N f bs k))) d = fd_open k d;
  io_queue_open : ∀ q cs k d, fd_open (fst (kevent K q cs 0 None k)) d = fd_open k d;
  io_queue_in : ∀ q cs k f, incoming (fst (kevent K q cs 0 None k)) f = incoming k f;
  io_queue_out : ∀ q cs k f, let k' := fst (kevent K q cs 0 None k) in outgoing k' f = outgoing k f ∧ sent k' f = sent k f;
  io_read_out : ∀ g n k f, let k' := fst (fst (fst (sys_read N g n k))) in outgoing k' f = outgoing k f ∧ sent k' f = sent k f;
  io_read_others : ∀ f n k g, g ≠ f → incoming (fst (fst (fst (sys_read N f n k)))) g = incoming k g;
  io_write_others : ∀ f bs k g, g ≠ f → let k' := fst (fst (sys_write N f bs k)) in outgoing k' g = outgoing k g ∧ sent k' g = sent k g;
  io_write_in : ∀ g bs k f, incoming (fst (fst (sys_write N g bs k))) f = incoming k f;
  io_incoming : ∀ f n k a rest, incoming k f = a :: rest →
    (∀ bs, a = Bytes bs → 0 < Zlen bs ≤ n) →
    ∃ k' r er bs, sys_read N f n k = (k', r, er, bs) ∧ read_gives a r er bs ∧ incoming k' f = rest;
  io_outgoing : ∀ f bs k a rest, outgoing k f = a :: rest →
    ∃ k' r er, sys_write N f bs k = (k', r, er) ∧ write_gives a (Zlen bs) r er ∧ outgoing k' f = rest ∧
      sent k' f = sent k f ++ taken a bs
}.
Context (HIO : io_laws).

(** The calls of the kernel that the stream of socket [f] makes. *)
Inductive io_step (f : Z) : KW → KW → Prop :=
| step_read n k : io_step f k (fst (fst (fst (sys_read N f n k))))
| step_write bs k : io_step f k (fst (fst (sys_write N f bs k)))
| step_queue q cs k : io_step f k (fst (kevent K q cs 0 None k)).

(** Reading leaves writing alone, and the other way round. *)
Definition same_out (s s' : st) : Prop :=
  ∀ g, outgoing (kern (snd s')) g = outgoing (kern (snd s)) g ∧ sent (kern (snd s')) g = sent (kern (snd s)) g.
Definition same_in (s s' : st) : Prop := ∀ g, incoming (kern (snd s')) g = incoming (kern (snd s)) g.

Definition wnotes (w : world) : Z → gmap (Z * Z) note := notes (kern w).
Definition wopen (w : world) : Z → bool := fd_open (kern w).
Abbreviation watching := (watching wnotes).
Abbreviation on_event := (stream_handler call_postable).
Abbreviation run_posted := (run_posted call_postable).
Abbreviation read_events := (read_events call_postable).

(** An open stream [t], with the stream event [e], [x] of the loop. *)
Record open_tcp (s : st) (t : TcpStream) (e : RunloopEvent fn arg_t) (x : stream_t fn arg_t) : Prop := {
  ot_tcp : tcp (snd s) = Some t;
  ot_live : live (rlstream_ref t) e s;
  ot_var : var e = V_stream x;
  ot_fd : s_fd x = stream_fd t;
  ot_open : wopen (snd s) (u64 (stream_fd t)) = true;
  ot_mask : event_mask x = 0
}.

(** No read and no write in progress. *)
Definition idle_reader (t : TcpStream) : Prop := input_buffer (reader t) = Null ∧ read_cb (reader t) = Null.
Definition idle_writer (t : TcpStream) : Prop := output_buffer (writer t) = Null ∧ write_cb (writer t) = Null.
Definition can_read (z : Z) : bool := (z =? RD_STATE_EAGAIN) || (z =? RD_STATE_INITIAL) || (z =? RD_STATE_READY).

(** What the handler does when the callback has returned. *)
Definition after_event (p : Z) (s : st) : outcome st :=
  s ← masked_call call_postable 2 p s;
  masked_call call_postable 4 p s.

(** The event calls the stream back when it can be read. *)
Definition calls_back (x : stream_t fn arg_t) : Prop := read_postable_cb x = Some fn_read_ready ∧ read_postable_arg x = Some self.

(** ** Lemmas *)

Lemma lift_laws : kqueue_laws kq_world wnotes wopen.
Proof using HL. by apply (kq_lift_laws K kern on_kern). Qed.

Lemma can_read_cases z :
  can_read z = true →
  (z =? RD_STATE_ERROR) || (z =? RD_STATE_STOPPED) = false ∧
  (z =? RD_STATE_INITIAL) || (z =? RD_STATE_READY) || (z =? RD_STATE_EAGAIN) = true.
Proof.
  unfold can_read. intros [[->%Z.eqb_eq| ->%Z.eqb_eq]%orb_true_iff| ->%Z.eqb_eq]%orb_true_iff; done.
Qed.

(** The stream may change its state and the world its kernel and buffers. *)
Lemma open_tcp_with s t t' e x w' :
  open_tcp s t e x → tcp w' = Some t' → rlstream_ref t' = rlstream_ref t → stream_fd t' = stream_fd t →
  (∀ d, fd_open (kern w') d = fd_open (kern (snd s)) d) → open_tcp (fst s, w') t' e x.
Proof. intros [] Ht Hr Hf Ho. constructor; cbn; rewrite ?Hr, ?Hf; try done. unfold wopen in *. by rewrite Ho. Qed.

(** A read in progress: buffer, callback and argument of the caller. *)
Record pending (s : st) (t : TcpStream) (e : RunloopEvent fn arg_t) (x : stream_t fn arg_t) (b : nat) (cb : rcb)
    (a : option arg_t) (iob : IOBuffer) : Prop := {
  pd_open : open_tcp s t e x;
  pd_buffer : input_buffer (reader t) = Ptr b;
  pd_cb : read_cb (reader t) = Ptr cb;
  pd_arg : read_cb_arg (reader t) = to_field a;
  pd_iob : iobs (snd s) !! b = Some iob;
  pd_state : can_read (read_state (reader t)) = true
}.

(** The stream as it is when a read has ended. *)
Definition ended (t : TcpStream) (z : Z) : TcpStream :=
  mkTcp (rlstream_ref t) (stream_fd t) (mkReader z Null Null Null) (writer t).
Definition with_read_state (z : Z) (t : TcpStream) : TcpStream :=
  mkTcp (rlstream_ref t) (stream_fd t)
    (mkReader z (input_buffer (reader t)) (read_cb (reader t)) (read_cb_arg (reader t))) (writer t).

Definition status_of (a : arrival) : Z := match a with Nothing => KQ_EAGAIN | Bytes _ => 0 | End e => e | Fail e => e end.

(** What a read leaves in the caller's buffer. *)
Definition received (a : arrival) (iob iob' : IOBuffer) : Prop :=
  match a with
  | Bytes bs => iob_ok iob' ∧ iob_data iob' = iob_data iob ++ init bs ∧ buffer_ptr iob' = buffer_ptr iob ∧
                buffer_capacity iob' = buffer_capacity iob
  | _ => iob' = iob
  end.

(** [s'] is [s] with the read of [b] over. *)
Record read_done (s s' : st) (t : TcpStream) (b : nat) (a : arrival) (iob : IOBuffer) (rest : list arrival) : Prop := {
  rd_loop : fst s' = fst s;
  rd_tcp : ∃ z, tcp (snd s') = Some (ended t z) ∧ can_read z = true;
  rd_iob : ∃ iob', iobs (snd s') = <[b := iob']> (iobs (snd s)) ∧ received a iob iob';
  rd_app : the_app (snd s') = the_app (snd s);
  rd_in : incoming (kern (snd s')) (stream_fd t) = rest;
  rd_notes : watching s' = watching s;
  rd_open : ∀ d, fd_open (kern (snd s')) d = fd_open (kern (snd s)) d;
  rd_out : same_out s s';
  rd_others : ∀ g, g ≠ stream_fd t → incoming (kern (snd s')) g = incoming (kern (snd s)) g
}.

(** The socket has something for the buffer, which has room for it. *)
Definition fits (a : arrival) (iob : IOBuffer) : Prop :=
  match a with
  | Nothing => False
  | Bytes bs => iob_ok iob ∧ buffer_ptr iob = 0 ∧ 0 < Zlen bs ≤ IOBuffer_space_len iob
  | End _ => True
  | Fail e => e ≠ KQ_EAGAIN
  end.

(** The call of read, up to the test of its result. *)
Lemma try_read_call s t e x b cb a iob :
  pending s t e x b cb a iob →
  try_read s =
  (let '(k, r, er, bs) := sys_read N (stream_fd t) (IOBuffer_space_len iob) (kern (snd s)) in
   let s := w_kern k s in
   if 0 <? s32 r then
     s ← set_read_state RD_STATE_READY s;
     iob ← IOBuffer_fill iob (init bs);
     iob ← IOBuffer_commit iob (s32 r);
     invoke_read_cb 0 (w_iob b iob s)
   else if s32 r =? 0 then invoke_read_cb er s
   else if er =? KQ_EAGAIN then
     s ← set_read_state RD_STATE_EAGAIN s;
     runloop_stream_arm_read kq_world (Some fn_read_ready) (Some self) (rlstream_ref t) s
   else invoke_read_cb er s).
Proof.
  intros [[Ht [He _] Hv Hfd _ _] Hb Hc Ha Hi Hz]. unfold try_read, the_tcp. rewrite Ht. cbn [deref]. rewrite bind_ret_l, He, bind_ret_l, Hb.
  cbn [load]. rewrite bind_ret_l. cbn [is_ptr c_assert]. rewrite bind_ret_l.
  rewrite (stream_get_fd_ok _ e x s He Hv), bind_ret_l, Hfd.
  rewrite Z.eqb_refl. cbn [c_assert]. rewrite bind_ret_l. destruct (can_read_cases _ Hz) as [-> _].
  unfold can_read in Hz. rewrite Hz. cbn [negb deref]. rewrite bind_ret_l. unfold the_iob. rewrite Hi. cbn [deref].
  by rewrite bind_ret_l.
Qed.

Lemma load_to_field {A} (o : option A) : load (to_field o) = Ret o.
Proof. by destruct o. Qed.

Lemma invoke_read_ok s t z cb a er :
  tcp (snd s) = Some t → read_state (reader t) = z → read_cb (reader t) = Ptr cb → read_cb_arg (reader t) = to_field a →
  invoke_read_cb er s = call_read cb a er (w_tcp (Some (ended t z)) s).
Proof.
  intros Ht <- Hc Ha. unfold invoke_read_cb, put_reader, the_tcp. rewrite Ht. cbn [deref]. rewrite bind_ret_l, Hc. cbn [load].
  rewrite bind_ret_l. cbn [is_ptr c_assert]. rewrite bind_ret_l, Ha, load_to_field, bind_ret_l.
  by cbn [deref].
Qed.

Lemma set_read_state_ok s t z : tcp (snd s) = Some t → set_read_state z s = Ret (w_tcp (Some (with_read_state z t)) s).
Proof. intros Ht. unfold set_read_state, put_reader, the_tcp. rewrite Ht. cbn [deref]. by rewrite !bind_ret_l. Qed.

Lemma s32_len (bs : list byte) iob : iob_ok iob → Zlen bs ≤ IOBuffer_space_len iob → s32 (Zlen bs) = Zlen bs.
Proof.
  intros Hok Hl. pose proof (space_len_ok iob Hok) as Hs. destruct Hok. pose proof (Zlen_nonneg bs).
  apply s32_small. unfold INT_MIN, INT_MAX in *. lia.
Qed.

(** A read that finds something ends with the callback. *)
Lemma try_read_ends s t e x b cb a iob w rest :
  pending s t e x b cb a iob → incoming (kern (snd s)) (stream_fd t) = w :: rest → fits w iob →
  ∃ s', try_read s = call_read cb a (status_of w) s' ∧ read_done s s' t b w iob rest ∧ io_step (stream_fd t) (kern (snd s)) (kern (snd s')).
Proof using HIO.
  intros Hp Hin Hf. pose proof (step_read (stream_fd t) (IOBuffer_space_len iob) (kern (snd s))) as Hst. rewrite (try_read_call _ _ _ _ _ _ _ _ Hp).
  destruct (io_incoming HIO _ (IOBuffer_space_len iob) _ _ _ Hin) as (k & r & er & bs & Hr & Hg & Hin');
    [intros bs ->; apply Hf|]. rewrite Hr in *. cbn zeta.
  pose proof (io_read HIO (stream_fd t) (IOBuffer_space_len iob) (kern (snd s))) as Hn. rewrite Hr in Hn. cbn [fst] in Hn.
  pose proof (io_read_open HIO (stream_fd t) (IOBuffer_space_len iob) (kern (snd s))) as Ho. rewrite Hr in Ho. cbn [fst] in Ho.
  pose proof (io_read_out HIO (stream_fd t) (IOBuffer_space_len iob) (kern (snd s))) as Hou. rewrite Hr in Hou. cbn [fst] in Hou.
  pose proof (io_read_others HIO (stream_fd t) (IOBuffer_space_len iob) (kern (snd s))) as Hot. rewrite Hr in Hot. cbn [fst] in Hot.
  destruct Hp as [[Ht _ _ _ _ _] _ Hc Ha Hi Hz]. destruct w as [|bs0|er0|er0]; cbn [fits read_gives status_of] in *; [done| | |].
  - destruct Hf as (Hok & Hptr & Hlen). destruct Hg as [-> ->]. rewrite (s32_len bs0 iob Hok) by lia.
    rewrite (proj2 (Z.ltb_lt _ _)) by lia.
    rewrite (set_read_state_ok (w_kern k s) t) by done. rewrite bind_ret_l.
    destruct (fill_commit_ok iob (init bs0) Hok) as (iob' & Hfill & Hok' & Hd & Hp' & Hcap & _ & _);
      [rewrite msize_init; unfold Zlen in *; lia..|]. rewrite msize_init in Hfill. fold (Zlen bs0) in Hfill.
    rewrite <- bind_assoc, Hfill, bind_ret_l.
    erewrite (invoke_read_ok _ (with_read_state RD_STATE_READY t)) by done. eexists. split; [done|]. split; [|exact Hst].
    constructor; try done; cbn.
    + by exists RD_STATE_READY.
    + exists iob'. split; [done|]. split_and!; try done. rewrite Hd. unfold commit_data. by rewrite Hptr.
    + unfold KqHelpers.watching, wnotes. cbn. apply Hn.
  - destruct Hg as [-> ->]. change (0 <? s32 0) with false. change (s32 0 =? 0) with true. cbn iota.
    erewrite (invoke_read_ok (w_kern k s) t) by done. eexists. split; [done|]. split; [|exact Hst].
    constructor; try done; cbn; [by eexists| |unfold KqHelpers.watching, wnotes; cbn; apply Hn].
    exists iob. by rewrite insert_id.
  - destruct Hg as [-> ->]. change (0 <? s32 (-1)) with false. change (s32 (-1) =? 0) with false. cbn iota.
    rewrite (proj2 (Z.eqb_neq _ _)) by done.
    erewrite (invoke_read_ok (w_kern k s) t) by done. eexists. split; [done|]. split; [|exact Hst].
    constructor; try done; cbn; [by eexists| |unfold KqHelpers.watching, wnotes; cbn; apply Hn].
    exists iob. by rewrite insert_id.
Qed.

(** The stream's part of the event while a read waits. *)
Definition waiting_stream (x : stream_t fn arg_t) : stream_t fn arg_t :=
  mkStream (s_fd x) (event_mask x) (Some fn_read_ready) (Some self) (write_postable_cb x) (write_postable_arg x).

(** A read that finds nothing waits for the event. *)
Lemma try_read_waits s t e x b cb a iob rest :
  pending s t e x b cb a iob → incoming (kern (snd s)) (stream_fd t) = Nothing :: rest →
  ∃ s', try_read s = Ret s' ∧
    pending s' (with_read_state RD_STATE_EAGAIN t) (mkEvent true (handler e) (V_stream (waiting_stream x))) (waiting_stream x) b cb a iob ∧
    incoming (kern (snd s')) (stream_fd t) = rest ∧ iobs (snd s') = iobs (snd s) ∧ the_app (snd s') = the_app (snd s) ∧
    ready_list (fst s') = ready_list (fst s) ∧ same_out s s' ∧
    watching s' = <[on_read (stream_fd t) := armed_note (rlstream_ref t) false]> (watching s) ∧
    (∀ g, g ≠ stream_fd t → incoming (kern (snd s')) g = incoming (kern (snd s)) g) ∧
    (∀ d, fd_open (kern (snd s')) d = fd_open (kern (snd s)) d) ∧ loop_upto (rlstream_ref t) (fst s) (fst s') ∧
    rtc (io_step (stream_fd t)) (kern (snd s)) (kern (snd s')).
Proof using HIO HL.
  intros Hp Hin. pose proof (step_read (stream_fd t) (IOBuffer_space_len iob) (kern (snd s))) as Hst. rewrite (try_read_call _ _ _ _ _ _ _ _ Hp).
  destruct (io_incoming HIO _ (IOBuffer_space_len iob) _ _ _ Hin) as (k & r & er & bs & Hr & [-> ->] & Hin'); [done|].
  rewrite Hr in *. cbn zeta. change (0 <? s32 (-1)) with false. change (s32 (-1) =? 0) with false.
  change (KQ_EAGAIN =? KQ_EAGAIN) with true. cbn iota.
  pose proof (io_read HIO (stream_fd t) (IOBuffer_space_len iob) (kern (snd s))) as Hn. rewrite Hr in Hn. cbn [fst] in Hn.
  pose proof (io_read_open HIO (stream_fd t) (IOBuffer_space_len iob) (kern (snd s))) as Ho. rewrite Hr in Ho. cbn [fst] in Ho.
  pose proof (io_read_out HIO (stream_fd t) (IOBuffer_space_len iob) (kern (snd s))) as Hou. rewrite Hr in Hou. cbn [fst] in Hou.
  pose proof (io_read_others HIO (stream_fd t) (IOBuffer_space_len iob) (kern (snd s))) as Hot. rewrite Hr in Hot. cbn [fst] in Hot.
  destruct Hp as [[Ht Hl Hv Hfd Hop Hmask] Hb Hc Ha Hi Hz].
  rewrite (set_read_state_ok (w_kern k s) t) by done. rewrite bind_ret_l.
  set (s1 := w_tcp (Some (with_read_state RD_STATE_EAGAIN t)) (w_kern k s)).
  destruct (kq_arm_read_ok kq_world wnotes wopen lift_laws (rlstream_ref t) e x fn_read_ready self s1) as (s2 & Hs2 & Hl2 & Hw2 & Hr2 & Hk2).
  - exact Hl.
  - exact Hv.
  - unfold wopen. cbn. rewrite Hfd, Ho. exact Hop.
  - exists s2. split; [exact Hs2|]. destruct Hk2 as (q & cs & Hk2).
    assert (∃ k2, snd s2 = on_kern (snd s1) k2 ∧ (∀ d, fd_open k2 d = fd_open k d) ∧ (∀ f, incoming k2 f = incoming k f) ∧
      (∀ f, outgoing k2 f = outgoing k f ∧ sent k2 f = sent k f) ∧ io_step (stream_fd t) k k2) as (k2 & Hs & Hop2 & Hin2 & Hou2 & Hst2).
    { rewrite Hk2. pose proof (step_queue (stream_fd t) q cs k) as H4. pose proof (io_queue_out HIO q cs k) as H3. unfold kq_world, kq_lift. cbn [kevent]. pose proof (io_queue_open HIO q cs k) as H1.
      pose proof (io_queue_in HIO q cs k) as H2. cbn in H1, H2, H3, H4 |- *. destruct (kevent K q cs 0 None k) as [k2 r2]. by exists k2. }
    rewrite Hs. cbn. split_and!; try done.
    + constructor; cbn; rewrite ?Hs; try done. constructor; cbn; rewrite ?Hs; try done.
      unfold wopen in *. cbn. by rewrite Hop2, Ho.
    + by rewrite Hin2.
    + intros g. cbn. rewrite Hs. cbn. destruct (Hou2 g) as [-> ->]. apply Hou.
    + rewrite Hw2, Hfd. f_equal. unfold KqHelpers.watching, wnotes. cbn. apply Hn.
    + intros g Hg. rewrite Hin2. by apply Hot.
    + intros d. rewrite Hop2. apply Ho.
    + by apply (arm_read_upto kq_world _ _ _ _ _ Hs2).
    + by eapply rtc_l; [exact Hst|apply rtc_once].
Qed.

(** An event tries the read again. *)
Lemma event_tries s t e x :
  open_tcp s t e x → can_read (read_state (reader t)) = true → calls_back x →
  on_event (rlstream_ref t) (u16 EVFILT_READ) 0 s =
    (s ← try_read (w_tcp (Some (with_read_state RD_STATE_READY t)) s); after_event (rlstream_ref t) s).
Proof.
  intros [Ht [He _] Hv _ _ _] Hz [Hcb Harg]. unfold stream_handler. rewrite He, bind_ret_l.
  change (s16 (u16 EVFILT_READ) =? EVFILT_READ) with true. cbn iota. rewrite (read_field_ok _ e x s Hv), Hcb, Harg. cbn [call_if].
  unfold call_postable. rewrite decide_True, on_self_eq by done. unfold read_ready_callback, the_tcp. rewrite Ht. cbn [deref].
  rewrite bind_ret_l. destruct (can_read_cases _ Hz) as [_ ->]. by rewrite (set_read_state_ok s t) by done.
Qed.

Lemma try_read_idle s t e : tcp (snd s) = Some t → event_at (rlstream_ref t) s = Ret e → input_buffer (reader t) = Null → try_read s = AssertFail.
Proof. intros Ht He Hb. unfold try_read, the_tcp. rewrite Ht. cbn [deref]. by rewrite bind_ret_l, He, bind_ret_l, Hb. Qed.

Lemma after_event_idle p e x s :
  live p e s → var e = V_stream x → event_mask x = 0 → after_event p s = Ret s.
Proof.
  intros [He _] Hv Hm. unfold after_event. rewrite (masked_call_none _ 2 p e x s He Hv Hm), bind_ret_l. exact (masked_call_none _ 4 p e x s He Hv Hm).
Qed.

(** [s'] is [s] with a read of [b] over that found [w]; [armed] tells that it waited. *)
Record read_over (armed : bool) (s s' : st) (t : TcpStream) (b : nat) (w : arrival) (iob : IOBuffer) (rest : list arrival) : Prop := {
  ro_tcp : ∃ z e x, open_tcp s' (ended t z) e x ∧ can_read z = true ∧ (armed = true → calls_back x);
  ro_iob : ∃ iob', iobs (snd s') = <[b := iob']> (iobs (snd s)) ∧ received w iob iob';
  ro_app : the_app (snd s') = the_app (snd s);
  ro_in : incoming (kern (snd s')) (stream_fd t) = rest;
  ro_ready : ready_list (fst s') = ready_list (fst s);
  ro_out : same_out s s';
  ro_loop : armed = false → fst s' = fst s;
  ro_notes : watching s' =
    if armed then <[on_read (stream_fd t) := armed_note (rlstream_ref t) false]> (watching s) else watching s
}.

Lemma done_over s s' t e x b w iob rest (armed : bool) :
  open_tcp s t e x → read_done s s' t b w iob rest → (armed = true → calls_back x) →
  (armed = true → watching s !! on_read (stream_fd t) = Some (armed_note (rlstream_ref t) false)) →
  read_over armed s s' t b w iob rest.
Proof.
  intros Hop [Hf (z & Hz & Hc) Hi Ha Hin Hn Ho Hou _] Hx Hw. constructor; try done; [|by rewrite Hf|].
  - exists z, e, x. split_and!; [|done|done]. destruct s' as [rl w']. cbn in Hf. subst rl.
    by apply (open_tcp_with s t).
  - destruct armed; [|done]. rewrite Hn. symmetry. apply insert_id. by apply Hw.
Qed.

Lemma pending_retry s t e x b cb a iob z :
  pending s t e x b cb a iob → can_read z = true →
  pending (w_tcp (Some (with_read_state z t)) s) (with_read_state z t) e x b cb a iob.
Proof.
  intros [Ho Hb Hc Ha Hi Hz] Hz'. constructor; try done. destruct s as [rl w]. by apply (open_tcp_with (rl, w) t).
Qed.

Lemma same_out_trans s1 s2 s3 : same_out s1 s2 → same_out s2 s3 → same_out s1 s3.
Proof. intros H1 H2 g. destruct (H1 g) as [<- <-]. apply H2. Qed.

(** The events of a waiting read. *)
Lemma retries n : ∀ s t e x b cb a iob w rest,
  pending s t e x b cb a iob → calls_back x →
  watching s !! on_read (stream_fd t) = Some (armed_note (rlstream_ref t) false) →
  incoming (kern (snd s)) (stream_fd t) = replicate n Nothing ++ w :: rest → fits w iob →
  ∃ s', read_events (S n) (rlstream_ref t) s =
      (s2 ← call_read cb a (status_of w) s'; after_event (rlstream_ref t) s2) ∧
    read_over true s s' t b w iob rest.
Proof using HIO HL.
  induction n as [|n IH]; intros s t e x b cb a iob w rest Hp Hx Hw Hin Hf; cbn [KqWatchers.read_events].
  - rewrite (event_tries _ _ _ _ (pd_open _ _ _ _ _ _ _ _ Hp) (pd_state _ _ _ _ _ _ _ _ Hp) Hx). pose proof (pending_retry _ _ _ _ _ _ _ _ RD_STATE_READY Hp eq_refl) as Hp'.
    destruct (try_read_ends _ _ _ _ _ _ _ _ w rest Hp' Hin Hf) as (s' & -> & Hd & _). exists s'. split.
    + destruct (call_read cb a (status_of w) s') as [s2| |]; [|done..]. rewrite !bind_ret_l.
      by destruct (after_event (rlstream_ref t) s2).
    + destruct (done_over _ _ _ _ _ _ _ _ _ true (pd_open _ _ _ _ _ _ _ _ Hp') Hd) as []; [done|done|]. by constructor.
  - cbn [replicate app] in Hin.
    rewrite (event_tries _ _ _ _ (pd_open _ _ _ _ _ _ _ _ Hp) (pd_state _ _ _ _ _ _ _ _ Hp) Hx). pose proof (pending_retry _ _ _ _ _ _ _ _ RD_STATE_READY Hp eq_refl) as Hp'.
    destruct (try_read_waits _ _ _ _ _ _ _ _ _ Hp' Hin) as (s1 & -> & Hp1 & Hin1 & Hi1 & Ha1 & Hr1 & Hou1 & Hw1 & _).
    rewrite bind_ret_l. erewrite after_event_idle; [|apply Hp1|reflexivity|apply Hp1]. rewrite bind_ret_l.
    assert (watching s1 = watching s) as Hws by (rewrite Hw1; by apply insert_id).
    destruct (IH s1 _ _ _ _ _ _ _ w rest Hp1 (conj eq_refl eq_refl)) as (s' & He & Hov); [by rewrite Hws|exact Hin1|done|].
    exists s'. split; [exact He|]. destruct Hov as [Ht Hi Ha Hin' Hr Hou _ Hn]. constructor; try done.
    + destruct Hi as (iob' & Hi & Hrec). exists iob'. split; [|done]. by rewrite Hi, Hi1.
    + by rewrite Ha.
    + by rewrite Hr.
    + by eapply same_out_trans.
    + rewrite Hn. cbn [with_read_state rlstream_ref stream_fd]. by rewrite Hws.
Qed.

Lemma tcp_read_starts s t e x b cb a iob :
  open_tcp s t e x → idle_reader t → can_read (read_state (reader t)) = true → iobs (snd s) !! b = Some iob →
  IOBuffer_space_len iob ≠ 0 →
  ∃ t1, tcp_read b (Some cb) a s = try_read (w_tcp (Some t1) s) ∧ pending (w_tcp (Some t1) s) t1 e x b cb a iob ∧
    (∀ z, ended t1 z = ended t z) ∧ rlstream_ref t1 = rlstream_ref t ∧ stream_fd t1 = stream_fd t.
Proof.
  intros Hop [Hb Hc] Hz Hi Hsp. pose proof Hop as [Ht [He _] _ _ _ _].
  exists (mkTcp (rlstream_ref t) (stream_fd t) (mkReader (read_state (reader t)) (Ptr b) (Ptr cb) (to_field a)) (writer t)).
  split_and!; [|constructor; try done; destruct s as [rl w]; by apply (open_tcp_with (rl, w) t)|done..].
  unfold tcp_read, is_read_pending, put_reader, the_tcp, the_iob. rewrite Ht. cbn [deref]. rewrite !bind_ret_l, Hb, Hc. cbn [load].
  rewrite !bind_ret_l. cbn [is_ptr Bool.eqb c_assert andb]. rewrite !bind_ret_l. cbn [negb c_assert].
  rewrite bind_ret_l, Hi. cbn [deref]. rewrite bind_ret_l, (proj2 (Z.eqb_neq _ _)) by done. cbn [negb c_assert].
  by rewrite !bind_ret_l, He, !bind_ret_l.
Qed.

(** ** Writing *)

(** A write in progress, with the bytes still to be written. *)
Record wpending (s : st) (t : TcpStream) (e : RunloopEvent fn arg_t) (x : stream_t fn arg_t) (b : nat) (cb : wcb)
    (a : option arg_t) (bs : list byte) : Prop := {
  wp_open : open_tcp s t e x;
  wp_buffer : output_buffer (writer t) = Ptr b;
  wp_cb : write_cb (writer t) = Ptr cb;
  wp_arg : write_cb_arg (writer t) = to_field a;
  wp_iob : ∃ iob, iobs (snd s) !! b = Some iob ∧ iob_ok iob ∧ iob_data iob = init bs
}.

Definition with_write_state (z : Z) (t : TcpStream) : TcpStream :=
  mkTcp (rlstream_ref t) (stream_fd t) (reader t)
    (mkWriter z (write_cb (writer t)) (write_cb_arg (writer t)) (output_buffer (writer t))).
Definition wended (t : TcpStream) (z : Z) : TcpStream :=
  mkTcp (rlstream_ref t) (stream_fd t) (reader t) (mkWriter z Null Null Null).

Lemma set_write_state_ok s t z : tcp (snd s) = Some t → set_write_state z s = Ret (w_tcp (Some (with_write_state z t)) s).
Proof. intros Ht. unfold set_write_state, put_writer, the_tcp. rewrite Ht. cbn [deref]. by rewrite !bind_ret_l. Qed.

Lemma invoke_write_ok s t z cb a er :
  tcp (snd s) = Some t → write_state (writer t) = z → write_cb (writer t) = Ptr cb → write_cb_arg (writer t) = to_field a →
  invoke_write_callback er s = call_write cb a er (w_tcp (Some (wended t z)) s).
Proof.
  intros Ht <- Hc Ha. unfold invoke_write_callback, put_writer, the_tcp. rewrite Ht. cbn [deref]. rewrite bind_ret_l, Hc. cbn [load].
  rewrite bind_ret_l, Ha, load_to_field, bind_ret_l. by cbn [deref].
Qed.

Lemma iob_bytes_ok iob bs : iob_ok iob → iob_data iob = init bs → iob_bytes iob = Ret bs.
Proof.
  intros Hok Hd. pose proof (iob_data_size iob Hok) as Hs. rewrite Hd, msize_init in Hs. destruct Hok.
  unfold iob_bytes, IOBuffer_data, IOBuffer_data_len. rewrite mem_load_ok by lia. rewrite bind_ret_l.
  fold (iob_data iob). by rewrite Hd, mapM_init.
Qed.

(** The call of write, up to the test of its result. *)
Lemma try_write_call s t e x b cb a bs iob :
  open_tcp s t e x → output_buffer (writer t) = Ptr b → iobs (snd s) !! b = Some iob → iob_ok iob → iob_data iob = init bs →
  write_cb (writer t) = Ptr cb → write_cb_arg (writer t) = to_field a →
  try_write s =
  (let '(k, r, er) := sys_write N (stream_fd t) bs (kern (snd s)) in
   let s := w_kern k s in
   if 0 <? s32 r then
     iob ← IOBuffer_consume iob (s32 r);
     s ← set_write_state WRT_STATE_READY (w_iob b iob s);
     if IOBuffer_data_len iob =? 0 then invoke_write_callback 0 s
     else runloop_post (Some fn_try_write) (Some self) s
   else if s32 r =? 0 then invoke_write_callback er s
   else if er =? KQ_EAGAIN then set_write_state WRT_STATE_EAGAIN s
   else s ← set_write_state WRT_STATE_ERROR s; invoke_write_callback er s).
Proof.
  intros [Ht [He _] _ _ _ _] Hb Hi Hok Hd Hc Ha. unfold try_write, the_tcp, the_iob. rewrite Ht. cbn [deref]. rewrite bind_ret_l, He, bind_ret_l, Hb.
  cbn [load]. rewrite bind_ret_l. cbn [deref]. rewrite bind_ret_l, Hi. cbn [deref]. rewrite bind_ret_l.
  by rewrite (iob_bytes_ok iob bs Hok Hd), bind_ret_l.
Qed.

(** One write that takes [n] bytes of those left. *)
Lemma try_write_takes s t e x b cb a bs n rest :
  wpending s t e x b cb a bs → outgoing (kern (snd s)) (stream_fd t) = Taken n :: rest → 0 < n → bs ≠ [] →
  ∃ s1 t1, wpending s1 t1 e x b cb a (drop (Z.to_nat n) bs) ∧ rlstream_ref t1 = rlstream_ref t ∧ stream_fd t1 = stream_fd t ∧
    (∀ z, wended t1 z = wended t z) ∧ fst s1 = fst s ∧ the_app (snd s1) = the_app (snd s) ∧ same_in s s1 ∧
    outgoing (kern (snd s1)) (stream_fd t) = rest ∧
    sent (kern (snd s1)) (stream_fd t) = sent (kern (snd s)) (stream_fd t) ++ take (Z.to_nat n) bs ∧
    (∀ b', b' ≠ b → iobs (snd s1) !! b' = iobs (snd s) !! b') ∧
    (∀ d, fd_open (kern (snd s1)) d = fd_open (kern (snd s)) d) ∧ (∀ q, notes (kern (snd s1)) q = notes (kern (snd s)) q) ∧
    (∀ g, g ≠ stream_fd t → outgoing (kern (snd s1)) g = outgoing (kern (snd s)) g ∧ sent (kern (snd s1)) g = sent (kern (snd s)) g) ∧
    io_step (stream_fd t) (kern (snd s)) (kern (snd s1)) ∧
    try_write s = if Zlen bs <=? n then call_write cb a 0 (w_tcp (Some (wended t1 WRT_STATE_READY)) s1)
                  else runloop_post (Some fn_try_write) (Some self) s1.
Proof using HIO.
  intros [Hop Hb Hc Ha (iob & Hi & Hok & Hd)] Hout Hn Hne. rewrite (try_write_call _ _ _ _ _ _ _ _ _ Hop Hb Hi Hok Hd Hc Ha).
  destruct (io_outgoing HIO _ bs _ _ _ Hout) as (k & r & er & Hw & Hg & Hout' & Hsent). cbn in Hg. subst r. rewrite Hw. cbn zeta.
  pose proof (step_write (stream_fd t) bs (kern (snd s))) as Hst. rewrite Hw in Hst. cbn [fst] in Hst.
  pose proof (io_write_open HIO (stream_fd t) bs (kern (snd s))) as Ho. rewrite Hw in Ho. cbn [fst] in Ho.
  pose proof (io_write_in HIO (stream_fd t) bs (kern (snd s))) as Hsi. rewrite Hw in Hsi. cbn [fst] in Hsi.
  pose proof (io_write HIO (stream_fd t) bs (kern (snd s))) as Hnt. rewrite Hw in Hnt. cbn [fst] in Hnt.
  pose proof (io_write_others HIO (stream_fd t) bs (kern (snd s))) as Hot. rewrite Hw in Hot. cbn [fst] in Hot.
  pose proof (iob_data_size iob Hok) as Hs. rewrite Hd, msize_init in Hs. fold (Zlen bs) in Hs.
  assert (0 < Zlen bs) as Hlen by (destruct bs; [done|rewrite Zlen_cons; pose proof (Zlen_nonneg bs); lia]).
  assert (s32 (Z.min n (Zlen bs)) = Z.min n (Zlen bs)) as ->.
  { apply s32_small. pose proof Hok as []. unfold INT_MIN, INT_MAX in *. lia. }
  rewrite (proj2 (Z.ltb_lt _ _)) by lia.
  destruct (consume_ok iob (Z.min n (Zlen bs)) Hok) as (iob' & -> & Hok' & Hd' & _ & Hr' & _ & _); [lia|]. rewrite bind_ret_l.
  rewrite (set_write_state_ok _ t) by apply Hop. rewrite bind_ret_l. unfold IOBuffer_data_len. rewrite Hr'.
  exists (w_tcp (Some (with_write_state WRT_STATE_READY t)) (w_iob b iob' (w_kern k s))), (with_write_state WRT_STATE_READY t).
  assert (init (drop (Z.to_nat n) bs) = iob_data iob') as Hdd.
  { rewrite Hd', Hd. unfold init. rewrite fmap_drop. destruct (Z.min_spec n (Zlen bs)) as [[? ->]|[? ->]]; [done|].
    rewrite !drop_ge; [done|rewrite length_fmap; unfold Zlen in *; lia..]. }
  split_and!; try done.
  - constructor; try done; [|by exists iob'; rewrite <- Hdd; cbn; rewrite lookup_insert_eq].
    destruct s as [rl w]. by apply (open_tcp_with (rl, w) t).
  - intros b' Hb'. cbn. by rewrite lookup_insert_ne.
  - replace (buffer_remaining iob - Z.min n (Zlen bs) =? 0) with (Zlen bs <=? n)
      by (destruct (Z.leb_spec (Zlen bs) n); symmetry; bool_prop; lia).
    destruct (Zlen bs <=? n); [|done]. by apply (invoke_write_ok _ (with_write_state WRT_STATE_READY t)).
Qed.

(** Writing [bs] takes the pieces [ns], the last one ends it. *)
Fixpoint pieces (bs : list byte) (ns : list Z) : Prop :=
  match ns with
  | [] => False
  | n :: ns => 0 < n ∧ bs ≠ [] ∧ if Zlen bs <=? n then ns = [] else pieces (drop (Z.to_nat n) bs) ns
  end.

Record write_over (s s' : st) (t : TcpStream) (e : RunloopEvent fn arg_t) (x : stream_t fn arg_t) (b : nat)
    (bs : list byte) (rest : list room) : Prop := {
  wo_tcp : open_tcp s' (wended t WRT_STATE_READY) e x;
  wo_ready : fl_rep (ready_list (fst s')) [] ∧ capacity (ready_list (fst s')) = capacity (ready_list (fst s));
  wo_app : the_app (snd s') = the_app (snd s);
  wo_out : outgoing (kern (snd s')) (stream_fd t) = rest;
  wo_sent : sent (kern (snd s')) (stream_fd t) = sent (kern (snd s)) (stream_fd t) ++ bs;
  wo_in : same_in s s';
  wo_iobs : ∀ b', b' ≠ b → iobs (snd s') !! b' = iobs (snd s) !! b';
  wo_empty : ∃ iob, iobs (snd s') !! b = Some iob ∧ iob_ok iob ∧ iob_data iob = []
}.

Lemma open_tcp_ready s t e x l : open_tcp s t e x → open_tcp (set_ready (fst s) l, snd s) t e x.
Proof. by intros []. Qed.

Lemma writes (Hne : fn_read_ready ≠ fn_try_write) ns : ∀ s t e x b cb a bs rest,
  wpending s t e x b cb a bs → fl_rep (ready_list (fst s)) [] → 1 < capacity (ready_list (fst s)) →
  outgoing (kern (snd s)) (stream_fd t) = (Taken <$> ns) ++ rest → pieces bs ns →
  ∃ s', (s1 ← try_write s; run_posted (length ns - 1) s1) = call_write cb a 0 s' ∧ write_over s s' t e x b bs rest.
Proof using HIO.
  induction ns as [|n ns IH]; intros s t e x b cb a bs rest Hp Hr Hcap Hout Hns; [done|].
  destruct Hns as (Hn & Hbs & Hrest). cbn [fmap list_fmap app] in Hout.
  destruct (try_write_takes _ _ _ _ _ _ _ _ _ _ Hp Hout Hn Hbs)
    as (s1 & t1 & Hp1 & Hrs & Hfd & Hend & Hf1 & Ha1 & Hsi1 & Ho1 & Hs1 & Hi1 & _ & _ & _ & _ & ->).
  destruct (Z.leb_spec (Zlen bs) n) as [Hle|Hgt].
  - subst ns. eexists. split; [cbn [length Nat.sub run_posted]; apply bind_ret_r|].
    destruct (wp_iob _ _ _ _ _ _ _ _ Hp1) as (iob & Hi & Hok & Hd).
    rewrite drop_ge in Hd by (unfold Zlen in Hle; lia). rewrite take_ge in Hs1 by (unfold Zlen in Hle; lia).
    constructor; cbn; rewrite ?Hf1, ?Ha1; try done; [|by exists iob].
    rewrite <- Hend. destruct s1 as [rl w]. by apply (open_tcp_with (rl, w) t1); [apply Hp1|..].
  - destruct (post_then_run fn_try_write self s1) as (l & l' & -> & Hl & Hr2 & Hc2); [by rewrite Hf1..|]. rewrite bind_ret_l.
    destruct ns as [|n2 ns]; [done|]. cbn [length Nat.sub run_posted fst snd]. change (ready_list (set_ready (fst s1) l)) with l.
    rewrite Hl, bind_ret_l. cbn [f arg deref]. rewrite bind_ret_l. unfold call_postable. rewrite decide_False, decide_True, on_self_eq by done.
    unfold postable_try_write. change (set_ready (set_ready (fst s1) l) l') with (set_ready (fst s1) l').
    destruct (IH (set_ready (fst s1) l', snd s1) t1 e x b cb a (drop (Z.to_nat n) bs) rest) as (s' & He & Hov).
    + destruct Hp1 as [Hop ? ? ? ?]. constructor; try done. by apply open_tcp_ready.
    + done.
    + cbn. by rewrite Hc2, Hf1.
    + cbn [snd]. by rewrite Hfd.
    + done.
    + exists s'. cbn [length Nat.sub] in He. rewrite Nat.sub_0_r in He. split; [exact He|].
      destruct Hov as [Ht [Hrl Hcl] Ha Ho Hs Hsi Hi He']. rewrite Hfd in Ho, Hs. cbn in Hcl, Ha, Hs, Hi. constructor; try done.
      * by rewrite <- Hend.
      * split; [done|]. by rewrite Hcl, Hc2, Hf1.
      * by rewrite Ha.
      * by rewrite Hs, Hs1, <- app_assoc, take_drop.
      * intros g. rewrite <- Hsi1. apply Hsi.
      * intros b' Hb'. by rewrite Hi, Hi1.
Qed.

Lemma tcp_write_starts s t e x b cb a iob bs :
  open_tcp s t e x → idle_writer t → iobs (snd s) !! b = Some iob → iob_ok iob → iob_data iob = init bs →
  ∃ t1, tcp_write b (Some cb) a s = try_write (w_tcp (Some t1) s) ∧ wpending (w_tcp (Some t1) s) t1 e x b cb a bs ∧
    (∀ z, wended t1 z = wended t z) ∧ rlstream_ref t1 = rlstream_ref t ∧ stream_fd t1 = stream_fd t.
Proof.
  intros Hop [Hb Hc] Hi Hok Hd. pose proof Hop as [Ht _ _ _ _ _].
  exists (mkTcp (rlstream_ref t) (stream_fd t) (reader t) (mkWriter (write_state (writer t)) (Ptr cb) (to_field a) (Ptr b))).
  split_and!; [|constructor; try done; [destruct s as [rl w]; by apply (open_tcp_with (rl, w) t)|by exists iob]|done..].
  unfold tcp_write, is_write_pending, put_writer, the_tcp. rewrite Ht. cbn [deref]. rewrite !bind_ret_l, Hb, Hc. cbn [load].
  rewrite !bind_ret_l. cbn [is_ptr Bool.eqb c_assert]. rewrite !bind_ret_l. cbn [negb c_assert]. by rewrite !bind_ret_l.
Qed.

Lemma tcp_read_ok n s t e x b cb a iob w rest :
  open_tcp s t e x → idle_reader t → can_read (read_state (reader t)) = true → iobs (snd s) !! b = Some iob →
  IOBuffer_space_len iob ≠ 0 → incoming (kern (snd s)) (stream_fd t) = replicate n Nothing ++ w :: rest → fits w iob →
  ∃ s', (s1 ← tcp_read b (Some cb) a s; read_events n (rlstream_ref t) s1) =
      (s2 ← call_read cb a (status_of w) s'; if n =? 0 then Ret s2 else after_event (rlstream_ref t) s2)%nat ∧
    read_over (negb (n =? 0)%nat) s s' t b w iob rest.
Proof using HIO HL.
  intros Hop Hid Hz Hi Hsp Hin Hf.
  destruct (tcp_read_starts _ _ _ _ b cb a iob Hop Hid Hz Hi Hsp) as (t1 & -> & Hp & Hend & Hrs & Hfd).
  destruct n as [|n]; cbn [replicate app KqWatchers.read_events] in *.
  - destruct (try_read_ends _ _ _ _ _ _ _ _ w rest Hp) as (s' & -> & Hd & _); [by rewrite Hfd|done|]. exists s'. split; [done|].
    destruct (done_over _ _ _ _ _ _ _ _ _ false (pd_open _ _ _ _ _ _ _ _ Hp) Hd) as [Ht']; [done|done|].
    constructor; try done; [|by rewrite <- Hfd]. destruct Ht' as (z & e' & x' & Ho & ?). exists z, e', x'. by rewrite <- Hend.
  - destruct (try_read_waits _ _ _ _ _ _ _ _ (replicate n Nothing ++ w :: rest) Hp)
      as (s1 & -> & Hp1 & Hin1 & Hi1 & Ha1 & Hr1 & Hou1 & Hw1 & _); [rewrite Hfd; exact Hin|].
    rewrite bind_ret_l. destruct (retries n s1 _ _ _ _ _ _ _ w rest Hp1 (conj eq_refl eq_refl)) as (s' & He & Hov);
      [by rewrite Hw1, lookup_insert_eq|exact Hin1|done|]. cbn [with_read_state rlstream_ref] in He. rewrite Hrs in He.
    exists s'. split; [exact He|]. destruct Hov as [Ht' Hi' Ha' Hin' Hr' Hou' _ Hn']. constructor.
    + destruct Ht' as (z & e' & x' & Ho & Hz' & Hx'). exists z, e', x'. split; [|done]. rewrite <- Hend. exact Ho.
    + destruct Hi' as (iob' & Hi' & ?). exists iob'. split; [|done]. by rewrite Hi', Hi1.
    + by rewrite Ha'.
    + by rewrite <- Hfd.
    + by rewrite Hr'.
    + by eapply same_out_trans.
    + done.
    + cbn [negb Nat.eqb]. rewrite Hn', Hw1. cbn [with_read_state rlstream_ref stream_fd]. by rewrite insert_insert_eq, Hrs, Hfd.
Qed.

Lemma tcp_write_ok ns s t e x b cb a iob bs rest :
  fn_read_ready ≠ fn_try_write → open_tcp s t e x → idle_writer t →
  fl_rep (ready_list (fst s)) [] → 1 < capacity (ready_list (fst s)) →
  iobs (snd s) !! b = Some iob → iob_ok iob → iob_data iob = init bs →
  outgoing (kern (snd s)) (stream_fd t) = (Taken <$> ns) ++ rest → pieces bs ns →
  ∃ s', (s1 ← tcp_write b (Some cb) a s; run_posted (length ns - 1) s1) = call_write cb a 0 s' ∧
    write_over s s' t e x b bs rest.
Proof using HIO.
  intros Hne Hop Hid Hr Hcap Hi Hok Hd Hout Hns.
  destruct (tcp_write_starts _ _ _ _ b cb a iob bs Hop Hid Hi Hok Hd) as (t1 & -> & Hp & Hend & Hrs & Hfd).
  destruct (writes Hne ns _ _ _ _ _ _ _ _ rest Hp Hr Hcap) as (s' & He & Hov); [cbn; by rewrite Hfd|done|].
  exists s'. split; [exact He|]. destruct Hov as [Ht ? ? Ho Hs ? ? ?]. rewrite Hfd in Ho, Hs. constructor; try done. by rewrite <- Hend.
Qed.

(** Writing leaves the events of the loop alone, if the callback does. *)
Lemma put_writer_keeps x : keeps_events (put_writer x).
Proof. intros s s' H. unfold put_writer in H. apply bind_ret_inv in H as (? & _ & H). by injection H as <-. Qed.

Lemma set_write_state_keeps z : keeps_events (set_write_state z).
Proof. intros s s' H. unfold set_write_state in H. apply bind_ret_inv in H as (? & _ & H). by apply put_writer_keeps in H. Qed.

Lemma invoke_write_keeps er : (∀ cb a er, keeps_events (call_write cb a er)) → keeps_events (invoke_write_callback er).
Proof.
  intros Hc s s' H. unfold invoke_write_callback in H. apply bind_ret_inv in H as (? & _ & H). apply bind_ret_inv in H as (? & _ & H).
  apply bind_ret_inv in H as (? & _ & H). apply bind_ret_inv in H as (s1 & H1%put_writer_keeps & H).
  apply bind_ret_inv in H as (? & _ & H). apply Hc in H. by rewrite H.
Qed.

Lemma try_write_keeps : (∀ cb a er, keeps_events (call_write cb a er)) → keeps_events try_write.
Proof.
  intros Hc s s' H. unfold try_write in H. do 6 (apply bind_ret_inv in H as (? & _ & H)).
  destruct (sys_write _ _ _ _) as [[k r] er]. destruct (0 <? s32 r).
  - apply bind_ret_inv in H as (? & _ & H). apply bind_ret_inv in H as (s1 & H1%set_write_state_keeps & H).
    transitivity (event_table (fst s1)); [|exact H1].
    destruct (_ =? 0); [by eapply invoke_write_keeps|by eapply post_keeps].
  - destruct (s32 r =? 0); [by eapply invoke_write_keeps in H|]. destruct (er =? KQ_EAGAIN).
    + by apply set_write_state_keeps in H.
    + apply bind_ret_inv in H as (s1 & H1%set_write_state_keeps & H). transitivity (event_table (fst s1)); [|exact H1].
      by eapply invoke_write_keeps.
Qed.

Lemma tcp_write_keeps b cb a : (∀ cb a er, keeps_events (call_write cb a er)) → keeps_events (tcp_write b cb a).
Proof.
  intros Hc s s' H. unfold tcp_write in H. do 4 (apply bind_ret_inv in H as (? & _ & H)).
  apply bind_ret_inv in H as (s1 & H1%put_writer_keeps & H). apply try_write_keeps in H; [|done]. by rewrite H.
Qed.

(** ** Properties *)

(** C17: An asynchronous read delivers: on an open stream with no read in progress, a read
    whose socket is first found empty any number [n] of times, and then not, calls its
    callback exactly once, after the [n]-th event of the loop (at once when [n] is 0),
    with its argument, and with status 0 and the bytes found appended to the caller's
    buffer, or with an error number. By then the read is over and the stream is ready
    for another one; nothing was posted, the rest of the program is untouched, and if the
    read waited the kernel watches the socket for this stream. *)
Theorem tcp_read_delivers n s t e x b cb a iob w rest :
  open_tcp s t e x → idle_reader t → can_read (read_state (reader t)) = true → iobs (snd s) !! b = Some iob →
  IOBuffer_space_len iob ≠ 0 → incoming (kern (snd s)) (stream_fd t) = replicate n Nothing ++ w :: rest → fits w iob →
  ∃ s', (s1 ← tcp_read b (Some cb) a s; read_events n (rlstream_ref t) s1) =
      (s2 ← call_read cb a (status_of w) s'; if n =? 0 then Ret s2 else after_event (rlstream_ref t) s2)%nat ∧
    read_over (negb (n =? 0)%nat) s s' t b w iob rest.
Proof using HIO HL. by apply tcp_read_ok. Qed.
(** C18: An asynchronous write delivers: on an open stream with no write in progress, on an
    idle loop, a write whose bytes the socket takes in any number of pieces passes each
    byte on exactly once and in order; each piece but the last posts the next attempt,
    and after as many functors of the loop the callback is called, exactly once, with its
    argument and status 0. By then the buffer is empty, the other buffers and the rest of
    the program are untouched, and the stream is ready for another write. *)
Theorem tcp_write_delivers ns s t e x b cb a iob bs rest :
  fn_read_ready ≠ fn_try_write → open_tcp s t e x → idle_writer t →
  fl_rep (ready_list (fst s)) [] → 1 < capacity (ready_list (fst s)) →
  iobs (snd s) !! b = Some iob → iob_ok iob → iob_data iob = init bs →
  outgoing (kern (snd s)) (stream_fd t) = (Taken <$> ns) ++ rest → pieces bs ns →
  ∃ s', (s1 ← tcp_write b (Some cb) a s; run_posted (length ns - 1) s1) = call_write cb a 0 s' ∧
    write_over s s' t e x b bs rest.
Proof using HIO. by apply tcp_write_ok. Qed.

(** A write to a full socket stalls: [tcp_write] returns, its callback not called, with
    the write still pending; but nothing was posted, the loop and what the kernel watches
    are as they were, so that no event will try again, and the next write aborts. *)
Theorem tcp_write_stalls s t e x b cb a iob bs rest :
  open_tcp s t e x → idle_writer t → iobs (snd s) !! b = Some iob → iob_ok iob → iob_data iob = init bs →
  outgoing (kern (snd s)) (stream_fd t) = Full :: rest →
  ∃ s' t', tcp_write b (Some cb) a s = Ret s' ∧ wpending s' t' e x b cb a bs ∧ write_state (writer t') = WRT_STATE_EAGAIN ∧
    fst s' = fst s ∧ watching s' = watching s ∧ sent (kern (snd s')) (stream_fd t) = sent (kern (snd s)) (stream_fd t) ∧
    ∀ b' cb' a', tcp_write b' cb' a' s' = AssertFail.
Proof using HIO.
  intros Hop Hid Hi Hok Hd Hout.
  destruct (tcp_write_starts _ _ _ _ b cb a iob bs Hop Hid Hi Hok Hd) as (t1 & -> & Hp & Hend & Hrs & Hfd).
  destruct Hp as [Hop1 Hb Hc Ha _]. rewrite (try_write_call _ _ _ _ _ _ _ _ _ Hop1 Hb Hi Hok Hd Hc Ha).
  rewrite <- Hfd in Hout. destruct (io_outgoing HIO _ bs _ _ _ Hout) as (k & r & er & Hw & [-> ->] & _ & Hsent).
  cbn [taken] in Hsent. rewrite app_nil_r in Hsent. cbn [w_tcp snd kern]. rewrite Hw. cbn zeta.
  change (0 <? s32 (-1)) with false. change (s32 (-1) =? 0) with false. change (KQ_EAGAIN =? KQ_EAGAIN) with true. cbn iota.
  pose proof (io_write HIO (stream_fd t1) bs (kern (snd s))) as Hn. rewrite Hw in Hn. cbn [fst] in Hn.
  pose proof (io_write_open HIO (stream_fd t1) bs (kern (snd s))) as Ho. rewrite Hw in Ho. cbn [fst] in Ho.
  rewrite (set_write_state_ok _ t1) by done. exists (w_tcp (Some (with_write_state WRT_STATE_EAGAIN t1)) (w_kern k (w_tcp (Some t1) s))).
  exists (with_write_state WRT_STATE_EAGAIN t1). split_and!; try done.
  - constructor; try done; [|by exists iob]. destruct s as [rl w]. by apply (open_tcp_with (rl, w) t).
  - unfold KqHelpers.watching, wnotes. cbn. apply Hn.
  - by rewrite <- Hfd.
  - intros b' cb' a'. unfold tcp_write, is_write_pending, the_tcp. cbn. rewrite Hb, Hc. by cbn.
Qed.

(** A stream cannot be used as its constructor leaves it: [tcp_stream_new] sets the
    states of its reader and writer but neither their buffers nor their callbacks, so that
    the first read and the first write test fields that were never set. *)
Theorem tcp_new_undefined f s s' :
  tcp_stream_new f s = Ret s' →
  (∀ b cb a, tcp_read b cb a s' = Ub) ∧ (∀ b cb a, tcp_write b cb a s' = Ub).
Proof.
  unfold tcp_stream_new, tcp_stream_init. intros H. apply bind_ret_inv in H as ([s1 p] & _ & H).
  apply bind_ret_inv in H as ([s2 sfd] & _ & H). cbn in H. injection H as <-.
  split; intros b cb a; unfold tcp_read, tcp_write, is_read_pending, is_write_pending, the_tcp; by cbn.
Qed.

(** The note of a read that waited outlives the read: it stays enabled for every
    occurrence, and one that comes while no read is in progress aborts the program. *)
Theorem tcp_idle_event_aborts s t e x :
  open_tcp s t e x → idle_reader t → can_read (read_state (reader t)) = true → calls_back x →
  on_event (rlstream_ref t) (u16 EVFILT_READ) 0 s = AssertFail.
Proof.
  intros Hop [Hb _] Hz Hcb. rewrite (event_tries _ _ _ _ Hop Hz Hcb). by rewrite (try_read_idle _ (with_read_state RD_STATE_READY t) e); try apply Hop.
Qed.
End TcpStream.


(** ** Witnesses: a kernel that follows its scripts *)

(** What each descriptor will find and take, and what was sent. *)
Record ex_tk := mkTk { tk_notes : gmap (Z * Z) note; tk_in : gmap Z (list arrival); tk_out : gmap Z (list room); tk_sent : gmap Z (list byte) }.
Definition ex_in (w : ex_tk) (f : Z) : list arrival := default [] (tk_in w !! f).
Definition ex_out (w : ex_tk) (f : Z) : list room := default [] (tk_out w !! f).
Definition ex_sent (w : ex_tk) (f : Z) : list byte := default [] (tk_sent w !! f).
(** One descriptor. *)
Definition ex_tk1 (f : Z) (ain : list arrival) (out : list room) : ex_tk := mkTk ∅ {[ f := ain ]} {[ f := out ]} ∅.

Definition ex_tkq : kqueue_sys ex_tk := mkKq
  (λ w, (w, 3)) (λ _ cs _ _ w, (mkTk (apply_changes cs (tk_notes w)) (tk_in w) (tk_out w) (tk_sent w), KEvents [])) (λ _ w, (w, 0)).
Definition ex_sys_read (f n : Z) (w : ex_tk) : ex_tk * Z * Z * list byte :=
  match ex_in w f with
  | [] => (w, -1, KQ_EAGAIN, [])
  | a :: rest =>
      let w := mkTk (tk_notes w) (<[f := rest]> (tk_in w)) (tk_out w) (tk_sent w) in
      match a with
      | Nothing => (w, -1, KQ_EAGAIN, [])
      | Bytes bs => (w, Zlen bs, 0, bs)
      | End e => (w, 0, e, [])
      | Fail e => (w, -1, e, [])
      end
  end.
Definition ex_sys_write (f : Z) (bs : list byte) (w : ex_tk) : ex_tk * Z * Z :=
  match ex_out w f with
  | [] => (w, -1, KQ_EAGAIN)
  | a :: rest =>
      let w := mkTk (tk_notes w) (tk_in w) (<[f := rest]> (tk_out w)) (<[f := ex_sent w f ++ taken a bs]> (tk_sent w)) in
      match a with
      | Taken n => (w, Z.min n (Zlen bs), 0)
      | Full => (w, -1, KQ_EAGAIN)
      | Broken e => (w, -1, e)
      end
  end.
Definition ex_tnet : net ex_tk unit := mkNet _ _
  (fun _ _ _ w => (w, 5)) (fun _ _ _ _ w => (w, 0)) (fun _ => ()) (fun _ _ => None)
  (fun _ _ _ _ w => (w, 0)) (fun _ _ w => (w, 0)) (fun _ _ _ _ w => (w, 0))
  (fun _ _ => 0) (fun _ _ w => (w, 0)) (fun _ _ w => (w, 0))
  ex_sys_read ex_sys_write (fun _ w => (w, 0)).
Definition ex_tnotes (w : ex_tk) (kq : Z) : gmap (Z * Z) note := tk_notes w.
Definition ex_topen (w : ex_tk) (fd : Z) : bool := true.

Lemma ex_tlaws : kqueue_laws ex_tkq ex_tnotes ex_topen.
Proof. constructor. by intros. Qed.

Lemma ex_io_laws : io_laws ex_tkq ex_tnet ex_tnotes ex_topen ex_in ex_out ex_sent.
Proof.
  constructor; try done; cbn.
  - intros f n k q. unfold ex_sys_read. by destruct (ex_in k f) as [|[] rest].
  - intros f bs k q. unfold ex_sys_write. by destruct (ex_out k f) as [|[] rest].
  - intros g n k f. unfold ex_sys_read. by destruct (ex_in k g) as [|[] rest].
  - intros f n k g Hg. unfold ex_sys_read. destruct (ex_in k f) as [|[] rest]; cbn; unfold ex_in; cbn; by rewrite ?lookup_insert_ne.
  - intros f bs k g Hg. unfold ex_sys_write. destruct (ex_out k f) as [|[] rest]; cbn; unfold ex_out, ex_sent; cbn; by rewrite ?lookup_insert_ne.
  - intros g bs k f. unfold ex_sys_write. by destruct (ex_out k g) as [|[] rest].
  - intros f n k a rest Hin Ha. unfold ex_sys_read. rewrite Hin.
    destruct a; (repeat eexists; [done..|]; unfold ex_in; cbn; by rewrite lookup_insert_eq).
  - intros f bs k a rest Hout. unfold ex_sys_write. rewrite Hout.
    destruct a; (repeat eexists; [done..| |]; unfold ex_out, ex_sent; cbn; by rewrite lookup_insert_eq).
Qed.

(** The program keeps the callbacks made to it, with argument and status. *)
Abbreviation ex_tst := (Runloop nat nat * world (arg_t := nat) (KW := ex_tk) (App := list (nat * option nat * Z)) (rcb := nat) (wcb := nat))%type.
Definition ex_log (cb : nat) (a : option nat) (er : Z) (s : ex_tst) : outcome ex_tst :=
  Ret (fst s, mkWorld (tcp (snd s)) (iobs (snd s)) (kern (snd s)) (the_app (snd s) ++ [(cb, a, er)])).
Definition ex_other (g : nat) (a : option nat) (s : ex_tst) : outcome ex_tst := Ub.

(** A stream whose fields were set, on the first slab of a loop, and its buffer. *)
Definition ex_tcp : TcpStream (arg_t := nat) (rcb := nat) (wcb := nat) :=
  mkTcp 0 5 (mkReader RD_STATE_INITIAL Null Null Null) (mkWriter WRT_STATE_INITIAL Null Null Null).
Definition ex_iob (bs : list byte) : IOBuffer := mkIOBuffer (init bs ++ replicate (9 - length bs) None) 0 9 8 0 8 (Zlen bs).
Definition ex_tstream (cb : option nat) : stream_t nat nat := mkStream 5 0 cb ((λ _, 9%nat) <$> cb) None None.
Definition ex_tevent (cb : option nat) : RunloopEvent nat nat := mkEvent true (Some H_stream) (V_stream (ex_tstream cb)).
Definition ex_ts (cb : option nat) (bs : list byte) (ain : list arrival) (out : list room) : ex_tst :=
  (mkRunloop 3 false false (mkTable (mkFree 2047 2048 2049 1 0 []) [mkSlab (Some (ex_tevent cb)) (Some 0)]) [] (mkFL 8 0 0 (replicate 9 None)),
   mkWorld (Some ex_tcp) {[ 4%nat := ex_iob bs ]} (ex_tk1 5 ain out) []).

Lemma ex_open cb bs ain out : open_tcp ex_topen (ex_ts cb bs ain out) ex_tcp (ex_tevent cb) (ex_tstream cb).
Proof. by repeat constructor. Qed.

Lemma ex_fl : fl_rep (ready_list (fst (ex_ts None [] [] []))) [].
Proof. constructor; cbn; try done; unfold runloop_READY_LIST_MAX; lia. Qed.

Lemma ex_iob_ok bs : (length bs <= 8)%nat → iob_ok (ex_iob bs) ∧ iob_data (ex_iob bs) = init bs.
Proof.
  intros Hl. split.
  - constructor; cbn; unfold INT_MAX, Zlen; try lia. unfold msize. rewrite length_app, length_replicate. unfold init. rewrite length_fmap. lia.
  - unfold iob_data, ex_iob. cbn [mem_p buffer_ptr buffer_remaining]. change (drop (Z.to_nat 0) ?l) with l.
    rewrite take_app_length'; [done|]. unfold init, Zlen. rewrite length_fmap. lia.
Qed.

(** A read of "hi" that waits for one event. *)
Definition ex_reading : ex_tst := ex_ts None [] [Nothing; Bytes (bytes "hi")] [].
Definition ex_read_run : outcome ex_tst :=
  s1 ← tcp_read ex_tkq ex_tnet ex_log 1%nat 9%nat 4 (Some 30%nat) (Some 31%nat) ex_reading;
  read_events (call_postable ex_tkq ex_tnet ex_log ex_log 1%nat 2%nat 9%nat ex_other) 1 0 s1.

Example ex_read_run_logs :
  (s ← ex_read_run; Ret (the_app (snd s), (λ i, take 2 (mem_p i)) <$> iobs (snd s) !! 4%nat)) =
    Ret ([(30%nat, Some 31%nat, 0)], Some (init (bytes "hi"))).
Proof. vm_compute. reflexivity. Qed.

Lemma ex_fits : fits (Bytes (bytes "hi")) (ex_iob []).
Proof. split; [apply ex_iob_ok; cbn; lia|]. by split; [done|split; vm_compute]. Qed.

Lemma tcp_read_delivers_witness :
  ∃ s', ex_read_run = (s2 ← ex_log 30%nat (Some 31%nat) 0 s'; after_event ex_tkq ex_tnet ex_log ex_log 1%nat 2%nat 9%nat ex_other 0 s2) ∧
    read_over 1%nat 9%nat ex_tnotes ex_topen ex_in ex_out ex_sent true ex_reading s' ex_tcp 4 (Bytes (bytes "hi")) (ex_iob []) [].
Proof.
  destruct (tcp_read_delivers ex_tkq ex_tnet ex_log ex_log 1%nat 2%nat 9%nat ex_other ex_tnotes ex_topen ex_tlaws _ _ _ ex_io_laws 1
    ex_reading ex_tcp (ex_tevent None) (ex_tstream None) 4 30%nat (Some 31%nat) (ex_iob []) (Bytes (bytes "hi")) []
    (ex_open _ _ _ _) (conj eq_refl eq_refl) eq_refl eq_refl (λ H, ltac:(discriminate H)) eq_refl
    ex_fits) as (s' & He & Hov).
  cbn [Nat.eqb negb] in He, Hov. exists s'. split; [exact He|exact Hov].
Defined.

(** A write of "hello" in two pieces. *)
Definition ex_writing : ex_tst := ex_ts None (bytes "hello") [] [Taken 2; Taken 9].
Definition ex_write_run : outcome ex_tst :=
  s1 ← tcp_write ex_tnet ex_log 2%nat 9%nat 4 (Some 30%nat) (Some 31%nat) ex_writing;
  run_posted (call_postable ex_tkq ex_tnet ex_log ex_log 1%nat 2%nat 9%nat ex_other) 1 s1.

Example ex_write_run_logs :
  (s ← ex_write_run; Ret (the_app (snd s), ex_sent (kern (snd s)) 5)) = Ret ([(30%nat, Some 31%nat, 0)], bytes "hello").
Proof. vm_compute. reflexivity. Qed.

Lemma tcp_write_delivers_witness :
  ∃ s', ex_write_run = ex_log 30%nat (Some 31%nat) 0 s' ∧
    write_over ex_topen ex_in ex_out ex_sent ex_writing s' ex_tcp (ex_tevent None) (ex_tstream None) 4 (bytes "hello") [].
Proof.
  exact (tcp_write_delivers ex_tkq ex_tnet ex_log ex_log 1%nat 2%nat 9%nat ex_other ex_tnotes ex_topen _ _ _ ex_io_laws [2; 9]
    ex_writing ex_tcp (ex_tevent None) (ex_tstream None) 4 30%nat (Some 31%nat) (ex_iob (bytes "hello")) (bytes "hello") []
    ltac:(discriminate) (ex_open _ _ _ _) (conj eq_refl eq_refl) ex_fl ltac:(reflexivity) eq_refl
    (proj1 (ex_iob_ok (bytes "hello") ltac:(cbn; lia))) (proj2 (ex_iob_ok (bytes "hello") ltac:(cbn; lia))) eq_refl
    ltac:(cbn; repeat split; discriminate)).
Defined.

(** A write that the socket does not take. *)
Definition ex_stalled : ex_tst := ex_ts None (bytes "hello") [] [Full].

Lemma tcp_write_stalls_witness :
  ∃ s' t', tcp_write ex_tnet ex_log 2%nat 9%nat 4 (Some 30%nat) (Some 31%nat) ex_stalled = Ret s' ∧ fst s' = fst ex_stalled ∧
    wpending ex_topen s' t' (ex_tevent None) (ex_tstream None) 4 30%nat (Some 31%nat) (bytes "hello") ∧
    ∀ b' cb' a', tcp_write ex_tnet ex_log 2%nat 9%nat b' cb' a' s' = AssertFail.
Proof.
  destruct (tcp_write_stalls ex_tkq ex_tnet ex_log 2%nat 9%nat ex_tnotes ex_topen _ _ _ ex_io_laws
    ex_stalled ex_tcp (ex_tevent None) (ex_tstream None) 4 30%nat (Some 31%nat) (ex_iob (bytes "hello")) (bytes "hello") []
    (ex_open _ _ _ _) (conj eq_refl eq_refl) eq_refl
    (proj1 (ex_iob_ok (bytes "hello") ltac:(cbn; lia))) (proj2 (ex_iob_ok (bytes "hello") ltac:(cbn; lia))) eq_refl)
    as (s' & t' & H & Hp & _ & Hf & _ & _ & Ha). by exists s', t'.
Defined.

(** A fresh loop. *)
Definition ex_fresh (tb : EventTable (RunloopEvent nat nat)) : ex_tst :=
  (mkRunloop 3 false false tb [] (mkFL 8 0 0 (replicate 9 None)), mkWorld None ∅ (ex_tk1 5 [] []) []).

Lemma tcp_new_undefined_witness :
  ∃ tb s', event_table_new true = Ret tb ∧ tcp_stream_new 5 (ex_fresh tb) = Ret s' ∧
    ∀ b cb a, tcp_read ex_tkq ex_tnet ex_log 1%nat 9%nat b cb a s' = Ub.
Proof.
  destruct (table_new_ok (E := RunloopEvent nat nat)) as (tb & Ht & Hr). unfold full_pool in Hr. rewrite (seqZ_cons 0 EVT_MAX ltac:(done)) in Hr.
  destruct (stream_new_ok 5 (ex_fresh tb) _ _ _ Hr eq_refl) as (s1 & Hs1 & _ & [_ _ He _ _]).
  destruct (tcp_stream_new 5 (ex_fresh tb)) as [s'| |] eqn:E.
  - exists tb, s'. split; [exact Ht|]. split; [exact E|].
    exact (proj1 (tcp_new_undefined ex_tkq ex_tnet ex_log ex_log 1%nat 2%nat 9%nat 5 (ex_fresh tb) s' E)).
  - unfold tcp_stream_new, tcp_stream_init in E. rewrite Hs1, bind_ret_l in E. by rewrite (stream_get_fd_ok _ _ _ _ He eq_refl) in E.
  - unfold tcp_stream_new, tcp_stream_init in E. rewrite Hs1, bind_ret_l in E. by rewrite (stream_get_fd_ok _ _ _ _ He eq_refl) in E.
Defined.

Lemma tcp_idle_event_aborts_witness :
  stream_handler (call_postable ex_tkq ex_tnet ex_log ex_log 1%nat 2%nat 9%nat ex_other) 0 (u16 EVFILT_READ) 0 (ex_ts (Some 1%nat) [] [] []) = AssertFail.
Proof.
  exact (tcp_idle_event_aborts ex_tkq ex_tnet ex_log ex_log 1%nat 2%nat 9%nat ex_other ex_topen (ex_ts (Some 1%nat) [] [] []) ex_tcp
    (ex_tevent (Some 1%nat)) (ex_tstream (Some 1%nat)) (ex_open _ _ _ _) (conj eq_refl eq_refl) eq_refl (conj eq_refl eq_refl)).
Defined.
