(* ===== verification/TcpListener.v ===== *)
(** * TcpListener: accepting connections on the kqueue loop (src/apps/tcp/tcp_listener.c)

    A TCP listener posts each attempt to accept, listens on its socket at the first, and
    waits for the listener event of the loop when no caller is there. *)

From S2P Require Import Prelude SocketFunctions FunctorList EventTable KqRunloop KqHelpers KqWatchers.
Open Scope Z_scope.

Definition L_STATE_EAGAIN : Z := 22.
Definition L_STATE_READY : Z := 33.
Definition L_STATE_INITIAL : Z := 44.
Definition L_STATE_STOPPED : Z := 55.
Definition L_STATE_ERROR : Z := 66.

Section TcpListener.
(** [KW] is the kernel, [App] the rest of the program, [acb] the accept callbacks. *)
Context {fn arg_t KW App acb address : Type}.

Record TcpListener := mkTcpListener {
  rl_listener_ref : Z;
  accept_cb : option acb;
  accept_cb_arg : option arg_t;
  l_state : Z
}.
Record lworld := mkLWorld { lsn : option TcpListener; l_kern : KW; l_app : App }.
Abbreviation st := (Runloop fn arg_t * lworld)%type.

Variable K : kqueue_sys KW.
Variable N : net KW address.
(** accept: the new socket, and the error number. *)
Variable accept : Z → KW → KW * Z * Z.
Variable call_accept : acb → option arg_t → Z → Z → st → outcome st.
(** The functions given to the loop, and the address of the listener. *)
Variable fn_accept_ready fn_try_accept : fn.
Variable self : arg_t.
(** The bytes of a pointer and of the object. *)
Variable sizeof_ref sizeof_listener : Z.

Definition l_on_kern (w : lworld) (k : KW) : lworld := mkLWorld (lsn w) k (l_app w).
Definition kq_lworld : kqueue_sys lworld := kq_lift K l_kern l_on_kern.
Definition w_lsn (l : option TcpListener) (s : st) : st := (fst s, mkLWorld l (l_kern (snd s)) (l_app (snd s))).
Definition w_lkern (k : KW) (s : st) : st := (fst s, l_on_kern (snd s) k).
Definition the_listener (s : st) : outcome TcpListener := deref (lsn (snd s)).

(** Initialising the [size] bytes at a pointer: stores outside them are undefined. *)
Definition tcp_listener_init (size : Z) (f : Z) (s : st) : outcome st :=
  if size <? sizeof_listener then Ub else
  '(s, p) ← runloop_listener_new f s;
  Ret (w_lsn (Some (mkTcpListener p None None L_STATE_INITIAL)) s).
(** It allocates [sizeof(TcpListenerRef)], the size of a pointer. *)
Definition tcp_listener_new (f : Z) (s : st) : outcome st := tcp_listener_init sizeof_ref f s.
Definition tcp_listener_deinit (s : st) : outcome st := l ← the_listener s; runloop_listener_deinit (rl_listener_ref l) s.
(** The object itself is not freed. *)
Definition tcp_listener_free (s : st) : outcome st := l ← the_listener s; runloop_listener_free kq_lworld (rl_listener_ref l) s.

Definition set_l_state (z : Z) (s : st) : outcome st :=
  l ← the_listener s; Ret (w_lsn (Some (mkTcpListener (rl_listener_ref l) (accept_cb l) (accept_cb_arg l) z)) s).

Definition invoke_accept_callback (new_sock error : Z) (s : st) : outcome st :=
  l ← the_listener s;
  cb ← deref (accept_cb l);
  call_accept cb (accept_cb_arg l) new_sock error (w_lsn (Some (mkTcpListener (rl_listener_ref l) None None (l_state l))) s).

Definition try_accept (s : st) : outcome st :=
  l ← the_listener s;
  fd ← runloop_listener_get_fd (rl_listener_ref l) s;
  let '(k, sock2, errno_saved) := accept fd (l_kern (snd s)) in
  let s := w_lkern k s in
  if 0 <? sock2 then s ← set_l_state L_STATE_READY s; invoke_accept_callback sock2 0 s
  else if sock2 =? 0 then invoke_accept_callback 0 (-33) s
  else if errno_saved =? KQ_EAGAIN then
    s ← set_l_state L_STATE_EAGAIN s;
    runloop_listener_arm kq_lworld (Some fn_accept_ready) (Some self) (rl_listener_ref l) s
  else s ← set_l_state L_STATE_ERROR s; invoke_accept_callback 0 errno_saved s.

Definition tcp_accept (cb : option acb) (a : option arg_t) (s : st) : outcome st :=
  l ← the_listener s;
  c_assert (bool_decide (accept_cb l = None));;
  c_assert (bool_decide (accept_cb_arg l = None));;
  _ ← event_at (rl_listener_ref l) s;
  let s := w_lsn (Some (mkTcpListener (rl_listener_ref l) cb a (l_state l))) s in
  let z := l_state l in
  s ← (if (z =? L_STATE_INITIAL) || (z =? L_STATE_READY) || (z =? L_STATE_EAGAIN) then Ret s
       else if (z =? L_STATE_STOPPED) || (z =? L_STATE_ERROR) then invoke_accept_callback 0 (-33) s
       else AssertFail);
  runloop_post (Some fn_try_accept) (Some self) s.

Definition postable_try_accept (s : st) : outcome st :=
  l ← the_listener s;
  s ← runloop_listener_register kq_lworld (Some fn_accept_ready) (Some self) (rl_listener_ref l) s;
  fd ← runloop_listener_get_fd (rl_listener_ref l) s;
  let z := l_state l in
  if z =? L_STATE_INITIAL then
    let '(k, result) := listen N fd SOMAXCONN (l_kern (snd s)) in
    let s := w_lkern k s in
    c_assert (result =? 0);;
    s ← set_l_state L_STATE_READY s;
    try_accept s
  else if z =? L_STATE_READY then try_accept s
  else if (z =? L_STATE_EAGAIN) || (z =? L_STATE_STOPPED) || (z =? L_STATE_ERROR) then Ret s
  else AssertFail.

Definition on_accept_ready (s : st) : outcome st :=
  l ← the_listener s;
  let z := l_state l in
  if (z =? L_STATE_EAGAIN) || (z =? L_STATE_READY) then
    s ← (if z =? L_STATE_EAGAIN then set_l_state L_STATE_READY s else Ret s);
    l ← the_listener s;
    match accept_cb l with Some _ => try_accept s | None => Ret s end
  else AssertFail.

(** What the loop calls; other functions belong to the rest of the program. *)
Variable other_call : fn → option arg_t → st → outcome st.
Definition l_postable `{EqDecision fn, EqDecision arg_t} (g : fn) (a : option arg_t) (s : st) : outcome st :=
  if decide (g = fn_accept_ready) then on_self self on_accept_ready a s
  else if decide (g = fn_try_accept) then on_self self postable_try_accept a s
  else other_call g a s.

(** ** Specification *)

Context `{EqDecision fn, EqDecision arg_t}.
Context (notes : KW → Z → gmap (Z * Z) note) (fd_open : KW → Z → bool) (HL : kqueue_laws K notes fd_open).

(** What the calls of accept on a socket will find. *)
Inductive caller := NoCaller | Caller (sock : Z) | CallError (errno : Z).
Context (callers : KW → Z → list caller) (bound listening : KW → Z → bool).

Definition accept_gives (c : caller) (r er : Z) : Prop :=
  match c with
  | NoCaller => r = -1 ∧ er = KQ_EAGAIN
  | Caller sock => r = sock
  | CallError e => r = -1 ∧ er = e
  end.

(** Queues and sockets leave each other alone; a bound socket can listen, and then accept. *)
Definition same_notes (k k' : KW) : Prop := (∀ q, notes k' q = notes k q) ∧ ∀ d, fd_open k' d = fd_open k d.
Record accept_laws : Prop := {
  al_listen : ∀ f n k, bound k f = true →
    ∃ k', listen N f n k = (k', 0) ∧ listening k' f = true ∧ callers k' f = callers k f ∧ same_notes k k';
  al_accept : ∀ f k c rest, listening k f = true → callers k f = c :: rest →
    ∃ k' r er, accept f k = (k', r, er) ∧ accept_gives c r er ∧ callers k' f = rest ∧ listening k' f = true ∧ same_notes k k';
  al_queue : ∀ q cs k f, let k' := fst (kevent K q cs 0 None k) in
    callers k' f = callers k f ∧ bound k' f = bound k f ∧ listening k' f = listening k f ∧ fd_open k' f = fd_open k f
}.
Context (HA : accept_laws).

(** The calls of the kernel that a listener makes on the listening socket [f] while no
    caller is there. *)
Inductive accept_step (f : Z) : KW → KW → Prop :=
| step_accept rest k : listening k f = true → callers k f = NoCaller :: rest → accept_step f k (fst (fst (accept f k)))
| step_listen n k : bound k f = true → accept_step f k (fst (listen N f n k))
| step_lqueue q cs k : accept_step f k (fst (kevent K q cs 0 None k)).

Definition lnotes (w : lworld) : Z → gmap (Z * Z) note := notes (l_kern w).
Definition lopen (w : lworld) : Z → bool := fd_open (l_kern w).
Abbreviation watching := (watching lnotes).

(** A listener [l] with the listener event [e], [x] of the loop. *)
Record open_listener (s : st) (l : TcpListener) (e : RunloopEvent fn arg_t) (x : listener_t fn arg_t) : Prop := {
  ol_lsn : lsn (snd s) = Some l;
  ol_live : live (rl_listener_ref l) e s;
  ol_var : var e = V_listener x;
  ol_open : lopen (snd s) (u64 (l_fd x)) = true
}.

(** The events of the listener, [k] of them. *)
Fixpoint accept_events (k : nat) (p : Z) (s : st) : outcome st :=
  match k with
  | O => Ret s
  | S k => s ← listener_handler l_postable p (u16 EVFILT_READ) 0 s; accept_events k p s
  end.

(** ** Lemmas *)

Lemma l_lift_laws : kqueue_laws kq_lworld lnotes lopen.
Proof using HL. by apply (kq_lift_laws K l_kern l_on_kern). Qed.

(** Changes of the listener and of the sockets. *)
Lemma open_listener_with s l l' e x w' :
  open_listener s l e x → lsn w' = Some l' → rl_listener_ref l' = rl_listener_ref l →
  (∀ d, fd_open (l_kern w') d = fd_open (l_kern (snd s)) d) → open_listener (fst s, w') l' e x.
Proof. intros [] Hl Hr Ho. constructor; cbn; rewrite ?Hr; try done. unfold lopen in *. by rewrite Ho. Qed.

(** The listener's event once it waits. *)
Definition waiting_listener (x : listener_t fn arg_t) : listener_t fn arg_t :=
  mkListener (l_fd x) (Some fn_accept_ready) (Some self).
Definition waiting_event (h : option first_level) (x : listener_t fn arg_t) : RunloopEvent fn arg_t :=
  mkEvent true h (V_listener (waiting_listener x)).

(** Registering or arming the listener event changes what the kernel watches, and
    nothing else of the kernel or the world. *)
Lemma listener_waits s l e x h (op : outcome st) :
  open_listener s l e x →
  op = (s1 ← put_listener h (Some fn_accept_ready) (Some self) (rl_listener_ref l) e s;
        expect_zero (kqh_listener_register kq_lworld (rl_listener_ref l) s1)) →
  ∃ s', op = Ret s' ∧ open_listener s' l (waiting_event h x) (waiting_listener x) ∧
    watching s' = <[on_read (l_fd x) := armed_note (rl_listener_ref l) true]> (watching s) ∧
    loop_upto (rl_listener_ref l) (fst s) (fst s') ∧ l_app (snd s') = l_app (snd s) ∧
    accept_step (l_fd x) (l_kern (snd s)) (l_kern (snd s')) ∧
    ∀ f, callers (l_kern (snd s')) f = callers (l_kern (snd s)) f ∧ bound (l_kern (snd s')) f = bound (l_kern (snd s)) f ∧
         listening (l_kern (snd s')) f = listening (l_kern (snd s)) f.
Proof using HA HL.
  intros [Ht Hl Hv Hop] ->.
  destruct (listener_arm_ok kq_lworld lnotes lopen l_lift_laws (rl_listener_ref l) e x h fn_accept_ready self s Hl Hv Hop)
    as (s2 & Hs2 & Hl2 & Hw2 & Hr2 & q & cs & Hk2).
  exists s2. split; [exact Hs2|]. apply listener_register_upto in Hs2.
  assert (∃ k2, snd s2 = l_on_kern (snd s) k2 ∧ accept_step (l_fd x) (l_kern (snd s)) k2 ∧ ∀ f, callers k2 f = callers (l_kern (snd s)) f ∧ bound k2 f = bound (l_kern (snd s)) f ∧
    listening k2 f = listening (l_kern (snd s)) f ∧ fd_open k2 f = fd_open (l_kern (snd s)) f) as (k2 & Hs & Hst & Hk).
  { rewrite Hk2. unfold kq_lworld, kq_lift. cbn [kevent]. pose proof (al_queue HA q cs (l_kern (snd s))) as H1.
    pose proof (step_lqueue (l_fd x) q cs (l_kern (snd s))) as H2.
    destruct (kevent K q cs 0 None (l_kern (snd s))) as [k2 r2]. by exists k2. }
  rewrite Hs. cbn. split_and!; try done.
  - constructor; cbn; rewrite ?Hs; try done. unfold lopen in *. cbn. by destruct (Hk (u64 (l_fd x))) as (_ & _ & _ & ->).
  - intros f. by destruct (Hk f) as (? & ? & ? & _).
Qed.

Definition with_l_state (z : Z) (l : TcpListener) : TcpListener := mkTcpListener (rl_listener_ref l) (accept_cb l) (accept_cb_arg l) z.
Lemma the_listener_ok s l : lsn (snd s) = Some l → the_listener s = Ret l.
Proof. unfold the_listener. by intros ->. Qed.
Lemma set_l_state_ok s l z : lsn (snd s) = Some l → set_l_state z s = Ret (w_lsn (Some (with_l_state z l)) s).
Proof. intros Hl. unfold set_l_state. by rewrite (the_listener_ok s l Hl), bind_ret_l. Qed.

Lemma invoke_accept_ok s l cb a sock er :
  lsn (snd s) = Some l → accept_cb l = Some cb → accept_cb_arg l = a →
  invoke_accept_callback sock er s = call_accept cb a sock er (w_lsn (Some (mkTcpListener (rl_listener_ref l) None None (l_state l))) s).
Proof.
  intros Hl Hc <-. unfold invoke_accept_callback. rewrite (the_listener_ok s l Hl), bind_ret_l, Hc. cbn [deref].
  by rewrite bind_ret_l.
Qed.

(** An accept in progress on a socket that listens. *)
Record accepting (s : st) (l : TcpListener) (e : RunloopEvent fn arg_t) (x : listener_t fn arg_t) (cb : acb) (a : option arg_t) : Prop := {
  ac_open : open_listener s l e x;
  ac_cb : accept_cb l = Some cb;
  ac_arg : accept_cb_arg l = a;
  ac_listening : listening (l_kern (snd s)) (l_fd x) = true
}.

(** What a caller means for the callback and for the listener. *)
Definition answers (c : caller) : Prop :=
  match c with NoCaller => False | Caller sock => 0 < sock | CallError e => e ≠ KQ_EAGAIN end.
Definition accept_sock (c : caller) : Z := match c with Caller sock => sock | _ => 0 end.
Definition accept_error (c : caller) : Z := match c with CallError e => e | _ => 0 end.
Definition end_state (c : caller) : Z := match c with Caller _ => L_STATE_READY | _ => L_STATE_ERROR end.

(** [s'] is [s] with the accept over. *)
Record accept_over (s s' : st) (l : TcpListener) (e : RunloopEvent fn arg_t) (x : listener_t fn arg_t) (c : caller) (rest : list caller) : Prop := {
  ao_open : open_listener s' (mkTcpListener (rl_listener_ref l) None None (end_state c)) e x;
  ao_app : l_app (snd s') = l_app (snd s);
  ao_callers : callers (l_kern (snd s')) (l_fd x) = rest;
  ao_listening : listening (l_kern (snd s')) (l_fd x) = true;
  ao_ready : ready_list (fst s') = ready_list (fst s);
  ao_notes : watching s' = watching s;
  ao_pool : pool_kept s s'
}.

Lemma try_accept_ends s l e x cb a c rest :
  accepting s l e x cb a → l_state l = L_STATE_READY → callers (l_kern (snd s)) (l_fd x) = c :: rest → answers c →
  ∃ s', try_accept s = call_accept cb a (accept_sock c) (accept_error c) s' ∧ accept_over s s' l e x c rest.
Proof using HA.
  intros [Hop Hc Ha Hli] Hz Hcs Hans. pose proof Hop as [Ht [He _] Hv _].
  destruct (al_accept HA _ _ _ _ Hli Hcs) as (k & r & er & Hacc & Hg & Hrest & Hli' & Hn & Ho).
  unfold try_accept. rewrite (the_listener_ok s l Ht), bind_ret_l.
  rewrite (listener_get_fd_ok _ e x s He Hv), bind_ret_l, Hacc.
  assert (accept_over s (fst s, mkLWorld (Some (mkTcpListener (rl_listener_ref l) None None (end_state c))) k (l_app (snd s))) l e x c rest) as Hov.
  { constructor; try done; [by apply (open_listener_with s l)|apply Hn|by intros ?]. }
  destruct c as [|sock|er0]; cbn [answers accept_gives] in *; [done|subst r|destruct Hg as [-> ->]].
  - rewrite (proj2 (Z.ltb_lt _ _)) by done. erewrite (set_l_state_ok (w_lkern k s)) by done. rewrite bind_ret_l.
    erewrite (invoke_accept_ok _ (with_l_state L_STATE_READY l)) by done. eexists. split; [done|]. exact Hov.
  - change (0 <? -1) with false. change (-1 =? 0) with false. cbn iota. rewrite (proj2 (Z.eqb_neq _ _)) by done.
    erewrite (set_l_state_ok (w_lkern k s)) by done. rewrite bind_ret_l.
    erewrite (invoke_accept_ok _ (with_l_state L_STATE_ERROR l)) by done. eexists. split; [done|]. exact Hov.
Qed.

Lemma try_accept_waits s l e x cb a rest :
  accepting s l e x cb a → callers (l_kern (snd s)) (l_fd x) = NoCaller :: rest →
  ∃ s', try_accept s = Ret s' ∧
    accepting s' (with_l_state L_STATE_EAGAIN l) (waiting_event (handler e) x) (waiting_listener x) cb a ∧
    callers (l_kern (snd s')) (l_fd x) = rest ∧ l_app (snd s') = l_app (snd s) ∧ loop_upto (rl_listener_ref l) (fst s) (fst s') ∧
    watching s' = <[on_read (l_fd x) := armed_note (rl_listener_ref l) true]> (watching s) ∧
    rtc (accept_step (l_fd x)) (l_kern (snd s)) (l_kern (snd s')).
Proof using HA HL.
  intros [Hop Hc Ha Hli] Hcs. pose proof Hop as [Ht [He _] Hv _]. pose proof (step_accept _ _ _ Hli Hcs) as Hst1.
  destruct (al_accept HA _ _ _ _ Hli Hcs) as (k & r & er & Hacc & [-> ->] & Hrest & Hli' & Hn & Ho). rewrite Hacc in Hst1.
  unfold try_accept. rewrite (the_listener_ok s l Ht), bind_ret_l.
  rewrite (listener_get_fd_ok _ e x s He Hv), bind_ret_l, Hacc.
  change (0 <? -1) with false. change (-1 =? 0) with false. change (KQ_EAGAIN =? KQ_EAGAIN) with true. cbn iota.
  erewrite (set_l_state_ok (w_lkern k s)) by done. rewrite bind_ret_l.
  set (s1 := w_lsn (Some (with_l_state L_STATE_EAGAIN l)) (w_lkern k s)).
  assert (open_listener s1 (with_l_state L_STATE_EAGAIN l) e x) as Hop1 by (by apply (open_listener_with s l)).
  destruct (listener_waits s1 _ e x (handler e) (runloop_listener_arm kq_lworld (Some fn_accept_ready) (Some self) (rl_listener_ref l) s1) Hop1)
    as (s2 & -> & Hop2 & Hw & Hr & Hap & Hst2 & Hk).
  { unfold runloop_listener_arm. assert (event_at (rl_listener_ref l) s1 = Ret e) as He1 by exact He. by rewrite (listener_at_ok _ e x s1 He1 Hv), bind_ret_l. }
  destruct (Hk (l_fd x)) as (Hk1 & _ & Hk3). exists s2. split_and!; try done.
  - constructor; try done. cbn. by rewrite Hk3.
  - by rewrite Hk1.
  - rewrite Hw. f_equal. apply Hn.
  - eapply rtc_l; [exact Hst1|by apply rtc_once].
Qed.

Lemma event_accepts s l e x cb a :
  accepting s l e x cb a → l_state l = L_STATE_EAGAIN → listen_postable x = Some fn_accept_ready ∧ listen_postable_arg x = Some self →
  listener_handler l_postable (rl_listener_ref l) (u16 EVFILT_READ) 0 s = try_accept (w_lsn (Some (with_l_state L_STATE_READY l)) s).
Proof.
  intros [[Ht [He _] Hv _] Hc _ _] Hz [Hx Hxa]. unfold listener_handler. rewrite (listener_at_ok _ e x s He Hv), bind_ret_l, (listener_field_ok _ e x s Hv), Hx, Hxa. cbn [call_if].
  unfold l_postable. rewrite decide_True, on_self_eq by done. unfold on_accept_ready. rewrite (the_listener_ok s l Ht), bind_ret_l, Hz.
  change (L_STATE_EAGAIN =? L_STATE_EAGAIN) with true. cbn [orb]. rewrite (set_l_state_ok s l) by done. rewrite bind_ret_l.
  erewrite the_listener_ok by done. rewrite bind_ret_l. cbn [with_l_state accept_cb]. by rewrite Hc.
Qed.

Lemma accepting_retry s l e x cb a z :
  accepting s l e x cb a → accepting (w_lsn (Some (with_l_state z l)) s) (with_l_state z l) e x cb a.
Proof. intros [Ho Hc Ha Hl]. constructor; try done. destruct s as [rl w]. by apply (open_listener_with (rl, w) l). Qed.

(** The listener's own note, for this listener. *)
Definition listens (l : TcpListener) (x : listener_t fn arg_t) (s : st) : Prop :=
  watching s !! on_read (l_fd x) = Some (armed_note (rl_listener_ref l) true).

(** The events of a waiting accept. *)
Lemma accept_retries n : ∀ s l x cb a c rest,
  accepting s l (waiting_event (Some H_listener) x) (waiting_listener x) cb a → l_state l = L_STATE_EAGAIN → listens l x s →
  callers (l_kern (snd s)) (l_fd x) = replicate n NoCaller ++ c :: rest → answers c →
  ∃ s', accept_events (S n) (rl_listener_ref l) s = call_accept cb a (accept_sock c) (accept_error c) s' ∧
    accept_over s s' l (waiting_event (Some H_listener) x) (waiting_listener x) c rest.
Proof using HA HL.
  induction n as [|n IH]; intros s l x cb a c rest Hac Hz Hw Hcs Hans; cbn [accept_events];
    rewrite (event_accepts _ _ _ _ _ _ Hac Hz) by done; pose proof (accepting_retry _ _ _ _ _ _ L_STATE_READY Hac) as Hac'.
  - destruct (try_accept_ends _ _ _ _ _ _ c rest Hac' eq_refl Hcs Hans) as (s' & -> & [? ? ? ? ? ? ?]).
    exists s'. split; [apply bind_ret_r|]. by constructor.
  - destruct (try_accept_waits _ _ _ _ _ _ _ Hac' Hcs) as (s1 & -> & Hac1 & Hcs1 & Ha1 & [Hr1 _ _ _ Hpk1] & Hw1 & _). rewrite bind_ret_l.
    assert (watching s1 = watching s) as Hws by (rewrite Hw1; by apply insert_id).
    destruct (IH s1 _ x cb a c rest Hac1 eq_refl) as (s' & He & Hov); [unfold listens; by rewrite Hws|done|done|].
    exists s'. split; [exact He|]. destruct Hov as [? Happ ? ? Hr Hn Hpk]. constructor; try done.
    + by rewrite Happ.
    + by rewrite Hr.
    + by rewrite Hn.
    + by apply (pool_kept_trans s s1 s').
Qed.

(** The posted attempt: the listener event is registered, and the socket listens. *)
Lemma posted_accept s l e x cb a :
  open_listener s l e x → accept_cb l = Some cb → accept_cb_arg l = a →
  (l_state l = L_STATE_INITIAL ∧ bound (l_kern (snd s)) (l_fd x) = true ∨
   l_state l = L_STATE_READY ∧ listening (l_kern (snd s)) (l_fd x) = true) →
  ∃ s', postable_try_accept s = try_accept s' ∧
    accepting s' (with_l_state L_STATE_READY l) (waiting_event (Some H_listener) x) (waiting_listener x) cb a ∧
    callers (l_kern (snd s')) (l_fd x) = callers (l_kern (snd s)) (l_fd x) ∧ l_app (snd s') = l_app (snd s) ∧
    loop_upto (rl_listener_ref l) (fst s) (fst s') ∧
    watching s' = <[on_read (l_fd x) := armed_note (rl_listener_ref l) true]> (watching s) ∧
    rtc (accept_step (l_fd x)) (l_kern (snd s)) (l_kern (snd s')).
Proof using HA HL.
  intros Hop Hc Ha Hz. pose proof Hop as [Ht [He _] Hv _].
  unfold postable_try_accept. rewrite (the_listener_ok s l Ht), bind_ret_l.
  destruct (listener_waits s l e x (Some H_listener)
    (runloop_listener_register kq_lworld (Some fn_accept_ready) (Some self) (rl_listener_ref l) s) Hop)
    as (s1 & -> & Hop1 & Hw & Hr & Hap & Hst1 & Hk).
  { unfold runloop_listener_register. by rewrite (listener_at_ok _ e x s He Hv), bind_ret_l. }
  rewrite bind_ret_l. pose proof Hop1 as [Ht1 [He1 _] Hv1 _]. rewrite (listener_get_fd_ok _ _ _ s1 He1 Hv1), bind_ret_l. cbn [waiting_listener l_fd].
  destruct (Hk (l_fd x)) as (Hk1 & Hk2 & Hk3). destruct Hz as [[-> Hb]|[Hz Hl]].
  - change (L_STATE_INITIAL =? L_STATE_INITIAL) with true. cbn iota. rewrite <- Hk2 in Hb. pose proof (step_listen _ SOMAXCONN _ Hb) as Hst2.
    destruct (al_listen HA _ SOMAXCONN _ Hb) as (k & Hlk & Hli & Hcs & Hn & Ho). rewrite Hlk in *. cbn [Z.eqb c_assert]. rewrite bind_ret_l.
    erewrite (set_l_state_ok (w_lkern k s1)) by done. rewrite bind_ret_l. eexists. split; [done|]. cbn. split_and!; try done.
    + constructor; try done. by apply (open_listener_with s1 l).
    + by rewrite Hcs.
    + rewrite <- Hw. apply Hn.
    + eapply rtc_l; [exact Hst1|by apply rtc_once].
  - rewrite Hz. change (L_STATE_READY =? L_STATE_INITIAL) with false. change (L_STATE_READY =? L_STATE_READY) with true. cbn iota.
    exists s1. assert (with_l_state L_STATE_READY l = l) as Hl1 by (destruct l; cbn in Hz; by subst).
    split_and!; try done; [|by apply rtc_once]. rewrite Hl1. constructor; try done. cbn [waiting_listener l_fd]. by rewrite Hk3.
Qed.

Lemma tcp_accept_ok n s l e x cb a c rest :
  fn_accept_ready ≠ fn_try_accept → open_listener s l e x → accept_cb l = None → accept_cb_arg l = None →
  (l_state l = L_STATE_INITIAL ∧ bound (l_kern (snd s)) (l_fd x) = true ∨
   l_state l = L_STATE_READY ∧ listening (l_kern (snd s)) (l_fd x) = true) →
  fl_rep (ready_list (fst s)) [] → 1 < capacity (ready_list (fst s)) →
  callers (l_kern (snd s)) (l_fd x) = replicate n NoCaller ++ c :: rest → answers c →
  ∃ s', (s1 ← tcp_accept (Some cb) a s; s2 ← run_posted l_postable 1 s1; accept_events n (rl_listener_ref l) s2) =
      call_accept cb a (accept_sock c) (accept_error c) s' ∧
    open_listener s' (mkTcpListener (rl_listener_ref l) None None (end_state c)) (waiting_event (Some H_listener) x) (waiting_listener x) ∧
    callers (l_kern (snd s')) (l_fd x) = rest ∧ listening (l_kern (snd s')) (l_fd x) = true ∧
    l_app (snd s') = l_app (snd s) ∧ fl_rep (ready_list (fst s')) [] ∧
    watching s' = <[on_read (l_fd x) := armed_note (rl_listener_ref l) true]> (watching s) ∧
    pool_kept s s' ∧ capacity (ready_list (fst s')) = capacity (ready_list (fst s)).
Proof using HA HL.
  intros Hne Hop Hc Ha Hz Hr Hcap Hcs Hans. pose proof Hop as [Ht [He _] Hv _].
  unfold tcp_accept. rewrite (the_listener_ok s l Ht), bind_ret_l, Hc, Ha, !bool_decide_true by done.
  cbn [c_assert]. rewrite !bind_ret_l, He, bind_ret_l.
  set (l1 := mkTcpListener (rl_listener_ref l) (Some cb) a (l_state l)).
  rewrite (proj2 (orb_true_iff _ _)) by (left; apply orb_true_iff; destruct Hz as [[-> _]|[-> _]]; auto). rewrite bind_ret_l.
  destruct (post_then_run fn_try_accept self (w_lsn (Some l1) s) Hr Hcap) as (q & q' & -> & Hq & Hr2 & Hcq).
  rewrite bind_ret_l. cbn [run_posted fst snd]. change (ready_list (set_ready ?rl q)) with q. rewrite Hq, bind_ret_l. cbn [f arg deref].
  rewrite bind_ret_l. unfold l_postable at 1. rewrite decide_False, decide_True, on_self_eq by done.
  change (set_ready (set_ready (fst (w_lsn (Some l1) s)) q) q') with (set_ready (fst s) q').
  set (s1 := (set_ready (fst s) q', snd (w_lsn (Some l1) s))).
  assert (open_listener s1 l1 e x) as Hop1 by (by destruct Hop; constructor).
  destruct (posted_accept s1 l1 e x cb a Hop1 eq_refl eq_refl Hz) as (s2 & -> & Hac & Hcs2 & Hap2 & [Hr3 _ _ _ Hpk2] & Hw2 & _).
  assert (pool_kept s s2) as Hpk by exact Hpk2. clear Hpk2.
  rewrite bind_ret_r. destruct n as [|n]; cbn [replicate app] in Hcs.
  - destruct (try_accept_ends _ _ _ _ _ _ c rest Hac eq_refl) as (s' & -> & Hov); [exact (eq_trans Hcs2 Hcs)|done|].
    exists s'. split; [apply bind_ret_r|]. destruct Hov as [Ho Happ Hk Hli Hrl Hw Hpo].
    split_and!; [exact Ho|done|done|by rewrite Happ, Hap2|by rewrite Hrl, Hr3|by rewrite Hw, Hw2|by apply (pool_kept_trans s s2)|rewrite Hrl, Hr3; exact Hcq].
  - destruct (try_accept_waits _ _ _ _ _ _ (replicate n NoCaller ++ c :: rest) Hac) as (s3 & -> & Hac3 & Hcs3 & Hap3 & [Hr4 _ _ _ Hpk3] & Hw3 & _);
      [exact (eq_trans Hcs2 Hcs)|]. rewrite bind_ret_l.
    destruct (accept_retries n s3 _ x cb a c rest Hac3 eq_refl) as (s' & He' & Hov); [|exact Hcs3|done|].
    { unfold listens. rewrite Hw3. by rewrite lookup_insert_eq. }
    exists s'. split; [exact He'|]. destruct Hov as [Ho Happ Hk Hli Hrl Hw Hpo].
    split_and!; [exact Ho|done|done|by rewrite Happ, Hap3, Hap2|by rewrite Hrl, Hr4, Hr3| | |rewrite Hrl, Hr4, Hr3; exact Hcq].
    + rewrite Hw, Hw3, Hw2. by apply insert_insert_eq.
    + apply (pool_kept_trans s s2); [done|]. by apply (pool_kept_trans s2 s3).
Qed.

(** ** Properties *)

(** C19: An asynchronous accept delivers: on a listener with no accept in progress, whose
    socket is bound and not yet used, or already listens, an accept runs from the loop: a
    posted attempt makes the socket listen if it does not, and the callback is called
    exactly once, with its argument and the first caller's socket, or with the error
    number of accept: by that attempt when a caller is there, and after the [n]-th event
    when the socket is first found with no caller [n] times. By then the accept is over,
    the listener event watches the socket for this listener, and nothing else of the loop
    or the program has changed. *)
Theorem tcp_accept_delivers n s l e x cb a c rest :
  fn_accept_ready ≠ fn_try_accept → open_listener s l e x → accept_cb l = None → accept_cb_arg l = None →
  (l_state l = L_STATE_INITIAL ∧ bound (l_kern (snd s)) (l_fd x) = true ∨
   l_state l = L_STATE_READY ∧ listening (l_kern (snd s)) (l_fd x) = true) →
  fl_rep (ready_list (fst s)) [] → 1 < capacity (ready_list (fst s)) →
  callers (l_kern (snd s)) (l_fd x) = replicate n NoCaller ++ c :: rest → answers c →
  ∃ s', (s1 ← tcp_accept (Some cb) a s; s2 ← run_posted l_postable 1 s1; accept_events n (rl_listener_ref l) s2) =
      call_accept cb a (accept_sock c) (accept_error c) s' ∧
    open_listener s' (mkTcpListener (rl_listener_ref l) None None (end_state c)) (waiting_event (Some H_listener) x) (waiting_listener x) ∧
    callers (l_kern (snd s')) (l_fd x) = rest ∧ listening (l_kern (snd s')) (l_fd x) = true ∧
    l_app (snd s') = l_app (snd s) ∧ fl_rep (ready_list (fst s')) [] ∧
    watching s' = <[on_read (l_fd x) := armed_note (rl_listener_ref l) true]> (watching s).
Proof using HA HL.
  intros Hne Hop Hc Ha Hz Hr Hcap Hcs Hans.
  destruct (tcp_accept_ok n s l e x cb a c rest Hne Hop Hc Ha Hz Hr Hcap Hcs Hans) as (s' & H1 & H2 & H3 & H4 & H5 & H6 & H7 & _).
  by exists s'.
Qed.

(** The constructor of listeners writes past its block: it allocates the size of a
    pointer, which is less than a listener, and initialises a listener there. *)
Theorem tcp_listener_new_overflows f s : sizeof_ref < sizeof_listener → tcp_listener_new f s = Ub.
Proof. intros H. unfold tcp_listener_new, tcp_listener_init. by rewrite (proj2 (Z.ltb_lt _ _)). Qed.
End TcpListener.

(** ** Witnesses: a kernel that follows its script *)

Record ex_lk := mkLk { lk_notes : gmap (Z * Z) note; lk_callers : list caller; lk_listening : bool }.

Definition ex_lkq : kqueue_sys ex_lk := mkKq
  (λ w, (w, 3)) (λ _ cs _ _ w, (mkLk (apply_changes cs (lk_notes w)) (lk_callers w) (lk_listening w), KEvents [])) (λ _ w, (w, 0)).
Definition ex_lnet : net ex_lk unit := mkNet _ _
  (fun _ _ _ w => (w, 5)) (fun _ _ _ _ w => (w, 0)) (fun _ => ()) (fun _ _ => None)
  (fun _ _ _ _ w => (w, 0)) (fun _ _ w => (mkLk (lk_notes w) (lk_callers w) true, 0)) (fun _ _ _ _ w => (w, 0))
  (fun _ _ => 0) (fun _ _ w => (w, 0)) (fun _ _ w => (w, 0))
  (fun _ _ w => (w, 0, 0, [])) (fun _ _ w => (w, 0, 0)) (fun _ w => (w, 0)).
Definition ex_accept (f : Z) (w : ex_lk) : ex_lk * Z * Z :=
  match lk_callers w with
  | [] => (w, -1, KQ_EAGAIN)
  | c :: rest =>
      let w := mkLk (lk_notes w) rest (lk_listening w) in
      match c with NoCaller => (w, -1, KQ_EAGAIN) | Caller sock => (w, sock, 0) | CallError e => (w, -1, e) end
  end.

Definition ex_lnotes (w : ex_lk) (kq : Z) : gmap (Z * Z) note := lk_notes w.
Definition ex_lopen (w : ex_lk) (fd : Z) : bool := true.

Lemma ex_llaws : kqueue_laws ex_lkq ex_lnotes ex_lopen.
Proof. constructor. by intros. Qed.

Lemma ex_accept_laws :
  accept_laws ex_lkq ex_lnet ex_accept ex_lnotes ex_lopen (λ w _, lk_callers w) (λ _ _, true) (λ w _, lk_listening w).
Proof.
  constructor; try done; cbn.
  - intros f n k _. by eexists.
  - intros f k c rest Hl Hc. unfold ex_accept. rewrite Hc. destruct c; by repeat eexists.
Qed.

Abbreviation ex_lst := (Runloop nat nat * lworld (arg_t := nat) (KW := ex_lk) (App := list (nat * option nat * Z * Z)) (acb := nat))%type.
Definition ex_llog (cb : nat) (a : option nat) (sock er : Z) (s : ex_lst) : outcome ex_lst :=
  Ret (fst s, mkLWorld (lsn (snd s)) (l_kern (snd s)) (l_app (snd s) ++ [(cb, a, sock, er)])).
Definition ex_lother (g : nat) (a : option nat) (s : ex_lst) : outcome ex_lst := Ub.

Definition ex_listener : TcpListener (arg_t := nat) (acb := nat) := mkTcpListener 0 None None L_STATE_INITIAL.
Definition ex_lstream : listener_t nat nat := mkListener 5 None None.
Definition ex_levent : RunloopEvent nat nat := mkEvent true (Some H_listener) (V_listener ex_lstream).
(** A caller that comes after one event. *)
Definition ex_lstart : ex_lst :=
  (mkRunloop 3 false false (mkTable (mkFree 2047 2048 2049 1 0 []) [mkSlab (Some ex_levent) (Some 0)]) [] (mkFL 8 0 0 (replicate 9 None)),
   mkLWorld (Some ex_listener) (mkLk ∅ [NoCaller; Caller 7] false) []).
Definition ex_accept_run : outcome ex_lst :=
  s1 ← tcp_accept ex_llog 2%nat 9%nat (Some 30%nat) (Some 31%nat) ex_lstart;
  s2 ← run_posted (l_postable ex_lkq ex_lnet ex_accept ex_llog 1%nat 2%nat 9%nat ex_lother) 1 s1;
  accept_events ex_lkq ex_lnet ex_accept ex_llog 1%nat 2%nat 9%nat ex_lother 1 0 s2.

Example ex_accept_run_logs : (s ← ex_accept_run; Ret (l_app (snd s))) = Ret [(30%nat, Some 31%nat, 7, 0)].
Proof. vm_compute. reflexivity. Qed.

Lemma ex_lopened : open_listener ex_lopen ex_lstart ex_listener ex_levent ex_lstream.
Proof. by repeat constructor. Qed.

Lemma ex_lready : fl_rep (ready_list (fst ex_lstart)) [].
Proof. constructor; cbn; try done; unfold runloop_READY_LIST_MAX; lia. Qed.

Lemma tcp_accept_delivers_witness :
  ∃ s', ex_accept_run = ex_llog 30%nat (Some 31%nat) 7 0 s' ∧ lk_listening (l_kern (snd s')) = true ∧
    watching (lnotes ex_lnotes) s' = <[on_read 5 := armed_note 0 true]> ∅.
Proof.
  destruct (tcp_accept_delivers ex_lkq ex_lnet ex_accept ex_llog 1%nat 2%nat 9%nat ex_lother ex_lnotes ex_lopen ex_llaws _ _ _ ex_accept_laws 1
    ex_lstart ex_listener ex_levent ex_lstream 30%nat (Some 31%nat) (Caller 7) [] ltac:(discriminate) ex_lopened eq_refl eq_refl
    (or_introl (conj eq_refl eq_refl)) ex_lready eq_refl eq_refl eq_refl) as (s' & He & _ & _ & Hl & _ & _ & Hw).
  exists s'. split; [exact He|]. split; [exact Hl|exact Hw].
Defined.

Lemma tcp_listener_new_overflows_witness : tcp_listener_new (fn := nat) 8 56 5 ex_lstart = Ub.
Proof. exact (tcp_listener_new_overflows 8 56 5 ex_lstart eq_refl). Defined.
