(* ===== verification/AsyncMsgStream.v ===== *)
(** * AsyncMsgStream: messages over a TCP stream of the kqueue loop
    (src/apps/async_msg_stream/msg_stream.c, msg_reader.c, msg_writer.c)

    The server's side of the message formats: one read and one write at a time, each with
    a callback. A read that ends without a message posts the next read of the socket.
    Proved against the interface of [MsgFormat], whatever the format. *)

From S2P Require Import Prelude Cbuffer IOBuffer DemoMsg MsgFormat SocketFunctions FunctorList EventTable KqRunloop KqHelpers KqWatchers TcpStream.
Open Scope Z_scope.

Section AsyncMsgStream.
(** [M] and [P] are the messages and parsers of the format, [mrcb] and [mwcb] the callbacks
    of the program, [App] the rest of it. *)
Context {M P S : Type} `{!MsgOps M P}.
Context {fn arg_t KW App mrcb mwcb address : Type} `{EqDecision fn, EqDecision arg_t}.

(** [tcp_stream_ref] is the stream of the world. *)
Record MsgStream := mkMsgStream {
  msg_parser_ref : P;
  m_read_cb_arg : option arg_t;
  m_read_cb : option mrcb;
  m_input_buffer : option nat;
  input_message_list : list M;
  m_output_buffer : option nat;
  m_write_cb : option mwcb;
  m_write_cb_arg : option arg_t
}.
Record mapp := mkMApp { msgs : option MsgStream; m_app : App }.
(** The callbacks given to the TCP stream are the two functions below. *)
Abbreviation world := (world (arg_t := arg_t) (KW := KW) (App := mapp) (rcb := unit) (wcb := unit)).
Abbreviation st := (Runloop fn arg_t * world)%type.
Abbreviation tcp_stream := (TcpStream (arg_t := arg_t) (rcb := unit) (wcb := unit)).

Variable K : kqueue_sys KW.
Variable N : net KW address.
Variable call_msg_read : mrcb → option arg_t → option M → Z → st → outcome st.
Variable call_msg_write : mwcb → option arg_t → Z → st → outcome st.
(** The functions given to the loop, and the addresses of the TCP stream and of this one. *)
Variable fn_read_ready fn_try_write fn_postable_read : fn.
Variable tcp_self self : arg_t.

Definition w_app (a : mapp) (s : st) : st := (fst s, mkWorld (tcp (snd s)) (iobs (snd s)) (kern (snd s)) a).
Definition the_msg (s : st) : outcome MsgStream := deref (msgs (the_app (snd s))).
Definition w_msg (m : MsgStream) (s : st) : st := w_app (mkMApp (Some m) (m_app (the_app (snd s)))) s.
(** A new buffer. *)
Definition new_iob (iob : IOBuffer) (s : st) : st * nat :=
  let b := fresh (dom (iobs (snd s))) in (w_iob b iob s, b).
Definition free_iob (b : option nat) (s : st) : outcome st :=
  match b with
  | Some b => _ ← the_iob b s; Ret (fst s, mkWorld (tcp (snd s)) (delete b (iobs (snd s))) (kern (snd s)) (the_app (snd s)))
  | None => Ret s
  end.

(** ** The stream (msg_stream.c) *)

Definition msg_stream_init (f : Z) (s : st) : outcome st :=
  s ← tcp_stream_new f s;
  p ← MSG_PARSER_NEW;
  Ret (w_msg (mkMsgStream p None None None [] None None None) s).
Definition msg_stream_new (f : Z) (s : st) : outcome st := msg_stream_init f s.
(** Neither the messages nor the object are freed. *)
Definition msg_stream_free (s : st) : outcome st :=
  m ← the_msg s;
  s ← tcp_stream_free K s;
  _ ← MSG_PARSER_FREE (msg_parser_ref m);
  s ← free_iob (m_input_buffer m) s;
  free_iob (m_output_buffer m) s.
Definition msg_stream_get_runloop (s : st) : outcome unit :=
  t ← the_tcp s; _ ← event_at (rlstream_ref t) s; Ret ().

(** ** Reading (msg_reader.c) *)

Definition m_invoke_read_callback (new_msg : option M) (error : Z) (s : st) : outcome st :=
  m ← the_msg s;
  cb ← deref (m_read_cb m);
  call_msg_read cb (m_read_cb_arg m) new_msg error
    (w_msg (mkMsgStream (msg_parser_ref m) None None (m_input_buffer m) (input_message_list m)
              (m_output_buffer m) (m_write_cb m) (m_write_cb_arg m)) s).

(** The first message of the list goes to the callback; without one, [otherwise]. *)
Definition deliver_first (otherwise : st → outcome st) (s : st) : outcome st :=
  m ← the_msg s;
  match input_message_list m with
  | x :: l =>
      m_invoke_read_callback (Some x) 0
        (w_msg (mkMsgStream (msg_parser_ref m) (m_read_cb_arg m) (m_read_cb m) (m_input_buffer m) l
                  (m_output_buffer m) (m_write_cb m) (m_write_cb_arg m)) s)
  | [] => otherwise s
  end.

(** The parser gives its messages to [new_message_callback], which appends them. *)
Definition new_message_callback (p : P) (out : list M) (m : MsgStream) : MsgStream :=
  mkMsgStream p (m_read_cb_arg m) (m_read_cb m) (m_input_buffer m) (input_message_list m ++ out)
    (m_output_buffer m) (m_write_cb m) (m_write_cb_arg m).

Definition tcp_read_callback (error : Z) (s : st) : outcome st :=
  m ← the_msg s;
  msg_stream_get_runloop s;;
  if error =? 0 then
    b ← deref (m_input_buffer m);
    iob ← the_iob b s;
    c_assert (negb (IOBuffer_data_len iob =? 0));;
    '(p, iob, out) ← MSG_PARSER_CONSUME (msg_parser_ref m) iob;
    let s := w_msg (new_message_callback p out m) (w_iob b iob s) in
    c_assert (IOBuffer_data_len iob =? 0);;
    deliver_first (runloop_post (Some fn_postable_read) (Some self)) s
  else m_invoke_read_callback None error s.

(** [try_read] of msg_reader.c. *)
Definition m_try_read (s : st) : outcome st :=
  m ← the_msg s;
  b ← deref (m_input_buffer m);
  tcp_read K N (λ _ _, tcp_read_callback) fn_read_ready tcp_self b (Some ()) (Some self) s.
Definition m_postable_read (s : st) : outcome st := m_try_read s.

Definition msg_stream_read (cb : option mrcb) (a : option arg_t) (s : st) : outcome st :=
  m ← the_msg s;
  c_assert (negb (is_ptr (m_read_cb m)));;
  '(s, b) ← match m_input_buffer m with
            | Some b => Ret (s, b)
            | None => iob ← IOBuffer_new; Ret (new_iob iob s)
            end;
  let s := w_msg (mkMsgStream (msg_parser_ref m) a cb (Some b) (input_message_list m)
                    (m_output_buffer m) (m_write_cb m) (m_write_cb_arg m)) s in
  deliver_first (tcp_read K N (λ _ _, tcp_read_callback) fn_read_ready tcp_self b (Some ()) (Some self)) s.

(** ** Writing (msg_writer.c) *)

Definition m_invoke_write_callback (error : Z) (s : st) : outcome st :=
  m ← the_msg s;
  cb ← deref (m_write_cb m);
  call_msg_write cb (m_write_cb_arg m) error
    (w_msg (mkMsgStream (msg_parser_ref m) (m_read_cb_arg m) (m_read_cb m) (m_input_buffer m) (input_message_list m)
              (m_output_buffer m) None None) s).

(** The buffer written is forgotten, not freed. *)
Definition tcp_write_callback (error : Z) (s : st) : outcome st :=
  m ← the_msg s;
  m_invoke_write_callback error
    (w_msg (mkMsgStream (msg_parser_ref m) (m_read_cb_arg m) (m_read_cb m) (m_input_buffer m) (input_message_list m)
              None (m_write_cb m) (m_write_cb_arg m)) s).

Definition msg_stream_write (msg : M) (cb : option mwcb) (a : option arg_t) (s : st) : outcome st :=
  m ← the_msg s;
  c_assert (negb (is_ptr (m_write_cb m)));;
  c_assert (negb (is_ptr (m_write_cb_arg m)));;
  c_assert (negb (is_ptr (m_output_buffer m)));;
  iob ← MSG_SERIALIZE (P := P) msg;
  let '(s, b) := new_iob iob s in
  let s := w_msg (mkMsgStream (msg_parser_ref m) (m_read_cb_arg m) (m_read_cb m) (m_input_buffer m) (input_message_list m)
                    (Some b) cb a) s in
  tcp_write N (λ _ _, tcp_write_callback) fn_try_write tcp_self b (Some ()) (Some self) s.

(** What the loop calls. *)
Variable other_call : fn → option arg_t → st → outcome st.
Definition m_postable (g : fn) (a : option arg_t) (s : st) : outcome st :=
  if decide (g = fn_postable_read) then on_self self m_postable_read a s else other_call g a s.
Definition m_call : fn → option arg_t → st → outcome st :=
  call_postable K N (λ _ _, tcp_read_callback) (λ _ _, tcp_write_callback) fn_read_ready fn_try_write tcp_self m_postable.

(** ** Specification *)

Context `{!MsgLaws M P S}.
Context (notes : KW → Z → gmap (Z * Z) note) (fd_open : KW → Z → bool) (HL : kqueue_laws K notes fd_open).
Context (incoming : KW → Z → list arrival) (outgoing : KW → Z → list room) (sent : KW → Z → list byte).
Context (HIO : io_laws K N notes fd_open incoming outgoing sent).
Abbreviation open_tcp := (open_tcp fd_open).
Abbreviation read_tcp := (tcp_read K N (λ _ _, tcp_read_callback) fn_read_ready tcp_self).
Abbreviation stream_events := (read_events m_call).
Abbreviation drive := (drive m_call).
Abbreviation after_events := (after_event K N (λ _ _, tcp_read_callback) (λ _ _, tcp_write_callback) fn_read_ready fn_try_write tcp_self m_postable).
Abbreviation run_posted := (run_posted m_call).

(** An idle loop, with an open stream that is not reading, and a message stream [m]. *)
Record m_ready (s : st) (t : tcp_stream) (e : RunloopEvent fn arg_t) (x : stream_t fn arg_t) (m : MsgStream) : Prop := {
  mr_open : open_tcp s t e x;
  mr_idle : idle_reader t;
  mr_can : can_read (read_state (reader t)) = true;
  mr_msg : msgs (the_app (snd s)) = Some m;
  mr_ready : fl_rep (ready_list (fst s)) [];
  mr_cap : 1 < capacity (ready_list (fst s))
}.

(** A buffer with all its room, as [IOBuffer_new] makes it. *)
Definition usable (iob : IOBuffer) : Prop :=
  iob_ok iob ∧ iob_data iob = [] ∧ buffer_ptr iob = 0 ∧ buffer_capacity iob = 4096.

(** The buffer of the message stream, if it has one, can be used. *)
Definition buffer_ready (s : st) (m : MsgStream) : Prop :=
  ∀ b, m_input_buffer m = Some b → ∃ iob, iobs (snd s) !! b = Some iob ∧ usable iob.

(** Reads that find [bs] after [n] times nothing. *)
Definition arrives (chunks : list (nat * list byte)) : list arrival :=
  concat ((λ c, replicate (fst c) Nothing ++ [Bytes (snd c)]) <$> chunks).

(** The chunks hold no message before the last one, which completes [ts]. *)
Fixpoint first_messages (σ : S) (chunks : list (nat * list byte)) (σ' : S) (ts : list (list byte)) : Prop :=
  match chunks with
  | [] => False
  | [(_, bs)] => 0 < Zlen bs ≤ 4096 ∧ parse σ bs = Some (σ', ts) ∧ ts ≠ []
  | (_, bs) :: chunks => ∃ σ1, 0 < Zlen bs ≤ 4096 ∧ parse σ bs = Some (σ1, []) ∧ first_messages σ1 chunks σ' ts
  end.

(** ** Lemmas *)

Lemma usable_room iob : usable iob → IOBuffer_space_len iob = 4096.
Proof.
  intros (Hok & Hd & Hp & Hc). pose proof (iob_data_size iob Hok) as Hs. rewrite Hd in Hs. change (msize []) with 0 in Hs.
  rewrite space_len_ok by done. lia.
Qed.

Lemma usable_new : ∃ iob, IOBuffer_new = Ret iob ∧ usable iob.
Proof.
  unfold IOBuffer_new. change IOBUFFER_DEFAULT_CAPACITY with 4096. rewrite new_with_capacity_ok by done. eexists. split; [done|].
  pose proof (new_iob_ok 4096 ltac:(done)) as Hok. by split_and!.
Qed.

(** A buffer filled by a read, as the parser wants it. *)
Lemma received_holds bs iob iob' :
  usable iob → received (Bytes bs) iob iob' → holds iob' bs ∧ buffer_ptr iob' = 0 ∧ buffer_capacity iob' = 4096.
Proof. intros (_ & Hd & Hp & Hc) (Hok & Hd' & Hp' & Hc'). rewrite Hd in Hd'. split_and!; [done|by rewrite Hp'|by rewrite Hc']. Qed.

Lemma empty_usable iob iob' : empty_of iob iob' → buffer_capacity iob = 4096 → usable iob'.
Proof. intros ([Hok Hd] & Hp & Hc) Hc0. split_and!; [done|done|done|by rewrite Hc]. Qed.

Lemma the_msg_ok (s : st) m : msgs (the_app (snd s)) = Some m → the_msg s = Ret m.
Proof. unfold the_msg. by intros ->. Qed.

(** The callback of a read that found [bs]: the messages in it are queued. *)
Lemma callback_parses s t e x m b iob bs σ σ' ts :
  open_tcp s t e x → msgs (the_app (snd s)) = Some m → m_input_buffer m = Some b → iobs (snd s) !! b = Some iob →
  holds iob bs → buffer_ptr iob = 0 → buffer_capacity iob = 4096 → bs ≠ [] →
  state_is (msg_parser_ref m) σ → parse σ bs = Some (σ', ts) →
  ∃ p out iob', state_is p σ' ∧ Forall2 msg_text out ts ∧ usable iob' ∧
    tcp_read_callback 0 s = deliver_first (runloop_post (Some fn_postable_read) (Some self))
      (w_msg (new_message_callback p out m) (w_iob b iob' s)).
Proof.
  intros [Ht [He _] _ _ _ _] Hm Hb Hi Hh Hp0 Hc0 Hne Hp Hparse.
  destruct (consume_law (msg_parser_ref m) σ iob bs σ' ts Hp Hh Hne Hparse) as (p & iob' & out & Hc & Hp' & He' & Ho).
  exists p, out, iob'. split_and!; [done|done|by eapply empty_usable|].
  unfold tcp_read_callback, msg_stream_get_runloop, the_tcp, the_iob. rewrite (the_msg_ok s m Hm), bind_ret_l, Ht. cbn [deref].
  rewrite !bind_ret_l, He, !bind_ret_l. cbn [Z.eqb]. rewrite Hb. cbn [deref]. rewrite bind_ret_l, Hi. cbn [deref]. rewrite bind_ret_l.
  pose proof (iob_data_size iob (proj1 Hh)) as Hs. rewrite (proj2 Hh), msize_init in Hs.
  unfold IOBuffer_data_len. rewrite (proj2 (Z.eqb_neq _ _)) by (destruct bs; [done|]; cbn in Hs; lia). cbn [negb c_assert].
  rewrite bind_ret_l, Hc, bind_ret_l. destruct He' as ([Hok' Hd'] & _ & _).
  pose proof (iob_data_size iob' Hok') as Hs'. rewrite Hd', msize_init in Hs'. cbn in Hs'. by rewrite <- Hs'.
Qed.

(** After the callback, the rest of the event that brought the bytes, if it took one. *)
Definition after_wait (n : nat) (p : Z) (s : st) : outcome st := if (n =? 0)%nat then Ret s else after_events p s.

Abbreviation same_out := (same_out outgoing sent).

(** What a read of the socket leaves as it was. *)
Record reading_frame (s s1 : st) (t t1 : tcp_stream) (b : nat) : Prop := {
  rf_out : same_out s s1;
  rf_app : m_app (the_app (snd s1)) = m_app (the_app (snd s));
  rf_ref : rlstream_ref t1 = rlstream_ref t;
  rf_fd : stream_fd t1 = stream_fd t;
  rf_writer : writer t1 = writer t;
  rf_iobs : ∀ b', b' ≠ b → iobs (snd s1) !! b' = iobs (snd s) !! b'
}.

Lemma frame_trans s1 s2 s3 t1 t2 t3 b :
  reading_frame s1 s2 t1 t2 b → reading_frame s2 s3 t2 t3 b → reading_frame s1 s3 t1 t3 b.
Proof.
  intros [H1 H2 H3 H4 H5 H6] [G1 G2 G3 G4 G5 G6].
  constructor; [by eapply same_out_trans|by rewrite G2|by rewrite G3|by rewrite G4|by rewrite G5|].
  intros b' Hb. by rewrite G6, H6.
Qed.

(** One read of the socket, with its callback up to the delivery of a message. *)
Lemma chunk_read n s t e x m b iob bs rest σ σ' ts :
  m_ready s t e x m → m_input_buffer m = Some b → iobs (snd s) !! b = Some iob → usable iob → state_is (msg_parser_ref m) σ →
  incoming (kern (snd s)) (stream_fd t) = replicate n Nothing ++ Bytes bs :: rest → 0 < Zlen bs ≤ 4096 →
  parse σ bs = Some (σ', ts) →
  ∃ s1 t1 e1 x1 p out,
    (s0 ← read_tcp b (Some ()) (Some self) s; stream_events n (rlstream_ref t) s0) =
      (s2 ← deliver_first (runloop_post (Some fn_postable_read) (Some self)) s1; after_wait n (rlstream_ref t) s2) ∧
    m_ready s1 t1 e1 x1 (new_message_callback p out m) ∧ state_is p σ' ∧ Forall2 msg_text out ts ∧
    (∃ iob', iobs (snd s1) !! b = Some iob' ∧ usable iob') ∧ incoming (kern (snd s1)) (stream_fd t) = rest ∧
    reading_frame s s1 t t1 b.
Proof using HIO HL.
  intros Hr Hb Hi Hu Hp Hin Hlen Hparse. pose proof Hr as [Hop Hid Hcan Hm Hrl Hcap].
  destruct (tcp_read_ok K N (λ _ _, tcp_read_callback) (λ _ _, tcp_write_callback) fn_read_ready fn_try_write tcp_self m_postable
    notes fd_open HL incoming outgoing sent HIO n s t e x b () (Some self) iob (Bytes bs) rest Hop Hid Hcan Hi) as (s' & Hrun & Hov).
  - by rewrite usable_room.
  - done.
  - pose proof Hu as (Hok & _ & Hp0 & _). split; [done|]. split; [done|]. by rewrite usable_room.
  - cbn [status_of] in Hrun. destruct Hov as [(z & e' & x' & Hop' & Hcan' & _) (iob' & Hi' & Hrec) Ha Hin' Hrl' Hout _ _].
    destruct (received_holds bs iob iob' Hu Hrec) as (Hh & Hp0 & Hc0).
    assert (m_ready s' (ended t z) e' x' m) as Hr' by (constructor; try done; rewrite ?Ha, ?Hrl'; done).
    destruct (callback_parses s' (ended t z) e' x' m b iob' bs σ σ' ts (mr_open _ _ _ _ _ Hr') (mr_msg _ _ _ _ _ Hr') Hb) as (p & out & iob2 & Hp' & Ho & Hu' & Hcb); try done.
    { rewrite Hi'. apply lookup_insert_eq. }
    { intros ->. unfold Zlen in Hlen. cbn in Hlen. lia. }
    rewrite Hcb in Hrun. exists (w_msg (new_message_callback p out m) (w_iob b iob2 s')), (ended t z), e', x', p, out.
    split_and!; [exact Hrun| |done|done| |done|].
    + destruct Hr' as [_ Hid' _ _ Hrl2 Hcap2]. constructor; try done.
      destruct s' as [rl w]. apply (open_tcp_with fd_open (rl, w) (ended t z)); try done. apply Hop'.
    + exists iob2. cbn. split; [apply lookup_insert_eq|done].
    + constructor; try done; cbn; [by rewrite Ha|]. intros b' Hb'. by rewrite lookup_insert_ne, Hi', lookup_insert_ne.
Qed.

(** The loop may run functors. *)
Lemma m_ready_loop s t e x m l :
  m_ready s t e x m → fl_rep l [] → 1 < capacity l → m_ready (set_ready (fst s) l, snd s) t e x m.
Proof. intros [[] ? ? ? ? ?] Hl Hc. by constructor; [constructor|..]. Qed.

Hypothesis (fns_ne : fn_read_ready ≠ fn_postable_read ∧ fn_try_write ≠ fn_postable_read).

(** The rest of an event does nothing on a stream that has only read. *)
Lemma after_wait_idle n p e x s : live p e s → var e = V_stream x → event_mask x = 0 → after_wait n p s = Ret s.
Proof. intros Hl Hv Hm. unfold after_wait. destruct (n =? 0)%nat; [done|]. by eapply after_event_idle. Qed.

(** Without a message, the next read is posted, and runs next. *)
Lemma no_message_yet n s t e x m b :
  m_ready s t e x m → input_message_list m = [] → m_input_buffer m = Some b →
  ∃ l, m_ready (set_ready (fst s) l, snd s) t e x m ∧
    (s2 ← deliver_first (runloop_post (Some fn_postable_read) (Some self)) s;
     s2 ← after_wait n (rlstream_ref t) s2; run_posted 1 s2) =
    read_tcp b (Some ()) (Some self) (set_ready (fst s) l, snd s).
Proof using fns_ne.
  intros Hr Hl Hb. pose proof Hr as [Hop _ _ Hm Hrl Hcap]. unfold deliver_first at 1. rewrite (the_msg_ok s m Hm), bind_ret_l, Hl.
  destruct (post_then_run fn_postable_read self s Hrl Hcap) as (l & l' & -> & Hrem & Hrl' & Hcap'). rewrite bind_ret_l.
  assert (m_ready (set_ready (fst s) l', snd s) t e x m) as Hr'.
  { apply m_ready_loop; [done|done|by rewrite Hcap']. }
  exists l'. split; [done|].
  destruct Hop as [_ Hl2 Hv _ _ Hk]. rewrite (after_wait_idle n (rlstream_ref t) e x (set_ready (fst s) l, snd s)) by done.
  rewrite bind_ret_l. cbn [KqWatchers.run_posted fst snd]. change (ready_list (set_ready (fst s) l)) with l. rewrite Hrem, bind_ret_l.
  cbn [f arg deref]. rewrite bind_ret_l, bind_ret_r. unfold m_call, call_postable, m_postable. destruct fns_ne as [? ?].
  rewrite !decide_False, decide_True, on_self_eq by done. unfold m_postable_read, m_try_read.
  change (set_ready (set_ready (fst s) l) l') with (set_ready (fst s) l').
  by rewrite (the_msg_ok _ m (mr_msg _ _ _ _ _ Hr')), bind_ret_l, Hb.
Qed.

(** The stream once a message has been taken from its list. *)
Definition with_messages (p : P) (l : list M) (m : MsgStream) : MsgStream :=
  mkMsgStream p None None (m_input_buffer m) l (m_output_buffer m) (m_write_cb m) (m_write_cb_arg m).

Lemma deliver_message s m cb a y out otherwise :
  msgs (the_app (snd s)) = Some m → input_message_list m = y :: out → m_read_cb m = Some cb → m_read_cb_arg m = a →
  deliver_first otherwise s = call_msg_read cb a (Some y) 0 (w_msg (with_messages (msg_parser_ref m) out m) s).
Proof.
  intros Hm Hl Hcb <-. unfold deliver_first. rewrite (the_msg_ok s m Hm), bind_ret_l, Hl. unfold m_invoke_read_callback.
  erewrite the_msg_ok by done. rewrite bind_ret_l. cbn [m_read_cb]. rewrite Hcb. cbn [deref]. by rewrite bind_ret_l.
Qed.

(** The wait of the last read. *)
Definition last_wait (chunks : list (nat * list byte)) : nat := default O (last (fst <$> chunks)).

Lemma reads_until chunks : ∀ s t e x m b iob cb a rest σ σ' ts,
  m_ready s t e x m → m_input_buffer m = Some b → iobs (snd s) !! b = Some iob → usable iob → state_is (msg_parser_ref m) σ →
  m_read_cb m = Some cb → m_read_cb_arg m = a → input_message_list m = [] →
  incoming (kern (snd s)) (stream_fd t) = arrives chunks ++ rest → first_messages σ chunks σ' ts →
  ∃ s' t' e' x' p y out,
    (s0 ← read_tcp b (Some ()) (Some self) s; drive (fst <$> chunks) (rlstream_ref t) s0) =
      (s2 ← call_msg_read cb a (Some y) 0 s'; after_wait (last_wait chunks) (rlstream_ref t) s2) ∧
    m_ready s' t' e' x' (with_messages p out m) ∧ state_is p σ' ∧ Forall2 msg_text (y :: out) ts ∧
    (∃ iob', iobs (snd s') !! b = Some iob' ∧ usable iob') ∧ incoming (kern (snd s')) (stream_fd t) = rest ∧
    reading_frame s s' t t' b.
Proof using HIO HL fns_ne EqDecision1.
  induction chunks as [|[n bs] chunks IH]; intros s t e x m b iob cb a rest σ σ' ts Hr Hb Hi Hu Hp Hcb Ha Hl Hin Hfm; [done|].
  unfold arrives in Hin. cbn [fmap list_fmap concat fst snd] in Hin. rewrite <- !app_assoc in Hin. cbn [app] in Hin.
  destruct chunks as [|c chunks].
  - destruct Hfm as (Hlen & Hparse & Hts). cbn [fmap list_fmap concat app] in Hin.
    destruct (chunk_read n s t e x m b iob bs rest σ σ' ts Hr Hb Hi Hu Hp Hin Hlen Hparse)
      as (s1 & t1 & e1 & x1 & p & out & Hrun & Hr1 & Hp1 & Ho & Hi1 & Hin1 & Hf1).
    destruct out as [|y out]; [inversion Ho; by subst|]. cbn [KqWatchers.drive fst fmap list_fmap last_wait]. rewrite Hrun.
    rewrite (deliver_message s1 (new_message_callback p (y :: out) m) cb a y out); [|apply Hr1|cbn; by rewrite Hl|done|done].
    eexists (w_msg (with_messages p out m) s1), t1, e1, x1, p, y, out. split_and!; [reflexivity| |done|done|done|done|].
    + destruct Hr1 as [[] ? ? ? ? ?]. by constructor; [constructor|..].
    + by destruct Hf1.
  - destruct Hfm as (σ1 & Hlen & Hparse & Hfm).
    destruct (chunk_read n s t e x m b iob bs _ σ σ1 [] Hr Hb Hi Hu Hp Hin Hlen Hparse)
      as (s1 & t1 & e1 & x1 & p & out & Hrun & Hr1 & Hp1 & Ho & (iob1 & Hi1 & Hu1) & Hin1 & Hf1).
    inversion Ho; subst out. destruct (no_message_yet n s1 t1 e1 x1 _ b Hr1) as (l & Hr2 & Hnext);
      [cbn; by rewrite Hl|exact Hb|].
    destruct (IH _ t1 e1 x1 _ b iob1 cb a rest σ1 σ' ts Hr2 Hb Hi1 Hu1 Hp1 Hcb Ha) as (s' & t' & e' & x' & p' & y & out & He & Hr' & Hp' & Ho' & Hi' & Hin' & Hf');
      [cbn; by rewrite Hl|cbn [snd]; by rewrite (rf_fd _ _ _ _ _ Hf1)|done|].
    exists s', t', e', x', p', y, out. rewrite (rf_ref _ _ _ _ _ Hf1) in *. rewrite (rf_fd _ _ _ _ _ Hf1) in *.
    split_and!; [|done|done|done|done|done|].
    + trans (s0 ← (s0 ← read_tcp b (Some ()) (Some self) s; stream_events n (rlstream_ref t) s0);
             s0 ← run_posted 1 s0; drive (fst <$> c :: chunks) (rlstream_ref t) s0); [by rewrite bind_assoc|].
      rewrite Hrun, bind_assoc.
      assert (last_wait ((n, bs) :: c :: chunks) = last_wait (c :: chunks)) as -> by done. rewrite <- He, <- Hnext.
      destruct (deliver_first _ s1) as [s2| |]; [|done..]. rewrite !bind_ret_l. by destruct (after_wait n (rlstream_ref t) s2).
    + eapply frame_trans; [exact Hf1|]. by destruct Hf'.
Qed.

(** A read of messages starts with a read of the socket. *)
Lemma msg_read_starts s t e x m cb a :
  m_ready s t e x m → buffer_ready s m → m_read_cb m = None → input_message_list m = [] →
  ∃ s1 b iob, msg_stream_read (Some cb) a s = read_tcp b (Some ()) (Some self) s1 ∧
    m_ready s1 t e x (mkMsgStream (msg_parser_ref m) a (Some cb) (Some b) [] (m_output_buffer m) (m_write_cb m) (m_write_cb_arg m)) ∧
    iobs (snd s1) !! b = Some iob ∧ usable iob ∧ reading_frame s s1 t t b ∧ kern (snd s1) = kern (snd s) ∧ fst s1 = fst s ∧
    (m_input_buffer m = None → iobs (snd s) !! b = None).
Proof.
  intros Hr Hbuf Hcb Hl. pose proof Hr as [Hop Hid Hcan Hm Hrl Hcap]. unfold msg_stream_read. rewrite (the_msg_ok s m Hm), bind_ret_l, Hcb.
  cbn [is_ptr negb c_assert]. rewrite bind_ret_l, Hl. destruct (m_input_buffer m) as [b|] eqn:Eb.
  - rewrite bind_ret_l. destruct (Hbuf b Eb) as (iob & Hi & Hu). unfold deliver_first. erewrite the_msg_ok by done. rewrite bind_ret_l.
    eexists _, b, iob. split; [reflexivity|]. split_and!; try done.
    destruct Hop. by constructor; [constructor|..].
  - destruct usable_new as (iob & -> & Hu). rewrite !bind_ret_l. unfold new_iob. rewrite ?bind_ret_l. unfold deliver_first.
    erewrite the_msg_ok by done. rewrite bind_ret_l. eexists _, (fresh (dom (iobs (snd s)))), iob. split; [reflexivity|].
    split_and!; try done.
    + destruct Hop. by constructor; [constructor|..].
    + cbn. apply lookup_insert_eq.
    + constructor; try done. intros b' Hb'. cbn. by rewrite lookup_insert_ne.
    + intros _. apply not_elem_of_dom, is_fresh.
Qed.

(** No write of a message in progress. *)
Definition m_idle_write (m : MsgStream) : Prop := m_write_cb m = None ∧ m_write_cb_arg m = None ∧ m_output_buffer m = None.

(** [s'] is [s] with a message written as the bytes [bs]; its buffer, new at [b], stays. *)
Record written (s s' : st) (t t' : tcp_stream) (b : nat) (bs : list byte) (rest : list room) : Prop := {
  wr_sent : sent (kern (snd s')) (stream_fd t) = sent (kern (snd s)) (stream_fd t) ++ bs;
  wr_out : outgoing (kern (snd s')) (stream_fd t) = rest;
  wr_in : same_in incoming s s';
  wr_app : m_app (the_app (snd s')) = m_app (the_app (snd s));
  wr_ref : rlstream_ref t' = rlstream_ref t;
  wr_fd : stream_fd t' = stream_fd t;
  wr_iobs : ∀ b', b' ≠ b → iobs (snd s') !! b' = iobs (snd s) !! b';
  wr_new : iobs (snd s) !! b = None;
  wr_leak : is_Some (iobs (snd s') !! b)
}.

Lemma msg_write_ok s t e x m y iob bs cb a ns rest :
  fn_read_ready ≠ fn_try_write → m_ready s t e x m → idle_writer t → m_idle_write m → MSG_SERIALIZE (P := P) y = Ret iob → holds iob bs →
  outgoing (kern (snd s)) (stream_fd t) = (Taken <$> ns) ++ rest → pieces bs ns →
  ∃ s' t' b, (s1 ← msg_stream_write y (Some cb) a s; run_posted (length ns - 1) s1) = call_msg_write cb a 0 s' ∧
    m_ready s' t' e x m ∧ idle_writer t' ∧ written s s' t t' b bs rest.
Proof using HIO.
  intros Hne Hr Hw (Hwc & Hwa & Hwb) Hs [Hiok Hid2] Hout Hns. pose proof Hr as [Hop Hid Hcan Hm Hrl Hcap].
  unfold msg_stream_write. rewrite (the_msg_ok s m Hm), bind_ret_l, Hwc, Hwa, Hwb. cbn [is_ptr negb c_assert].
  rewrite !bind_ret_l, Hs, bind_ret_l. unfold new_iob. set (b := fresh (dom (iobs (snd s)))).
  assert (iobs (snd s) !! b = None) as Hnew by apply not_elem_of_dom, is_fresh.
  match goal with |- context [tcp_write _ _ _ _ _ _ _ ?st] => set (s1 := st) end.
  assert (open_tcp s1 t e x) as Hop1 by (by destruct Hop; constructor).
  destruct (tcp_write_ok K N (λ _ _, tcp_read_callback) (λ _ _, tcp_write_callback) fn_read_ready fn_try_write tcp_self m_postable
    notes fd_open incoming outgoing sent HIO ns s1 t e x b () (Some self) iob bs rest Hne Hop1 Hw Hrl Hcap)
    as (s2 & Hrun & [Ho2 [Hrl2 Hcap2] Ha2 Hout2 Hs2 Hin2 Hi2 (iob2 & He2 & _)]); [apply lookup_insert_eq|done..|].
  unfold m_call. rewrite Hrun. unfold tcp_write_callback. erewrite the_msg_ok by (by rewrite Ha2). rewrite bind_ret_l.
  unfold m_invoke_write_callback. erewrite the_msg_ok by done. rewrite bind_ret_l. cbn [m_write_cb deref]. rewrite bind_ret_l.
  cbn [msg_parser_ref m_read_cb_arg m_read_cb m_input_buffer input_message_list m_output_buffer m_write_cb_arg].
  match goal with |- context [call_msg_write _ _ _ ?st] => exists st end. exists (wended t WRT_STATE_READY), b. split; [done|].
  assert (mkMsgStream (msg_parser_ref m) (m_read_cb_arg m) (m_read_cb m) (m_input_buffer m) (input_message_list m) None None None = m)
    as -> by (destruct m; cbn in *; by subst).
  split_and!; [|done|].
  - destruct Ho2. constructor; [by constructor|done|done|done|exact Hrl2|]. cbn. by rewrite Hcap2.
  - constructor; try done; cbn.
    + by rewrite Ha2.
    + intros b' Hb'. rewrite (Hi2 b' Hb'). cbn. by rewrite lookup_insert_ne.
Qed.

Lemma msg_read_ok s t e x m cb a chunks rest σ σ' ts :
  m_ready s t e x m → buffer_ready s m → m_read_cb m = None → input_message_list m = [] →
  state_is (msg_parser_ref m) σ → incoming (kern (snd s)) (stream_fd t) = arrives chunks ++ rest →
  first_messages σ chunks σ' ts →
  ∃ s' t' e' x' p y out b,
    (s1 ← msg_stream_read (Some cb) a s; drive (fst <$> chunks) (rlstream_ref t) s1) =
      (s2 ← call_msg_read cb a (Some y) 0 s'; after_wait (last_wait chunks) (rlstream_ref t) s2) ∧
    m_ready s' t' e' x' (mkMsgStream p None None (Some b) out (m_output_buffer m) (m_write_cb m) (m_write_cb_arg m)) ∧
    state_is p σ' ∧ Forall2 msg_text (y :: out) ts ∧ incoming (kern (snd s')) (stream_fd t) = rest ∧
    (∃ iob', iobs (snd s') !! b = Some iob' ∧ usable iob') ∧ reading_frame s s' t t' b.
Proof using HIO HL fns_ne EqDecision1.
  intros Hr Hbuf Hcb Hl Hp Hin Hfm.
  destruct (msg_read_starts s t e x m cb a Hr Hbuf Hcb Hl) as (s1 & b & iob & -> & Hr1 & Hi1 & Hu & Hf1 & Hk & _).
  destruct (reads_until chunks s1 t e x _ b iob cb a rest σ σ' ts Hr1 eq_refl Hi1 Hu Hp eq_refl eq_refl eq_refl)
    as (s' & t' & e' & x' & p & y & out & He & Hr' & Hp' & Ho & Hi' & Hin' & Hf'); [by rewrite Hk|done|].
  exists s', t', e', x', p, y, out, b. split_and!; try done. by eapply frame_trans.
Qed.

Lemma msg_write_keeps y cb a : (∀ cb a er, keeps_events (call_msg_write cb a er)) → keeps_events (msg_stream_write y cb a).
Proof.
  intros Hc s s' H. unfold msg_stream_write in H. do 5 (apply bind_ret_inv in H as (? & _ & H)). unfold new_iob in H.
  apply tcp_write_keeps in H; [by rewrite H|]. intros cb' a' er s1 s2 H1. unfold tcp_write_callback, m_invoke_write_callback in H1.
  do 3 (apply bind_ret_inv in H1 as (? & _ & H1)). apply Hc in H1. by rewrite H1.
Qed.

Lemma msg_end_ok s t e x m cb a er rest :
  m_ready s t e x m → buffer_ready s m → m_read_cb m = None → input_message_list m = [] →
  incoming (kern (snd s)) (stream_fd t) = End er :: rest →
  if er =? 0 then msg_stream_read (Some cb) a s = AssertFail
  else ∃ s' t' e' x' b,
    msg_stream_read (Some cb) a s = call_msg_read cb a None er s' ∧
    m_ready s' t' e' x' (mkMsgStream (msg_parser_ref m) None None (Some b) [] (m_output_buffer m) (m_write_cb m) (m_write_cb_arg m)) ∧
    reading_frame s s' t t' b ∧ is_Some (iobs (snd s') !! b) ∧ fst s' = fst s.
Proof using HIO HL EqDecision0 EqDecision1 fn_try_write call_msg_write other_call.
  intros Hr Hbuf Hcb Hl Hin.
  destruct (msg_read_starts s t e x m cb a Hr Hbuf Hcb Hl) as (s1 & b & iob & -> & Hr1 & Hi1 & Hu & Hf1 & Hk & Hl1 & _).
  destruct (tcp_read_ok K N (λ _ _, tcp_read_callback) (λ _ _, tcp_write_callback) fn_read_ready fn_try_write tcp_self m_postable
    notes fd_open HL incoming outgoing sent HIO 0 s1 t e x b () (Some self) iob (End er) rest)
    as (s' & Hrun & [(z & e' & x' & Hop' & Hcan' & _) (iob' & Hi' & Hrec) Ha Hin' Hrl' Hout Hloop _]);
    [apply Hr1..|done|by rewrite usable_room|by rewrite Hk|done|].
  cbn [replicate app KqWatchers.read_events Nat.eqb] in Hrun. rewrite !bind_ret_r in Hrun. rewrite Hrun. cbn [status_of].
  pose proof Hr1 as [_ _ _ Hm1 Hrl1 Hcap1]. cbn in Hrec. subst iob'.
  unfold tcp_read_callback, msg_stream_get_runloop, the_tcp, the_iob. erewrite the_msg_ok by (by rewrite Ha). rewrite bind_ret_l.
  rewrite (ot_tcp _ _ _ _ _ Hop'). cbn [deref]. rewrite !bind_ret_l, (proj1 (ot_live _ _ _ _ _ Hop')), !bind_ret_l.
  destruct (er =? 0) eqn:E.
  - cbn [m_input_buffer deref]. rewrite bind_ret_l, Hi', lookup_insert_eq. cbn [deref]. rewrite bind_ret_l.
    destruct Hu as (Hok & Hd & _). pose proof (iob_data_size iob Hok) as Hs. rewrite Hd in Hs. change (msize []) with 0 in Hs.
    unfold IOBuffer_data_len. by rewrite <- Hs.
  - unfold m_invoke_read_callback. erewrite the_msg_ok by (by rewrite Ha). rewrite bind_ret_l. cbn [m_read_cb deref]. rewrite bind_ret_l.
    match goal with |- context [call_msg_read _ _ _ _ ?st] => exists st end. exists (ended t z), e', x', b. split; [done|]. split; [|split; [|split; [cbn; rewrite Hi'; by rewrite lookup_insert_eq; eexists|exact (eq_trans (Hloop eq_refl) Hl1)]]].
    + destruct Hop'. constructor; [by constructor|done|done|done| |]; cbn; by rewrite Hrl'.
    + eapply frame_trans; [exact Hf1|]. constructor; try done; cbn; [by rewrite Ha|].
      intros b' Hb'. rewrite Hi'. by rewrite lookup_insert_ne.
Qed.

(** ** Properties *)

(** C20: Asynchronous reads of messages deliver: on an idle loop, if the stream of bytes
    arrives cut anywhere, each part after any number of events that bring nothing, and
    the parts but the last complete no message for the parser as it stands, then the read
    posts one further read for each of them, and calls its callback exactly once, with its
    argument, status 0 and the first message that the last part completes. By then the
    other messages are queued in order, the parser has taken all the bytes, the buffer
    can be used again, and the stream is ready to read and as it was for writing. *)
Theorem msg_stream_read_delivers s t e x m cb a chunks rest σ σ' ts :
  m_ready s t e x m → buffer_ready s m → m_read_cb m = None → input_message_list m = [] →
  state_is (msg_parser_ref m) σ → incoming (kern (snd s)) (stream_fd t) = arrives chunks ++ rest →
  first_messages σ chunks σ' ts →
  ∃ s' t' e' x' p y out b,
    (s1 ← msg_stream_read (Some cb) a s; drive (fst <$> chunks) (rlstream_ref t) s1) =
      (s2 ← call_msg_read cb a (Some y) 0 s'; after_wait (last_wait chunks) (rlstream_ref t) s2) ∧
    m_ready s' t' e' x' (mkMsgStream p None None (Some b) out (m_output_buffer m) (m_write_cb m) (m_write_cb_arg m)) ∧
    state_is p σ' ∧ Forall2 msg_text (y :: out) ts ∧ incoming (kern (snd s')) (stream_fd t) = rest ∧
    (∃ iob', iobs (snd s') !! b = Some iob' ∧ usable iob') ∧ reading_frame s s' t t' b.
Proof using HIO HL fns_ne EqDecision1. by apply msg_read_ok. Qed.

(** Asynchronous writes of messages deliver: on an idle stream, a message whose bytes on
    the wire the socket takes in any number of pieces goes out whole, once and in order,
    and then the callback is called exactly once, with its argument and status 0. By then
    the stream can write again and is as it was for reading; the buffer that was sent is
    forgotten and never freed. *)
Theorem msg_stream_write_delivers s t e x m y text cb a ns rest :
  fn_read_ready ≠ fn_try_write → m_ready s t e x m → idle_writer t → m_idle_write m → msg_text y text → text_ok text →
  outgoing (kern (snd s)) (stream_fd t) = (Taken <$> ns) ++ rest → pieces (wire text) ns →
  ∃ s' t' b, (s1 ← msg_stream_write y (Some cb) a s; run_posted (length ns - 1) s1) = call_msg_write cb a 0 s' ∧
    m_ready s' t' e x m ∧ idle_writer t' ∧ written s s' t t' b (wire text) rest.
Proof using HIO.
  intros Hne Hr Hw Hm Ht Hok Hout Hns. destruct (serialize_law y text Ht Hok) as (iob & Hs & Hh). by eapply msg_write_ok.
Qed.

(** The end of the connection: a read of the socket that finds it calls the callback
    with no message and the number an earlier call has left, on the loop as it was and with
    the buffer of the stream still there; when that number is 0 the program aborts instead. *)
Theorem msg_stream_read_end s t e x m cb a er rest :
  m_ready s t e x m → buffer_ready s m → m_read_cb m = None → input_message_list m = [] →
  incoming (kern (snd s)) (stream_fd t) = End er :: rest →
  if er =? 0 then msg_stream_read (Some cb) a s = AssertFail
  else ∃ s' t' e' x' b,
    msg_stream_read (Some cb) a s = call_msg_read cb a None er s' ∧
    m_ready s' t' e' x' (mkMsgStream (msg_parser_ref m) None None (Some b) [] (m_output_buffer m) (m_write_cb m) (m_write_cb_arg m)) ∧
    reading_frame s s' t t' b ∧ is_Some (iobs (snd s') !! b) ∧ fst s' = fst s.
Proof using HIO HL EqDecision0 EqDecision1 fn_try_write call_msg_write other_call. by eapply msg_end_ok. Qed.
End AsyncMsgStream.

(** ** Witnesses: the demonstration protocol on a kernel that follows its scripts *)

Abbreviation ex_mapp := (mapp (M := DemoMsg) (P := DemoMsgParser) (arg_t := nat) (mrcb := nat) (mwcb := nat) (App := list (nat * option nat * Z))).
Abbreviation ex_mst := (Runloop nat nat * world (arg_t := nat) (KW := ex_tk) (App := ex_mapp) (rcb := unit) (wcb := unit))%type.
Definition ex_mlog (cb : nat) (a : option nat) (er : Z) (s : ex_mst) : outcome ex_mst :=
  Ret (w_app (mkMApp (msgs (the_app (snd s))) (m_app (the_app (snd s)) ++ [(cb, a, er)])) s).
Definition ex_mread (cb : nat) (a : option nat) (m : option DemoMsg) (er : Z) (s : ex_mst) : outcome ex_mst := ex_mlog cb a er s.
Definition ex_mother (g : nat) (a : option nat) (s : ex_mst) : outcome ex_mst := Ub.

Definition ex_mtcp : TcpStream (arg_t := nat) (rcb := unit) (wcb := unit) :=
  mkTcp 0 5 (mkReader RD_STATE_INITIAL Null Null Null) (mkWriter WRT_STATE_INITIAL Null Null Null).
Definition ex_mmsg : MsgStream (M := DemoMsg) (P := DemoMsgParser) (arg_t := nat) (mrcb := nat) (mwcb := nat) :=
  mkMsgStream demo_msg_parser_new None None None [] None None None.
Definition ex_mstate (ain : list arrival) (out : list room) : ex_mst :=
  (fst (ex_ts None [] [] []), mkWorld (Some ex_mtcp) ∅ (ex_tk1 5 ain out) (mkMApp (Some ex_mmsg) [])).

Lemma ex_m_ready ain out : m_ready ex_topen (ex_mstate ain out) ex_mtcp (ex_tevent None) (ex_tstream None) ex_mmsg.
Proof. by constructor. Qed.

(** One message and the start of another, in two parts. *)
Definition ex_mchunks : list (nat * list byte) := [(0%nat, CH_STX :: bytes "h"); (1%nat, bytes "i" ++ [CH_ETX; CH_STX] ++ bytes "y")].

Lemma ex_first : first_messages (M := DemoMsg) (P := DemoMsgParser) start ex_mchunks (Inside, bytes "y") [bytes "hi"].
Proof. exists (Inside, bytes "h"). by split_and!. Qed.

Lemma ex_buffer ain out : buffer_ready (ex_mstate ain out) ex_mmsg.
Proof. by intros b. Qed.
Lemma ex_mstart : state_is (M := DemoMsg) (P := DemoMsgParser) (msg_parser_ref ex_mmsg) start.
Proof. apply new_parser_is. Qed.
Lemma ex_mfns : 1%nat ≠ 3%nat ∧ 2%nat ≠ 3%nat.
Proof. done. Qed.

Lemma msg_stream_read_delivers_witness :
  ∃ s' y, (s1 ← msg_stream_read ex_tkq ex_tnet ex_mread 1%nat 3%nat 7%nat 8%nat (Some 30%nat) (Some 31%nat) (ex_mstate (arrives ex_mchunks) []);
           drive (m_call ex_tkq ex_tnet ex_mread ex_mlog 1%nat 2%nat 3%nat 7%nat 8%nat ex_mother) [0%nat; 1%nat] 0 s1) =
          (s2 ← ex_mread 30%nat (Some 31%nat) (Some y) 0 s';
           after_wait ex_tkq ex_tnet ex_mread ex_mlog 1%nat 2%nat 3%nat 7%nat 8%nat ex_mother 1 0 s2) ∧ demo_is y (bytes "hi").
Proof.
  destruct (msg_stream_read_delivers ex_tkq ex_tnet ex_mread ex_mlog 1%nat 2%nat 3%nat 7%nat 8%nat ex_mother ex_tnotes ex_topen ex_tlaws
    _ _ _ ex_io_laws ex_mfns (ex_mstate (arrives ex_mchunks) []) ex_mtcp (ex_tevent None) (ex_tstream None) ex_mmsg
    30%nat (Some 31%nat) ex_mchunks [] start (Inside, bytes "y") [bytes "hi"] (ex_m_ready _ _) (ex_buffer _ _) eq_refl eq_refl
    ex_mstart eq_refl ex_first) as (s' & t' & e' & x' & p & y & out & b & Hrun & _ & _ & Ho & _).
  exists s', y. split; [exact Hrun|]. by inversion Ho.
Defined.

Definition ex_mtext : DemoMsg := mkDemo (Some (filled 1024 (bytes "hi"))).

Lemma msg_stream_write_delivers_witness :
  ∃ s', (s1 ← msg_stream_write ex_tnet ex_mlog 2%nat 7%nat 8%nat ex_mtext (Some 30%nat) (Some 31%nat) (ex_mstate [] [Taken 1; Taken 9]);
         run_posted (m_call ex_tkq ex_tnet ex_mread ex_mlog 1%nat 2%nat 3%nat 7%nat 8%nat ex_mother) 1 s1) = ex_mlog 30%nat (Some 31%nat) 0 s' ∧
    ex_sent (kern (snd s')) 5 = CH_STX :: bytes "hi" ++ [CH_ETX].
Proof.
  destruct (msg_stream_write_delivers ex_tkq ex_tnet ex_mread ex_mlog 1%nat 2%nat 3%nat 7%nat 8%nat ex_mother ex_tnotes ex_topen
    _ _ _ ex_io_laws (ex_mstate [] [Taken 1; Taken 9]) ex_mtcp (ex_tevent None) (ex_tstream None) ex_mmsg ex_mtext (bytes "hi")
    30%nat (Some 31%nat) [1; 9] [] ltac:(discriminate) (ex_m_ready _ _) (conj eq_refl eq_refl) (conj eq_refl (conj eq_refl eq_refl))
    ltac:(eexists; split; [done|by apply filled_text]) ltac:(by split_and!) eq_refl ltac:(cbn; split_and!; done))
    as (s' & t' & b & Hrun & _ & _ & Hw).
  exists s'. split; [exact Hrun|]. exact (wr_sent _ _ _ _ _ _ _ _ _ _ Hw).
Defined.

Lemma msg_stream_read_end_witness :
  msg_stream_read ex_tkq ex_tnet ex_mread 1%nat 3%nat 7%nat 8%nat (Some 30%nat) (Some 31%nat) (ex_mstate [End 0] []) = AssertFail.
Proof.
  exact (msg_stream_read_end ex_tkq ex_tnet ex_mread ex_mlog 1%nat 2%nat 3%nat 7%nat 8%nat ex_mother ex_tnotes ex_topen ex_tlaws
    _ _ _ ex_io_laws (ex_mstate [End 0] []) ex_mtcp (ex_tevent None) (ex_tstream None) ex_mmsg 30%nat (Some 31%nat) 0 []
    (ex_m_ready _ _) (ex_buffer _ _) eq_refl eq_refl eq_refl).
Defined.
