(* ===== verification/EchoApp.v ===== *)
(** * EchoApp: the application of the server (src/apps/server_apps/echo_app.c)

    For each connection: read a message, write a message that quotes it, and again. Proved
    against the interface of [MsgFormat], whatever the format. *)

From S2P Require Import Prelude Cbuffer IOBuffer DemoMsg MsgFormat SocketFunctions FunctorList EventTable KqRunloop KqHelpers KqWatchers TcpStream AsyncMsgStream.
Open Scope Z_scope.

Lemma distinct4 {A} (a b c d : A) :
  NoDup [a; b; c; d] → a ≠ b ∧ (a ≠ c ∧ b ≠ c) ∧ d ≠ a ∧ d ≠ b ∧ d ≠ c.
Proof.
  intros [H1 [H2 [H3 _]%NoDup_cons]%NoDup_cons]%NoDup_cons. rewrite !not_elem_of_cons in H1.
  rewrite !not_elem_of_cons in H2. rewrite !not_elem_of_cons in H3. destruct_and?. split_and!; congruence.
Qed.

(** One exchange: the parts of the request as they arrive, with the events that each has
    to wait for; the pieces in which the socket takes the response; and the request. *)
Record exchange := mkExchange { x_chunks : list (nat * list byte); x_pieces : list Z; x_text : list byte }.

(** The loop runs: the posted read, the events and reads of the request, and the functors
    that write the rest of the response. *)
Section Exchanges.
Context {fn arg_t W : Type} (call : fn → option arg_t → Runloop fn arg_t * W → outcome (Runloop fn arg_t * W)).
Definition run_exchange (p : Z) (x : exchange) (s : Runloop fn arg_t * W) : outcome (Runloop fn arg_t * W) :=
  s ← run_posted call 1 s;
  s ← drive call (fst <$> x_chunks x) p s;
  run_posted call (length (x_pieces x) - 1) s.
Fixpoint run_exchanges (p : Z) (xs : list exchange) (s : Runloop fn arg_t * W) : outcome (Runloop fn arg_t * W) :=
  match xs with [] => Ret s | x :: xs => s ← run_exchange p x s; run_exchanges p xs s end.
End Exchanges.

Section EchoApp.
(** [dcb] are the callbacks that the server gives, [App] is the rest of the program. *)
Context {M P S : Type} `{!MsgOps M P}.
Context {fn arg_t KW App dcb address : Type} `{EqDecision fn, EqDecision arg_t}.

(** [msg_stream_ref] is the message stream of the world. *)
Record EchoApp := mkEcho { done_cb : field dcb; done_arg : field arg_t }.
Record eapp := mkEApp { echo : option EchoApp; e_rest : App }.
(** The callbacks given to the message stream are the two functions below. *)
Abbreviation mapp := (mapp (P := P) (M := M) (arg_t := arg_t) (mrcb := unit) (mwcb := unit) (App := eapp)).
Abbreviation world := (world (arg_t := arg_t) (KW := KW) (App := mapp) (rcb := unit) (wcb := unit)).
Abbreviation st := (Runloop fn arg_t * world)%type.
Abbreviation tcp_stream := (TcpStream (arg_t := arg_t) (rcb := unit) (wcb := unit)).

Variable K : kqueue_sys KW.
Variable N : net KW address.
Variable call_done : dcb → option arg_t → Z → st → outcome st.
(** The functions given to the loop, and the addresses of the objects. *)
Variable fn_read_ready fn_try_write fn_postable_read fn_echo_read : fn.
Variable tcp_self msg_self self : arg_t.

Definition the_echo (s : st) : outcome EchoApp := deref (echo (m_app (the_app (snd s)))).
Definition w_echo (a : option EchoApp) (s : st) : st :=
  w_app (mkMApp (msgs (the_app (snd s))) (mkEApp a (e_rest (m_app (the_app (snd s)))))) s.

(** The callback of the server and its argument are not set. *)
Definition echo_app_init (connection_fd : Z) (s : st) : outcome st :=
  s ← msg_stream_new connection_fd s; Ret (w_echo (Some (mkEcho Unset Unset)) s).
Definition echo_app_new (connection_fd : Z) (s : st) : outcome st := echo_app_init connection_fd s.
Definition echo_app_free (s : st) : outcome st := s ← msg_stream_free K s; Ret (w_echo None s).

Definition prefix : list byte := bytes "ServerResponse:[".
Definition response_text (t : list byte) : list byte := prefix ++ t ++ bytes "]".

(** [asprintf] with the characters of the content up to its terminator. *)
Definition process_input_message (input_msg : M) : outcome M :=
  response ← MSG_NEW (P := P);
  content ← deref (MSG_GET_CONTENT (P := P) input_msg);
  t ← IOBuffer_cstr content;
  iob ← IOBuffer_from_cstring (response_text t);
  MSG_SET_CONTENT (P := P) response (Some iob).

Definition invoke_done_callback (error : Z) (s : st) : outcome st :=
  e ← the_echo s;
  cb ← load (done_cb e);
  a ← load (done_arg e);
  cb ← deref cb;
  call_done cb a error (w_echo (Some (mkEcho Null Null)) s).

Definition msg_write_callback (error : Z) (s : st) : outcome st :=
  _ ← the_echo s;
  msg_stream_get_runloop s;;
  runloop_post (Some fn_echo_read) (Some self) s.

(** Neither the message read nor the response is freed. *)
Definition msg_read_callback (msg : option M) (error : Z) (s : st) : outcome st :=
  _ ← the_echo s;
  if negb (error =? 0) then invoke_done_callback error s
  else
    c_assert (is_ptr msg);;
    msg ← deref msg;
    response ← process_input_message msg;
    msg_stream_write N (λ _ _, msg_write_callback) fn_try_write tcp_self msg_self response (Some ()) (Some self) s.

(** [postable_read] of echo_app.c. *)
Definition echo_postable_read (s : st) : outcome st :=
  _ ← the_echo s;
  msg_stream_read K N (λ _ _, msg_read_callback) fn_read_ready fn_postable_read tcp_self msg_self (Some ()) (Some self) s.

Definition echo_app_run (cb : option dcb) (a : option arg_t) (s : st) : outcome st :=
  _ ← the_echo s;
  let s := w_echo (Some (mkEcho (to_field cb) (to_field a))) s in
  msg_stream_get_runloop s;;
  runloop_post (Some fn_echo_read) (Some self) s.

(** What the loop calls. *)
Variable other_call : fn → option arg_t → st → outcome st.
Definition e_postable (g : fn) (a : option arg_t) (s : st) : outcome st :=
  if decide (g = fn_echo_read) then on_self self echo_postable_read a s else other_call g a s.
Definition e_call : fn → option arg_t → st → outcome st :=
  m_call K N (λ _ _, msg_read_callback) (λ _ _, msg_write_callback) fn_read_ready fn_try_write fn_postable_read tcp_self msg_self e_postable.

(** ** Specification *)

Context `{!MsgLaws M P S}.
Context (notes : KW → Z → gmap (Z * Z) note) (fd_open : KW → Z → bool) (HL : kqueue_laws K notes fd_open).
Context (incoming : KW → Z → list arrival) (outgoing : KW → Z → list room) (sent : KW → Z → list byte).
Context (HIO : io_laws K N notes fd_open incoming outgoing sent).
Abbreviation m_ready := (m_ready fd_open).
Abbreviation run_posted := (run_posted e_call).
Abbreviation run_exchange := (run_exchange e_call).
Abbreviation run_exchanges := (run_exchanges e_call).
Abbreviation post_read := (runloop_post (Some fn_echo_read) (Some self)).

(** Between two exchanges: nothing queued, no read and no write in progress. *)
Record e_idle (s : st) (t : tcp_stream) (e : RunloopEvent fn arg_t) (x : stream_t fn arg_t)
    (m : MsgStream (P := P) (M := M) (arg_t := arg_t) (mrcb := unit) (mwcb := unit)) (σ : S) : Prop := {
  ei_ready : m_ready s t e x m;
  ei_buffer : buffer_ready s m;
  ei_read : m_read_cb m = None ∧ input_message_list m = [];
  ei_write : m_idle_write m ∧ idle_writer t;
  ei_parser : state_is (msg_parser_ref m) σ;
  ei_echo : is_Some (echo (m_app (the_app (snd s))))
}.

(** Each request arrives whole, and its response can be sent and is taken whole. *)
Fixpoint session (σ : S) (xs : list exchange) (σ' : S) : Prop :=
  match xs with
  | [] => σ' = σ
  | x :: xs => ∃ σ1, first_messages σ (x_chunks x) σ1 [x_text x] ∧ text_ok (x_text x) ∧ text_ok (response_text (x_text x)) ∧
      pieces (wire (response_text (x_text x))) (x_pieces x) ∧ session σ1 xs σ'
  end.
Definition session_in (xs : list exchange) : list arrival := concat ((λ x, arrives (x_chunks x)) <$> xs).
Definition session_out (xs : list exchange) : list room := concat ((λ x, Taken <$> x_pieces x) <$> xs).
Definition responses (xs : list exchange) : list byte := concat ((λ x, wire (response_text (x_text x))) <$> xs).

(** ** Lemmas *)

Lemma process_ok y text :
  msg_text y text → text_ok text → text_ok (response_text text) →
  ∃ r b, process_input_message y = Ret r ∧ MSG_SERIALIZE (P := P) r = Ret b ∧ holds b (wire (response_text text)).
Proof using MsgLaws0.
  intros Hy Ht Hr. destruct (content_law y text Hy Ht) as (c & Hc & Hcs).
  destruct (respond_law (response_text text) Hr) as (iob & m0 & r & b & Hi & Hn & Hset & Hs & Hh).
  exists r, b. split; [|done]. unfold process_input_message. rewrite Hn, bind_ret_l, Hc. cbn [deref].
  by rewrite bind_ret_l, Hcs, bind_ret_l, Hi, bind_ret_l.
Qed.

Lemma the_echo_ok (s : st) : is_Some (echo (m_app (the_app (snd s)))) → ∃ a, the_echo s = Ret a.
Proof. intros [a Ha]. exists a. unfold the_echo. by rewrite Ha. Qed.

Lemma write_callback_posts s t e x :
  open_tcp fd_open s t e x → is_Some (echo (m_app (the_app (snd s)))) → msg_write_callback 0 s = post_read s.
Proof.
  intros [Ht [He _] _ _ _ _] Ha. unfold msg_write_callback, msg_stream_get_runloop, the_tcp.
  destruct (the_echo_ok s Ha) as [a ->]. rewrite bind_ret_l, Ht. cbn [deref]. by rewrite !bind_ret_l, He, !bind_ret_l.
Qed.

Lemma read_callback_writes (s : st) y r :
  is_Some (echo (m_app (the_app (snd s)))) → process_input_message y = Ret r →
  msg_read_callback (Some y) 0 s =
    msg_stream_write N (λ _ _, msg_write_callback) fn_try_write tcp_self msg_self r (Some ()) (Some self) s.
Proof.
  intros Ha Hr. unfold msg_read_callback. destruct (the_echo_ok s Ha) as [a ->]. cbn [Z.eqb negb is_ptr c_assert deref].
  by rewrite !bind_ret_l, Hr, bind_ret_l.
Qed.

Lemma write_callback_keeps : ∀ (cb : unit) (a : option arg_t) er, keeps_events (msg_write_callback er).
Proof.
  intros _ _ er s s' H. unfold msg_write_callback in H. apply bind_ret_inv in H as (? & _ & H).
  apply bind_ret_inv in H as (? & _ & H). by apply post_keeps in H.
Qed.

Hypothesis (fns_ne : NoDup [fn_read_ready; fn_try_write; fn_postable_read; fn_echo_read]).

(** The posted read runs next. *)
Lemma posted_read s t e x m :
  m_ready s t e x m → is_Some (echo (m_app (the_app (snd s)))) →
  ∃ s0 l, post_read s = Ret s0 ∧ m_ready (set_ready (fst s) l, snd s) t e x m ∧
    run_posted 1 s0 = msg_stream_read K N (λ _ _, msg_read_callback) fn_read_ready fn_postable_read tcp_self msg_self
      (Some ()) (Some self) (set_ready (fst s) l, snd s).
Proof using fns_ne.
  intros Hr Ha. pose proof Hr as [_ _ _ _ Hrl Hcap].
  destruct (post_then_run fn_echo_read self s Hrl Hcap) as (l & l' & Hpost & Hrem & Hrl' & Hcap').
  exists (set_ready (fst s) l, snd s), l'. split; [done|]. split; [apply m_ready_loop; [done|done|by rewrite Hcap']|].
  cbn [KqWatchers.run_posted fst snd]. change (ready_list (set_ready (fst s) l)) with l. rewrite Hrem, bind_ret_l.
  cbn [f arg deref]. rewrite bind_ret_l, bind_ret_r. destruct (distinct4 _ _ _ _ fns_ne) as (_ & _ & H1 & H2 & H3).
  unfold e_call, m_call, call_postable, m_postable, e_postable. rewrite !decide_False, decide_True, on_self_eq by done.
  change (set_ready (set_ready (fst s) l) l') with (set_ready (fst s) l'). unfold echo_postable_read.
  destruct (the_echo_ok (set_ready (fst s) l', snd s) Ha) as [a ->]. by rewrite bind_ret_l.
Qed.

Lemma exchange_ok s t e x m σ X σ1 rin rout :
  e_idle s t e x m σ → first_messages σ (x_chunks X) σ1 [x_text X] → text_ok (x_text X) → text_ok (response_text (x_text X)) →
  pieces (wire (response_text (x_text X))) (x_pieces X) →
  incoming (kern (snd s)) (stream_fd t) = arrives (x_chunks X) ++ rin →
  outgoing (kern (snd s)) (stream_fd t) = (Taken <$> x_pieces X) ++ rout →
  ∃ s' t' e' x' m', (s0 ← post_read s; run_exchange (rlstream_ref t) X s0) = post_read s' ∧ e_idle s' t' e' x' m' σ1 ∧
    incoming (kern (snd s')) (stream_fd t) = rin ∧ outgoing (kern (snd s')) (stream_fd t) = rout ∧
    sent (kern (snd s')) (stream_fd t) = sent (kern (snd s)) (stream_fd t) ++ wire (response_text (x_text X)) ∧
    rlstream_ref t' = rlstream_ref t ∧ stream_fd t' = stream_fd t ∧ m_app (the_app (snd s')) = m_app (the_app (snd s)).
Proof using HIO HL fns_ne.
  intros [Hr Hbuf [Hrc Hrl] [Hmw Htw] Hp Hec] Hfm Ht Hrt Hpc Hin Hout. destruct (distinct4 _ _ _ _ fns_ne) as (Hne & Hne2 & _).
  destruct (posted_read s t e x m Hr Hec) as (s0 & l & -> & Hr0 & Hrun0). rewrite bind_ret_l. unfold EchoApp.run_exchange. rewrite Hrun0.
  set (s1 := (set_ready (fst s) l, snd s)) in *.
  destruct (msg_read_ok K N (λ _ _, msg_read_callback) (λ _ _, msg_write_callback) fn_read_ready fn_try_write fn_postable_read tcp_self
    msg_self e_postable notes fd_open HL incoming outgoing sent HIO Hne2 s1 t e x m () (Some self) (x_chunks X) rin σ σ1 [x_text X]
    Hr0 Hbuf Hrc Hrl Hp Hin Hfm) as (s2 & t2 & e2 & x2 & p & y & out & b & Hrun & Hr2 & Hp2 & Hmsg & Hin2 & Hib & [Hso Happ Href Hfd Hwr Hio]).
  inversion Hmsg as [|? ? ? ? Hy Hnil Ey]. inversion Hnil. clear Ey. subst.
  fold e_call in Hrun. rewrite <- bind_assoc, Hrun. assert (is_Some (echo (m_app (the_app (snd s2))))) as Hec2 by (by rewrite Happ).
  destruct (process_ok y (x_text X) Hy Ht Hrt) as (r & rb & Hproc & Hser & Hhold).
  cbv beta. rewrite (read_callback_writes s2 y r Hec2 Hproc).
  destruct Hmw as (Hw1 & Hw2 & Hw3). set (m2 := mkMsgStream p None None (Some b) [] (m_output_buffer m) (m_write_cb m) (m_write_cb_arg m)) in *.
  assert (idle_writer t2) as Htw2 by (unfold idle_writer in *; by rewrite Hwr).
  destruct (Hso (stream_fd t2)) as [Hout2 Hsent2].
  destruct (msg_write_ok K N (λ _ _, msg_read_callback) (λ _ _, msg_write_callback) fn_read_ready fn_try_write fn_postable_read tcp_self
    msg_self e_postable notes fd_open incoming outgoing sent HIO s2 t2 e2 x2 m2 r rb _ () (Some self) (x_pieces X) rout
    Hne Hr2 Htw2 (conj Hw1 (conj Hw2 Hw3)) Hser Hhold) as (s3 & t3 & b3 & Hrun3 & Hr3 & Htw3 & [Hsent3 Hout3 Hin3 Hap3 Href3 Hfd3 Hio3 Hnew3 _]);
    [by rewrite Hout2, Hfd|done|].
  assert (is_Some (echo (m_app (the_app (snd s3))))) as Hec3 by (by rewrite Hap3).
  rewrite (write_callback_posts s3 t3 e2 x2 (mr_open _ _ _ _ _ _ Hr3) Hec3) in Hrun3.
  exists s3, t3, e2, x2, m2. split_and!.
  - rewrite <- Hrun3. destruct (msg_stream_write _ _ _ _ _ _ _ _ s2) as [s4| |] eqn:E; [|done..]. rewrite !bind_ret_l.
    apply msg_write_keeps in E; [|by intros; eapply write_callback_keeps].
    destruct Hr2 as [[_ [He2 Hlo] Hv2 _ _ Hm2] _ _ _ _ _]. rewrite Href in *.
    erewrite after_wait_idle; [by rewrite bind_ret_l| |exact Hv2|exact Hm2].
    split; [|exact Hlo]. unfold event_at in *. by rewrite E.
  - destruct Hib as (iob' & Hib & Hus). constructor; try done.
    intros b' Hb'. injection Hb' as <-. exists iob'. split; [|done]. rewrite Hio3; [done|]. intros ->. by rewrite Hnew3 in Hib.
  - by rewrite Hin3.
  - by rewrite <- Hfd.
  - by rewrite <- Hfd, Hsent3, Hsent2.
  - by rewrite Href3.
  - by rewrite Hfd3.
  - by rewrite Hap3, Happ.
Qed.

Lemma exchanges_ok xs : ∀ s t e x m σ σ' rin rout,
  e_idle s t e x m σ → session σ xs σ' → incoming (kern (snd s)) (stream_fd t) = session_in xs ++ rin →
  outgoing (kern (snd s)) (stream_fd t) = session_out xs ++ rout →
  ∃ s' t' e' x' m', (s0 ← post_read s; run_exchanges (rlstream_ref t) xs s0) = post_read s' ∧ e_idle s' t' e' x' m' σ' ∧
    incoming (kern (snd s')) (stream_fd t) = rin ∧ outgoing (kern (snd s')) (stream_fd t) = rout ∧
    sent (kern (snd s')) (stream_fd t) = sent (kern (snd s)) (stream_fd t) ++ responses xs ∧
    m_app (the_app (snd s')) = m_app (the_app (snd s)).
Proof using HIO HL fns_ne.
  induction xs as [|X xs IH]; intros s t e x m σ σ' rin rout Hid Hse Hin Hout.
  - exists s, t, e, x, m. cbn [session] in Hse. subst σ'. unfold responses. cbn [EchoApp.run_exchanges fmap list_fmap concat].
    rewrite bind_ret_r, app_nil_r. by split_and!.
  - destruct Hse as (σ1 & Hfm & Ht & Hrt & Hpc & Hse). unfold session_in, session_out in Hin, Hout.
    cbn [fmap list_fmap concat] in Hin, Hout. rewrite <- app_assoc in Hin, Hout.
    destruct (exchange_ok s t e x m σ X σ1 _ _ Hid Hfm Ht Hrt Hpc Hin Hout)
      as (s1 & t1 & e1 & x1 & m1 & Hrun & Hid1 & Hin1 & Hout1 & Hsent1 & Hr1 & Hf1 & Ha1).
    destruct (IH s1 t1 e1 x1 m1 σ1 σ' rin rout Hid1 Hse) as (s' & t' & e' & x' & m' & Hrun' & Hid' & Hin' & Hout' & Hsent' & Ha');
      [by rewrite Hf1|by rewrite Hf1|].
    rewrite Hr1, Hf1 in *. exists s', t', e', x', m'. split_and!; try done.
    + cbn [EchoApp.run_exchanges]. rewrite <- bind_assoc, Hrun. exact Hrun'.
    + rewrite Hsent', Hsent1, <- app_assoc. done.
    + by rewrite Ha'.
Qed.

Lemma run_posts s t e x m σ cb a :
  e_idle s t e x m σ → ∃ s1, echo_app_run (Some cb) (Some a) s = post_read s1 ∧ e_idle s1 t e x m σ ∧
    kern (snd s1) = kern (snd s) ∧ m_app (the_app (snd s1)) = mkEApp (Some (mkEcho (Ptr cb) (Ptr a))) (e_rest (m_app (the_app (snd s)))).
Proof.
  intros [Hr Hbuf Hrd Hw Hp Hec]. pose proof Hr as [[Ht [He _] _ _ _ _] _ _ _ _ _].
  exists (w_echo (Some (mkEcho (Ptr cb) (Ptr a))) s). split_and!; [| |done|done].
  - unfold echo_app_run. destruct (the_echo_ok s Hec) as [ea ->]. rewrite bind_ret_l. unfold msg_stream_get_runloop, the_tcp.
    cbn [w_echo w_app snd tcp]. rewrite Ht. cbn [deref]. rewrite bind_ret_l.
    match goal with |- context [event_at ?q ?s'] => change (event_at q s') with (event_at q s) end. by rewrite He, !bind_ret_l.
  - destruct Hr as [[] ? ? ? ? ?]. by constructor.
Qed.

(** An open stream whose objects can be freed. *)
Record closable (s : st) (t : tcp_stream) (e : RunloopEvent fn arg_t) (x : stream_t fn arg_t)
    (m : MsgStream (P := P) (M := M) (arg_t := arg_t) (mrcb := unit) (mwcb := unit)) (σ : S) : Prop := {
  cl_open : open_tcp fd_open s t e x;
  cl_msg : msgs (the_app (snd s)) = Some m;
  cl_in : ∃ b, m_input_buffer m = Some b ∧ is_Some (iobs (snd s) !! b);
  cl_out : m_output_buffer m = None;
  cl_parser : state_is (msg_parser_ref m) σ
}.

Lemma end_ok s t e x m σ cb a er rest :
  e_idle s t e x m σ → echo (m_app (the_app (snd s))) = Some (mkEcho (Ptr cb) (Ptr a)) →
  incoming (kern (snd s)) (stream_fd t) = End er :: rest →
  ∃ s0, post_read s = Ret s0 ∧
    if er =? 0 then run_posted 1 s0 = AssertFail
    else ∃ s' t' e' x' m', run_posted 1 s0 = call_done cb (Some a) er (w_echo (Some (mkEcho Null Null)) s') ∧
      closable s' t' e' x' m' σ ∧ rlstream_ref t' = rlstream_ref t ∧ m_app (the_app (snd s')) = m_app (the_app (snd s)) ∧
      event_table (fst s') = event_table (fst s) ∧ fl_rep (ready_list (fst s')) [].
Proof using HIO HL fns_ne.
  intros [Hr Hbuf [Hrc Hrl] [Hmw _] Hp Hec] Ha Hin. destruct (posted_read s t e x m Hr Hec) as (s0 & l & -> & Hr0 & Hrun0).
  exists s0. split; [done|]. rewrite Hrun0.
  pose proof (msg_end_ok K N (λ _ _, msg_read_callback) (λ _ _, msg_write_callback) fn_read_ready fn_try_write fn_postable_read tcp_self
    msg_self e_postable notes fd_open HL incoming outgoing sent HIO _ t e x m () (Some self) er rest Hr0 Hbuf Hrc Hrl Hin) as He.
  destruct (er =? 0) eqn:E; [exact He|]. destruct He as (s' & t' & e' & x' & b & -> & Hr' & [_ Happ Href _ _ _] & Hb & Hloop).
  cbn [snd] in Happ. exists s', t', e', x', (mkMsgStream (msg_parser_ref m) None None (Some b) [] (m_output_buffer m) (m_write_cb m) (m_write_cb_arg m)).
  split_and!; [|constructor; [apply Hr'|apply Hr'|by exists b|apply Hmw|done]|done|done|by rewrite Hloop|by rewrite Hloop; apply Hr0].
  unfold msg_read_callback, the_echo at 1. rewrite Happ, Ha. cbn [deref]. rewrite bind_ret_l, E. cbn [negb].
  unfold invoke_done_callback, the_echo. rewrite Happ, Ha. cbn [deref]. rewrite bind_ret_l. cbn [done_cb done_arg load deref]. by rewrite !bind_ret_l.
Qed.

(** Freeing the application gives the entry of its stream back, and leaves the program
    outside it alone. *)
Lemma free_ok s t e x m σ ea a :
  closable s t e x m σ → echo (m_app (the_app (snd s))) = Some ea →
  table_rep (event_table (fst s)) a → rlstream_ref t ∈ seen a → Zlen (free a) < EVT_MAX →
  ∃ s', echo_app_free s = Ret s' ∧ m_app (the_app (snd s')) = mkEApp None (e_rest (m_app (the_app (snd s)))) ∧
    gives_back (rlstream_ref t) a (fst s) (fst s') ∧ kern (snd s') = forget_stream K (kqueue_fd (fst s)) (stream_fd t) (kern (snd s)).
Proof using HL MsgLaws0.
  intros [[Ht Hl Hv Hfd Ho _] Hm (b & Hib & Hb) Hob Hp] He Ha Hin Hroom. unfold echo_app_free, msg_stream_free, tcp_stream_free, the_tcp.
  rewrite (the_msg_ok s m Hm), bind_ret_l, Ht. cbn [deref]. rewrite bind_ret_l. rewrite <- Hfd in *.
  destruct (stream_free_ok (kq_world K) _ _ (lift_laws K notes fd_open HL) _ _ _ s a Hl Hv Ho Ha Hin Hroom) as (s1 & -> & Hgb & Hk1).
  assert (the_app (snd s1) = the_app (snd s) ∧ iobs (snd s1) = iobs (snd s) ∧ kern (snd s1) = forget_stream K (kqueue_fd (fst s)) (s_fd x) (kern (snd s)))
    as (Happ & Hio & Hke).
  { rewrite Hk1. unfold forget_stream, kq_world, kq_lift. cbn [kevent close fst]. destruct (kevent K _ _ 0 None _) as [k1 r1]. cbn [fst on_kern kern].
    by destruct (close K _ k1). }
  rewrite bind_ret_l. destruct (parser_free_law _ _ Hp) as (r & ->). rewrite bind_ret_l, Hib, Hob. unfold free_iob, the_iob. rewrite Hio.
  destruct Hb as [iob ->]. cbn [deref]. rewrite !bind_ret_l. eexists. split; [reflexivity|]. cbn. rewrite Happ. by split_and!.
Qed.

(** ** Properties *)

(** C2: The server answers: once [echo_app_run] has been called on an open idle stream, for
    any requests, each arriving cut into any parts after any number of events that bring
    nothing, and each response taken by the socket in any pieces, the loop reads each
    request and sends exactly the response to it, framed, in order, and nothing else; and
    after each exchange the application has posted the next read, on a stream that is idle
    again. The callback of the server is not called. *)
Theorem echo_app_serves xs s t e x m σ σ' cb a rin rout :
  e_idle s t e x m σ → session σ xs σ' → incoming (kern (snd s)) (stream_fd t) = session_in xs ++ rin →
  outgoing (kern (snd s)) (stream_fd t) = session_out xs ++ rout →
  ∃ s' t' e' x' m', (s0 ← echo_app_run (Some cb) (Some a) s; run_exchanges (rlstream_ref t) xs s0) = post_read s' ∧
    e_idle s' t' e' x' m' σ' ∧ incoming (kern (snd s')) (stream_fd t) = rin ∧ outgoing (kern (snd s')) (stream_fd t) = rout ∧
    sent (kern (snd s')) (stream_fd t) = sent (kern (snd s)) (stream_fd t) ++ responses xs ∧
    m_app (the_app (snd s')) = mkEApp (Some (mkEcho (Ptr cb) (Ptr a))) (e_rest (m_app (the_app (snd s)))).
Proof using HIO HL fns_ne.
  intros Hid Hse Hin Hout. destruct (run_posts s t e x m σ cb a Hid) as (s1 & -> & Hid1 & Hk & Ha). rewrite <- Hk in *.
  destruct (exchanges_ok xs s1 t e x m σ σ' rin rout Hid1 Hse Hin Hout) as (s' & t' & e' & x' & m' & Hrun & Hid' & Hin' & Hout' & Hs' & Ha').
  exists s', t', e', x', m'. by rewrite Ha', Ha.
Qed.

(** The end of a connection: when the posted read finds it, the callback of the server
    is called once with its argument and the number that an earlier call has left; when
    that number is 0, which is no error, the whole program aborts. *)
Theorem echo_app_end s t e x m σ cb a er rest :
  e_idle s t e x m σ → echo (m_app (the_app (snd s))) = Some (mkEcho (Ptr cb) (Ptr a)) →
  incoming (kern (snd s)) (stream_fd t) = End er :: rest →
  ∃ s0, post_read s = Ret s0 ∧
    if er =? 0 then run_posted 1 s0 = AssertFail
    else ∃ s', run_posted 1 s0 = call_done cb (Some a) er s' ∧ m_app (the_app (snd s')) = mkEApp (Some (mkEcho Null Null)) (e_rest (m_app (the_app (snd s)))).
Proof using HIO HL fns_ne.
  intros Hid Ha Hin. destruct (end_ok s t e x m σ cb a er rest Hid Ha Hin) as (s0 & Hp & H). exists s0. split; [done|].
  destruct (er =? 0); [done|]. destruct H as (s' & _ & _ & _ & _ & -> & _ & _ & Happ & _). eexists. split; [done|]. cbn. by rewrite Happ.
Qed.
End EchoApp.

(** ** Witnesses: the demonstration protocol on a kernel that follows its scripts *)

Abbreviation ex_eapp := (mapp (M := DemoMsg) (P := DemoMsgParser) (arg_t := nat) (mrcb := unit) (mwcb := unit)
  (App := eapp (arg_t := nat) (dcb := nat) (App := list (nat * option nat * Z)))).
Abbreviation ex_est := (Runloop nat nat * world (arg_t := nat) (KW := ex_tk) (App := ex_eapp) (rcb := unit) (wcb := unit))%type.
(** The server keeps the calls made to it. *)
Definition ex_done (cb : nat) (a : option nat) (er : Z) (s : ex_est) : outcome ex_est :=
  Ret (w_app (mkMApp (msgs (the_app (snd s)))
    (mkEApp (echo (m_app (the_app (snd s)))) (e_rest (m_app (the_app (snd s))) ++ [(cb, a, er)]))) s).
Definition ex_eother (g : nat) (a : option nat) (s : ex_est) : outcome ex_est := Ub.

Definition ex_etcp : TcpStream (arg_t := nat) (rcb := unit) (wcb := unit) :=
  mkTcp 0 5 (mkReader RD_STATE_INITIAL Null Null Null) (mkWriter WRT_STATE_INITIAL Null Null Null).
Definition ex_emsg : MsgStream (M := DemoMsg) (P := DemoMsgParser) (arg_t := nat) (mrcb := unit) (mwcb := unit) :=
  mkMsgStream demo_msg_parser_new None None None [] None None None.
Definition ex_estate (a : EchoApp (arg_t := nat) (dcb := nat)) (ain : list arrival) (out : list room) : ex_est :=
  (fst (ex_ts None [] [] []), mkWorld (Some ex_etcp) ∅ (ex_tk1 5 ain out) (mkMApp (Some ex_emsg) (mkEApp (Some a) []))).

Lemma ex_e_idle a ain out :
  e_idle ex_topen (ex_estate a ain out) ex_etcp (ex_tevent None) (ex_tstream None) ex_emsg (start (M := DemoMsg) (P := DemoMsgParser)).
Proof. by constructor. Qed.

(** Two requests: one in two parts, the second of which comes after an event without
    bytes, the other at once; the first response is taken in two pieces. *)
Definition ex_hi : exchange := mkExchange [(0%nat, CH_STX :: bytes "h"); (1%nat, bytes "i" ++ [CH_ETX])] [7; 50] (bytes "hi").
Definition ex_yo : exchange := mkExchange [(0%nat, CH_STX :: bytes "yo" ++ [CH_ETX])] [50] (bytes "yo").
Definition ex_session : list exchange := [ex_hi; ex_yo].

Lemma ex_session_ok : session (M := DemoMsg) (P := DemoMsgParser) start ex_session start.
Proof.
  unfold ex_session. cbn [session]. exists start. split_and!; [|done|done| |].
  - exists (Inside, bytes "h"). by split_and!.
  - vm_compute. done.
  - exists start. split_and!; [by split_and!|done..|vm_compute; done|done].
Qed.

Lemma ex_fns : NoDup [1%nat; 2%nat; 3%nat; 4%nat].
Proof. by apply (bool_decide_unpack _). Qed.

Definition ex_serving : ex_est := ex_estate (mkEcho Unset Unset) (session_in ex_session) (session_out ex_session).
Definition ex_serve_run : outcome ex_est :=
  s0 ← echo_app_run 4%nat 9%nat (Some 30%nat) (Some 31%nat) ex_serving;
  run_exchanges (e_call ex_tkq ex_tnet ex_done 1%nat 2%nat 3%nat 4%nat 7%nat 8%nat 9%nat ex_eother) 0 ex_session s0.

Example ex_serve_run_sends :
  (s ← ex_serve_run; Ret (ex_sent (kern (snd s)) 5)) =
    Ret (CH_STX :: bytes "ServerResponse:[hi]" ++ CH_ETX :: CH_STX :: bytes "ServerResponse:[yo]" ++ [CH_ETX]).
Proof. vm_compute. reflexivity. Qed.

Lemma echo_app_serves_witness :
  ∃ s' t' e' x' m', ex_serve_run = runloop_post (Some 4%nat) (Some 9%nat) s' ∧
    e_idle ex_topen s' t' e' x' m' (start (M := DemoMsg) (P := DemoMsgParser)) ∧
    ex_sent (kern (snd s')) 5 = responses (M := DemoMsg) (P := DemoMsgParser) ex_session.
Proof.
  destruct (echo_app_serves ex_tkq ex_tnet ex_done 1%nat 2%nat 3%nat 4%nat 7%nat 8%nat 9%nat ex_eother ex_tnotes ex_topen ex_tlaws
    _ _ _ ex_io_laws ex_fns ex_session ex_serving ex_etcp (ex_tevent None) (ex_tstream None) ex_emsg start start 30%nat 31%nat [] []
    (ex_e_idle _ _ _) ex_session_ok eq_refl eq_refl) as (s' & t' & e' & x' & m' & Hrun & Hid & _ & _ & Hs & _).
  exists s', t', e', x', m'. split; [exact Hrun|]. split; [exact Hid|exact Hs].
Defined.

Definition ex_closed : ex_est := ex_estate (mkEcho (Ptr 30%nat) (Ptr 31%nat)) [End 104] [].

Lemma echo_app_end_witness :
  ∃ s0 s', runloop_post (Some 4%nat) (Some 9%nat) ex_closed = Ret s0 ∧
    run_posted (e_call ex_tkq ex_tnet ex_done 1%nat 2%nat 3%nat 4%nat 7%nat 8%nat 9%nat ex_eother) 1 s0 =
      ex_done 30%nat (Some 31%nat) 104 s'.
Proof.
  destruct (echo_app_end ex_tkq ex_tnet ex_done 1%nat 2%nat 3%nat 4%nat 7%nat 8%nat 9%nat ex_eother ex_tnotes ex_topen ex_tlaws
    _ _ _ ex_io_laws ex_fns ex_closed ex_etcp (ex_tevent None) (ex_tstream None) ex_emsg start 30%nat 31%nat 104 []
    (ex_e_idle _ _ _) eq_refl eq_refl) as (s0 & Hp & s' & Hrun & _).
  exists s0, s'. split; [exact Hp|exact Hrun].
Defined.
