(* ===== verification/EchoPhases.v ===== *)
(** * EchoPhases: one connection of the echo application, turn by turn
    (src/apps/server_apps/echo_app.c and the layers below it)

    Between two calls of the loop a connection is in one of four phases: its read is
    posted, a further read of the same message is posted, it waits for its event, or the
    rest of a response is posted. What one call does is stated for any loop, whatever
    else is ready: the phase it leads to, and that it touches nothing but its own event,
    its own descriptor and its own objects. *)

From S2P Require Import Prelude Cbuffer IOBuffer DemoMsg MsgFormat SocketFunctions FunctorList EventTable KqRunloop KqHelpers KqWatchers TcpStream AsyncMsgStream EchoApp.
Open Scope Z_scope.

Inductive phase := Reading | More | Waiting | Writing (left_over : list byte) | Ended.
Definition left_of (φ : phase) : list byte := match φ with Writing bs => bs | _ => [] end.

Section EchoPhases.
Context {M P S : Type} `{!MsgOps M P}.
Context {fn arg_t KW App dcb address : Type} `{EqDecision fn, EqDecision arg_t}.
Abbreviation mapp := (mapp (P := P) (M := M) (arg_t := arg_t) (mrcb := unit) (mwcb := unit) (App := eapp (arg_t := arg_t) (dcb := dcb) (App := App))).
Abbreviation world := (world (arg_t := arg_t) (KW := KW) (App := mapp) (rcb := unit) (wcb := unit)).
Abbreviation st := (Runloop fn arg_t * world)%type.
Abbreviation tcp_stream := (TcpStream (arg_t := arg_t) (rcb := unit) (wcb := unit)).
Abbreviation msg_stream := (MsgStream (P := P) (M := M) (arg_t := arg_t) (mrcb := unit) (mwcb := unit)).

Variable K : kqueue_sys KW.
Variable N : net KW address.
Variable call_done : dcb → option arg_t → Z → st → outcome st.
Variable fn_read_ready fn_try_write fn_postable_read fn_echo_read : fn.
Variable tcp_self msg_self self : arg_t.
Variable other_call : fn → option arg_t → st → outcome st.
Abbreviation e_call := (e_call K N call_done fn_read_ready fn_try_write fn_postable_read fn_echo_read tcp_self msg_self self other_call).
Abbreviation on_read_msg := (λ (_ : unit) (_ : option arg_t), msg_read_callback N call_done fn_try_write fn_echo_read tcp_self msg_self self).
Abbreviation on_written_msg := (λ (_ : unit) (_ : option arg_t), msg_write_callback (M := M) (P := P) (KW := KW) (App := App) (dcb := dcb) fn_echo_read self).
Abbreviation on_read := (λ (_ : unit) (_ : option arg_t), tcp_read_callback on_read_msg fn_postable_read msg_self).
Abbreviation on_written := (λ (_ : unit) (_ : option arg_t), tcp_write_callback on_written_msg).
Abbreviation try_read := (TcpStream.try_read K N on_read fn_read_ready tcp_self).
Abbreviation try_write := (TcpStream.try_write N on_written fn_try_write tcp_self).

Context `{!MsgLaws M P S}.
Context (notes : KW → Z → gmap (Z * Z) note) (fd_open : KW → Z → bool) (HL : kqueue_laws K notes fd_open).
Context (incoming : KW → Z → list arrival) (outgoing : KW → Z → list room) (sent : KW → Z → list byte).
Context (HIO : io_laws K N notes fd_open incoming outgoing sent).
Abbreviation open_tcp := (open_tcp fd_open).
Abbreviation pending := (pending fd_open).
Abbreviation wpending := (wpending fd_open).
Abbreviation watching := (watching (wnotes notes)).

(** The event of the stream, its descriptor, and what the server has given. *)
Variable p f : Z.
Variable dc : dcb.
Variable da : arg_t.
(** Whether the end of its stream comes with errno 0, which an earlier call has left. *)
Variable silent : bool.

(** ** The invariant of a connection *)

(** In every phase: the stream is open, [σ] is the state of the parser and [ts] are the
    messages it has found that are not yet delivered. *)
Record common (s : st) (t : tcp_stream) (e : RunloopEvent fn arg_t) (x : stream_t fn arg_t) (m : msg_stream) (σ : S) (ts : list (list byte)) : Prop := {
  co_open : open_tcp s t e x;
  co_handler : handler e = Some H_stream;
  co_ref : rlstream_ref t = p;
  co_fd : stream_fd t = f;
  co_can : can_read (read_state (reader t)) = true;
  co_msg : msgs (the_app (snd s)) = Some m;
  co_parser : state_is (msg_parser_ref m) σ;
  co_list : Forall2 msg_text (input_message_list m) ts;
  co_buffer : buffer_ready s m;
  co_echo : echo (m_app (the_app (snd s))) = Some (mkEcho (Ptr dc) (Ptr da))
}.

(** A read of a message is under way, and has found none yet. *)
Definition asked (m : msg_stream) (ts : list (list byte)) : Prop := m_read_cb m = Some () ∧ m_read_cb_arg m = Some self ∧ ts = [].
Definition in_phase (φ : phase) (s : st) (t : tcp_stream) (e : RunloopEvent fn arg_t) (x : stream_t fn arg_t) (m : msg_stream) (ts : list (list byte)) : Prop :=
  match φ with
  | Reading => idle_reader t ∧ m_read_cb m = None ∧ idle_writer t ∧ m_idle_write m
  | More => idle_reader t ∧ asked m ts ∧ is_Some (m_input_buffer m) ∧ idle_writer t ∧ m_idle_write m
  | Waiting => ∃ b iob, m_input_buffer m = Some b ∧ pending s t e x b () (Some msg_self) iob ∧ usable iob ∧ calls_back fn_read_ready tcp_self x ∧
      asked m ts ∧ idle_writer t ∧ m_idle_write m ∧ watching s !! KqWatchers.on_read f = Some (armed_note p false)
  | Writing bs => idle_reader t ∧ m_read_cb m = None ∧ bs ≠ [] ∧
      ∃ b, wpending s t e x b () (Some msg_self) bs ∧ m_write_cb m = Some () ∧ m_write_cb_arg m = Some self ∧ m_output_buffer m = Some b ∧ m_input_buffer m ≠ Some b
  | Ended => False
  end.

(** What the loop still has to call. *)
Definition posted (φ : phase) : list (fn * arg_t) :=
  match φ with Reading => [(fn_echo_read, self)] | More => [(fn_postable_read, msg_self)] | Writing _ => [(fn_try_write, tcp_self)] | _ => [] end.

(** The reads to come bring the messages [o], cut anywhere, and then the end. *)
Fixpoint feeds (σ : S) (ar : list arrival) (o : list (list byte)) : Prop :=
  match ar with
  | [] => False
  | Nothing :: ar => feeds σ ar o
  | Bytes bs :: ar => 0 < Zlen bs ≤ 4096 ∧ ∃ σ1 o1 o2, parse σ bs = Some (σ1, o1) ∧ o = o1 ++ o2 ∧ feeds σ1 ar o2
  | End er :: _ => (er = 0 ↔ silent = true) ∧ o = []
  | Fail er :: _ => er ≠ 0 ∧ er ≠ KQ_EAGAIN ∧ silent = false ∧ o = []
  end.
Definition takes_some (r : room) : Prop := ∃ n, r = Taken n ∧ 0 < n.
Definition answerable (t : list byte) : Prop := text_ok t ∧ text_ok (response_text t).
Definition replies (ts : list (list byte)) : list byte := concat ((λ t, wire (response_text t)) <$> ts).

(** What is sent, what is left of the response being written, and the responses to the
    messages found and to those to come are together [total]; the socket has room. *)
Definition owes (k : KW) (σ : S) (ts : list (list byte)) (bs total : list byte) : Prop :=
  ∃ o, feeds σ (incoming k f) o ∧ sent k f ++ bs ++ replies (ts ++ o) = total ∧ Forall answerable (ts ++ o) ∧
    Forall takes_some (outgoing k f) ∧ (length (bs ++ replies (ts ++ o)) <= length (outgoing k f))%nat.

Definition conn_inv (φ : phase) (s : st) (total : list byte) : Prop :=
  ∃ t e x m σ ts, common s t e x m σ ts ∧ in_phase φ s t e x m ts ∧ owes (kern (snd s)) σ ts (left_of φ) total.

(** ** What a call leaves alone *)

Record quiet (s s' : st) : Prop := {
  qu_loop : loop_upto p (fst s) (fst s');
  qu_in : ∀ g, g ≠ f → incoming (kern (snd s')) g = incoming (kern (snd s)) g;
  qu_out : ∀ g, g ≠ f → outgoing (kern (snd s')) g = outgoing (kern (snd s)) g ∧ sent (kern (snd s')) g = sent (kern (snd s)) g;
  qu_open : ∀ d, fd_open (kern (snd s')) d = fd_open (kern (snd s)) d;
  qu_notes : ∀ k, k ≠ KqWatchers.on_read f → watching s' !! k = watching s !! k;
  qu_own : watching s' !! KqWatchers.on_read f = watching s !! KqWatchers.on_read f ∨ watching s' !! KqWatchers.on_read f = Some (armed_note p false);
  qu_rest : e_rest (m_app (the_app (snd s'))) = e_rest (m_app (the_app (snd s)));
  qu_steps : rtc (io_step K N f) (kern (snd s)) (kern (snd s'))
}.

(** The reads and writes of the connection that are to come. *)
Definition work (k : KW) : nat := length (incoming k f) + length (outgoing k f).

(** What a call comes to: a new phase, with its functor posted; or the end, with all of
    [total] sent, where [k] is left to do when the server has been told; or, when the end
    comes with errno 0, the abort of the process. *)
Definition posts (l : list (fn * arg_t)) (s s' : st) : Prop :=
  match l with [] => s' = s | (g, a) :: _ => runloop_post (Some g) (Some a) s = Ret s' end.
Definition proceeds (s : st) (total : list byte) (o : outcome st) : Prop :=
  ∃ s1 s' φ, quiet s s1 ∧ posts (posted φ) s1 s' ∧ o = Ret s' ∧ conn_inv φ s' total ∧ (work (kern (snd s')) < work (kern (snd s)))%nat.
Definition finishes (s : st) (total : list byte) (k : st → outcome st) (o : outcome st) : Prop :=
  ∃ er s' t e x m σ, quiet s s' ∧ o = (s2 ← call_done dc (Some da) er (w_echo (Some (mkEcho Null Null)) s'); k s2) ∧
    closable fd_open s' t e x m σ ∧ rlstream_ref t = p ∧ stream_fd t = f ∧ sent (kern (snd s')) f = total ∧ silent = false ∧ (work (kern (snd s')) < work (kern (snd s)))%nat.
Definition aborts (o : outcome st) : Prop := o = AssertFail ∧ silent = true.
Definition turns (s : st) (total : list byte) (k : st → outcome st) (o : outcome st) : Prop := proceeds s total o ∨ finishes s total k o ∨ aborts o.

(** The ready list has a place left. *)
Definition can_post (s : st) : Prop := ∃ fs, fl_rep (ready_list (fst s)) fs ∧ Zlen fs + 1 < capacity (ready_list (fst s)).

(** ** Lemmas *)

Lemma quiet_refl s : quiet s s.
Proof. constructor; try done. by left. Qed.

Lemma quiet_trans s1 s2 s3 : quiet s1 s2 → quiet s2 s3 → quiet s1 s3.
Proof.
  intros [L1 I1 O1 P1 N1 W1 R1 S1] [L2 I2 O2 P2 N2 W2 R2 S2]. constructor; [by eapply loop_upto_trans|..|congruence|by eapply rtc_trans].
  - intros g Hg. by rewrite I2, I1.
  - intros g Hg. destruct (O2 g Hg) as [-> ->]. by apply O1.
  - intros d. by rewrite P2, P1.
  - intros k Hk. by rewrite N2, N1.
  - destruct W2 as [->|H]; [done|by right].
Qed.

(** Changes of the connection's own objects. *)
Lemma quiet_own (s : st) w' :
  kern w' = kern (snd s) → e_rest (m_app (the_app w')) = e_rest (m_app (the_app (snd s))) → quiet s (fst s, w').
Proof.
  intros Hk Hr. assert (watching (fst s, w') = watching s) as Hw by (unfold KqHelpers.watching, wnotes; cbn; by rewrite Hk).
  constructor; cbn; rewrite ?Hk, ?Hw; try done. by left.
Qed.

Lemma can_post_quiet s s' : quiet s s' → can_post s → can_post s'.
Proof. intros [[Hr _ _ _ _] _ _ _ _ _ _ _] (fs & H1 & H2). exists fs. by rewrite Hr. Qed.

Lemma turn_post_ok g a s : can_post s → ∃ l fs, runloop_post (Some g) (Some a) s = Ret (set_ready (fst s) l, snd s) ∧
  fl_rep (ready_list (fst s)) fs ∧ fl_rep l (fs ++ [mkFunctor (Some g) (Some a)]) ∧ capacity l = capacity (ready_list (fst s)).
Proof.
  intros (fs & Hr & Hc). destruct (fl_add_ok _ _ (mkFunctor (Some g) (Some a)) Hr Hc) as (l & Hl & Hr' & Hc').
  exists l, fs. split_and!; try done. destruct s as [rl w]. unfold runloop_post. rewrite !bool_decide_true by eauto. cbn [c_assert fst snd] in *.
  by rewrite !bind_ret_l, Hl.
Qed.

(** What a connection is about has not changed. *)
Record untouched (s s' : st) : Prop := {
  un_tcp : tcp (snd s') = tcp (snd s);
  un_iobs : iobs (snd s') = iobs (snd s);
  un_msgs : msgs (the_app (snd s')) = msgs (the_app (snd s));
  un_echo : echo (m_app (the_app (snd s'))) = echo (m_app (the_app (snd s)));
  un_event : get_event (event_table (fst s')) p = get_event (event_table (fst s)) p;
  un_in : incoming (kern (snd s')) f = incoming (kern (snd s)) f;
  un_out : outgoing (kern (snd s')) f = outgoing (kern (snd s)) f;
  un_sent : sent (kern (snd s')) f = sent (kern (snd s)) f;
  un_open : fd_open (kern (snd s')) (u64 f) = fd_open (kern (snd s)) (u64 f);
  un_watch : watching s' !! KqWatchers.on_read f = watching s !! KqWatchers.on_read f
}.

Lemma open_untouched s s' t e x : open_tcp s t e x → rlstream_ref t = p → stream_fd t = f → untouched s s' → open_tcp s' t e x.
Proof.
  intros [Ht [He Hr] Hv Hfd Ho Hm] Href Hf Hun. rewrite Href in He. constructor; try done.
  - by rewrite (un_tcp _ _ Hun).
  - split; [|done]. unfold event_at in *. by rewrite Href, (un_event _ _ Hun).
  - unfold wopen in *. rewrite Hf in *. by rewrite (un_open _ _ Hun).
Qed.

Lemma conn_untouched φ s s' total : conn_inv φ s total → untouched s s' → conn_inv φ s' total.
Proof.
  intros (t & e & x & m & σ & ts & Hco & Hph & How) Hun. pose proof Hun as [Ht Hi Hm He _ Hin Hout Hse _ Hw].
  exists t, e, x, m, σ, ts. split; [|split].
  - destruct Hco. constructor; rewrite ?Hm, ?He; try done; [by eapply open_untouched|]. intros b Hb. rewrite Hi. auto.
  - destruct Hco as [_ _ Href Hfd _ _ _ _ _ _]. destruct φ; try done.
    + destruct Hph as (b & iob & ? & [] & ?). exists b, iob. rewrite Hw. split; [done|]. split; [|done].
      constructor; rewrite ?Hi; try done. by eapply open_untouched.
    + destruct Hph as (? & ? & ? & b & [] & ?). do 3 (split; [done|]). exists b. split; [|done].
      constructor; rewrite ?Hi; try done. by eapply open_untouched.
  - unfold owes. by rewrite Hin, Hout, Hse.
Qed.

(** The ready list is nothing to a connection. *)
Lemma conn_ready φ s total l : conn_inv φ s total → conn_inv φ (set_ready (fst s) l, snd s) total.
Proof. intros H. eapply conn_untouched; [exact H|]. by constructor. Qed.

(** A write takes part of what is owed. *)
Lemma owes_write k k' σ ts bs total n rest :
  owes k σ ts bs total → bs ≠ [] → 0 < n → outgoing k f = Taken n :: rest → incoming k' f = incoming k f → outgoing k' f = rest →
  sent k' f = sent k f ++ take (Z.to_nat n) bs → owes k' σ ts (drop (Z.to_nat n) bs) total.
Proof.
  intros (o & Hf & Hs & Ha & Ht & Hl) Hne Hn Hout Hin' Hout' Hs'. exists o. rewrite Hin', Hout', Hs'. rewrite Hout in Ht, Hl.
  split_and!; [done|by rewrite <- Hs, <- app_assoc, (app_assoc (take _ _)), take_drop|done|by inversion Ht|].
  rewrite length_app in *. rewrite length_drop. cbn [length] in Hl. destruct bs; [done|]. cbn [length] in *. lia.
Qed.

Lemma owes_room k σ ts bs total :
  owes k σ ts bs total → bs ≠ [] → ∃ n rest, outgoing k f = Taken n :: rest ∧ 0 < n.
Proof.
  intros (o & _ & _ & _ & Ht & Hl) Hne. rewrite length_app in Hl. destruct bs as [|c bs]; [done|].
  destruct (outgoing k f) as [|r rest]; [cbn in Hl; lia|]. inversion Ht as [|? ? (n & -> & Hn) _]. by exists n, rest.
Qed.

(** An attempt to write the rest of a response. *)
Lemma write_turn bs s total : conn_inv (Writing bs) s total → can_post s → proceeds s total (try_write s).
Proof using HIO.
  intros (t & e & x & m & σ & ts & Hco & (Hid & Hrc & Hne & b & Hwp & Hwc & Hwa & Hob & Hib) & How) Hcp. cbn [left_of] in How.
  destruct Hco as [Hop Hh Href Hfd Hcan Hm Hpar Hlist Hbuf Hec].
  destruct (owes_room _ _ _ _ _ How Hne) as (n & rest & Hout & Hn). rewrite <- Hfd in Hout.
  destruct (try_write_takes K N on_written fn_try_write tcp_self notes fd_open incoming outgoing sent HIO s t e x b () (Some msg_self) bs n rest
    Hwp Hout Hn Hne) as (s1 & t1 & Hp1 & Hr1 & Hf1 & Hend & Hl1 & Ha1 & Hin1 & Hout1 & Hs1 & Hi1 & Ho1 & Hn1 & Hoth & Hst & Hrun).
  rewrite Hfd in Hout, Hout1, Hs1, Hoth, Hst.
  assert (reader t1 = reader t) as Hrd by (injection (Hend 0); congruence).
  assert (quiet s s1) as Hq.
  { assert (watching s1 = watching s) as Hws by (unfold KqHelpers.watching, wnotes; by rewrite Hl1, Hn1).
    constructor; rewrite ?Hl1, ?Ha1, ?Hws; try done; [by left|by apply rtc_once]. }
  pose proof (owes_write _ (kern (snd s1)) _ _ _ _ n rest How Hne Hn Hout (Hin1 f) Hout1 Hs1) as How1.
  assert (work (kern (snd s1)) < work (kern (snd s)))%nat as Hw by (unfold work; rewrite Hin1, Hout1, Hout; cbn; lia).
  pose proof (can_post_quiet _ _ Hq Hcp) as Hcp1. rewrite Hrun. destruct (Z.leb_spec (Zlen bs) n) as [Hle|Hgt].
  - rewrite drop_ge in How1 by (unfold Zlen in Hle; lia). unfold tcp_write_callback.
    erewrite the_msg_ok by (cbn; by rewrite Ha1). rewrite bind_ret_l. unfold m_invoke_write_callback. erewrite the_msg_ok by done.
    rewrite bind_ret_l. cbn [m_write_cb]. rewrite Hwc. cbn [deref]. rewrite bind_ret_l.
    cbn [msg_parser_ref m_read_cb_arg m_read_cb m_input_buffer input_message_list m_output_buffer m_write_cb_arg].
    match goal with |- context [EchoApp.msg_write_callback _ _ _ ?w] => set (s2 := w) end.
    assert (open_tcp s2 (wended t1 WRT_STATE_READY) e x) as Hop2.
    { destruct Hp1 as [Hop1 _ _ _ _]. destruct s1 as [rl w]. by apply (open_tcp_with fd_open (rl, w) t1). }
    rewrite (write_callback_posts fn_echo_read self fd_open s2 _ e x Hop2) by (cbn; rewrite Ha1, Hec; by eexists).
    assert (quiet s1 s2) as Hq2 by (apply (quiet_own s1 (snd s2)); cbn; by rewrite ?Ha1).
    destruct (turn_post_ok fn_echo_read self s2 (can_post_quiet _ _ Hq2 Hcp1)) as (l & fs & Hpost & _).
    exists s2, (set_ready (fst s2) l, snd s2), Reading. split_and!; [by eapply quiet_trans|exact Hpost|exact Hpost| |exact Hw].
    apply conn_ready. eexists _, e, x, _, σ, ts. split; [|split].
    + constructor; try done; cbn; rewrite ?Hr1, ?Hf1, ?Hrd, ?Ha1; try done. intros b' Hb'.
      destruct (Hbuf b' Hb') as (iob & Hi & Hu). exists iob. split; [|done]. cbn. rewrite Hi1; [done|]. intros ->. by apply Hib.
    + unfold in_phase, idle_reader. cbn. by rewrite Hrd.
    + exact How1.
  - destruct (turn_post_ok fn_try_write tcp_self s1 Hcp1) as (l & fs & Hpost & _).
    exists s1, (set_ready (fst s1) l, snd s1), (Writing (drop (Z.to_nat n) bs)). split_and!; [done|exact Hpost|exact Hpost| |exact Hw].
    apply conn_ready. exists t1, e, x, m, σ, ts. split; [|split; [|done]].
    + constructor; try done; cbn; rewrite ?Hr1, ?Hf1, ?Hrd, ?Ha1; try done; [apply Hp1|]. intros b' Hb'.
      destruct (Hbuf b' Hb') as (iob & Hi & Hu). exists iob. split; [|done]. rewrite Hi1; [done|]. intros ->. by apply Hib.
    + split_and!; [by unfold idle_reader; rewrite Hrd|done| |].
      * intros E. apply (f_equal length) in E. rewrite length_drop in E. unfold Zlen in Hgt. cbn in E. lia.
      * by exists b.
Qed.

Lemma proceeds_from s s1 total o : quiet s s1 → (work (kern (snd s1)) <= work (kern (snd s)))%nat → proceeds s1 total o → proceeds s total o.
Proof. intros Hq Hw (s2 & s' & φ & H1 & H2 & H3 & H4 & H5). exists s2, s', φ. split_and!; try done; [by eapply quiet_trans|lia]. Qed.

(** A message found begins a response. *)
Lemma owes_respond k σ txt ts total :
  owes k σ (txt :: ts) [] total → answerable txt ∧ owes k σ ts (wire (response_text txt)) total.
Proof.
  intros (o & Hf & Hs & Ha & Ht & Hl). inversion Ha; subst. split; [done|]. by exists o.
Qed.

Lemma respond_turn s t e x m σ ts y txt total :
  common s t e x m σ ts → idle_reader t → m_read_cb m = None → idle_writer t → m_idle_write m → msg_text y txt →
  owes (kern (snd s)) σ (txt :: ts) [] total → can_post s → proceeds s total (on_read_msg () (Some self) (Some y) 0 s).
Proof using HIO.
  intros [Hop Hh Href Hfd Hcan Hm Hpar Hlist Hbuf Hec] Hid Hrc Hw (Hwc & Hwa & Hwb) Hy How Hcp.
  destruct (owes_respond _ _ _ _ _ How) as [[Ht Hr] How1]. destruct (process_ok y txt Hy Ht Hr) as (r & iob & Hproc & Hser & Hiok & Hid2).
  rewrite (read_callback_writes N call_done fn_try_write fn_echo_read tcp_self msg_self self _ y r) by (done || by rewrite Hec).
  unfold msg_stream_write. rewrite (the_msg_ok s m Hm), bind_ret_l, Hwc, Hwa, Hwb. cbn [is_ptr negb c_assert].
  rewrite !bind_ret_l, Hser, bind_ret_l. unfold new_iob. set (b := fresh (dom (iobs (snd s)))).
  assert (iobs (snd s) !! b = None) as Hnew by apply not_elem_of_dom, is_fresh.
  match goal with |- context [tcp_write _ _ _ _ _ _ _ ?st] => set (s1 := st) end.
  assert (open_tcp s1 t e x) as Hop1 by (by destruct Hop; constructor).
  destruct (tcp_write_starts N on_written fn_try_write tcp_self fd_open s1 t e x b () (Some msg_self) iob (wire (response_text txt)) Hop1 Hw)
    as (t1 & -> & Hp1 & Hend & Hr1 & Hf1); [apply lookup_insert_eq|done..|].
  assert (reader t1 = reader t) as Hrd by (injection (Hend 0); congruence).
  apply (proceeds_from s (w_tcp (Some t1) s1)); [by apply (quiet_own s (snd (w_tcp (Some t1) s1)))|done|].
  apply (write_turn (wire (response_text txt))); [|exact Hcp]. eexists t1, e, x, _, σ, ts. split; [|split; [|exact How1]].
  - constructor; try done; rewrite ?Hr1, ?Hf1, ?Hrd; try done; [apply Hp1|]. intros b' Hb'. destruct (Hbuf b' Hb') as (iob' & Hi & Hu).
    exists iob'. split; [|done]. cbn. rewrite lookup_insert_ne; [done|]. intros <-. by rewrite Hnew in Hi.
  - split_and!; [by unfold idle_reader; rewrite Hrd|done|apply wire_nonempty|]. exists b. split_and!; try done.
    cbn. intros Hb. destruct (Hbuf b Hb) as (iob' & Hi & _). by rewrite Hnew in Hi.
Qed.

Lemma turns_from s s1 total k o : quiet s s1 → (work (kern (snd s1)) <= work (kern (snd s)))%nat → turns s1 total k o → turns s total k o.
Proof.
  intros Hq Hw [H|[(er & s' & t & e & x & m & σ & H1 & H2 & H3 & H4 & H5 & H6 & H7 & H8)|H]]; [left; by eapply proceeds_from| |by right; right].
  right. left. exists er, s', t, e, x, m, σ. split_and!; try done; [by eapply quiet_trans|lia].
Qed.

(** What is owed when the socket gives [bs]. *)
Lemma owes_bytes k k' σ bs rest total :
  owes k σ [] [] total → incoming k f = Bytes bs :: rest → incoming k' f = rest → outgoing k' f = outgoing k f → sent k' f = sent k f →
  0 < Zlen bs ≤ 4096 ∧ ∃ σ1 ts, parse σ bs = Some (σ1, ts) ∧ owes k' σ1 ts [] total.
Proof.
  intros (o & Hf & Hs & Ha & Ht & Hl) Hin Hin' Hout' Hs'. rewrite Hin in Hf. destruct Hf as (Hlen & σ1 & o1 & o2 & Hp & -> & Hf).
  split; [done|]. exists σ1, o1. split; [done|]. exists o2. by rewrite Hin', Hout', Hs'.
Qed.

Lemma owes_nothing k k' σ rest total :
  owes k σ [] [] total → incoming k f = Nothing :: rest → incoming k' f = rest → outgoing k' f = outgoing k f → sent k' f = sent k f →
  owes k' σ [] [] total.
Proof. intros (o & Hf & Hs & Ha & Ht & Hl) Hin Hin' Hout' Hs'. exists o. rewrite Hin in Hf. by rewrite Hin', Hout', Hs'. Qed.

Lemma quiet_read s s' t b w iob rest :
  stream_fd t = f → read_done notes fd_open incoming outgoing sent s s' t b w iob rest → io_step K N (stream_fd t) (kern (snd s)) (kern (snd s')) → quiet s s'.
Proof.
  intros Hfd [Hl _ _ Ha _ Hn Ho Hou Hot] Hst. rewrite Hfd in Hot, Hst. constructor; rewrite ?Hl, ?Ha, ?Hn; try done; [by left|by apply rtc_once].
Qed.

(** The callback of a read that ends the connection. *)
Lemma end_turn s t e x m σ b er total :
  common s t e x m σ [] → m_read_cb m = Some () → m_input_buffer m = Some b → m_idle_write m → sent (kern (snd s)) f = total → er ≠ 0 →
  ∃ s', tcp_read_callback on_read_msg fn_postable_read msg_self er s = call_done dc (Some da) er (w_echo (Some (mkEcho Null Null)) s') ∧
    quiet s s' ∧ kern (snd s') = kern (snd s) ∧ ∃ m', closable fd_open s' t e x m' σ.
Proof.
  intros [Hop Hh Href Hfd Hcan Hm Hpar Hlist Hbuf Hec] Hrc Hib Hw Hs Her. unfold tcp_read_callback, msg_stream_get_runloop, the_tcp.
  pose proof Hop as [Ht [He _] _ _ _ _]. rewrite (the_msg_ok s m Hm), bind_ret_l, Ht. cbn [deref]. rewrite !bind_ret_l, He, !bind_ret_l.
  rewrite (proj2 (Z.eqb_neq _ _)) by done. unfold m_invoke_read_callback. rewrite (the_msg_ok s m Hm), bind_ret_l, Hrc. cbn [deref]. rewrite bind_ret_l.
  unfold EchoApp.msg_read_callback, the_echo at 1. cbn [w_msg w_app snd the_app m_app]. rewrite Hec. cbn [deref]. rewrite bind_ret_l.
  rewrite (proj2 (Z.eqb_neq _ _)) by done. cbn [negb]. unfold invoke_done_callback, the_echo. cbn [w_msg w_app snd the_app m_app]. rewrite Hec.
  cbn [deref]. rewrite bind_ret_l. cbn [done_cb done_arg load deref]. rewrite !bind_ret_l.
  match goal with |- context [w_echo _ ?w] => exists w; assert (open_tcp w t e x) as Hop2 by (by destruct Hop; constructor);
    assert (quiet s w) as Hq by (by apply (quiet_own s (snd w))) end.
  split_and!; [done|done|done|]. eexists. constructor; [done|reflexivity|..|done]; cbn; [|apply Hw].
  exists b. split; [done|]. destruct (Hbuf b Hib) as (iob & Hi & _). by eexists.
Qed.

(** The callback of a read that finds the end with errno 0 asserts that there are bytes. *)
Lemma silent_turn s t e x m σ b :
  common s t e x m σ [] → m_input_buffer m = Some b → tcp_read_callback on_read_msg fn_postable_read msg_self 0 s = AssertFail.
Proof.
  intros [Hop Hh Href Hfd Hcan Hm Hpar Hlist Hbuf Hec] Hib. unfold tcp_read_callback, msg_stream_get_runloop, the_tcp, the_iob.
  pose proof Hop as [Ht [He _] _ _ _ _]. rewrite (the_msg_ok s m Hm), bind_ret_l, Ht. cbn [deref]. rewrite !bind_ret_l, He, !bind_ret_l.
  cbn [Z.eqb]. rewrite Hib. cbn [deref]. rewrite bind_ret_l. destruct (Hbuf b Hib) as (iob & -> & Hok & Hd & _). cbn [deref]. rewrite bind_ret_l.
  pose proof (iob_data_size iob Hok) as Hs. rewrite Hd in Hs. change (msize []) with 0 in Hs. unfold IOBuffer_data_len. by rewrite <- Hs.
Qed.

(** The callback of a read that finds bytes: without a message it posts another read, with
    one it responds. *)
Lemma bytes_turn s0 s t e x m σ b iob bs σ1 ts total :
  open_tcp s t e x → handler e = Some H_stream → rlstream_ref t = p → stream_fd t = f → can_read (read_state (reader t)) = true →
  msgs (the_app (snd s)) = Some m → state_is (msg_parser_ref m) σ → input_message_list m = [] →
  echo (m_app (the_app (snd s))) = Some (mkEcho (Ptr dc) (Ptr da)) →
  idle_reader t → m_read_cb m = Some () ∧ m_read_cb_arg m = Some self → idle_writer t → m_idle_write m →
  m_input_buffer m = Some b → iobs (snd s) !! b = Some iob → holds iob bs → buffer_ptr iob = 0 → buffer_capacity iob = 4096 → bs ≠ [] →
  parse σ bs = Some (σ1, ts) → owes (kern (snd s)) σ1 ts [] total → can_post s →
  quiet s0 s → (work (kern (snd s)) < work (kern (snd s0)))%nat →
  proceeds s0 total (tcp_read_callback on_read_msg fn_postable_read msg_self 0 s).
Proof using HIO.
  intros Hop Hh Href Hfd Hcan Hm Hpar Hl Hec Hid [Hrc Hra] Hw Hmw Hib Hi Hho Hp0 Hc0 Hne Hparse How Hcp Hq Hwk.
  destruct (callback_parses on_read_msg fn_postable_read msg_self fd_open s t e x m b iob bs σ σ1 ts Hop Hm Hib Hi Hho Hp0 Hc0 Hne Hpar Hparse)
    as (q & out & iob' & Hq' & Hout & Hu & ->).
  set (s1 := w_msg (new_message_callback q out m) (w_iob b iob' s)).
  assert (quiet s s1) as Hqs by (by apply (quiet_own s (snd s1))). pose proof (quiet_trans _ _ _ Hq Hqs) as Hq1.
  assert (iobs (snd s1) !! b = Some iob') as Hi1 by apply lookup_insert_eq.
  destruct out as [|y out]; inversion Hout as [|? txt ? ts' Hy Ho]; subst.
  - unfold deliver_first. erewrite the_msg_ok by done. rewrite bind_ret_l. cbn [new_message_callback input_message_list]. rewrite Hl. cbn [app].
    destruct (turn_post_ok fn_postable_read msg_self s1 Hcp) as (l & fs & Hpost & _).
    exists s1, (set_ready (fst s1) l, snd s1), More. split_and!; [done|exact Hpost|exact Hpost| |exact Hwk].
    apply conn_ready. eexists t, e, x, _, σ1, []. split; [|split; [|exact How]].
    + constructor; try done; [by destruct Hop; constructor|cbn; by rewrite Hl|]. intros b' Hb'. cbn in Hb'. assert (b' = b) as -> by congruence. by exists iob'.
    + split_and!; try done; by rewrite Hib.
  - rewrite (deliver_message _ s1 (new_message_callback q (y :: out) m) () (Some self) y out); [|done|cbn; by rewrite Hl|done|done].
    set (s2 := w_msg (with_messages (msg_parser_ref (new_message_callback q (y :: out) m)) out (new_message_callback q (y :: out) m)) s1).
    apply (proceeds_from s0 s2); [eapply quiet_trans; [exact Hq1|by apply (quiet_own s1 (snd s2))]|apply Nat.lt_le_incl, Hwk|].
    eapply (respond_turn s2 t e x (with_messages q out (new_message_callback q (y :: out) m)) σ1 ts' y txt); [|done|reflexivity|done|done|done|exact How|exact Hcp].
    constructor; try done; [by destruct Hop; constructor|]. intros b' Hb'. cbn in Hb'. assert (b' = b) as -> by congruence. by exists iob'.
Qed.

(** An attempt to read. *)
Lemma read_turn s t e x m σ b iob total :
  common s t e x m σ [] → pending s t e x b () (Some msg_self) iob → usable iob → m_input_buffer m = Some b → asked m [] →
  idle_writer t → m_idle_write m → owes (kern (snd s)) σ [] [] total → can_post s → turns s total Ret (try_read s).
Proof using HIO HL other_call.
  intros Hco Hp Hu Hib Has Hw Hmw How Hcp. pose proof Hco as [Hop Hh Href Hfd Hcan Hm Hpar Hlist Hbuf Hec]. inversion Hlist as [Hl|].
  pose proof How as (o & Hfe & Hsu & _). destruct (incoming (kern (snd s)) f) as [|a rest] eqn:Hin; [done|].
  rewrite <- Hfd in Hin. 
  assert (a = Nothing ∨ fits a iob) as [->|Hft].
  { destruct a as [|bs|er|er]; [by left|right..]; cbn in Hfe; [|done|cbn; tauto]. pose proof Hu as (Hok & _ & Hp0 & _).
    split; [done|]. split; [done|]. rewrite usable_room by done. tauto. }
  - destruct (try_read_waits K N on_read fn_read_ready tcp_self notes fd_open HL incoming outgoing sent HIO s t e x b () (Some msg_self) iob rest Hp Hin)
      as (s1 & Hrun & Hp1 & Hin1 & Hi1 & Ha1 & Hr1 & Hou1 & Hw1 & Hot & Ho1 & Hl1 & Hst1).
    rewrite Hfd in *. rewrite Href in *. left. exists s1, s1, Waiting. split_and!; [|done|done| |unfold work; rewrite Hin1, Hin, (proj1 (Hou1 f)); cbn; lia].
    + constructor; try done; [by rewrite Hw1; intros; rewrite lookup_insert_ne|right; by rewrite Hw1, lookup_insert_eq|by rewrite Ha1].
    + destruct (owes_nothing _ (kern (snd s1)) _ rest _ How Hin Hin1) as (o1 & Ho); [apply Hou1|apply Hou1|].
      eexists _, _, _, m, σ, []. split; [|split; [|exists o1; exact Ho]].
      * constructor; [exact (pd_open _ _ _ _ _ _ _ _ _ Hp1)|done|done|done|done|by rewrite Ha1|done|done| |by rewrite Ha1].
        intros b' Hb'. rewrite Hi1. by apply Hbuf.
      * exists b, iob. split_and!; try done. by rewrite Hw1, lookup_insert_eq.
  - destruct (try_read_ends K N on_read fn_read_ready tcp_self notes fd_open incoming outgoing sent HIO s t e x b () (Some msg_self) iob a rest Hp Hin Hft)
      as (s1 & -> & Hd & Hst). pose proof (quiet_read s s1 t b a iob rest Hfd Hd Hst) as Hq.
    destruct Hd as [Hlo (z & Ht1 & Hz) (iob1 & Hi1 & Hrec) Ha1 Hin1 Hn1 Ho1 Hou1 _]. rewrite Hfd in *.
    assert (work (kern (snd s1)) < work (kern (snd s)))%nat as Hwk by (unfold work; rewrite Hin1, Hin, (proj1 (Hou1 f)); cbn; lia).
    assert (open_tcp s1 (ended t z) e x) as Hop1 by (destruct s1 as [rl w]; cbn in Hlo; subst rl; by apply (open_tcp_with fd_open s t)).
    assert (common (w_iob b iob s1) (ended t z) e x m σ []) as Hco1.
    { constructor; try done; [by destruct Hop1; constructor|by cbn; rewrite Ha1| |by cbn; rewrite Ha1].
      intros b' Hb'. assert (b' = b) as -> by congruence. exists iob. split; [apply lookup_insert_eq|done]. }
    assert (∀ er, iob1 = iob → status_of a = er → (er = 0 ↔ silent = true) → o = [] → turns s total Ret (on_read () (Some msg_self) er s1)) as Hend.
    { intros er -> <- Her ->. right. assert (w_iob b iob s1 = s1) as Hs1.
      { destruct s1 as [rl [? ? ? ?]]. unfold w_iob. cbn in Hi1 |- *. by rewrite Hi1, insert_insert_eq. }
      rewrite Hs1 in Hco1. destruct (decide (status_of a = 0)) as [E|E].
      { right. split; [|by apply Her]. rewrite E. by eapply (silent_turn s1 (ended t z) e x m σ b). }
      left. destruct (end_turn s1 (ended t z) e x m σ b (status_of a) total Hco1 (proj1 Has) Hib Hmw) as (s2 & Hrun & Hq2 & Hk2 & m' & Hcl); [|exact E|].
      - rewrite <- Hsu, (proj2 (Hou1 f)). cbn. by rewrite app_nil_r.
      - exists (status_of a), s2, (ended t z), e, x, m', σ. rewrite bind_ret_r, Hk2. split_and!; try done; [by eapply quiet_trans| |destruct silent; tauto].
        rewrite <- Hsu, (proj2 (Hou1 f)). cbn. by rewrite app_nil_r. }
    destruct a as [|bs|er|er]; [done| |apply Hend; (done || apply Hfe)|].
    2: { destruct Hfe as (He0 & _ & Hsi & ->). apply Hend; [done..|by rewrite Hsi|done]. }
    left. destruct (owes_bytes _ (kern (snd s1)) _ bs rest _ How Hin Hin1) as (Hlen & σ1 & ts & Hparse & How1); [apply Hou1..|].
    destruct (received_holds bs iob iob1 Hu Hrec) as (Hho & Hp0 & Hc0). destruct Has as (Hrc & Hra & _).
    eapply (bytes_turn s s1 (ended t z) e x m σ b iob1 bs σ1 ts); try done; rewrite ?Ha1; try done.
    + rewrite Hi1. apply lookup_insert_eq.
    + intros ->. unfold Zlen in Hlen. cbn in Hlen. lia.
    + by eapply can_post_quiet.
Qed.

(** A read of the socket from the start. *)
Lemma socket_turn s t e x m σ b total :
  common s t e x m σ [] → idle_reader t → m_input_buffer m = Some b → asked m [] → idle_writer t → m_idle_write m →
  owes (kern (snd s)) σ [] [] total → can_post s →
  turns s total Ret (tcp_read K N on_read fn_read_ready tcp_self b (Some ()) (Some msg_self) s).
Proof using HIO HL other_call.
  intros Hco Hid Hib Has Hw Hmw How Hcp. pose proof Hco as [Hop Hh Href Hfd Hcan Hm Hpar Hlist Hbuf Hec].
  destruct (Hbuf b Hib) as (iob & Hi & Hu). 
  destruct (tcp_read_starts K N on_read fn_read_ready tcp_self fd_open s t e x b () (Some msg_self) iob Hop Hid Hcan Hi)
    as (t1 & -> & Hp & Hend & Hr1 & Hf1); [by rewrite usable_room|].
  assert (writer t1 = writer t) as Hwr by (injection (Hend 0); congruence).
  apply (turns_from s (w_tcp (Some t1) s)); [by apply (quiet_own s (snd (w_tcp (Some t1) s)))|done|].
  eapply (read_turn _ t1 e x m σ b iob); try done; [|by unfold idle_writer; rewrite Hwr].
  constructor; try done; [apply Hp|by rewrite Hr1|by rewrite Hf1|apply Hp].
Qed.

(** The buffer of a read, new if there was none. *)
Lemma input_ready (s : st) (m : msg_stream) :
  buffer_ready s m → ∃ i b iob,
    match m_input_buffer m with Some b => Ret (s, b) | None => iob ← IOBuffer_new; Ret (new_iob iob s) end =
    Ret ((fst s, mkWorld (tcp (snd s)) i (kern (snd s)) (the_app (snd s))), b) ∧ i !! b = Some iob ∧ usable iob.
Proof.
  intros Hbuf. destruct (m_input_buffer m) as [b|] eqn:E.
  - destruct (Hbuf b E) as (iob & Hi & Hu). exists (iobs (snd s)), b, iob. by destruct s as [rl []].
  - destruct usable_new as (iob & -> & Hu). rewrite bind_ret_l. eexists _, _, iob. split; [reflexivity|]. split; [apply lookup_insert_eq|done].
Qed.

(** ** A turn of each phase *)

Hypothesis (fns_ne : NoDup [fn_read_ready; fn_try_write; fn_postable_read; fn_echo_read]).

Lemma turn_writing bs s total : conn_inv (Writing bs) s total → can_post s → proceeds s total (e_call fn_try_write (Some tcp_self) s).
Proof using HIO fns_ne.
  intros Hc Hcp. destruct (distinct4 _ _ _ _ fns_ne) as (H1 & _). unfold EchoApp.e_call, m_call, call_postable.
  rewrite decide_False, decide_True, on_self_eq by done. by apply (write_turn bs).
Qed.

Lemma turn_more s total : conn_inv More s total → can_post s → turns s total Ret (e_call fn_postable_read (Some msg_self) s).
Proof using HIO HL fns_ne.
  intros (t & e & x & m & σ & ts & Hco & (Hid & Has & [b Hib] & Hw & Hmw) & How) Hcp. pose proof Has as (_ & _ & ->).
  destruct (distinct4 _ _ _ _ fns_ne) as (H1 & (H2 & H3) & _). unfold EchoApp.e_call, m_call, call_postable, m_postable.
  rewrite !decide_False, decide_True, on_self_eq by done. unfold m_postable_read, m_try_read.
  rewrite (the_msg_ok s m (co_msg _ _ _ _ _ _ _ Hco)), bind_ret_l, Hib. cbn [deref]. rewrite bind_ret_l.
  by eapply (socket_turn s t e x m σ b).
Qed.

Lemma turn_reading s total : conn_inv Reading s total → can_post s → turns s total Ret (e_call fn_echo_read (Some self) s).
Proof using HIO HL fns_ne.
  intros (t & e & x & m & σ & ts & Hco & (Hid & Hrc & Hw & Hmw) & How) Hcp. cbn [left_of] in How.
  destruct (distinct4 _ _ _ _ fns_ne) as (_ & _ & H1 & H2 & H3). unfold EchoApp.e_call, m_call, call_postable, m_postable, e_postable.
  rewrite !decide_False, decide_True, on_self_eq by done. unfold echo_postable_read, the_echo.
  pose proof Hco as [Hop Hh Href Hfd Hcan Hm Hpar Hlist Hbuf Hec]. rewrite Hec. cbn [deref]. rewrite bind_ret_l.
  unfold msg_stream_read. rewrite (the_msg_ok s m Hm), bind_ret_l, Hrc. cbn [is_ptr negb c_assert]. rewrite bind_ret_l.
  destruct (input_ready s m Hbuf) as (i & b & iob & -> & Hi & Hu). rewrite bind_ret_l.
  match goal with |- context [w_msg ?m' ?s'] => set (m1 := m'); set (s1 := w_msg m1 s') end.
  assert (quiet s s1) as Hq by (by apply (quiet_own s (snd s1))). apply (turns_from s s1 _ _ _ Hq (le_n _)).
  assert (open_tcp s1 t e x) as Hop1 by (by destruct Hop; constructor).
  assert (∀ m2 : msg_stream, m_input_buffer m2 = Some b → buffer_ready s1 m2) as Hbuf1.
  { intros m2 Hb b' Hb'. assert (b' = b) as -> by congruence. by exists iob. }
  pose proof (can_post_quiet _ _ Hq Hcp) as Hcp1. destruct ts as [|txt ts]; inversion Hlist as [Hl|y ? out ? Hy Ho Hl]; subst.
  - unfold deliver_first. erewrite the_msg_ok by done. rewrite bind_ret_l. cbn [m1 input_message_list]. rewrite <- Hl.
    eapply (socket_turn s1 t e x m1 σ b); try done. constructor; try done; by apply Hbuf1.
  - left. rewrite (deliver_message _ s1 m1 () (Some self) y out); [|done|by cbn|done|done].
    set (m2 := with_messages _ out m1). eapply (proceeds_from s1 (w_msg m2 s1)); [by apply (quiet_own s1 (snd (w_msg m2 s1)))|done|].
    eapply (respond_turn (w_msg m2 s1) t e x m2 σ ts y txt); try done. constructor; try done; [by destruct Hop1; constructor|by apply Hbuf1].
Qed.

(** The rest of the handler of an event. *)
Definition after_turn (s : st) : outcome st :=
  s ← masked_call e_call 2 p s;
  masked_call e_call 4 p s.

Lemma after_turn_idle e x s : live p e s → var e = V_stream x → event_mask x = 0 → after_turn s = Ret s.
Proof.
  intros [He _] Hv Hm. unfold after_turn. rewrite (masked_call_none _ 2 p e x s He Hv Hm), bind_ret_l. exact (masked_call_none _ 4 p e x s He Hv Hm).
Qed.

Lemma conn_idle_event φ s total : conn_inv φ s total → after_turn s = Ret s.
Proof.
  intros (t & e & x & m & σ & ts & [[_ Hl Hv _ _ Hm] _ Href _ _ _ _ _ _ _] & _). rewrite Href in Hl. by eapply after_turn_idle.
Qed.

(** The event that a waiting read is for. *)
Lemma turn_waiting s total fl :
  conn_inv Waiting s total → can_post s → turns s total after_turn (stream_handler e_call p (u16 EVFILT_READ) fl s).
Proof using HIO HL.
  intros (t & e & x & m & σ & ts & Hco & (b & iob & Hib & Hp & Hu & Hcb & Has & Hw & Hmw & Hn) & How) Hcp. pose proof Has as (_ & _ & ->).
  pose proof Hco as [Hop Hh Href Hfd Hcan Hm Hpar Hlist Hbuf Hec].
  pose proof (event_tries K N on_read on_written fn_read_ready fn_try_write tcp_self
    (m_postable K N on_read_msg fn_read_ready fn_postable_read tcp_self msg_self (e_postable K N call_done fn_read_ready fn_try_write
      fn_postable_read fn_echo_read tcp_self msg_self self other_call)) fd_open s t e x Hop Hcan Hcb) as Htry. rewrite Href in Htry.
  change (stream_handler e_call p (u16 EVFILT_READ) fl s) with (stream_handler e_call p (u16 EVFILT_READ) 0 s).
  pose proof (pending_retry fd_open s t e x b () (Some msg_self) iob RD_STATE_READY Hp eq_refl) as Hp1.
  set (s1 := w_tcp (Some (with_read_state RD_STATE_READY t)) s) in *.
  assert (turns s1 total Ret (try_read s1)) as Ht.
  { eapply (read_turn s1 _ e x m σ b iob); try done. constructor; try done. apply Hp1. }
  apply (turns_from s s1) in Ht; [|by apply (quiet_own s (snd s1))|done].
  destruct Ht as [(s2 & s' & φ & Hq & Hpo & Hr & Hc & Hwk)|[(er & s' & t' & e' & x' & m' & σ' & Hq & Hr & Hcl & Hrest)|[Hr Hsi]]].
  - left. exists s2, s', φ. split_and!; try done. refine (eq_trans Htry _). rewrite Hr, bind_ret_l. by apply (conn_idle_event φ s' total).
  - right. left. exists er, s', t', e', x', m', σ'. split_and!; try tauto. refine (eq_trans Htry _). by rewrite Hr, bind_ret_r.
  - right. right. split; [|done]. refine (eq_trans Htry _). by rewrite Hr.
Qed.
End EchoPhases.
