(* ===== verification/ServerCtx.v ===== *)
(** * ServerCtx: the server process that accepts connections and starts an application on
    each (src/apps/server_process/server_ctx.c)

    The application is chosen at compile time by the macros APP_NEW, APP_RUN and APP_FREE of
    its header; here they are the operations of a class, with what the server relies on as
    laws. The echo application, one object for each connection, is an instance. *)

From S2P Require Import Prelude SocketFunctions FunctorList EventTable KqRunloop KqHelpers KqWatchers TcpStream TcpListener.
From S2P Require Import IOBuffer MsgFormat AsyncMsgStream EchoApp.
Open Scope Z_scope.

(** ** The applications *)

(** [S] is the state of the program and [app] a reference to an application. The callback
    given to [APP_RUN] is always [app_instance_done_cb]. *)
Class AppOps (S app arg_t : Type) := {
  APP_NEW : Z → S → outcome (S * app);
  APP_RUN : app → option unit → option arg_t → S → outcome S;
  APP_FREE : app → S → outcome S
}.

Section ServerCtx.
(** [KW] is the kernel, [App] the rest of the program, [app] the references. *)
Context {fn arg_t KW App app address : Type} `{!EqDecision fn, !EqDecision arg_t, !EqDecision app}.

(** [port], [host] and [listening_socket_fd] are never set; the loop and the listener are
    those of the state. *)
Record ServerCtx := mkServerCtx { ctx_l_state : Z; connection_list : list app }.
Record sapp := mkSApp { ctx : option ServerCtx; s_rest : App }.
Abbreviation sworld := (lworld (arg_t := arg_t) (KW := KW) (App := sapp) (acb := unit)).
Abbreviation st := (Runloop fn arg_t * sworld)%type.
Context `{!AppOps st app arg_t}.

Variable K : kqueue_sys KW.
Variable N : net KW address.
Variable accept : Z → KW → KW * Z * Z.
(** The functions given to the loop, the addresses of the listener and of the server, and
    the bytes of a pointer and of a listener. *)
Variable fn_accept_ready fn_try_accept fn_start : fn.
Variable lsn_self self : arg_t.
Variable sizeof_ref sizeof_listener : Z.

Definition the_ctx (s : st) : outcome ServerCtx := deref (ctx (l_app (snd s))).
Definition w_ctx (c : option ServerCtx) (s : st) : st :=
  (fst s, mkLWorld (lsn (snd s)) (l_kern (snd s)) (mkSApp c (s_rest (l_app (snd s))))).

Definition server_ctx_init (f : Z) (s : st) : outcome st :=
  s ← tcp_listener_new sizeof_ref sizeof_listener f s;
  Ret (w_ctx (Some (mkServerCtx L_STATE_INITIAL [])) s).
Definition server_ctx_new (f : Z) (s : st) : outcome st := server_ctx_init f s.
Definition server_ctx_free (s : st) : outcome st := _ ← the_ctx s; Ret (w_ctx None s).
Definition server_ctx_run (s : st) : outcome st := _ ← the_ctx s; runloop_post (Some fn_start) (Some self) s.

Definition tcp_listener_get_runloop (s : st) : outcome unit :=
  l ← the_listener s; _ ← event_at (rl_listener_ref l) s; Ret ().

Definition handle_new_socket (new_sock error : Z) (s : st) : outcome st :=
  c_assert (negb (new_sock =? 0));;
  _ ← the_ctx s;
  tcp_listener_get_runloop s;;
  '(s, app_ref) ← APP_NEW new_sock s;
  s ← (if error =? 0 then
         c ← the_ctx s;
         APP_RUN app_ref (Some ()) (Some self) (w_ctx (Some (mkServerCtx (ctx_l_state c) (connection_list c ++ [app_ref]))) s)
       else Ret s);
  runloop_post (Some fn_start) (Some self) s.

(** The first occurrence, as [List_find] and [List_itr_remove] have it. *)
Fixpoint list_remove_app (a : app) (l : list app) : list app :=
  match l with [] => [] | b :: l => if decide (b = a) then l else b :: list_remove_app a l end.

Definition app_instance_done_cb (a : app) (error : Z) (s : st) : outcome st :=
  c ← the_ctx s;
  c_assert (bool_decide (a ∈ connection_list c));;
  APP_FREE a (w_ctx (Some (mkServerCtx (ctx_l_state c) (list_remove_app a (connection_list c)))) s).

(** The listener's callback is [handle_new_socket], its argument the server. *)
Definition call_accept (cb : unit) (a : option arg_t) (sock error : Z) (s : st) : outcome st := handle_new_socket sock error s.

Definition postable_start (s : st) : outcome st :=
  _ ← the_ctx s;
  tcp_accept call_accept fn_try_accept lsn_self (Some ()) (Some self) s.

(** What the loop calls; other functions belong to the applications. *)
Variable other_call : fn → option arg_t → st → outcome st.
Definition s_postable (g : fn) (a : option arg_t) (s : st) : outcome st :=
  if decide (g = fn_start) then on_self self postable_start a s else other_call g a s.
Definition s_call : fn → option arg_t → st → outcome st :=
  l_postable K N accept call_accept fn_accept_ready fn_try_accept lsn_self s_postable.

(** ** Specification *)

(** What the server relies on: with a free entry in the event pool, a new application
    takes it and is ready; an application that is ready, given the callback and the
    server, posts one function and is running. Neither touches the listener, the kernel
    or the server itself. *)
Record same_server (s s' : st) : Prop := {
  ss_lsn : lsn (snd s') = lsn (snd s);
  ss_kern : l_kern (snd s') = l_kern (snd s);
  ss_ctx : ctx (l_app (snd s')) = ctx (l_app (snd s))
}.
Class AppLaws := {
  app_ready : app → st → Prop;
  app_running : app → st → Prop;
  (** the function it posts, and its argument *)
  app_fn : fn;
  app_arg : app → arg_t;
  app_new_law f s a p xs :
    table_rep (event_table (fst s)) a → free a = p :: xs →
    ∃ s' r e, APP_NEW f s = Ret (s', r) ∧ app_ready r s' ∧ same_server s s' ∧ takes a p xs e (fst s) (fst s');
  app_ready_ctx r c s : app_ready r s → app_ready r (w_ctx c s);
  app_run_law r s fs :
    app_ready r s → fl_rep (ready_list (fst s)) fs → Zlen fs + 1 < capacity (ready_list (fst s)) →
    ∃ s' l, APP_RUN r (Some ()) (Some self) s = Ret s' ∧ app_running r s' ∧ same_server s s' ∧
      fst s' = set_ready (fst s) l ∧ fl_rep l (fs ++ [mkFunctor (Some app_fn) (Some (app_arg r))]) ∧ capacity l = capacity (ready_list (fst s));
  app_running_posts r s l : app_running r s → app_running r (set_ready (fst s) l, snd s)
}.
Context `{!AppLaws}.

Context (notes : KW → Z → gmap (Z * Z) note) (fd_open : KW → Z → bool) (HL : kqueue_laws K notes fd_open).
Context (callers : KW → Z → list caller) (bound listening : KW → Z → bool).
Context (HA : accept_laws K N accept notes fd_open callers bound listening).
Abbreviation open_listener := (open_listener fd_open).
Abbreviation accept_events := (accept_events K N accept call_accept fn_accept_ready fn_try_accept lsn_self s_postable).

(** ** Lemmas *)

Lemma the_ctx_ok (s : st) c : ctx (l_app (snd s)) = Some c → the_ctx s = Ret c.
Proof. unfold the_ctx. by intros ->. Qed.

(** A socket is handled by starting an application, which goes on the list. *)
Lemma new_socket_ok sock (s : st) l e x c a p xs :
  sock ≠ 0 → open_listener s l e x → rl_listener_ref l ≠ p → ctx (l_app (snd s)) = Some c →
  table_rep (event_table (fst s)) a → free a = p :: xs →
  fl_rep (ready_list (fst s)) [] → 2 < capacity (ready_list (fst s)) →
  ∃ s' r, handle_new_socket sock 0 s = Ret s' ∧ app_running r s' ∧
    ctx (l_app (snd s')) = Some (mkServerCtx (ctx_l_state c) (connection_list c ++ [r])) ∧
    fl_rep (ready_list (fst s')) [mkFunctor (Some app_fn) (Some (app_arg r)); mkFunctor (Some fn_start) (Some self)] ∧
    open_listener s' l e x ∧ l_kern (snd s') = l_kern (snd s) ∧ kqueue_fd (fst s') = kqueue_fd (fst s) ∧
    table_rep (event_table (fst s')) (mkPool xs ({[p]} ∪ seen a)).
Proof.
  intros Hs Hop Hlp Hc Ha Hf Hr Hcap. pose proof Hop as [Hl [He Hrl] Hv Hopen]. unfold handle_new_socket.
  rewrite (proj2 (Z.eqb_neq sock 0)) by done. cbn [negb c_assert]. rewrite bind_ret_l, (the_ctx_ok s c Hc), bind_ret_l.
  unfold tcp_listener_get_runloop. rewrite (the_listener_ok s l Hl), bind_ret_l, He, !bind_ret_l.
  destruct (app_new_law sock s a p xs Ha Hf) as (s1 & r & e1 & -> & Hrdy & [Hl1 Hk1 Hc1] & [Hr1 Hq1 _ Ho1 Hp1]). rewrite bind_ret_l.
  change (0 =? 0) with true. cbn iota. rewrite (the_ctx_ok s1 c) by (by rewrite Hc1). rewrite bind_ret_l.
  set (c2 := Some (mkServerCtx (ctx_l_state c) (connection_list c ++ [r]))).
  destruct (app_run_law r (w_ctx c2 s1) [] (app_ready_ctx _ _ _ Hrdy)) as (s2 & q & -> & Hrun & [Hl2 Hk2 Hc2] & Hq2 & Hr2 & Hcap2);
    [by cbn [w_ctx fst]; rewrite Hr1|cbn [w_ctx fst]; rewrite Hr1; change (Zlen (A := Functor fn arg_t) []) with 0; lia|].
  rewrite bind_ret_l. unfold runloop_post. destruct s2 as [rl2 w2]. cbn [fst snd] in *. rewrite !bool_decide_true by eauto. cbn [c_assert].
  rewrite !bind_ret_l, Hq2. cbn [w_ctx fst] in *. rewrite Hr1 in Hcap2. change (ready_list (set_ready (fst s1) q)) with q.
  destruct (fl_add_ok q _ (mkFunctor (Some fn_start) (Some self)) Hr2) as (q' & -> & Hr3 & Hcap3); [rewrite Hcap2; change (Zlen ([] ++ [mkFunctor (Some app_fn) (Some (app_arg r))])) with 1; lia|].
  rewrite bind_ret_l. eexists _, r. split; [done|]. subst rl2. split_and!.
  - exact (app_running_posts r _ q' Hrun).
  - cbn [snd]. by rewrite Hc2.
  - exact Hr3.
  - constructor; cbn [fst snd]; [rewrite Hl2; cbn [w_ctx snd lsn]; by rewrite Hl1| |done|].
    + split; [|done]. unfold event_at in *. cbn [fst set_ready event_table]. by rewrite Ho1.
    + unfold lopen in *. rewrite Hk2. cbn [w_ctx snd l_kern]. by rewrite Hk1.
  - cbn [snd]. rewrite Hk2. cbn [w_ctx snd l_kern]. by rewrite Hk1.
  - cbn [fst set_ready kqueue_fd]. by rewrite Hq1.
  - exact Hp1.
Qed.

(** One turn of the server: the start it has posted, the attempt to accept that posts, and
    the [n] events of the listener. *)
Definition accept_turn (n : nat) (p : Z) (s : st) : outcome st :=
  s ← postable_start s; s ← run_posted s_call 1 s; accept_events n p s.

(** What a caller leads to. *)
Lemma turn_ok n s l e x c c0 rest a p xs :
  fn_accept_ready ≠ fn_try_accept → open_listener s l e x → accept_cb l = None → accept_cb_arg l = None →
  (l_state l = L_STATE_INITIAL ∧ bound (l_kern (snd s)) (l_fd x) = true ∨
   l_state l = L_STATE_READY ∧ listening (l_kern (snd s)) (l_fd x) = true) →
  ctx (l_app (snd s)) = Some c → table_rep (event_table (fst s)) a → free a = p :: xs → rl_listener_ref l ≠ p →
  fl_rep (ready_list (fst s)) [] → 2 < capacity (ready_list (fst s)) →
  callers (l_kern (snd s)) (l_fd x) = replicate n NoCaller ++ c0 :: rest → answers c0 →
  match c0 with
  | Caller _ =>
      ∃ s' r, accept_turn n (rl_listener_ref l) s = Ret s' ∧ app_running r s' ∧
        ctx (l_app (snd s')) = Some (mkServerCtx (ctx_l_state c) (connection_list c ++ [r])) ∧
        fl_rep (ready_list (fst s')) [mkFunctor (Some app_fn) (Some (app_arg r)); mkFunctor (Some fn_start) (Some self)] ∧
        open_listener s' (mkTcpListener (rl_listener_ref l) None None L_STATE_READY)
          (waiting_event fn_accept_ready lsn_self (Some H_listener) x) (waiting_listener fn_accept_ready lsn_self x) ∧
        callers (l_kern (snd s')) (l_fd x) = rest ∧ listening (l_kern (snd s')) (l_fd x) = true ∧
        table_rep (event_table (fst s')) (mkPool xs ({[p]} ∪ seen a))
  | _ => accept_turn n (rl_listener_ref l) s = AssertFail
  end.
Proof using HA HL.
  intros Hne Hop Hcb Harg Hz Hc Ha Hf Hlp Hr Hcap Hcs Hans.
  destruct (tcp_accept_ok K N accept call_accept fn_accept_ready fn_try_accept lsn_self s_postable notes fd_open HL callers bound listening HA
    n s l e x () (Some self) c0 rest Hne Hop Hcb Harg Hz Hr ltac:(lia) Hcs Hans) as (s1 & Hrun & Hop1 & Hcs1 & Hli1 & Hap1 & Hr1 & _ & Hpk & Hcap1).
  assert (accept_turn n (rl_listener_ref l) s = handle_new_socket (accept_sock c0) (accept_error c0) s1) as ->.
  { unfold accept_turn, postable_start. by rewrite (the_ctx_ok s c Hc), bind_ret_l. }
  destruct c0 as [|sock|er]; cbn [answers accept_sock accept_error end_state] in *; [done| |done].
  destruct (new_socket_ok sock s1 _ _ _ c a p xs ltac:(lia) Hop1 Hlp) as (s2 & r & -> & Hrun2 & Hc2 & Hr2 & Hop2 & Hk2 & _ & Hp2);
    [by rewrite Hap1|by apply Hpk|done|done|by rewrite Hcap1|].
  exists s2, r. by rewrite Hk2.
Qed.

(** ** Properties *)

(** C15: The server accepts: when it has posted its start, on a listener with no accept in
    progress, the loop accepts the first caller, at once or after the [n] events that come
    before it, and then: with a caller's socket, a new application runs on it, is the last
    of the server's list, and the loop has two functions to run, the application's and the
    server's next start, in this order, with the listener as it was before; with an error
    of accept, the process aborts, as the callback asserts that it is given a socket. *)
Theorem server_accepts n s l e x c c0 rest a p xs :
  fn_accept_ready ≠ fn_try_accept → open_listener s l e x → accept_cb l = None → accept_cb_arg l = None →
  (l_state l = L_STATE_INITIAL ∧ bound (l_kern (snd s)) (l_fd x) = true ∨
   l_state l = L_STATE_READY ∧ listening (l_kern (snd s)) (l_fd x) = true) →
  ctx (l_app (snd s)) = Some c → table_rep (event_table (fst s)) a → free a = p :: xs → rl_listener_ref l ≠ p →
  fl_rep (ready_list (fst s)) [] → 2 < capacity (ready_list (fst s)) →
  callers (l_kern (snd s)) (l_fd x) = replicate n NoCaller ++ c0 :: rest → answers c0 →
  match c0 with
  | Caller _ =>
      ∃ s' r, accept_turn n (rl_listener_ref l) s = Ret s' ∧ app_running r s' ∧
        ctx (l_app (snd s')) = Some (mkServerCtx (ctx_l_state c) (connection_list c ++ [r])) ∧
        fl_rep (ready_list (fst s')) [mkFunctor (Some app_fn) (Some (app_arg r)); mkFunctor (Some fn_start) (Some self)] ∧
        open_listener s' (mkTcpListener (rl_listener_ref l) None None L_STATE_READY)
          (waiting_event fn_accept_ready lsn_self (Some H_listener) x) (waiting_listener fn_accept_ready lsn_self x) ∧
        callers (l_kern (snd s')) (l_fd x) = rest ∧ listening (l_kern (snd s')) (l_fd x) = true ∧
        table_rep (event_table (fst s')) (mkPool xs ({[p]} ∪ seen a))
  | _ => accept_turn n (rl_listener_ref l) s = AssertFail
  end.
Proof using HA HL. apply turn_ok. Qed.

(** The end of an application takes it off the list, once, and frees it; for one that is
    not on the list the process aborts. *)
Theorem server_app_done r er s c :
  ctx (l_app (snd s)) = Some c →
  (r ∈ connection_list c → ∃ l1 l2, connection_list c = l1 ++ r :: l2 ∧
     app_instance_done_cb r er s = APP_FREE r (w_ctx (Some (mkServerCtx (ctx_l_state c) (l1 ++ l2))) s)) ∧
  (r ∉ connection_list c → app_instance_done_cb r er s = AssertFail).
Proof.
  intros Hc. unfold app_instance_done_cb. rewrite (the_ctx_ok s c Hc), bind_ret_l. split; intros Hr.
  - rewrite bool_decide_true by done. cbn [c_assert]. rewrite bind_ret_l.
    assert (∃ l1 l2, connection_list c = l1 ++ r :: l2 ∧ list_remove_app r (connection_list c) = l1 ++ l2) as (l1 & l2 & H1 & ->);
      [|by exists l1, l2].
    induction (connection_list c) as [|b l IH]; [by apply elem_of_nil in Hr|]. cbn [list_remove_app]. destruct (decide (b = r)) as [->|Hne].
    + by exists [], l.
    + apply elem_of_cons in Hr as [->|Hr]; [done|]. destruct (IH Hr) as (l1 & l2 & -> & ->). by exists (b :: l1), l2.
  - by rewrite bool_decide_false.
Qed.

(** The constructor of the server writes past the listener it allocates. *)
Theorem server_ctx_init_undefined f s : sizeof_ref < sizeof_listener → server_ctx_init f s = Ub.
Proof. intros Hlt. unfold server_ctx_init, tcp_listener_new, tcp_listener_init. by rewrite (proj2 (Z.ltb_lt _ _)). Qed.
End ServerCtx.
Arguments ServerCtx : clear implicits.
Arguments sapp : clear implicits.

(** ** The echo application as the application of the server *)

Section EchoServer.
Context {M P S fn arg_t KW address : Type} `{!MsgOps M P} `{!EqDecision fn, !EqDecision arg_t}.

(** The objects of one connection; they are found by the number of the connection, which
    stands for the address of the application. *)
Record conn := mkConn {
  c_tcp : option (TcpStream (arg_t := arg_t) (rcb := unit) (wcb := unit));
  c_iobs : gmap nat IOBuffer;
  c_msgs : option (MsgStream (P := P) (M := M) (arg_t := arg_t) (mrcb := unit) (mwcb := unit));
  c_echo : option (EchoApp (arg_t := arg_t) (dcb := unit))
}.
Abbreviation sapp := (sapp (gmap nat conn) nat).
Abbreviation st := (Runloop fn arg_t * lworld (arg_t := arg_t) (KW := KW) (App := sapp) (acb := unit))%type.
(** What a connection does not see: the listener, the server, and the other connections. *)
Definition others (i : nat) : Type := dsig (λ m : gmap nat conn, m !! i = None).
Record outside (i : nat) := mkOutside {
  o_lsn : option (TcpListener (arg_t := arg_t) (acb := unit));
  o_ctx : option (ServerCtx nat);
  o_conns : others i
}.
Abbreviation ew i := (world (arg_t := arg_t) (KW := KW) (rcb := unit) (wcb := unit)
  (App := mapp (P := P) (M := M) (arg_t := arg_t) (mrcb := unit) (mwcb := unit) (App := eapp (arg_t := arg_t) (dcb := unit) (App := outside i)))).
Abbreviation est i := (Runloop fn arg_t * ew i)%type.

Variable K : kqueue_sys KW.
Variable N : net KW address.
Variable accept : Z → KW → KW * Z * Z.
Variable fn_accept_ready fn_try_accept fn_start fn_read_ready fn_try_write fn_postable_read fn_echo_read : fn.
Variable lsn_self self : arg_t.
(** The addresses of the objects of a connection, and the connection of an address. *)
Variable tcp_addr msg_addr echo_addr : nat → arg_t.
Variable conn_of : arg_t → option nat.

(** The state as connection [i] sees it, and back. *)
Definition no_conn : conn := mkConn None ∅ None None.
Definition conn_at (i : nat) (s : st) : conn := default no_conn (s_rest (l_app (snd s)) !! i).
Definition others_of (i : nat) (m : gmap nat conn) : others i := dexist (delete i m) (lookup_delete_eq m i).
Definition outside_of (i : nat) (s : st) : outside i :=
  mkOutside i (lsn (snd s)) (ctx (l_app (snd s))) (others_of i (s_rest (l_app (snd s)))).
Definition focus (i : nat) (s : st) : est i :=
  let c := conn_at i s in
  (fst s, mkWorld (c_tcp c) (c_iobs c) (l_kern (snd s)) (mkMApp (c_msgs c) (mkEApp (c_echo c) (outside_of i s)))).
Definition unfocus_world (i : nat) (w : ew i) : lworld (arg_t := arg_t) (KW := KW) (App := sapp) (acb := unit) :=
  let m := the_app w in
  let o := e_rest (m_app m) in
  mkLWorld (o_lsn i o) (kern w)
    (mkSApp (o_ctx i o) (<[i := mkConn (tcp w) (iobs w) (msgs m) (echo (m_app m))]> (proj1_sig (o_conns i o)))).
Definition unfocus (i : nat) (s : est i) : st := (fst s, unfocus_world i (snd s)).
Definition on_conn (i : nat) (op : est i → outcome (est i)) (s : st) : outcome st := unfocus i <$> op (focus i s).

#[local] Instance echo_ops : AppOps st nat arg_t := {|
  APP_NEW f s := let i := fresh (dom (s_rest (l_app (snd s)))) in s ← on_conn i (echo_app_new f) s; Ret (s, i);
  APP_RUN i cb a s := on_conn i (echo_app_run fn_echo_read (echo_addr i) cb a) s;
  APP_FREE i s := on_conn i (echo_app_free K) s
|}.

(** The callback of an application, and the functions of the connections: the address
    that a function is given says whose it is. *)
Definition echo_done (i : nat) (cb : unit) (a : option arg_t) (error : Z) (s : est i) : outcome (est i) :=
  on_self self (λ s, focus i <$> app_instance_done_cb i error (unfocus i s)) a s.
Definition conn_call (i : nat) (g : fn) (a : option arg_t) (s : est i) : outcome (est i) :=
  e_call K N (echo_done i) fn_read_ready fn_try_write fn_postable_read fn_echo_read (tcp_addr i) (msg_addr i) (echo_addr i) (λ _ _ _, Ub) g a s.
Definition apps_call (g : fn) (a : option arg_t) (s : st) : outcome st :=
  a' ← deref a; i ← deref (conn_of a'); on_conn i (conn_call i g a) s.
Definition server_call : fn → option arg_t → st → outcome st :=
  s_call K N accept fn_accept_ready fn_try_accept fn_start lsn_self self apps_call.

(** *** The laws *)

Context `{!MsgLaws M P S}.

(** The echo application [e] of connection [i] is there, on the message stream that its
    constructor has made, on a stream of the loop. *)
Definition echo_at (i : nat) (s : st) (e : EchoApp (arg_t := arg_t) (dcb := unit)) : Prop :=
  ∃ c t v p, s_rest (l_app (snd s)) !! i = Some c ∧ c_tcp c = Some t ∧ event_at (rlstream_ref t) s = Ret v ∧ c_echo c = Some e ∧
    reader t = mkReader RD_STATE_INITIAL Unset Unset Unset ∧ c_msgs c = Some (mkMsgStream p None None None [] None None None).
Definition echo_ready (i : nat) (s : st) : Prop := ∃ e, echo_at i s e.
Definition echo_running (i : nat) (s : st) : Prop := echo_at i s (mkEcho (Ptr ()) (Ptr self)).

Lemma focus_conn i (s : st) c :
  s_rest (l_app (snd s)) !! i = Some c →
  focus i s = (fst s, mkWorld (c_tcp c) (c_iobs c) (l_kern (snd s)) (mkMApp (c_msgs c) (mkEApp (c_echo c) (outside_of i s)))).
Proof. intros Hc. unfold focus, conn_at. by rewrite Hc. Qed.

#[local] Instance echo_laws : AppLaws (App := gmap nat conn) self.
Proof.
  refine {| app_ready := echo_ready; app_running := echo_running; app_fn := fn_echo_read; app_arg := echo_addr |}.
  - intros f s a p xs Ha Hf. set (i := fresh (dom (s_rest (l_app (snd s))))).
    destruct (stream_new_ok f (focus i s) a p xs Ha Hf) as (s1 & Hs1 & Hw & Htk). destruct parser_new_law as (pr & Hpr & _).
    destruct s1 as [rl1 w1]. cbn [fst snd] in *. subst w1. pose proof Htk as [_ _ He _ _].
    eexists _, i, _. split; [|split; [|split]].
    + cbn [APP_NEW echo_ops]. fold i. unfold on_conn, echo_app_new, echo_app_init, msg_stream_new, msg_stream_init, tcp_stream_new, tcp_stream_init.
      rewrite Hs1, bind_ret_l. rewrite (stream_get_fd_ok p _ _ (rl1, (focus i s).2) He eq_refl), bind_ret_l. cbn [s_fd]. rewrite !bind_ret_l, Hpr, bind_ret_l. cbn [fmap outcome_fmap]. by rewrite bind_ret_l.
    + eexists _, _, _, _, _. cbn. rewrite lookup_insert_eq. split_and!; [done|done|exact He|done..].
    + by constructor.
    + exact Htk.
  - done.
  - intros r s fs (e & c & t & v & pr & Hc & Ht & Hv & He & Hrd & Hm) Hr Hcap.
    destruct (fl_add_ok _ _ (mkFunctor (Some fn_echo_read) (Some (echo_addr r))) Hr Hcap) as (q & Hq & Hr' & Hcap').
    eexists _, q. split; [|split; [|split; [|split; [|done]]]].
    + cbn [APP_RUN echo_ops]. unfold on_conn. rewrite (focus_conn r s c Hc). unfold echo_app_run, the_echo. cbn [snd the_app m_app echo].
      rewrite He. cbn [deref]. rewrite bind_ret_l. unfold msg_stream_get_runloop, the_tcp. cbn [w_echo w_app snd tcp fst]. rewrite Ht. cbn [deref].
      rewrite bind_ret_l. unfold event_at in *. cbn [w_echo w_app fst]. rewrite Hv, !bind_ret_l. unfold runloop_post. cbn [w_echo w_app fst snd].
      rewrite !bool_decide_true by eauto. cbn [c_assert]. rewrite !bind_ret_l, Hq, bind_ret_l. done.
    + eexists _, t, v, pr. cbn. rewrite lookup_insert_eq. split_and!; [done|by cbn|exact Hv|done..].
    + by constructor.
    + done.
  - intros r s l (c & t & v & pr & H). by exists c, t, v, pr.
Defined.
End EchoServer.

(** ** Witnesses: the server of the echo application over the demonstration protocol *)

Definition ex_sevent : RunloopEvent nat nat := mkEvent true (Some H_listener) (V_listener (mkListener 5 None None)).
(** A pool whose first entry is taken, by the event [e]. *)
Definition ex_pool_of (e : RunloopEvent nat nat) : outcome (EventTable (RunloopEvent nat nat)) :=
  t ← event_table_new true; '(t, p) ← event_table_get_entry t; set_event t p e.
Definition ex_pool : outcome (EventTable (RunloopEvent nat nat)) := ex_pool_of ex_sevent.

Lemma first_entry e (t : EventTable (RunloopEvent nat nat)) xs :
  table_rep t (mkPool (0 :: xs) ∅) →
  ∃ t', ('(t, p) ← event_table_get_entry t; set_event t p e) = Ret t' ∧ table_rep t' (mkPool xs ({[0]} ∪ ∅)) ∧ get_event t' 0 = Ret e.
Proof.
  intros Hr. destruct (get_entry_ok t _ Hr) as ([t1 p] & H1 & Hp & Hr1). cbn [fst snd] in *. subst p.
  destruct (lookup_lt_is_Some_2 (memory t1) 0) as [m Hm]; [pose proof (tr_size _ _ Hr1); unfold Zlen, EVT_MAX in *; lia|].
  destruct (set_event t1 0 e) as [t2| |] eqn:H2; [|unfold set_event, slab_at in H2; change (0 <=? 0) with true in H2; change (Z.to_nat 0) with 0%nat in H2; by rewrite Hm in H2..].
  exists t2. rewrite H1, bind_ret_l. split; [done|]. split; [by eapply set_event_ok|by eapply get_set_event].
Qed.

Lemma ex_pool_rep e : ∃ t, ex_pool_of e = Ret t ∧ table_rep t (mkPool (seqZ 1 2047) ({[0]} ∪ ∅)) ∧ get_event t 0 = Ret e.
Proof.
  destruct (table_new_ok (E := RunloopEvent nat nat)) as (t & Ht & Hr). unfold full_pool in Hr.
  rewrite (seqZ_cons 0 EVT_MAX ltac:(done)) in Hr.
  replace (Z.succ 0) with 1 in Hr by reflexivity. replace (Z.pred EVT_MAX) with 2047 in Hr by reflexivity.
  destruct (first_entry e t _ Hr) as (t' & H & Hr' & He).
  exists t'. unfold ex_pool_of. rewrite Ht, bind_ret_l. split; [exact H|]. split; [exact Hr'|exact He].
Qed.

Abbreviation ex_sst := (Runloop nat nat * lworld (arg_t := nat) (KW := ex_lk)
  (App := sapp (gmap nat (conn (M := DemoMsg.DemoMsg) (P := DemoMsg.DemoMsgParser) (arg_t := nat))) nat) (acb := unit))%type.
(** A caller comes after one event. *)
Definition ex_sstart (t : EventTable (RunloopEvent nat nat)) : ex_sst :=
  (mkRunloop 3 false false t [] (mkFL 8 0 0 (replicate 9 None)),
   mkLWorld (Some (mkTcpListener 0 None None L_STATE_INITIAL)) (mkLk ∅ [NoCaller; Caller 7] false) (mkSApp (Some (mkServerCtx L_STATE_INITIAL [])) ∅)).
Definition ex_sops : AppOps ex_sst nat nat := echo_ops ex_lkq 7%nat (λ i, (100 + i)%nat).
Definition ex_scall : nat → option nat → ex_sst → outcome ex_sst := apps_call ex_lkq ex_lnet 4%nat 5%nat 6%nat 7%nat
  8%nat (λ i, (300 + i)%nat) (λ i, (200 + i)%nat) (λ i, (100 + i)%nat) (λ a, Some (a mod 100)%nat).

Lemma ex_sready t : fl_rep (ready_list (fst (ex_sstart t))) [].
Proof. constructor; cbn; try done; unfold runloop_READY_LIST_MAX; lia. Qed.
Lemma ex_sopened t : get_event t 0 = Ret ex_sevent →
  open_listener ex_lopen (ex_sstart t) (mkTcpListener 0 None None L_STATE_INITIAL) ex_sevent (mkListener 5 None None).
Proof. intros Ht. by repeat constructor. Qed.

Lemma ex_free : free (mkPool (seqZ 1 2047) ({[0]} ∪ ∅)) = 1 :: seqZ 2 2046.
Proof. exact (seqZ_cons 1 2047 ltac:(lia)). Qed.

(** The caller is accepted after the event; its application and the next start are posted. *)
Lemma server_accepts_witness :
  ∃ t s' r, ex_pool = Ret t ∧
    accept_turn (AppOps0 := ex_sops) ex_lkq ex_lnet ex_accept 1%nat 2%nat 3%nat 9%nat 8%nat ex_scall 1 0 (ex_sstart t) = Ret s' ∧
    ctx (l_app (snd s')) = Some (mkServerCtx L_STATE_INITIAL [r]) ∧ lk_callers (l_kern (snd s')) = [] ∧
    echo_running 8%nat r s'.
Proof.
  destruct (ex_pool_rep ex_sevent) as (t & Ht & Hr & He).
  destruct (server_accepts (AppOps0 := ex_sops) (H := echo_laws ex_lkq 7%nat 8%nat (λ i, (100 + i)%nat)) ex_lkq ex_lnet ex_accept 1%nat 2%nat 3%nat 9%nat 8%nat ex_scall
    ex_lnotes ex_lopen ex_llaws _ _ _ ex_accept_laws 1 (ex_sstart t) (mkTcpListener 0 None None L_STATE_INITIAL) ex_sevent (mkListener 5 None None)
    (mkServerCtx L_STATE_INITIAL []) (Caller 7) [] (mkPool (seqZ 1 2047) ({[0]} ∪ ∅)) 1 (seqZ 2 2046))
    as (s' & r & Hs & Hrun & Hc & _ & _ & Hk & _);
    [discriminate|by apply ex_sopened|reflexivity|reflexivity|left; split; reflexivity|reflexivity|exact Hr|exact ex_free|discriminate
    |apply ex_sready|reflexivity|reflexivity|reflexivity|].
  exists t, s', r. by split_and!.
Defined.

Lemma server_app_done_witness t :
  app_instance_done_cb (AppOps0 := ex_sops) 4%nat 0 (ex_sstart t) = AssertFail.
Proof. apply (server_app_done (AppOps0 := ex_sops) 4%nat 0 (ex_sstart t) (mkServerCtx L_STATE_INITIAL [])); [done|]. cbn. by apply not_elem_of_nil. Defined.

Lemma server_ctx_init_undefined_witness t : server_ctx_init 8 56 5 (ex_sstart t) = Ub.
Proof. exact (server_ctx_init_undefined 8 56 5 (ex_sstart t) eq_refl). Defined.
