(* ===== verification/ServerRun.v ===== *)
(** * ServerRun: the server with several connections of the echo application

    Each connection runs on the server as it runs alone: what the loop does for it is done
    to its own objects, and the listener, the server and the other connections stay as
    they are. A run of one connection is lifted to the server by a simulation. *)

From S2P Require Import Prelude Cbuffer IOBuffer MsgFormat SocketFunctions FunctorList EventTable KqRunloop KqHelpers KqWatchers TcpStream TcpListener AsyncMsgStream EchoApp ServerCtx.
Open Scope Z_scope.

(** ** Simulation *)

(** Two programs on the same loop: what the functions of the first do with its world, those
    of the second do with the world that [φ] makes of it. *)
Section Simulation.
Context {fn arg_t W1 W2 : Type} (φ : W1 → W2).
Abbreviation st1 := (Runloop fn arg_t * W1)%type.
Abbreviation st2 := (Runloop fn arg_t * W2)%type.
Definition lift (s : st1) : st2 := (fst s, φ (snd s)).
Definition simulates (h1 : st1 → outcome st1) (h2 : st2 → outcome st2) : Prop :=
  ∀ s, h1 s ≠ Ub → h2 (lift s) = lift <$> h1 s.

Lemma sim_ret : simulates Ret Ret.
Proof. done. Qed.

Lemma sim_bind h1 h2 k1 k2 :
  simulates h1 h2 → simulates k1 k2 → simulates (λ s, s ← h1 s; k1 s) (λ s, s ← h2 s; k2 s).
Proof. intros Hh Hk s Hs. rewrite Hh by (by intros E; rewrite E in Hs). destruct (h1 s) as [s1| |]; [by apply Hk|done..]. Qed.

(** Reading the loop. *)
Lemma sim_read {A} (m1 : st1 → outcome A) m2 k1 k2 :
  (∀ s, m2 (lift s) = m1 s) → (∀ a, simulates (k1 a) (k2 a)) → simulates (λ s, a ← m1 s; k1 a s) (λ s, a ← m2 s; k2 a s).
Proof. intros Hm Hk s Hs. rewrite Hm. destruct (m1 s) as [a| |]; [by apply Hk|done..]. Qed.

Lemma sim_post g a : simulates (runloop_post g a) (runloop_post g a).
Proof.
  intros [rl w] _. unfold runloop_post, lift. cbn [fst snd].
  destruct (c_assert (bool_decide (is_Some g))); [|done..]. destruct (c_assert (bool_decide (is_Some a))); [|done..].
  by destruct (functor_list_add _ _).
Qed.

Context (call1 : fn → option arg_t → st1 → outcome st1) (call2 : fn → option arg_t → st2 → outcome st2).
Hypothesis (Hcall : ∀ g a, simulates (call1 g a) (call2 g a)).

Lemma sim_if g a : simulates (call_if call1 g a) (call_if call2 g a).
Proof using Hcall. destruct g; [apply Hcall|apply sim_ret]. Qed.

Lemma sim_field k e : simulates (call_field call1 k e) (call_field call2 k e).
Proof using Hcall.
  unfold call_field. apply (sim_read (λ _, fn_at k e)); [done|]. intros [g|]; [|apply sim_ret].
  apply (sim_read (λ _, arg_at (Datatypes.S k) e)); [done|]. intros a. apply Hcall.
Qed.

Lemma sim_masked k p : simulates (masked_call call1 k p) (masked_call call2 k p).
Proof using Hcall.
  unfold masked_call. apply sim_read; [done|]. intros e. apply (sim_read (λ _, int_at 1 e)); [done|]. intros m.
  destruct (negb _); [apply sim_field|apply sim_ret].
Qed.

Lemma sim_stream p filter flags : simulates (stream_handler call1 p filter flags) (stream_handler call2 p filter flags).
Proof using Hcall.
  unfold stream_handler. apply sim_read; [done|]. intros e. apply sim_bind; [|apply sim_bind; apply sim_masked].
  destruct (s16 filter =? EVFILT_READ); [apply sim_field|]. destruct (s16 filter =? EVFILT_WRITE); [apply sim_field|done].
Qed.

Lemma sim_events n p : simulates (read_events call1 n p) (read_events call2 n p).
Proof using Hcall. induction n as [|n IH]; [apply sim_ret|]. apply sim_bind; [apply sim_stream|done]. Qed.

Lemma sim_posted n : simulates (run_posted call1 n) (run_posted call2 n).
Proof using Hcall.
  induction n as [|n IH]; [apply sim_ret|]. cbn [run_posted]. apply (sim_read (λ s, functor_list_remove (ready_list (fst s)))); [done|].
  intros [l func]. apply (sim_read (λ _, deref (f func))); [done|]. intros g.
  apply (sim_bind (λ s, call1 g (arg func) (set_ready (fst s) l, snd s)) (λ s, call2 g (arg func) (set_ready (fst s) l, snd s))); [|done].
  intros s Hs. by apply Hcall in Hs.
Qed.

Lemma sim_drive ns p : simulates (drive call1 ns p) (drive call2 ns p).
Proof using Hcall.
  induction ns as [|n ns IH]; [apply sim_ret|]. destruct ns as [|n2 ns]; [apply sim_events|].
  apply sim_bind; [apply sim_events|]. apply sim_bind; [apply sim_posted|done].
Qed.

Lemma sim_exchanges p xs : simulates (run_exchanges call1 p xs) (run_exchanges call2 p xs).
Proof using Hcall.
  induction xs as [|x xs IH]; [apply sim_ret|]. apply sim_bind; [|done].
  apply sim_bind; [apply sim_posted|]. apply sim_bind; [apply sim_drive|apply sim_posted].
Qed.
End Simulation.

(** ** The server *)

Section ServerRun.
Context {M P S fn arg_t KW address : Type} `{!MsgOps M P} `{!EqDecision fn, !EqDecision arg_t}.
Abbreviation conn := (conn (P := P) (M := M) (arg_t := arg_t)).
Abbreviation sapp := (sapp (gmap nat conn) nat).
Abbreviation st := (Runloop fn arg_t * lworld (arg_t := arg_t) (KW := KW) (App := sapp) (acb := unit))%type.
Abbreviation est i := (Runloop fn arg_t * world (arg_t := arg_t) (KW := KW) (rcb := unit) (wcb := unit)
  (App := mapp (P := P) (M := M) (arg_t := arg_t) (mrcb := unit) (mwcb := unit) (App := eapp (arg_t := arg_t) (dcb := unit)
  (App := outside (M := M) (P := P) (arg_t := arg_t) i))))%type.

Variable K : kqueue_sys KW.
Variable N : net KW address.
Variable accept : Z → KW → KW * Z * Z.
Variable fn_accept_ready fn_try_accept fn_start fn_read_ready fn_try_write fn_postable_read fn_echo_read : fn.
Variable lsn_self self : arg_t.
Variable tcp_addr msg_addr echo_addr : nat → arg_t.
Variable conn_of : arg_t → option nat.
#[local] Instance the_ops : AppOps st nat arg_t := echo_ops K fn_echo_read echo_addr.
Abbreviation conn_call := (conn_call K N fn_read_ready fn_try_write fn_postable_read fn_echo_read self tcp_addr msg_addr echo_addr).
Abbreviation server_call := (server_call K N accept fn_accept_ready fn_try_accept fn_start fn_read_ready fn_try_write fn_postable_read
  fn_echo_read lsn_self self tcp_addr msg_addr echo_addr conn_of).
Abbreviation post_read i := (runloop_post (Some fn_echo_read) (Some (echo_addr i))).

Context `{!MsgLaws M P S}.
Context (notes : KW → Z → gmap (Z * Z) note) (fd_open : KW → Z → bool) (HL : kqueue_laws K notes fd_open).
Context (incoming : KW → Z → list arrival) (outgoing : KW → Z → list room) (sent : KW → Z → list byte).
Context (HIO : io_laws K N notes fd_open incoming outgoing sent).
Hypothesis (fns_ne : NoDup [fn_read_ready; fn_try_write; fn_postable_read; fn_echo_read; fn_accept_ready; fn_try_accept; fn_start]).
Hypothesis (addrs : ∀ i, conn_of (tcp_addr i) = Some i ∧ conn_of (msg_addr i) = Some i ∧ conn_of (echo_addr i) = Some i).

(** What is outside a connection. *)
Record same_outside (i : nat) (s s' : st) : Prop := {
  so_lsn : lsn (snd s') = lsn (snd s);
  so_ctx : ctx (l_app (snd s')) = ctx (l_app (snd s));
  so_others : ∀ j, j ≠ i → s_rest (l_app (snd s')) !! j = s_rest (l_app (snd s)) !! j
}.

(** Connection [i] has ended: it is off the server's list and freed, the event [p] of its
    stream is back in the pool, and nothing is left to run. *)
Record ended_conn (i : nat) (p : Z) (c : ServerCtx nat) (a : pool) (s s' : st) : Prop := {
  ec_list : ∃ l1 l2, connection_list c = l1 ++ i :: l2 ∧ ctx (l_app (snd s')) = Some (mkServerCtx (ctx_l_state c) (l1 ++ l2));
  ec_freed : c_echo (conn_at i s') = None;
  ec_lsn : lsn (snd s') = lsn (snd s);
  ec_others : ∀ j, j ≠ i → s_rest (l_app (snd s')) !! j = s_rest (l_app (snd s)) !! j;
  ec_ready : fl_rep (ready_list (fst s')) [];
  ec_events : ∀ q, get_event (event_table (fst s')) q = get_event (event_table (fst s)) q;
  ec_pool : table_rep (event_table (fst s')) (mkPool (free a ++ [p]) (seen a))
}.

(** *** Lemmas *)

Lemma focus_unfocus i (s : est i) : focus i (unfocus i s) = s.
Proof.
  destruct s as [rl [t b k [m [e [l c [o Ho]]]]]]. unfold focus, unfocus, conn_at, outside_of, others_of. cbn. rewrite lookup_insert_eq. cbn.
  do 5 f_equal. apply dsig_eq. cbn. apply delete_insert_id. by apply bool_decide_unpack in Ho.
Qed.

Lemma unfocus_focus i (s : st) : is_Some (c_echo (conn_at i s)) → unfocus i (focus i s) = s.
Proof.
  destruct s as [rl [l k [c m]]]. unfold unfocus, unfocus_world, focus, outside_of, others_of, conn_at. cbn. intros [ea He].
  destruct (m !! i) as [[]|] eqn:E; [|done]. by rewrite insert_delete_id.
Qed.

Lemma on_conn_unfocus i (op : est i → outcome (est i)) s : on_conn i op (unfocus i s) = unfocus i <$> op s.
Proof. unfold on_conn. by rewrite focus_unfocus. Qed.

Lemma unfocus_others i (s : est i) j : j ≠ i → s_rest (l_app (snd (unfocus i s))) !! j = proj1_sig (o_conns i (e_rest (m_app (the_app (snd s))))) !! j.
Proof. intros Hj. cbn. by rewrite lookup_insert_ne. Qed.

(** A run that leaves alone what a connection does not see. *)
Lemma outside_kept i s (s' : est i) :
  e_rest (m_app (the_app (snd s'))) = outside_of i s → same_outside i s (unfocus i s').
Proof.
  intros H. constructor; cbn; rewrite H; [done..|]. intros j Hj. rewrite lookup_insert_ne by done. cbn. by rewrite lookup_delete_ne.
Qed.

Lemma fns_split :
  NoDup [fn_read_ready; fn_try_write; fn_postable_read; fn_echo_read] ∧
  ∀ g, g ∈ [fn_read_ready; fn_try_write; fn_postable_read; fn_echo_read] → g ∉ [fn_accept_ready; fn_try_accept; fn_start].
Proof using fns_ne.
  change (NoDup ([fn_read_ready; fn_try_write; fn_postable_read; fn_echo_read] ++ [fn_accept_ready; fn_try_accept; fn_start])) in fns_ne.
  by apply NoDup_app in fns_ne as (? & ? & _).
Qed.

(** A function of a connection is called with one of its addresses. *)
Lemma call_known i g a (s : est i) :
  conn_call i g a s ≠ Ub → g ∈ [fn_read_ready; fn_try_write; fn_postable_read; fn_echo_read] ∧ ∃ b, a = Some b ∧ conn_of b = Some i.
Proof using addrs.
  destruct (addrs i) as (H1 & H2 & H3). unfold conn_call, e_call, m_call, call_postable, m_postable, e_postable, on_self.
  repeat destruct (decide _); intros H; try done; (split; [rewrite !elem_of_cons; auto|subst; by eexists]).
Qed.

(** The server calls the functions of a connection on its objects. *)
Lemma call_conn i g b s :
  g ∈ [fn_read_ready; fn_try_write; fn_postable_read; fn_echo_read] → conn_of b = Some i →
  server_call g (Some b) s = on_conn i (conn_call i g (Some b)) s.
Proof using fns_ne.
  intros Hg Hb. pose proof (proj2 fns_split g Hg) as Hng. rewrite !not_elem_of_cons in Hng. destruct Hng as (? & ? & ? & _).
  unfold server_call, s_call, l_postable, s_postable. rewrite !decide_False by done. unfold apps_call. cbn [deref]. by rewrite bind_ret_l, Hb.
Qed.

Lemma call_lifts i g a : simulates (unfocus_world i) (conn_call i g a) (server_call g a).
Proof using fns_ne addrs.
  intros s Hs. destruct (call_known i g a s Hs) as (Hg & b & -> & Hb). rewrite (call_conn i) by done. apply on_conn_unfocus.
Qed.

Lemma posts i (s : est i) t e x m σ : e_idle fd_open s t e x m σ → post_read i s ≠ Ub.
Proof.
  intros [[_ _ _ _ Hrl Hcap] _ _ _ _ _]. by destruct (post_then_run fn_echo_read (echo_addr i) s Hrl Hcap) as (l & l' & -> & _).
Qed.

Lemma post_conn i (s : est i) : post_read i s ≠ Ub → post_read i (unfocus i s) = unfocus i <$> post_read i s.
Proof. apply (sim_post (unfocus_world i)). Qed.

(** The server is changed while a connection runs. *)
Definition with_ctx (i : nat) (c : option (ServerCtx nat)) (s : est i) : est i :=
  let e := m_app (the_app (snd s)) in
  w_echo (echo e) (w_app (mkMApp (msgs (the_app (snd s)))
    (mkEApp (echo e) (mkOutside i (o_lsn i (e_rest e)) c (o_conns i (e_rest e))))) s).

(** The application is taken off the list and freed, with its entry of the event pool. *)
Lemma done_ok i er (s : est i) t e x m σ ea c a :
  closable fd_open s t e x m σ → echo (m_app (the_app (snd s))) = Some ea →
  o_ctx i (e_rest (m_app (the_app (snd s)))) = Some c → i ∈ connection_list c →
  table_rep (event_table (fst s)) a → rlstream_ref t ∈ seen a → Zlen (free a) < EVT_MAX →
  ∃ s' l1 l2, app_instance_done_cb i er (unfocus i s) = Ret (unfocus i s') ∧ connection_list c = l1 ++ i :: l2 ∧
    e_rest (m_app (the_app (snd s'))) = mkOutside i (o_lsn i (e_rest (m_app (the_app (snd s))))) (Some (mkServerCtx (ctx_l_state c) (l1 ++ l2)))
      (o_conns i (e_rest (m_app (the_app (snd s))))) ∧ echo (m_app (the_app (snd s'))) = None ∧
    gives_back (rlstream_ref t) a (fst s) (fst s') ∧ kern (snd s') = forget_stream K (kqueue_fd (fst s)) (stream_fd t) (kern (snd s)).
Proof using HL.
  intros Hcl He Hc Hi Ha Hs Hroom. destruct (server_app_done i er (unfocus i s) c Hc) as [Hd _].
  destruct (Hd Hi) as (l1 & l2 & Hl & ->). clear Hd. set (c' := Some (mkServerCtx (ctx_l_state c) (l1 ++ l2))).
  change (w_ctx c' (unfocus i s)) with (unfocus i (with_ctx i c' s)). cbn [APP_FREE the_ops echo_ops]. rewrite on_conn_unfocus.
  destruct (EchoApp.free_ok K notes fd_open HL (with_ctx i c' s) t e x m σ ea a) as (s' & -> & Hm & Hgb & Hk); [|done..|].
  - destruct Hcl as [[] ? ? ? ?]. by constructor.
  - exists s', l1, l2. rewrite Hm. by split_and!.
Qed.

(** The first read of a new connection. *)
Lemma first_read_undefined i s fs :
  echo_running self i s → fl_rep (ready_list (fst s)) (mkFunctor (Some fn_echo_read) (Some (echo_addr i)) :: fs) →
  run_posted server_call 1 s = Ub.
Proof using fns_ne addrs.
  intros (c & t & v & p & Hc & Ht & Hv & He & Hrd & Hm) Hr. destruct (addrs i) as (_ & _ & Ha).
  destruct (distinct4 _ _ _ _ (proj1 fns_split)) as (_ & _ & H1 & H2 & H3). destruct (fl_remove_ok _ _ _ Hr) as (l & Hl & _ & _).
  cbn [run_posted]. rewrite Hl, bind_ret_l. cbn [f arg deref]. rewrite bind_ret_l, (call_conn i) by (done || rewrite !elem_of_cons; auto).
  unfold on_conn. rewrite (focus_conn i _ c) by exact Hc.
  unfold conn_call, e_call, m_call, call_postable, m_postable, e_postable. rewrite !decide_False, decide_True, on_self_eq by done.
  unfold echo_postable_read, the_echo. cbn [snd the_app m_app echo]. rewrite He. cbn [deref]. rewrite bind_ret_l.
  unfold msg_stream_read, the_msg. cbn [snd the_app msgs]. rewrite Hm. cbn [deref]. rewrite bind_ret_l. cbn [m_read_cb m_input_buffer is_ptr negb c_assert].
  rewrite bind_ret_l. destruct usable_new as (iob & -> & _). rewrite !bind_ret_l. unfold new_iob.
  unfold deliver_first, the_msg. cbn. unfold tcp_read, is_read_pending, the_tcp. cbn. rewrite Ht. cbn. by rewrite Hrd.
Qed.

(** ** Properties *)

(** C3: The server answers on every connection: a connection of the server that is idle is
    served, from [APP_RUN] on, by the functions that the loop of the whole server calls:
    any requests, however they arrive, and however the socket takes the responses, are
    answered in order, and the connection is idle again with its next read posted; while
    the listener, the server and the objects of all other connections stay as they are. *)
Theorem server_serves i xs s t e x m σ σ' rin rout :
  e_idle fd_open (focus i s) t e x m σ → session σ xs σ' →
  incoming (l_kern (snd s)) (stream_fd t) = session_in xs ++ rin → outgoing (l_kern (snd s)) (stream_fd t) = session_out xs ++ rout →
  ∃ s' t' e' x' m', (s0 ← APP_RUN i (Some ()) (Some self) s; run_exchanges server_call (rlstream_ref t) xs s0) = post_read i s' ∧
    e_idle fd_open (focus i s') t' e' x' m' σ' ∧
    incoming (l_kern (snd s')) (stream_fd t) = rin ∧ outgoing (l_kern (snd s')) (stream_fd t) = rout ∧
    sent (l_kern (snd s')) (stream_fd t) = sent (l_kern (snd s)) (stream_fd t) ++ responses xs ∧ same_outside i s s' ∧
    c_echo (conn_at i s') = Some (mkEcho (Ptr ()) (Ptr self)).
Proof using HIO HL fns_ne addrs.
  intros Hid Hse Hin Hout.
  destruct (run_posts fn_echo_read (echo_addr i) fd_open (focus i s) t e x m σ () self Hid) as (s1 & Hrun & Hid1 & Hk1 & Ha1).
  change (l_kern (snd s)) with (kern (snd (focus i s))) in *. rewrite <- Hk1 in *.
  destruct (exchanges_ok K N (echo_done K fn_echo_read self echo_addr i) fn_read_ready fn_try_write fn_postable_read fn_echo_read
    (tcp_addr i) (msg_addr i) (echo_addr i) (λ _ _ _, Ub) notes fd_open HL incoming outgoing sent HIO (proj1 fns_split)
    xs s1 t e x m σ σ' rin rout Hid1 Hse Hin Hout) as (s2 & t2 & e2 & x2 & m2 & Hrun2 & Hid2 & Hin2 & Hout2 & Hsent2 & Ha2).
  exists (unfocus i s2), t2, e2, x2, m2. rewrite focus_unfocus. split_and!; [|done|done|done|done|apply outside_kept; by rewrite Ha2, Ha1|unfold conn_at; cbn; rewrite lookup_insert_eq; cbn; by rewrite Ha2, Ha1].
  cbn [APP_RUN the_ops echo_ops]. unfold on_conn. rewrite Hrun.
  rewrite <- (post_conn i s1) by (by eapply posts).
  transitivity (unfocus i <$> post_read i s2); [|symmetry; apply post_conn; by eapply posts].
  assert ((s0 ← post_read i s1; run_exchanges (conn_call i) (rlstream_ref t) xs s0) = post_read i s2) as Hrun3 by exact Hrun2.
  rewrite <- Hrun3. apply (sim_bind _ _ _ _ _ (sim_post _ _ _) (sim_exchanges (unfocus_world i) _ _ (call_lifts i) _ xs)).
  rewrite Hrun3. by eapply posts.
Qed.

(** C16: A connection ends: when the posted read of an idle connection of the server finds
    the end of the stream, the loop takes the connection off the server's list, frees it
    and gives its event back to the pool, with nothing left posted; the listener, the
    objects of all other connections and the events are as they were. When the number that an
    earlier call has left is 0 the whole server aborts instead. *)
Theorem server_conn_ends i s t e x m σ er rest c a :
  e_idle fd_open (focus i s) t e x m σ → c_echo (conn_at i s) = Some (mkEcho (Ptr ()) (Ptr self)) →
  incoming (l_kern (snd s)) (stream_fd t) = End er :: rest → ctx (l_app (snd s)) = Some c → i ∈ connection_list c →
  table_rep (event_table (fst s)) a → rlstream_ref t ∈ seen a → Zlen (free a) < EVT_MAX →
  ∃ s0, post_read i s = Ret s0 ∧
    if er =? 0 then run_posted server_call 1 s0 = AssertFail
    else ∃ s', run_posted server_call 1 s0 = Ret s' ∧ ended_conn i (rlstream_ref t) c a s s'.
Proof using HIO HL fns_ne addrs.
  intros Hid He Hin Hc Hi Ha Hs Hroom.
  destruct (end_ok K N (echo_done K fn_echo_read self echo_addr i) fn_read_ready fn_try_write fn_postable_read fn_echo_read
    (tcp_addr i) (msg_addr i) (echo_addr i) (λ _ _ _, Ub) notes fd_open HL incoming outgoing sent HIO (proj1 fns_split)
    (focus i s) t e x m σ () self er rest Hid He Hin) as (s0 & Hp & Hend).
  exists (unfocus i s0). split; [rewrite <- (unfocus_focus i s) by (by eexists); by rewrite post_conn, Hp by (by rewrite Hp)|].
  pose proof (sim_posted (unfocus_world i) _ _ (call_lifts i) 1 s0) as Hsim. change (lift (unfocus_world i) s0) with (unfocus i s0) in Hsim.
  destruct (er =? 0) eqn:E; [assert (run_posted (conn_call i) 1 s0 = AssertFail) as Hr by exact Hend; by rewrite Hsim, Hr by (by rewrite Hr)|].
  destruct Hend as (s1 & t1 & e1 & x1 & m1 & Hrun & Hcl & Href & Hap & Hev & Hrl).
  set (s2 := w_echo (Some (mkEcho Null Null)) s1) in *.
  destruct (done_ok i er s2 t1 e1 x1 m1 σ (mkEcho Null Null) c a) as (s3 & l1 & l2 & Hdone & Hl & Hrest & Hec & [Hr3 _ _ Hg3 Hrep3] & _).
  - destruct Hcl as [[] ? ? ? ?]. by constructor.
  - done.
  - cbn. by rewrite Hap.
  - done.
  - cbn. by rewrite Hev.
  - by rewrite Href.
  - done.
  - assert (run_posted (conn_call i) 1 s0 = Ret s3) as Hrun3.
    { transitivity (focus i <$> app_instance_done_cb i er (unfocus i s2)); [exact (eq_trans Hrun (on_self_eq self (λ s, focus i <$> app_instance_done_cb i er (unfocus i s)) s2))|]. rewrite Hdone. cbn [fmap outcome_fmap].
      by rewrite focus_unfocus. }
    exists (unfocus i s3). assert (e_rest (m_app (the_app (snd s2))) = outside_of i s) as Hout by (cbn; by rewrite Hap).
    rewrite Hout in Hrest.
    split; [by rewrite Hsim, Hrun3 by (by rewrite Hrun3)|]. constructor.
    + exists l1, l2. cbn. by rewrite Hrest.
    + unfold conn_at. cbn. by rewrite lookup_insert_eq.
    + cbn. by rewrite Hrest.
    + intros j Hj. cbn. rewrite lookup_insert_ne by done. rewrite Hrest. cbn. by rewrite lookup_delete_ne.
    + change (fl_rep (ready_list (fst s3)) []). by rewrite Hr3.
    + intros q. etransitivity; [apply Hg3|]. cbn. by rewrite Hev.
    + by rewrite <- Href.
Qed.

Abbreviation apps_call := (apps_call K N fn_read_ready fn_try_write fn_postable_read fn_echo_read self tcp_addr msg_addr echo_addr conn_of).

(** The server does not serve as it is written: when it has accepted a caller, the first
    function that the loop runs is the read of the new connection, which tests fields of
    the stream that its constructor has not set. *)
Theorem server_first_read_undefined callers bound listening n s l e x c sock rest a p xs :
  accept_laws K N accept notes fd_open callers bound listening →
  open_listener fd_open s l e x → accept_cb l = None → accept_cb_arg l = None →
  (l_state l = L_STATE_INITIAL ∧ bound (l_kern (snd s)) (l_fd x) = true ∨
   l_state l = L_STATE_READY ∧ listening (l_kern (snd s)) (l_fd x) = true) →
  ctx (l_app (snd s)) = Some c → table_rep (event_table (fst s)) a → free a = p :: xs → rl_listener_ref l ≠ p →
  fl_rep (ready_list (fst s)) [] → 2 < capacity (ready_list (fst s)) →
  callers (l_kern (snd s)) (l_fd x) = replicate n NoCaller ++ Caller sock :: rest → 0 < sock →
  ∃ s', accept_turn K N accept fn_accept_ready fn_try_accept fn_start lsn_self self apps_call n (rl_listener_ref l) s = Ret s' ∧
    run_posted server_call 1 s' = Ub.
Proof using HL fns_ne addrs MsgLaws0.
  intros HA Hop Hcb Harg Hz Hc Ha Hf Hlp Hr Hcap Hcs Hs.
  pose proof (turn_ok (H := echo_laws K fn_echo_read self echo_addr) K N accept fn_accept_ready fn_try_accept fn_start lsn_self self apps_call
    notes fd_open HL callers bound listening HA n s l e x c (Caller sock) rest a p xs) as Ht.
  destruct Ht as (s' & r & Hrun & Happ & _ & Hfl & _); try done.
  - change (NoDup ([fn_read_ready; fn_try_write; fn_postable_read; fn_echo_read] ++ [fn_accept_ready; fn_try_accept; fn_start])) in fns_ne.
    apply NoDup_app in fns_ne as (_ & _ & [H _]%NoDup_cons). rewrite not_elem_of_cons in H. tauto.
  - exists s'. split; [exact Hrun|]. eapply first_read_undefined; [exact Happ|exact Hfl].
Qed.
End ServerRun.

(** ** Witnesses: two connections over the demonstration protocol *)

(** Three addresses for each connection. *)
Definition ex_conn_of (a : nat) : option nat := Some (a / 3)%nat.
Lemma ex_addrs i : ex_conn_of (3 * i) = Some i ∧ ex_conn_of (3 * i + 1) = Some i ∧ ex_conn_of (3 * i + 2) = Some i.
Proof. unfold ex_conn_of. split_and!; f_equal; symmetry; [apply (Nat.div_unique _ 3 i 0)|apply (Nat.div_unique _ 3 i 1)|apply (Nat.div_unique _ 3 i 2)]; lia. Qed.
Lemma ex_server_fns : NoDup [4%nat; 5%nat; 6%nat; 7%nat; 1%nat; 2%nat; 3%nat].
Proof. by apply (bool_decide_unpack _). Qed.

Abbreviation ex_two := (Runloop nat nat * lworld (arg_t := nat) (KW := ex_tk)
  (App := sapp (gmap nat (conn (M := DemoMsg.DemoMsg) (P := DemoMsg.DemoMsgParser) (arg_t := nat))) nat) (acb := unit))%type.
Definition ex_call : nat → option nat → ex_two → outcome ex_two := server_call ex_tkq ex_tnet (λ _ w, (w, -1, KQ_EAGAIN))
  1%nat 2%nat 3%nat 4%nat 5%nat 6%nat 7%nat 2000%nat 2001%nat (λ i, 3 * i)%nat (λ i, 3 * i + 1)%nat (λ i, 3 * i + 2)%nat ex_conn_of.
Definition ex_two_ops : AppOps ex_two nat nat := echo_ops ex_tkq 7%nat (λ i, 3 * i + 2)%nat.
(** Connection 0 is idle, on the first event of the pool. *)
Definition ex_state (t : EventTable (RunloopEvent nat nat)) (a : EchoApp (arg_t := nat) (dcb := unit)) (ain : list arrival) (out : list room) : ex_two :=
  (mkRunloop 3 false false t [] (mkFL 8 0 0 (replicate 9 None)),
   mkLWorld None (ex_tk1 5 ain out) (mkSApp (Some (mkServerCtx L_STATE_INITIAL [1%nat; 0%nat]))
     {[ 0%nat := mkConn (Some ex_etcp) ∅ (Some ex_emsg) (Some a); 1%nat := no_conn ]})).

Lemma ex_two_idle t a ain out :
  get_event t 0 = Ret (ex_tevent None) →
  e_idle ex_topen (focus 0 (ex_state t a ain out)) ex_etcp (ex_tevent None) (ex_tstream None) ex_emsg (start (M := DemoMsg.DemoMsg) (P := DemoMsg.DemoMsgParser)).
Proof. intros Ht. by repeat constructor. Qed.

Definition ex_two_run (t : EventTable (RunloopEvent nat nat)) : outcome ex_two :=
  s0 ← APP_RUN (AppOps := ex_two_ops) 0%nat (Some ()) (Some 2001%nat) (ex_state t (mkEcho Unset Unset) (session_in ex_session) (session_out ex_session));
  run_exchanges ex_call 0 ex_session s0.

Lemma server_serves_witness :
  ∃ t s', ex_pool_of (ex_tevent None) = Ret t ∧ ex_two_run t = runloop_post (Some 7%nat) (Some 2%nat) s' ∧
    ex_sent (l_kern (snd s')) 5 = responses (M := DemoMsg.DemoMsg) (P := DemoMsg.DemoMsgParser) ex_session ∧
    s_rest (l_app (snd s')) !! 1%nat = Some no_conn.
Proof.
  destruct (ex_pool_rep (ex_tevent None)) as (t & Ht & _ & He).
  destruct (server_serves ex_tkq ex_tnet (λ _ w, (w, -1, KQ_EAGAIN)) 1%nat 2%nat 3%nat 4%nat 5%nat 6%nat 7%nat 2000%nat 2001%nat
    (λ i, 3 * i)%nat (λ i, 3 * i + 1)%nat (λ i, 3 * i + 2)%nat ex_conn_of ex_tnotes ex_topen ex_tlaws
    _ _ _ ex_io_laws ex_server_fns ex_addrs 0%nat ex_session (ex_state t (mkEcho Unset Unset) (session_in ex_session) (session_out ex_session))
    ex_etcp (ex_tevent None) (ex_tstream None) ex_emsg start start [] [] (ex_two_idle _ _ _ _ He) ex_session_ok eq_refl eq_refl)
    as (s' & t' & e' & x' & m' & Hrun & _ & _ & _ & Hs & [_ _ Hoth] & _).
  exists t, s'. split; [exact Ht|]. split; [exact Hrun|]. split; [exact Hs|]. exact (Hoth 1%nat ltac:(discriminate)).
Defined.

Definition ex_two_closed (t : EventTable (RunloopEvent nat nat)) : ex_two := ex_state t (mkEcho (Ptr ()) (Ptr 2001%nat)) [End 104] [].

Lemma server_conn_ends_witness :
  ∃ t s0 s', ex_pool_of (ex_tevent None) = Ret t ∧ runloop_post (Some 7%nat) (Some 2%nat) (ex_two_closed t) = Ret s0 ∧
    run_posted ex_call 1 s0 = Ret s' ∧ ctx (l_app (snd s')) = Some (mkServerCtx L_STATE_INITIAL [1%nat]) ∧
    table_rep (event_table (fst s')) (mkPool (seqZ 1 2047 ++ [0]) ({[0]} ∪ ∅)).
Proof.
  destruct (ex_pool_rep (ex_tevent None)) as (t & Ht & Hrep & He).
  destruct (server_conn_ends ex_tkq ex_tnet (λ _ w, (w, -1, KQ_EAGAIN)) 1%nat 2%nat 3%nat 4%nat 5%nat 6%nat 7%nat 2000%nat 2001%nat
    (λ i, 3 * i)%nat (λ i, 3 * i + 1)%nat (λ i, 3 * i + 2)%nat ex_conn_of ex_tnotes ex_topen ex_tlaws
    _ _ _ ex_io_laws ex_server_fns ex_addrs 0%nat (ex_two_closed t) ex_etcp (ex_tevent None) (ex_tstream None) ex_emsg start 104 []
    (mkServerCtx L_STATE_INITIAL [1%nat; 0%nat]) (mkPool (seqZ 1 2047) ({[0]} ∪ ∅)) (ex_two_idle _ _ _ _ He) eq_refl eq_refl eq_refl)
    as (s0 & Hp & s' & Hrun & [(l1 & l2 & Hl & Hc) _ _ _ _ _ Hr]);
    [by apply (bool_decide_unpack _)|exact Hrep|set_solver|unfold Zlen; cbn [free]; rewrite length_seqZ; done|].
  exists t, s0, s'. split; [exact Ht|]. split; [exact Hp|]. split; [exact Hrun|]. split; [|exact Hr]. rewrite Hc.
  destruct l1 as [|a [|b l1]]; [done| |]; cbn in Hl; injection Hl; intros; subst; [done|by destruct l1].
Defined.

(** The server of the listener's witnesses. *)
Definition ex_new_ops : AppOps ex_sst nat nat := echo_ops ex_lkq 7%nat (λ i, 3 * i + 2)%nat.
Lemma server_first_read_undefined_witness :
  ∃ t s', ex_pool = Ret t ∧
    accept_turn (AppOps0 := ex_new_ops) ex_lkq ex_lnet ex_accept 1%nat 2%nat 3%nat 2000%nat 2001%nat
      (apps_call ex_lkq ex_lnet 4%nat 5%nat 6%nat 7%nat 2001%nat (λ i, 3 * i)%nat (λ i, 3 * i + 1)%nat (λ i, 3 * i + 2)%nat ex_conn_of) 1 0 (ex_sstart t) = Ret s' ∧
    run_posted (server_call ex_lkq ex_lnet ex_accept 1%nat 2%nat 3%nat 4%nat 5%nat 6%nat 7%nat 2000%nat 2001%nat
      (λ i, 3 * i)%nat (λ i, 3 * i + 1)%nat (λ i, 3 * i + 2)%nat ex_conn_of) 1 s' = Ub.
Proof.
  destruct (ex_pool_rep ex_sevent) as (t & Ht & Hr & He).
  destruct (server_first_read_undefined ex_lkq ex_lnet ex_accept 1%nat 2%nat 3%nat 4%nat 5%nat 6%nat 7%nat 2000%nat 2001%nat
    (λ i, 3 * i)%nat (λ i, 3 * i + 1)%nat (λ i, 3 * i + 2)%nat ex_conn_of (MsgLaws0 := demo_laws) ex_lnotes ex_lopen ex_llaws ex_server_fns ex_addrs
    (λ w _, lk_callers w) (λ _ _, true) (λ w _, lk_listening w) 1 (ex_sstart t) (mkTcpListener 0 None None L_STATE_INITIAL) ex_sevent
    (mkListener 5 None None) (mkServerCtx L_STATE_INITIAL []) 7 [] (mkPool (seqZ 1 2047) ({[0]} ∪ ∅)) 1 (seqZ 2 2046) ex_accept_laws)
    as (s' & Hs & Hu);
    [by apply ex_sopened|reflexivity|reflexivity|left; split; reflexivity|reflexivity|exact Hr|exact ex_free|discriminate
    |apply ex_sready|reflexivity|reflexivity|reflexivity|].
  exists t, s'. split; [exact Ht|]. split; [exact Hs|exact Hu].
Defined.
