(* ===== verification/ServerLoop.v ===== *)
(** * ServerLoop: the loop of the whole server, with many connections at once
    (src/runloop/kqueue_runloop/runloop.c under src/apps/server_process)

    A rule for [runloop_run]: an invariant that each functor and each wait keeps, and a
    measure that they decrease. The server's invariant is that of its listener, whose
    accept is posted or waits, and of each of its connections, with the functors of all of
    them, in any order, in the ready list. *)

From stdpp Require Import functions.
From S2P Require Import Prelude Cbuffer IOBuffer DemoMsg MsgFormat SocketFunctions FunctorList EventTable KqRunloop KqHelpers KqWatchers TcpStream TcpListener AsyncMsgStream EchoApp EchoPhases ServerCtx ServerRun.
Open Scope Z_scope.

(** ** A rule for the loop *)

Section LoopRule.
Context {fn arg_t W : Type} (K : kqueue_sys W).
Abbreviation st := (Runloop fn arg_t * W)%type.
Context (call : fn → option arg_t → st → outcome st) (call_handler : first_level → Z → Z → Z → st → outcome st) (tmo : Z).
(** The invariant, with the functors that are ready; the measure; what a run leads to, and
    when the process may abort instead. *)
Context (I : list (fn * arg_t) → st → Prop) (μ : st → nat) (Done : st → Z → Prop) (Fails : Prop).
Abbreviation executing b s := (set_executing b (fst s), snd s).
Abbreviation in_use s := (event_table_number_in_use (event_table (fst s))).

Hypothesis I_ready : ∀ q s, I q s → fl_rep (ready_list (fst s)) (to_functor <$> q).
Hypothesis I_turn : ∀ g a q l s,
  I ((g, a) :: q) s → fl_rep l (to_functor <$> q) → capacity l = capacity (ready_list (fst s)) →
  let o := call g (Some a) (set_executing true (set_ready (fst s) l), snd s) in
  (∃ s' q', o = Ret s' ∧ I q' (executing false s') ∧ (μ (executing false s') < μ s)%nat) ∨ (o = AssertFail ∧ Fails).
Hypothesis I_wait : ∀ s, I [] s → in_use s ≠ 0 →
  match kevent K (kqueue_fd (fst s)) (change (fst s)) runloop_MAX_EVENTS (timeout_of tmo) (snd s) with
  | (w, KEvents []) => Done (set_closed (fst s), fst (close K (kqueue_fd (fst s)) w)) 0
  | (w, KEvents evs) => let o := dispatch_events call_handler evs (fst s, w) in
      (∃ s' q', o = Ret s' ∧ I q' s' ∧ (μ s' < μ s)%nat) ∨ (o = AssertFail ∧ Fails)
  | (w, KError e) => Done (fst s, w) (if e =? EINTR then -1 else if closed_flag (fst s) then 0 else -1)
  end.
Hypothesis I_idle : ∀ s, I [] s → in_use s = 0 → Done s 0.

Lemma ready_size q s : I q s → functor_list_size (ready_list (fst s)) = Ret (Zlen q).
Proof using I_ready. intros H. rewrite (fl_size_ok _ _ (I_ready _ _ H)). unfold Zlen. by rewrite length_fmap. Qed.

Lemma run_ready_rule fuel : ∀ q s, I q s → q ≠ [] → (μ s < fuel)%nat →
  (∃ s', run_ready call fuel s = Ret (Some s') ∧ I [] s' ∧ (μ s' < μ s)%nat) ∨ (run_ready call fuel s = AssertFail ∧ Fails).
Proof using I_ready I_turn.
  induction fuel as [|fuel IH]; intros q s HI Hq Hf; [lia|]. destruct q as [|[g a] q]; [done|]. destruct s as [rl w].
  cbn [run_ready]. rewrite (ready_size _ _ HI : functor_list_size (ready_list rl) = _), bind_ret_l, Zlen_cons. pose proof (Zlen_nonneg q).
  rewrite (proj2 (Z.eqb_neq _ _)) by lia. destruct (fl_remove_ok _ _ _ (I_ready _ _ HI)) as (l & Hrm & Hl & Hc). cbn [fst] in Hrm.
  rewrite Hrm, bind_ret_l. cbn [to_functor FunctorList.f arg fst snd deref]. rewrite bind_ret_l.
  destruct (I_turn g a q l (rl, w) HI Hl Hc) as [([rl1 w1] & q' & Hcall & HI' & Hm)|[Hcall HF]]; cbn [fst snd] in *;
    [|right; by rewrite Hcall].
  rewrite Hcall, bind_ret_l, (ready_size _ _ HI' : functor_list_size (ready_list (set_executing false rl1)) = _), bind_ret_l.
  destruct (Z.eqb_spec (Zlen q') 0) as [Hz|Hz].
  - destruct q'; [|rewrite Zlen_cons in Hz; pose proof (Zlen_nonneg q'); lia]. left. by eexists.
  - destruct (IH q' (set_executing false rl1, w1) HI') as [(s' & Hr & HI2 & Hm2)|Hab]; [by intros ->|lia| |by right].
    left. exists s'. split_and!; [exact Hr|done|lia].
Qed.

Lemma run_rule fuel : ∀ q s, I q s → (μ s + 1 < fuel)%nat →
  (∃ s' n, runloop_run K call call_handler fuel tmo s = Ret (Some (s', n)) ∧ Done s' n) ∨
  (runloop_run K call call_handler fuel tmo s = AssertFail ∧ Fails).
Proof using I_ready I_turn I_wait I_idle.
  induction fuel as [|fuel IH]; intros q s HI Hf; [lia|]. destruct s as [rl w]. cbn [runloop_run].
  rewrite (ready_size _ _ HI : functor_list_size (ready_list rl) = _), bind_ret_l. destruct q as [|p q].
  - change (Zlen [] =? 0) with true. cbn [andb]. destruct (Z.eqb_spec 0 (event_table_number_in_use (event_table rl))) as [E|E].
    + left. eexists _, _. split; [done|]. by apply (I_idle (rl, w)).
    + pose proof (I_wait (rl, w) HI ltac:(cbn; congruence)) as Hw. cbn [fst snd] in Hw. unfold runloop_get_change_table, runloop_get_max_events.
      destruct (kevent K _ _ _ _ w) as [w' [[|ke evs]|e]].
      * left. destruct (close K (kqueue_fd rl) w') as [w2 r]. by eexists _, _.
      * destruct Hw as [(s' & q' & -> & HI' & Hm)|[-> HF]]; [|by right]. rewrite bind_ret_l. apply (IH q' s'); [done|lia].
      * left. by eexists _, _.
  - rewrite Zlen_cons. pose proof (Zlen_nonneg q). rewrite (proj2 (Z.eqb_neq _ _)) by lia. cbn [andb].
    destruct (run_ready_rule fuel _ _ HI) as [(s' & -> & HI' & Hm)|[-> HF]]; [done|lia| |by right]. rewrite bind_ret_l. apply (IH [] s'); [done|lia].
Qed.
End LoopRule.

(** ** The server *)

(** A kernel that waits: it reports enabled notes, each at most once, and leaves sockets
    alone; closing a descriptor touches nothing of the others. *)
Record wait_laws {KW : Type} (K : kqueue_sys KW) (notes : KW → Z → gmap (Z * Z) note) (fd_open : KW → Z → bool)
    (incoming : KW → Z → list arrival) (outgoing : KW → Z → list room) (sent : KW → Z → list byte) : Prop := {
  wt_events : ∀ q n tmo k k' evs, 0 < n → kevent K q [] n tmo k = (k', KEvents evs) →
    NoDup ((λ ke, (ident ke, filter ke)) <$> evs) ∧
    Forall (λ ke, ∃ nt, notes k q !! (ident ke, filter ke) = Some nt ∧ enabled nt = true ∧ udata ke = n_udata nt) evs;
  wt_sockets : ∀ q n tmo k, 0 < n → let k' := fst (kevent K q [] n tmo k) in
    ∀ g, incoming k' g = incoming k g ∧ outgoing k' g = outgoing k g ∧ sent k' g = sent k g ∧ fd_open k' g = fd_open k g;
  wt_kept : ∀ q n tmo k key nt, 0 < n → notes k q !! key = Some nt → enabled nt = true → oneshot nt = false → dispatch nt = false →
    notes (fst (kevent K q [] n tmo k)) q !! key = Some nt;
  wt_new : ∀ q n tmo k key nt, 0 < n → notes (fst (kevent K q [] n tmo k)) q !! key = Some nt → enabled nt = true → notes k q !! key = Some nt;
  cl_sent : ∀ fd k g, sent (fst (close K fd k)) g = sent k g;
  cl_sockets : ∀ fd k g, g ≠ fd → incoming (fst (close K fd k)) g = incoming k g ∧ outgoing (fst (close K fd k)) g = outgoing k g;
  cl_open : ∀ fd k d, d ≠ u64 fd → fd_open (fst (close K fd k)) d = fd_open k d;
  cl_kept : ∀ fd k q key, fst key ≠ u64 fd → notes (fst (close K fd k)) q !! key = notes k q !! key;
  cl_new : ∀ fd k q key nt, notes (fst (close K fd k)) q !! key = Some nt → notes k q !! key = Some nt
}.

(** Listening sockets and connections leave each other alone: only accept takes a caller,
    and an accept that finds none changes no connection. The kernel reports a listening
    socket when accept has something to find. *)
Definition same_io {KW : Type} (incoming : KW → Z → list arrival) (outgoing : KW → Z → list room) (sent : KW → Z → list byte) (k k' : KW) : Prop :=
  ∀ g, incoming k' g = incoming k g ∧ outgoing k' g = outgoing k g ∧ sent k' g = sent k g.
Definition same_lsn {KW : Type} (callers : KW → Z → list caller) (bound listening : KW → Z → bool) (g : Z) (k k' : KW) : Prop :=
  callers k' g = callers k g ∧ bound k' g = bound k g ∧ listening k' g = listening k g.
Record listen_laws {KW address : Type} (K : kqueue_sys KW) (N : net KW address) (accept : Z → KW → KW * Z * Z)
    (incoming : KW → Z → list arrival) (outgoing : KW → Z → list room) (sent : KW → Z → list byte)
    (callers : KW → Z → list caller) (bound listening : KW → Z → bool) : Prop := {
  li_read : ∀ f n k g, same_lsn callers bound listening g k (fst (fst (fst (sys_read N f n k))));
  li_write : ∀ f bs k g, same_lsn callers bound listening g k (fst (fst (sys_write N f bs k)));
  li_close : ∀ f k g, g ≠ f → same_lsn callers bound listening g k (fst (close K f k));
  li_wait : ∀ q n tmo k g, 0 < n → same_lsn callers bound listening g k (fst (kevent K q [] n tmo k));
  li_accept : ∀ f k rest, listening k f = true → callers k f = NoCaller :: rest → same_io incoming outgoing sent k (fst (fst (accept f k)));
  li_listen : ∀ f n k, bound k f = true → same_io incoming outgoing sent k (fst (listen N f n k));
  li_events : ∀ q n tmo k k' evs ke g, 0 < n → kevent K q [] n tmo k = (k', KEvents evs) → ke ∈ evs →
    (ident ke, filter ke) = KqWatchers.on_read g → listening k g = true → callers k g ≠ []
}.

Lemma same_lsn_refl {KW} callers bound listening g (k : KW) : same_lsn callers bound listening g k k.
Proof. done. Qed.
Lemma same_lsn_trans {KW} callers bound listening g (k1 k2 k3 : KW) :
  same_lsn callers bound listening g k1 k2 → same_lsn callers bound listening g k2 k3 → same_lsn callers bound listening g k1 k3.
Proof. intros (A1 & A2 & A3) (B1 & B2 & B3). split_and!; congruence. Qed.

Lemma sum_le {A} (g h : A → nat) l : (∀ j, j ∈ l → (g j <= h j)%nat) → (sum_list_with g l <= sum_list_with h l)%nat.
Proof.
  induction l as [|a l IH]; intros Hle; [done|]. cbn. pose proof (Hle a ltac:(apply elem_of_cons; auto)).
  assert (sum_list_with g l <= sum_list_with h l)%nat; [|lia]. apply IH. intros j Hj. apply Hle, elem_of_cons. auto.
Qed.

Lemma sum_lt {A} (g h : A → nat) l i :
  (∀ j, j ∈ l → (g j <= h j)%nat) → i ∈ l → (g i < h i)%nat → (sum_list_with g l < sum_list_with h l)%nat.
Proof.
  intros Hle (l1 & l2 & ->)%list_elem_of_split Hlt. rewrite !sum_list_with_app. cbn.
  assert (∀ l, (∀ j, j ∈ l → j ∈ l1 ++ i :: l2) → (sum_list_with g l <= sum_list_with h l)%nat) as H by (intros l Hl; apply sum_le; auto).
  pose proof (H l1 ltac:(intros; apply elem_of_app; auto)). pose proof (H l2 ltac:(intros; apply elem_of_app; rewrite elem_of_cons; auto)). lia.
Qed.

Lemma bind_length {A B} (F : A → list B) l : (∀ j, length (F j) <= 1)%nat → (length (l ≫= F) <= length l)%nat.
Proof. intros HF. induction l as [|j l IH]; [done|]. rewrite bind_cons, length_app. cbn [length]. pose proof (HF j). lia. Qed.

(** What one of several contributes to a list. *)
Lemma bind_update {A B} (D : list nat) (φ : nat → A) (F : nat → A → list B) i :
  NoDup D → i ∈ D → ∃ R, ∀ x, (D ≫= λ j, F j (<[i:=x]> φ j)) ≡ₚ F i x ++ R.
Proof.
  intros Hnd Hi. apply list_elem_of_split in Hi as (l1 & l2 & ->). exists ((l1 ≫= λ j, F j (φ j)) ++ (l2 ≫= λ j, F j (φ j))). intros x.
  rewrite bind_app, bind_cons, fn_lookup_insert. apply NoDup_app in Hnd as (_ & H1 & [H2 _]%NoDup_cons).
  assert (∀ l, i ∉ l → (l ≫= λ j, F j (<[i:=x]> φ j)) = (l ≫= λ j, F j (φ j))) as Hl.
  { induction l as [|j l IH]; [done|]. rewrite not_elem_of_cons, !bind_cons. intros [Hj Hl]. by rewrite fn_lookup_insert_ne, IH. }
  rewrite !Hl; [|done|intros H; by apply (H1 i H), elem_of_cons; left]. by rewrite !app_assoc, (Permutation_app_comm (F i x)).
Qed.

Section ServerLoop.
Context {M P S fn arg_t KW address : Type} `{!MsgOps M P} `{!EqDecision fn, !EqDecision arg_t}.
Abbreviation conn := (conn (P := P) (M := M) (arg_t := arg_t)).
Abbreviation sapp := (sapp (gmap nat conn) nat).
Abbreviation st := (Runloop fn arg_t * lworld (arg_t := arg_t) (KW := KW) (App := sapp) (acb := unit))%type.
Abbreviation est i := (Runloop fn arg_t * world (arg_t := arg_t) (KW := KW) (rcb := unit) (wcb := unit)
  (App := mapp (P := P) (M := M) (arg_t := arg_t) (mrcb := unit) (mwcb := unit) (App := eapp (arg_t := arg_t) (dcb := unit)
  (App := outside (M := M) (P := P) (arg_t := arg_t) i))))%type.

Variable K : kqueue_sys KW.
Variable N : net KW address.
Variable accept : Z → KW → KW * Z * Z.
Variable fn_accept_ready fn_try_accept fn_start fn_read_ready fn_try_write fn_postable_read fn_echo_read : fn.
Variable lsn_self self : arg_t.
Variable tcp_addr msg_addr echo_addr : nat → arg_t.
Variable conn_of : arg_t → option nat.
#[local] Instance the_ops : AppOps st nat arg_t := echo_ops K fn_echo_read echo_addr.
Abbreviation conn_call := (conn_call K N fn_read_ready fn_try_write fn_postable_read fn_echo_read self tcp_addr msg_addr echo_addr).
Abbreviation server_call := (server_call K N accept fn_accept_ready fn_try_accept fn_start fn_read_ready fn_try_write fn_postable_read
  fn_echo_read lsn_self self tcp_addr msg_addr echo_addr conn_of).

Context `{!MsgLaws M P S}.
Context (notes : KW → Z → gmap (Z * Z) note) (fd_open : KW → Z → bool) (HL : kqueue_laws K notes fd_open).
Context (incoming : KW → Z → list arrival) (outgoing : KW → Z → list room) (sent : KW → Z → list byte).
Context (HIO : io_laws K N notes fd_open incoming outgoing sent) (HW : wait_laws K notes fd_open incoming outgoing sent).
Hypothesis (fns_ne : NoDup [fn_read_ready; fn_try_write; fn_postable_read; fn_echo_read; fn_accept_ready; fn_try_accept; fn_start]).
Hypothesis (addrs : ∀ i, conn_of (tcp_addr i) = Some i ∧ conn_of (msg_addr i) = Some i ∧ conn_of (echo_addr i) = Some i).

Context (callers : KW → Z → list caller) (bound listening : KW → Z → bool).
Context (HA : accept_laws K N accept notes fd_open callers bound listening).
Context (HLi : listen_laws K N accept incoming outgoing sent callers bound listening).

(** The connections, the event and the descriptor of each, what each will have been sent
    in the end, and whether its end comes with errno 0; the event and the descriptor of the
    listener. *)
Variable D : list nat.
Variable ev fd : nat → Z.
Variable total : nat → list byte.
Variable silent : nat → bool.
Variable lev lfd : Z.
Hypothesis (D_once : NoDup D).
Hypothesis (apart : ∀ i j, i ∈ D → j ∈ D → i ≠ j → ev i ≠ ev j ∧ u64 (fd i) ≠ u64 (fd j)).
Hypothesis (apart_lsn : ∀ i, i ∈ D → ev i ≠ lev ∧ u64 (fd i) ≠ u64 lfd).

Abbreviation conn_inv i := (EchoPhases.conn_inv fn_read_ready (tcp_addr i) (msg_addr i) (echo_addr i) notes fd_open incoming outgoing sent (ev i) (fd i) () self (silent i)).
Abbreviation quiet i := (EchoPhases.quiet K N notes fd_open incoming outgoing sent (ev i) (fd i)).
Abbreviation turns i := (EchoPhases.turns K N (echo_done K fn_echo_read self echo_addr i) fn_read_ready fn_try_write fn_postable_read fn_echo_read
  (tcp_addr i) (msg_addr i) (echo_addr i) notes fd_open incoming outgoing sent (ev i) (fd i) () self (silent i)).
Abbreviation posted i := (EchoPhases.posted fn_try_write fn_postable_read fn_echo_read (tcp_addr i) (msg_addr i) (echo_addr i)).
Abbreviation after_turn i := (EchoPhases.after_turn K N (echo_done K fn_echo_read self echo_addr i) fn_read_ready fn_try_write fn_postable_read fn_echo_read
  (tcp_addr i) (msg_addr i) (echo_addr i) (λ _ _ _, Ub) (ev i)).

(** ** The invariant *)

Definition watched (s : st) : gmap (Z * Z) note := notes (l_kern (snd s)) (kqueue_fd (fst s)).

(** A connection in phase [φ]; one that has ended was sent all it was to be sent, and is
    freed. *)
Definition conn_ok (i : nat) (φ : phase) (s : st) : Prop :=
  match φ with
  | Ended => sent (l_kern (snd s)) (fd i) = total i ∧ c_echo (conn_at i s) = None ∧ silent i = false
  | _ => conn_inv i φ (focus i s) (total i)
  end.

(** The listener, which is in one of three phases: the server has posted its start, the
    listener has posted its attempt to accept, or the accept waits for the event. *)
Inductive lphase := Starting | Trying | Armed.
Definition lposted (ψ : lphase) : list (fn * arg_t) :=
  match ψ with Starting => [(fn_start, self)] | Trying => [(fn_try_accept, lsn_self)] | Armed => [] end.
(** An attempt can be made, and will find that no caller is there. *)
Definition attempts (l : TcpListener (arg_t := arg_t) (acb := unit)) (k : KW) : Prop :=
  (l_state l = L_STATE_INITIAL ∧ bound k lfd = true ∨ l_state l = L_STATE_READY ∧ listening k lfd = true) ∧ callers k lfd ≠ [].
Definition lsn_in (ψ : lphase) (l : TcpListener (arg_t := arg_t) (acb := unit)) (x : listener_t fn arg_t) (k : KW) : Prop :=
  match ψ with
  | Starting => accept_cb l = None ∧ accept_cb_arg l = None ∧ attempts l k
  | Trying => accept_cb l = Some () ∧ accept_cb_arg l = Some self ∧ attempts l k
  | Armed => accept_cb l = Some () ∧ accept_cb_arg l = Some self ∧ l_state l = L_STATE_EAGAIN ∧ listening k lfd = true ∧
      x = waiting_listener fn_accept_ready lsn_self x
  end.
Definition lsn_inv (ψ : lphase) (s : st) : Prop :=
  ∃ l e x, open_listener fd_open s l e x ∧ rl_listener_ref l = lev ∧ l_fd x = lfd ∧ handler e = Some H_listener ∧
    Forall (eq NoCaller) (callers (l_kern (snd s)) lfd) ∧ lsn_in ψ l x (l_kern (snd s)).

(** The server has [φ] of each connection and [ψ] of the listener: its list are the
    connections that have not ended, whose events are taken from the pool, and the enabled
    notes are for their reads and for the listener. *)
Record serving (φ : nat → phase) (ψ : lphase) (s : st) : Prop := {
  se_conns : ∀ i, i ∈ D → conn_ok i (φ i) s;
  se_lsn : lsn_inv ψ s;
  se_list : ∃ c a, ctx (l_app (snd s)) = Some c ∧ NoDup (connection_list c) ∧ (∀ i, i ∈ connection_list c ↔ i ∈ D ∧ φ i ≠ Ended) ∧
    table_rep (event_table (fst s)) a ∧ (∀ i, i ∈ D → ev i ∈ seen a) ∧ Zlen (free a) + Zlen (connection_list c) + 1 ≤ EVT_MAX;
  se_notes : ∀ key nt, watched s !! key = Some nt → enabled nt = true →
    (∃ i, i ∈ D ∧ φ i ≠ Ended ∧ key = KqWatchers.on_read (fd i) ∧ nt = armed_note (ev i) false) ∨
    (key = KqWatchers.on_read lfd ∧ n_udata nt = Some lev);
  se_change : change (fst s) = [];
  se_cap : Zlen D + 1 < capacity (ready_list (fst s))
}.

(** The functors that the listener and the connections have posted. *)
Definition queued (φ : nat → phase) (ψ : lphase) : list (fn * arg_t) := lposted ψ ++ (D ≫= λ i, posted i (φ i)).
Definition ready (φ : nat → phase) (ψ : lphase) (q : list (fn * arg_t)) (s : st) : Prop :=
  fl_rep (ready_list (fst s)) (to_functor <$> q) ∧ q ≡ₚ queued φ ψ.

(** The reads and writes that are to come, and the attempts to accept. *)
Definition lively (s : st) (i : nat) : nat :=
  match c_echo (conn_at i s) with Some _ => work incoming outgoing (fd i) (l_kern (snd s)) | None => 0%nat end.
Definition lsn_work (s : st) : nat :=
  (length (callers (l_kern (snd s)) lfd) + match lsn (snd s) with Some l => match accept_cb l with Some _ => 0 | None => 1 end | None => 0 end)%nat.
Definition to_come (s : st) : nat := (lsn_work s + sum_list_with (lively s) D)%nat.

(** ** What the others see of a turn *)

Record beside (i : nat) (s s' : st) : Prop := {
  be_queue : kqueue_fd (fst s') = kqueue_fd (fst s);
  be_change : change (fst s') = change (fst s);
  be_events : ∀ q, q ≠ ev i → get_event (event_table (fst s')) q = get_event (event_table (fst s)) q;
  be_in : ∀ g, g ≠ fd i → incoming (l_kern (snd s')) g = incoming (l_kern (snd s)) g;
  be_out : ∀ g, g ≠ fd i → outgoing (l_kern (snd s')) g = outgoing (l_kern (snd s)) g ∧ sent (l_kern (snd s')) g = sent (l_kern (snd s)) g;
  be_open : ∀ d, d ≠ u64 (fd i) → fd_open (l_kern (snd s')) d = fd_open (l_kern (snd s)) d;
  be_notes : ∀ key, fst key ≠ u64 (fd i) → watched s' !! key = watched s !! key;
  be_conns : ∀ j, j ≠ i → conn_at j s' = conn_at j s;
  be_lsn : lsn (snd s') = lsn (snd s);
  be_listen : ∀ g, g ≠ fd i → same_lsn callers bound listening g (l_kern (snd s)) (l_kern (snd s'))
}.

Lemma beside_trans i s1 s2 s3 : beside i s1 s2 → beside i s2 s3 → beside i s1 s3.
Proof.
  intros [Q1 C1 E1 I1 O1 F1 N1 J1 L1 S1] [Q2 C2 E2 I2 O2 F2 N2 J2 L2 S2]. constructor; try congruence; intros x Hx.
  - by rewrite E2, E1.
  - by rewrite I2, I1.
  - destruct (O2 x Hx) as [-> ->]. by apply O1.
  - by rewrite F2, F1.
  - by rewrite N2, N1.
  - by rewrite J2, J1.
  - by eapply same_lsn_trans; [apply S1|apply S2].
Qed.

(** The other connections as connection [i] sees them. *)
Lemma conn_others i (s : est i) j : j ≠ i → conn_at j (unfocus i s) = default no_conn (proj1_sig (o_conns i (e_rest (m_app (the_app (snd s))))) !! j).
Proof. intros Hj. unfold conn_at. by rewrite unfocus_others. Qed.

(** The listening sockets are nothing to a connection. *)
Lemma steps_listen f g k k' : rtc (io_step K N f) k k' → same_lsn callers bound listening g k k'.
Proof using HA HLi.
  induction 1 as [k|k1 k2 k3 Hst _ IH]; [done|]. eapply same_lsn_trans; [|exact IH]. destruct Hst as [n k|bs k|q cs k].
  - apply (li_read _ _ _ _ _ _ _ _ _ HLi).
  - apply (li_write _ _ _ _ _ _ _ _ _ HLi).
  - destruct (al_queue _ _ _ _ _ _ _ _ HA q cs k g) as (H1 & H2 & H3 & _). by split_and!.
Qed.

Lemma quiet_beside i (s : st) (s1 : est i) : quiet i (focus i s) s1 → beside i s (unfocus i s1).
Proof using HA HLi.
  intros [[Hr Hq Hc He _] Hi Ho Hop Hn _ Hrest Hst]. constructor; try done.
  - intros key Hk. apply Hn. by intros ->.
  - intros j Hj. rewrite conn_others by done. rewrite Hrest. cbn. by rewrite lookup_delete_ne.
  - cbn. by rewrite Hrest.
  - intros g _. cbn. by eapply steps_listen.
Qed.

Lemma others_ok i j φ s s' : beside i s s' → i ∈ D → j ∈ D → j ≠ i → conn_ok j φ s → conn_ok j φ s'.
Proof using apart.
  intros [Hq Hc He Hi Ho Hop Hn Hj _ _] HiD HjD Hne. destruct (apart j i HjD HiD Hne) as [Hev Hfd].
  assert (fd j ≠ fd i) as Hfd' by (by intros E; rewrite E in Hfd). destruct (Ho _ Hfd') as [Hout Hsent]. pose proof (Hj j Hne) as Hat.
  assert (conn_inv j φ (focus j s) (total j) → conn_inv j φ (focus j s') (total j)) as Hinv.
  { intros H. eapply conn_untouched; [exact H|]. constructor; cbn; rewrite ?Hat; auto. }
  destruct φ; cbn [conn_ok]; try exact Hinv. by rewrite Hsent, Hat.
Qed.

(** What the listener is about has not changed. *)
Lemma lsn_untouched ψ s s' :
  lsn_inv ψ s → lsn (snd s') = lsn (snd s) → get_event (event_table (fst s')) lev = get_event (event_table (fst s)) lev →
  fd_open (l_kern (snd s')) (u64 lfd) = fd_open (l_kern (snd s)) (u64 lfd) → same_lsn callers bound listening lfd (l_kern (snd s)) (l_kern (snd s')) →
  lsn_inv ψ s'.
Proof.
  intros (l & e & x & [Hl [He Hr] Hv Ho] & Hev & Hfd & Hh & Hn & Hin) Hl' He' Ho' (Hc & Hb & Hli). exists l, e, x. rewrite Hc. split_and!; try done.
  - constructor; [by rewrite Hl'| |done|unfold lopen in *; by rewrite Hfd, Ho', <- Hfd].
    split; [|done]. unfold event_at in *. by rewrite Hev, He', <- Hev.
  - unfold lsn_in, attempts in *. by rewrite Hc, Hb, Hli.
Qed.

(** The end of a connection, for the kernel. *)
Lemma forget_sockets q g k : let k' := forget_stream K q g k in
  (∀ h, h ≠ g → incoming k' h = incoming k h ∧ outgoing k' h = outgoing k h) ∧ (∀ h, sent k' h = sent k h) ∧
  (∀ d, d ≠ u64 g → fd_open k' d = fd_open k d) ∧ (∀ h, h ≠ g → same_lsn callers bound listening h k k').
Proof using HIO HW HA HLi.
  unfold forget_stream. match goal with |- context [kevent K q ?cs 0 None k] => set (c := cs) end. split_and!.
  - intros h Hh. destruct (cl_sockets _ _ _ _ _ _ HW g (fst (kevent K q c 0 None k)) h Hh) as [-> ->].
    by rewrite (io_queue_in _ _ _ _ _ _ _ HIO), (proj1 (io_queue_out _ _ _ _ _ _ _ HIO q c k h)).
  - intros h. by rewrite (cl_sent _ _ _ _ _ _ HW), (proj2 (io_queue_out _ _ _ _ _ _ _ HIO q c k h)).
  - intros d Hd. by rewrite (cl_open _ _ _ _ _ _ HW) by done; rewrite (io_queue_open _ _ _ _ _ _ _ HIO).
  - intros h Hh. eapply same_lsn_trans; [|by apply (li_close _ _ _ _ _ _ _ _ _ HLi)].
    destruct (al_queue _ _ _ _ _ _ _ _ HA q c k h) as (H1 & H2 & H3 & _). by split_and!.
Qed.

Lemma forget_notes q g k : let k' := forget_stream K q g k in
  (∀ key, fst key ≠ u64 g → notes k' q !! key = notes k q !! key) ∧ notes k' q !! KqWatchers.on_read g = None ∧
  (∀ key nt, notes k' q !! key = Some nt → notes k q !! key = Some nt).
Proof using HL HW.
  unfold forget_stream. match goal with |- context [kevent K q ?cs 0 None k] => set (c := cs) end.
  assert (notes (fst (kevent K q c 0 None k)) q = without_stream g (notes k q)) as Hn.
  { rewrite (kl_change _ _ _ HL), <- delete_both; [done|]. repeat constructor; intros _ H; discriminate H. }
  assert (∀ key nt, notes (fst (close K g (fst (kevent K q c 0 None k)))) q !! key = Some nt → without_stream g (notes k q) !! key = Some nt) as Hnew
    by (intros key nt H; apply (cl_new _ _ _ _ _ _ HW) in H; by rewrite Hn in H).
  unfold without_stream in *. split_and!.
  - intros key Hk. rewrite (cl_kept _ _ _ _ _ _ HW) by done. rewrite Hn. destruct (notes k q !! KqWatchers.on_read g); [|done].
    rewrite !lookup_delete_ne; [done|intros <-; by apply Hk..].
  - apply eq_None_not_Some. intros [nt E]. apply Hnew in E. destruct (notes k q !! KqWatchers.on_read g) eqn:E2; [|congruence].
    by rewrite lookup_delete_ne, lookup_delete_eq in E.
  - intros key nt H. apply Hnew in H. destruct (notes k q !! KqWatchers.on_read g); [|done].
    apply lookup_delete_Some in H as [_ H]. by apply lookup_delete_Some in H as [_ H].
Qed.

(** A connection that has not ended is there. *)
Lemma conn_there i φ s : conn_inv i φ (focus i s) (total i) → c_echo (conn_at i s) = Some (mkEcho (Ptr ()) (Ptr self)).
Proof. intros (t & e & x & m & σ & ts & Hco & _). by destruct Hco. Qed.

Lemma ok_there i φ s : conn_ok i φ s → φ ≠ Ended → conn_inv i φ (focus i s) (total i).
Proof. by destruct φ. Qed.

(** The functors of the others. *)
Lemma queue_of φ ψ i : i ∈ D → ∃ R, (∀ x, queued (<[i:=x]> φ) ψ ≡ₚ posted i x ++ R) ∧ queued φ ψ ≡ₚ posted i (φ i) ++ R ∧ (length R <= length D)%nat.
Proof using D_once.
  intros Hi. destruct (bind_update D φ (λ j, posted j) i D_once Hi) as (R & HR). exists (lposted ψ ++ R).
  assert (∀ x, queued (<[i:=x]> φ) ψ ≡ₚ posted i x ++ lposted ψ ++ R) as HR'.
  { intros x. unfold queued. rewrite HR, !app_assoc. by rewrite (Permutation_app_comm (lposted ψ)). }
  assert (∀ ξ, length (D ≫= λ j, posted j (ξ j)) <= length D)%nat as Hlen by (intros ξ; apply bind_length; intros j; by destruct (ξ j); cbn; lia).
  split; [exact HR'|]. split.
  - rewrite <- HR'. unfold queued. f_equiv. apply Permutation_refl', list_bind_ext; [|done]. intros j.
    destruct (decide (j = i)) as [->|]; [by rewrite fn_lookup_insert|by rewrite fn_lookup_insert_ne].
  - pose proof (Hlen (<[i:=Reading]> φ)) as H. rewrite (Permutation_length (HR Reading)) in H. cbn in H. rewrite length_app.
    assert (length (lposted ψ) <= 1)%nat by (by destruct ψ; cbn; lia). lia.
Qed.

(** What a turn of connection [i] has to keep. *)
Lemma serving_step φ ψ φ' s s' i :
  serving φ ψ s → i ∈ D → beside i s s' → conn_ok i φ' s' → capacity (ready_list (fst s')) = capacity (ready_list (fst s)) →
  (∃ c a, ctx (l_app (snd s')) = Some c ∧ NoDup (connection_list c) ∧ (∀ j, j ∈ connection_list c ↔ j ∈ D ∧ <[i:=φ']> φ j ≠ Ended) ∧
    table_rep (event_table (fst s')) a ∧ (∀ j, j ∈ D → ev j ∈ seen a) ∧ Zlen (free a) + Zlen (connection_list c) + 1 ≤ EVT_MAX) →
  (∀ key nt, fst key = u64 (fd i) → watched s' !! key = Some nt → enabled nt = true →
    φ' ≠ Ended ∧ key = KqWatchers.on_read (fd i) ∧ nt = armed_note (ev i) false) →
  serving (<[i:=φ']> φ) ψ s'.
Proof using apart apart_lsn.
  intros [Hc Hls _ Hn Hch Hcap] Hi Hb Hok Hcap' Hlist Hown. destruct (apart_lsn i Hi) as [Hev Hfd].
  constructor; [| |exact Hlist| |by rewrite (be_change _ _ _ Hb)|by rewrite Hcap'].
  - intros j Hj. destruct (decide (j = i)) as [->|Hne]; [by rewrite fn_lookup_insert|].
    rewrite fn_lookup_insert_ne by done. eapply others_ok; [exact Hb|done..|by apply Hc].
  - eapply lsn_untouched; [exact Hls|apply Hb|by apply (be_events _ _ _ Hb)|by apply (be_open _ _ _ Hb)|].
    apply (be_listen _ _ _ Hb). intros E. by rewrite E in Hfd.
  - intros key nt Hk He. destruct (decide (fst key = u64 (fd i))) as [E|E].
    + left. destruct (Hown key nt E Hk He) as (? & ? & ?). exists i. by rewrite fn_lookup_insert.
    + rewrite (be_notes _ _ _ Hb) in Hk by done. destruct (Hn key nt Hk He) as [(j & Hj & Hφ & -> & ->)|H]; [left|by right]. exists j.
      rewrite fn_lookup_insert_ne; [done|]. by intros ->.
Qed.

Lemma to_come_lt i s s' : beside i s s' → i ∈ D → (lively s' i < lively s i)%nat → (to_come s' < to_come s)%nat.
Proof using apart apart_lsn.
  intros Hb Hi Hlt. assert (lsn_work s' = lsn_work s) as Hw.
  { unfold lsn_work. rewrite (be_lsn _ _ _ Hb). destruct (be_listen _ _ _ Hb lfd) as (-> & _); [|done].
    intros E. destruct (apart_lsn i Hi) as [_ H]. by rewrite E in H. }
  unfold to_come. rewrite Hw. apply Nat.add_lt_mono_l. apply (sum_lt _ _ _ i); [|done|done]. intros j Hj. destruct (decide (j = i)) as [->|Hne]; [lia|].
  destruct (apart j i Hj Hi Hne) as [_ Hfd]. assert (fd j ≠ fd i) as Hfd' by (by intros E; rewrite E in Hfd).
  unfold lively. rewrite (be_conns _ _ _ Hb j Hne). destruct (c_echo (conn_at j s)); [|done]. unfold work.
  by rewrite (be_in _ _ _ Hb _ Hfd'), (proj1 (be_out _ _ _ Hb _ Hfd')).
Qed.

Lemma lively_there i φ s : conn_inv i φ (focus i s) (total i) → lively s i = work incoming outgoing (fd i) (l_kern (snd s)).
Proof. intros H. unfold lively. by rewrite (conn_there _ _ _ H). Qed.

(** The functors that a turn posts go to the end of the ready list. *)
Lemma posts_ready {i} (s1 s' : est i) l q :
  EchoPhases.posts l s1 s' → (length l <= 1)%nat → fl_rep (ready_list (fst s1)) (to_functor <$> q) → Zlen q + 1 < capacity (ready_list (fst s1)) →
  ∃ rl, s' = (set_ready (fst s1) rl, snd s1) ∧ fl_rep rl (to_functor <$> (q ++ l)) ∧ capacity rl = capacity (ready_list (fst s1)).
Proof.
  intros Hp Hl Hr Hc. destruct l as [|[g a] [|]]; cbn [length] in Hl; [| |lia].
  - cbn [EchoPhases.posts] in Hp. subst s'. exists (ready_list (fst s1)). rewrite app_nil_r. split_and!; try done. by destruct s1 as [[] ?].
  - cbn [EchoPhases.posts] in Hp. destruct (fl_add_ok _ _ (mkFunctor (Some g) (Some a)) Hr) as (rl & Hadd & Hr' & Hc'); [unfold Zlen in *; by rewrite length_fmap|].
    destruct s1 as [rl1 w1]. unfold runloop_post in Hp. rewrite !bool_decide_true in Hp by eauto. cbn [c_assert fst snd] in *. rewrite !bind_ret_l in Hp.
    rewrite Hadd, bind_ret_l in Hp. injection Hp as <-. exists rl. split_and!; [done| |done]. by rewrite fmap_app.
Qed.

(** The notes of connection [i]. *)
Lemma own_note φ ψ s i key nt :
  serving φ ψ s → i ∈ D → fst key = u64 (fd i) → watched s !! key = Some nt → enabled nt = true →
  key = KqWatchers.on_read (fd i) ∧ nt = armed_note (ev i) false.
Proof using apart apart_lsn.
  intros Hs Hi Hf Hk He. destruct (se_notes _ _ _ Hs key nt Hk He) as [(j & Hj & _ & -> & ->)|[-> _]];
    [|by destruct (apart_lsn i Hi) as [_ []]].
  destruct (decide (j = i)) as [->|Hne]; [done|]. by destruct (apart j i Hj Hi Hne).
Qed.

Lemma note_after i φ ψ s (s1 : est i) key nt :
  serving φ ψ s → i ∈ D → quiet i (focus i s) s1 → fst key = u64 (fd i) → watched (unfocus i s1) !! key = Some nt → enabled nt = true →
  key = KqWatchers.on_read (fd i) ∧ nt = armed_note (ev i) false.
Proof using apart apart_lsn.
  intros Hs Hi Hq Hf Hk He. destruct (decide (key = KqWatchers.on_read (fd i))) as [->|Hne].
  - destruct (qu_own _ _ _ _ _ _ _ _ _ _ _ Hq) as [H|H]; unfold KqHelpers.watching, wnotes in H; unfold watched in Hk; cbn in H, Hk.
    + rewrite H in Hk. by eapply (own_note φ ψ s).
    + rewrite H in Hk. by injection Hk as <-.
  - pose proof (qu_notes _ _ _ _ _ _ _ _ _ _ _ Hq key Hne) as H. unfold KqHelpers.watching, wnotes in H. unfold watched in Hk. cbn in H, Hk.
    rewrite H in Hk. by eapply (own_note φ ψ s).
Qed.

Abbreviation proceeds i := (EchoPhases.proceeds K N fn_read_ready fn_try_write fn_postable_read fn_echo_read
  (tcp_addr i) (msg_addr i) (echo_addr i) notes fd_open incoming outgoing sent (ev i) (fd i) () self (silent i)).
Abbreviation finishes i := (EchoPhases.finishes K N (echo_done K fn_echo_read self echo_addr i) notes fd_open incoming outgoing sent (ev i) (fd i) () self (silent i)).

(** What a turn of connection [i] leads to. *)
Definition turned (φ : nat → phase) (ψ : lphase) (i : nat) (s : st) (o : outcome (est i)) : Prop :=
  (∃ s1 φ' q, o = Ret s1 ∧ serving (<[i:=φ']> φ) ψ (unfocus i s1) ∧ ready (<[i:=φ']> φ) ψ q (unfocus i s1) ∧
    (to_come (unfocus i s1) < to_come s)%nat ∧ callers (l_kern (snd (unfocus i s1))) lfd = callers (l_kern (snd s)) lfd) ∨
  (o = AssertFail ∧ silent i = true).

Lemma beside_callers i s s' : beside i s s' → i ∈ D → callers (l_kern (snd s')) lfd = callers (l_kern (snd s)) lfd.
Proof using apart_lsn.
  intros Hb Hi. destruct (be_listen _ _ _ Hb lfd) as (-> & _); [|done]. intros E. destruct (apart_lsn i Hi) as [_ H]. by rewrite E in H.
Qed.

Lemma proceeds_serves φ ψ q s i o :
  serving φ ψ s → i ∈ D → φ i ≠ Ended → fl_rep (ready_list (fst s)) (to_functor <$> q) → q ≡ₚ queued (<[i:=Waiting]> φ) ψ →
  proceeds i (focus i s) (total i) o → turned φ ψ i s o.
Proof using apart apart_lsn D_once HA HLi.
  intros Hs Hi Hφ Hr Hq (s1 & s' & φ' & Hqu & Hpo & -> & Hci & Hwk). pose proof (ok_there _ _ _ (se_conns _ _ _ Hs i Hi) Hφ) as Hci0.
  destruct (queue_of φ ψ i Hi) as (R & HR & _ & HRl). pose proof (Permutation_length Hq) as Hql. rewrite (HR Waiting) in Hq, Hql. change (posted i Waiting ++ R) with R in *.
  pose proof (lu_ready _ _ _ (qu_loop _ _ _ _ _ _ _ _ _ _ _ Hqu)) as Hrl. cbn [focus fst] in Hrl. pose proof (se_cap _ _ _ Hs) as Hcap.
  destruct (posts_ready s1 s' _ q Hpo) as (rl & -> & Hrl' & Hc); [by destruct φ'; cbn; lia|by rewrite Hrl|rewrite Hrl; unfold Zlen in *; lia|].
  pose proof (quiet_beside i s s1 Hqu) as Hb1.
  assert (beside i s (unfocus i (set_ready (fst s1) rl, snd s1))) as Hb by (eapply beside_trans; [exact Hb1|by constructor]).
  left. exists (set_ready (fst s1) rl, snd s1), φ', (q ++ posted i φ'). split_and!; [done| |split; [exact Hrl'|by rewrite HR, Hq, Permutation_app_comm]| |by apply (beside_callers i)].
  - eapply serving_step; [exact Hs|done|exact Hb| |cbn; by rewrite Hc, Hrl| |].
    + destruct φ'; cbn [conn_ok]; try (rewrite focus_unfocus; exact Hci). by destruct Hci as (? & ? & ? & ? & ? & ? & _ & [] & _).
    + destruct (se_list _ _ _ Hs) as (c & a & Hctx & Hnd & Hl & Hrep & Hse & Hz). exists c, a. split_and!; try done.
      * cbn. by rewrite (qu_rest _ _ _ _ _ _ _ _ _ _ _ Hqu).
      * intros j. rewrite Hl. destruct (decide (j = i)) as [->|]; [|by rewrite fn_lookup_insert_ne]. rewrite fn_lookup_insert. split; [|done].
        intros _. split; [done|]. intros ->. by destruct Hci as (? & ? & ? & ? & ? & ? & _ & [] & _).
      * apply (lu_pool _ _ _ (qu_loop _ _ _ _ _ _ _ _ _ _ _ Hqu)), Hrep.
    + intros key nt Hf Hk He. split; [|by eapply (note_after i φ ψ s s1)]. intros ->. by destruct Hci as (? & ? & ? & ? & ? & ? & _ & [] & _).
  - eapply to_come_lt; [exact Hb|done|]. rewrite (lively_there i φ' (unfocus i (set_ready (fst s1) rl, snd s1))) by (by rewrite focus_unfocus).
    rewrite (lively_there i (φ i) s Hci0). exact Hwk.
Qed.

(** Freeing connection [i] after its turn. *)
Lemma freed_beside i s (s2 s3 : est i) ls a :
  quiet i (focus i s) s2 → gives_back (ev i) a (fst s2) (fst s3) → kern (snd s3) = forget_stream K (kqueue_fd (fst s2)) (fd i) (kern (snd s2)) →
  e_rest (m_app (the_app (snd s3))) = mkOutside i (o_lsn i (e_rest (m_app (the_app (snd s2))))) ls (o_conns i (e_rest (m_app (the_app (snd s2))))) →
  beside i s (unfocus i s3) ∧ sent (l_kern (snd (unfocus i s3))) (fd i) = sent (kern (snd s2)) (fd i) ∧
  watched (unfocus i s3) !! KqWatchers.on_read (fd i) = None ∧ ∀ key nt, watched (unfocus i s3) !! key = Some nt → watched (unfocus i s2) !! key = Some nt.
Proof using HIO HL HW HA HLi.
  intros Hq [Hr Hqu Hch Hev Hpool] Hk Hrest. destruct (forget_sockets (kqueue_fd (fst s2)) (fd i) (kern (snd s2))) as (Hs1 & Hs2 & Hs3 & Hs4).
  destruct (forget_notes (kqueue_fd (fst s2)) (fd i) (kern (snd s2))) as (Hn1 & Hn2 & Hn3). rewrite <- Hk in *.
  split_and!; [|by cbn; rewrite Hs2|unfold watched; cbn; by rewrite Hqu|intros key nt; unfold watched; cbn; rewrite Hqu; apply Hn3].
  eapply beside_trans; [exact (quiet_beside i s s2 Hq)|]. constructor; cbn; try done.
  - intros g Hg. by apply Hs1.
  - intros g Hg. split; [by apply Hs1|apply Hs2].
  - intros key Hf. unfold watched. cbn. rewrite Hqu. by apply Hn1.
  - intros j Hj. rewrite !conn_others by done. by rewrite Hrest.
  - cbn. by rewrite Hrest.
Qed.

Lemma finishes_serves φ ψ q s i k o :
  serving φ ψ s → i ∈ D → φ i ≠ Ended → fl_rep (ready_list (fst s)) (to_functor <$> q) → q ≡ₚ queued (<[i:=Waiting]> φ) ψ →
  finishes i (focus i s) (total i) k o → (k = Ret ∨ k = after_turn i) → turned φ ψ i s o.
Proof using HIO HL HW HA HLi apart apart_lsn D_once.
  intros Hs Hi Hφ Hr Hq (er & s1 & t & e & x & m & σ & Hqu & -> & Hcl & Href & Hfd & Hse & Hsi & Hwk) Hk.
  set (s2 := w_echo (Some (mkEcho Null Null)) s1) in *. pose proof (ok_there _ _ _ (se_conns _ _ _ Hs i Hi) Hφ) as Hci0.
  assert (quiet i (focus i s) s2) as Hqu2 by (eapply quiet_trans; [exact Hqu|by apply (quiet_own K N _ _ _ _ _ _ _ s1 (snd s2))]).
  destruct (se_list _ _ _ Hs) as (c & a & Hctx & Hnd & Hl & Hrep & Hsee & Hz). pose proof (proj2 (Hl i) (conj Hi Hφ)) as Hil.
  assert (Zlen (free a) < EVT_MAX) as Hroom.
  { assert (0 < Zlen (connection_list c)); [|lia]. destruct (connection_list c); [by apply elem_of_nil in Hil|]. rewrite Zlen_cons. pose proof (Zlen_nonneg l). lia. }
  destruct (done_ok K fn_echo_read echo_addr notes fd_open HL i er s2 t e x m σ (mkEcho Null Null) c a) as (s3 & l1 & l2 & Hdone & Hll & Hrest & Hec & Hgb & Hk3); try done.
  { destruct Hcl as [[] ? ? ? ?]. by constructor. }
  { cbn. by rewrite (qu_rest _ _ _ _ _ _ _ _ _ _ _ Hqu). }
  { apply (lu_pool _ _ _ (qu_loop _ _ _ _ _ _ _ _ _ _ _ Hqu)), Hrep. }
  { rewrite Href. by apply Hsee. }
  rewrite Href, Hfd in *. destruct (freed_beside i s s2 s3 _ a Hqu2 Hgb Hk3 Hrest) as (Hb & Hse3 & Hn1 & Hn2).
  left. exists s3, Ended, q. split_and!; [| | | |by apply (beside_callers i)].
  - unfold echo_done. rewrite on_self_eq. cbv beta. etransitivity; [exact (f_equal (λ o, (s0 ← focus i <$> o; k s0)) Hdone)|]. cbn [fmap outcome_fmap]. rewrite bind_ret_l, focus_unfocus.
    destruct Hk as [->| ->]; [done|]. destruct Hcl as [[_ [He Hru] Hv _ _ Hmk] _ _ _ _].
    eapply (after_turn_idle _ _ _ _ _ _ _ _ _ _ _ _ e x); [|done|done]. split; [|done]. rewrite Href in He. unfold event_at in *. by rewrite (gb_events _ _ _ _ Hgb).
  - eapply serving_step; [exact Hs|done|exact Hb| | | |].
    + split_and!; [by rewrite Hse3| |done]. unfold conn_at. cbn. by rewrite lookup_insert_eq.
    + cbn. rewrite (gb_ready _ _ _ _ Hgb). cbn. by rewrite (lu_ready _ _ _ (qu_loop _ _ _ _ _ _ _ _ _ _ _ Hqu)).
    + exists (mkServerCtx (ctx_l_state c) (l1 ++ l2)), (mkPool (free a ++ [ev i]) (seen a)). rewrite Hll in Hnd, Hz, Hl.
      assert ((i ∉ l1 ++ l2) ∧ NoDup (l1 ++ l2)) as [Hni Hnd'].
      { rewrite <- Permutation_middle in Hnd. by apply NoDup_cons in Hnd. }
      split_and!; try done.
      * cbn. by rewrite Hrest.
      * intros j. cbn [connection_list]. destruct (decide (j = i)) as [->|Hne].
        -- rewrite fn_lookup_insert. split; [done|]. by intros [_ []].
        -- rewrite fn_lookup_insert_ne by done. rewrite <- Hl. rewrite !elem_of_app, elem_of_cons. tauto.
      * apply (gb_pool _ _ _ _ Hgb).
      * cbn [free connection_list]. rewrite !Zlen_app in *. rewrite Zlen_cons in Hz. change (Zlen [ev i]) with 1. lia.
    + intros key nt Hf Hk2 He. exfalso. pose proof (Hn2 _ _ Hk2) as Hk1. destruct (note_after i φ ψ s s2 key nt Hs Hi Hqu2 Hf Hk1 He) as [-> _].
      by rewrite Hn1 in Hk2.
  - destruct (queue_of φ ψ i Hi) as (R & HR & _). split; [|by rewrite Hq, !HR]. cbn. rewrite (gb_ready _ _ _ _ Hgb). cbn. by rewrite (lu_ready _ _ _ (qu_loop _ _ _ _ _ _ _ _ _ _ _ Hqu)).
  - eapply to_come_lt; [exact Hb|done|]. rewrite (lively_there i (φ i) s Hci0). unfold lively at 1, conn_at. cbn. rewrite lookup_insert_eq. cbn. rewrite Hec. 
    cbn in Hwk. lia.
Qed.

Lemma turn_serves φ ψ q s i k o :
  serving φ ψ s → i ∈ D → φ i ≠ Ended → fl_rep (ready_list (fst s)) (to_functor <$> q) → q ≡ₚ queued (<[i:=Waiting]> φ) ψ →
  turns i (focus i s) (total i) k o → (k = Ret ∨ k = after_turn i) → turned φ ψ i s o.
Proof using HIO HL HW HA HLi apart apart_lsn D_once. intros Hs Hi Hφ Hr Hq [H|[H|H]] Hk; [by eapply proceeds_serves|by eapply finishes_serves|by right]. Qed.

Lemma room_for i (s : st) φ ψ q :
  serving φ ψ s → i ∈ D → fl_rep (ready_list (fst s)) (to_functor <$> q) → q ≡ₚ queued (<[i:=Waiting]> φ) ψ → can_post (focus i s).
Proof using D_once.
  intros Hs Hi Hr Hq. exists (to_functor <$> q). split; [done|]. destruct (queue_of φ ψ i Hi) as (R & HR & _ & HRl).
  pose proof (Permutation_length Hq) as Hql. rewrite (HR Waiting) in Hql. change (posted i Waiting ++ R) with R in Hql.
  pose proof (se_cap _ _ _ Hs). cbn [focus fst]. unfold Zlen in *. rewrite length_fmap. lia.
Qed.

(** The loop may run. *)
Lemma serving_loop φ ψ s rl :
  serving φ ψ s → event_table rl = event_table (fst s) → kqueue_fd rl = kqueue_fd (fst s) → change rl = change (fst s) →
  capacity (ready_list rl) = capacity (ready_list (fst s)) → serving φ ψ (rl, snd s).
Proof.
  intros [Hc Hls Hl Hn Hch Hcap] He Hq Hcg Hca. constructor; cbn [fst snd]; [| |by rewrite He| |by rewrite Hcg|by rewrite Hca].
  - intros i Hi. specialize (Hc i Hi). destruct (φ i); try exact Hc; (eapply conn_untouched; [exact Hc|]); (constructor; try done; cbn); try (by rewrite He); unfold KqHelpers.watching; cbn; by rewrite Hq.
  - eapply lsn_untouched; [exact Hls|done|cbn; by rewrite He|done..].
  - unfold watched in *. cbn [fst snd]. rewrite Hq. exact Hn.
Qed.

(** A posted functor runs. *)
Lemma functor_turn φ ψ g a q s i :
  serving φ ψ s → i ∈ D → posted i (φ i) = [(g, a)] → fl_rep (ready_list (fst s)) (to_functor <$> q) → q ≡ₚ queued (<[i:=Waiting]> φ) ψ →
  turned φ ψ i s (conn_call i g (Some a) (focus i s)).
Proof using HIO HL HW HA HLi apart apart_lsn D_once fns_ne.
  intros Hs Hi Hp Hr Hq. pose proof (room_for i s φ ψ q Hs Hi Hr Hq) as Hcp. pose proof (se_conns _ _ _ Hs i Hi) as Hok.
  pose proof (proj1 (fns_split fn_accept_ready fn_try_accept fn_start fn_read_ready fn_try_write fn_postable_read fn_echo_read fns_ne)) as Hfns.
  assert (φ i ≠ Ended) as Hφ by (intros E; by rewrite E in Hp). eapply (turn_serves φ ψ q s i Ret); try done; [|by left].
  destruct (φ i); try done; injection Hp as <- <-; cbn [conn_ok] in Hok.
  - by apply (turn_reading K N _ _ _ _ _ _ _ _ _ notes fd_open HL incoming outgoing sent HIO).
  - by apply (turn_more K N _ _ _ _ _ _ _ _ _ notes fd_open HL incoming outgoing sent HIO).
  - left. by eapply (turn_writing K N _ _ _ _ _ _ _ _ _ notes fd_open incoming outgoing sent HIO).
Qed.

Lemma posted_in φ ψ g a q : (g, a) :: q ≡ₚ queued φ ψ →
  (lposted ψ = [(g, a)] ∧ q ≡ₚ queued φ Armed) ∨ ∃ i, i ∈ D ∧ posted i (φ i) = [(g, a)] ∧ q ≡ₚ queued (<[i:=Waiting]> φ) ψ.
Proof using D_once.
  intros Hq. assert ((g, a) ∈ queued φ ψ) as Hin by (rewrite <- Hq; apply elem_of_cons; by left).
  apply elem_of_app in Hin as [Hin|Hin]; [left|right].
  - assert (lposted ψ = [(g, a)]) as Hp
      by (destruct ψ; cbn in Hin |- *; first [apply list_elem_of_singleton in Hin; by rewrite Hin|by apply elem_of_nil in Hin]).
    split; [done|]. unfold queued in Hq. rewrite Hp in Hq. by apply Permutation_cons_inv in Hq.
  - apply list_elem_of_bind in Hin as (i & Hin & Hi). exists i. destruct (queue_of φ ψ i Hi) as (R & HR & H0 & _).
    assert (posted i (φ i) = [(g, a)]) as Hp
      by (destruct (φ i); cbn in Hin |- *; first [apply list_elem_of_singleton in Hin; by rewrite Hin|by apply elem_of_nil in Hin]).
    split_and!; [done..|]. rewrite HR. rewrite H0, Hp in Hq. by apply Permutation_cons_inv in Hq.
Qed.

(** ** The turns of the listener *)

Abbreviation waits_event x := (waiting_listener fn_accept_ready lsn_self x).

(** What the connections see of such a turn. *)
Record lbeside (s s' : st) : Prop := {
  lb_loop : loop_upto lev (fst s) (fst s');
  lb_io : same_io incoming outgoing sent (l_kern (snd s)) (l_kern (snd s'));
  lb_open : ∀ d, fd_open (l_kern (snd s')) d = fd_open (l_kern (snd s)) d;
  lb_notes : ∀ key, watched s' !! key = watched s !! key ∨ (key = KqWatchers.on_read lfd ∧ watched s' !! key = Some (armed_note lev true));
  lb_app : l_app (snd s') = l_app (snd s)
}.

Lemma lbeside_trans s1 s2 s3 : lbeside s1 s2 → lbeside s2 s3 → lbeside s1 s3.
Proof.
  intros [L1 I1 O1 N1 A1] [L2 I2 O2 N2 A2]. constructor; [by eapply loop_upto_trans|..|congruence].
  - intros g. destruct (I1 g) as (<- & <- & <-). apply I2.
  - intros d. by rewrite O2, O1.
  - intros key. destruct (N2 key) as [->|H]; [apply N1|by right].
Qed.

Lemma accept_steps f k k' : rtc (accept_step K N accept callers bound listening f) k k' →
  same_io incoming outgoing sent k k' ∧ ∀ d, fd_open k' d = fd_open k d.
Proof using HA HIO HLi.
  induction 1 as [k|k1 k2 k3 Hst _ [IH IHo]]; [done|]. assert (same_io incoming outgoing sent k1 k2 ∧ ∀ d, fd_open k2 d = fd_open k1 d) as [H Ho].
  { destruct Hst as [rest k Hl Hc|n k Hb|q cs k].
    - split; [by apply (li_accept _ _ _ _ _ _ _ _ _ HLi _ _ rest)|].
      destruct (al_accept _ _ _ _ _ _ _ _ HA _ _ _ _ Hl Hc) as (k' & r & er & -> & _ & _ & _ & _ & Ho). exact Ho.
    - split; [by apply (li_listen _ _ _ _ _ _ _ _ _ HLi)|].
      destruct (al_listen _ _ _ _ _ _ _ _ HA _ n _ Hb) as (k' & -> & _ & _ & _ & Ho). exact Ho.
    - split; [|apply (io_queue_open _ _ _ _ _ _ _ HIO)]. intros g. destruct (io_queue_out _ _ _ _ _ _ _ HIO q cs k g) as [H1 H2].
      split_and!; [apply (io_queue_in _ _ _ _ _ _ _ HIO)|done..]. }
  split; [|by intros d; rewrite IHo]. intros g. destruct (H g) as (<- & <- & <-). apply IH.
Qed.

Lemma turn_lbeside s (s' : st) k :
  loop_upto lev (fst s) (fst s') → l_app (snd s') = l_app (snd s) → rtc (accept_step K N accept callers bound listening lfd) (l_kern (snd s)) k →
  l_kern (snd s') = k → watched s' = <[KqWatchers.on_read lfd := armed_note lev true]> (watched s) → lbeside s s'.
Proof using HA HIO HLi.
  intros Hl Ha Hst <- Hw. destruct (accept_steps _ _ _ Hst) as [H1 H2]. constructor; try done. intros key. rewrite Hw.
  destruct (decide (key = KqWatchers.on_read lfd)) as [->|Hne]; [right; by rewrite lookup_insert_eq|left; by rewrite lookup_insert_ne].
Qed.

(** The connections are as they were. *)
Lemma lserving_step φ ψ ψ' s s' : serving φ ψ s → lbeside s s' → lsn_inv ψ' s' → serving φ ψ' s'.
Proof using apart_lsn.
  intros [Hc _ (c & a & Hctx & Hnd & Hl & Ht & Hsee & Hz) Hn Hch Hcap] [[Lr Lq Lc Le Lp] Hio Ho Hno Ha] Hlsn. constructor; [|done|..|by rewrite Lc|by rewrite Lr].
  - intros i Hi. destruct (apart_lsn i Hi) as [Hev Hfd]. specialize (Hc i Hi). destruct (Hio (fd i)) as (H1 & H2 & H3).
    assert (conn_at i s' = conn_at i s) as Hat by (unfold conn_at; by rewrite Ha).
    assert (∀ ξ, conn_inv i ξ (focus i s) (total i) → conn_inv i ξ (focus i s') (total i)) as Hun.
    { intros ξ Hci. eapply conn_untouched; [exact Hci|]. constructor; cbn; rewrite ?Hat; auto. destruct (Hno (KqWatchers.on_read (fd i))) as [H|[H _]]; [exact H|].
      by injection H. }
    destruct (φ i); cbn [conn_ok] in *; try by apply Hun. by rewrite H3, Hat.
  - exists c, a. rewrite Ha. split_and!; try done. by apply Lp.
  - intros key nt Hk He. destruct (Hno key) as [H|[-> H]]; rewrite H in Hk; [by apply Hn|right]. by injection Hk as <-.
Qed.

Lemma lively_same s s' : lbeside s s' → sum_list_with (lively s') D = sum_list_with (lively s) D.
Proof.
  intros [_ Hio _ _ Ha]. assert (∀ i, lively s' i = lively s i) as H.
  { intros i. unfold lively, conn_at, work. rewrite Ha. by destruct (Hio (fd i)) as (-> & -> & _). }
  apply Nat.le_antisymm; apply sum_le; intros i _; by rewrite H.
Qed.

(** A turn of the listener does not abort, and leads to another of its phases. *)
Definition lturned (φ : nat → phase) (s : st) (o : outcome st) : Prop :=
  ∃ s' ψ' q, o = Ret s' ∧ serving φ ψ' s' ∧ ready φ ψ' q s' ∧ (to_come s' < to_come s)%nat.

(** An attempt finds no caller and waits for the event. *)
Lemma attempt_waits (ca : unit → option arg_t → Z → Z → st → outcome st) (s : st) l e x :
  accepting fd_open listening s l e x () (Some self) → rl_listener_ref l = lev → l_fd x = lfd → handler e = Some H_listener →
  Forall (eq NoCaller) (callers (l_kern (snd s)) lfd) → callers (l_kern (snd s)) lfd ≠ [] →
  ∃ s', try_accept K accept ca fn_accept_ready lsn_self s = Ret s' ∧ lsn_inv Armed s' ∧ lbeside s s' ∧
    (lsn_work s' < length (callers (l_kern (snd s)) lfd))%nat.
Proof using HA HL HIO HLi.
  intros Hac Hev Hfd Hh Hn Hne. destruct (callers (l_kern (snd s)) lfd) as [|c rest] eqn:Hcs; [done|]. inversion Hn as [|? ? <- Hn']; subst c.
  rewrite <- Hfd in Hcs. destruct (try_accept_waits K N accept ca fn_accept_ready lsn_self notes fd_open HL callers bound listening HA
    s l e x () (Some self) rest Hac Hcs) as (s' & Hrun & [Hop Hc Ha Hli] & Hcs' & Happ & Hlu & Hw & Hst).
  exists s'. rewrite Hfd, Hev in *. split_and!; [done| |by eapply turn_lbeside|].
  - exists (with_l_state L_STATE_EAGAIN l), (waiting_event fn_accept_ready lsn_self (handler e) x), (waits_event x). rewrite Hcs'.
    split_and!; try done. by cbn [waiting_listener l_fd] in Hli; rewrite ?Hfd in Hli.
  - unfold lsn_work. rewrite Hcs', (ol_lsn _ _ _ _ _ Hop). cbn [with_l_state accept_cb] in *. rewrite Hc. cbn [length]. lia.
Qed.

Lemma fns_listener : fn_accept_ready ≠ fn_try_accept ∧ fn_start ≠ fn_accept_ready ∧ fn_start ≠ fn_try_accept.
Proof using fns_ne.
  pose proof fns_ne as H. change (NoDup ([fn_read_ready; fn_try_write; fn_postable_read; fn_echo_read] ++ [fn_accept_ready; fn_try_accept; fn_start])) in H.
  apply NoDup_app in H as (_ & _ & H). rewrite !NoDup_cons, !not_elem_of_cons in H. destruct H as ((? & ? & _) & (? & _) & _). by split_and!.
Qed.

Lemma queued_length φ : (length (queued φ Armed) <= length D)%nat.
Proof. apply bind_length. intros j. by destruct (φ j); cbn; lia. Qed.

(** The server's start. *)
Lemma start_turn φ q s :
  serving φ Starting s → fl_rep (ready_list (fst s)) (to_functor <$> q) → q ≡ₚ queued φ Armed → lturned φ s (server_call fn_start (Some self) s).
Proof using fns_ne apart_lsn.
  intros Hs Hr Hq. pose proof (se_lsn _ _ _ Hs) as (l & e & x & Hop & Hev & Hfd & Hh & Hn & Hcb & Harg & Hatt).
  pose proof Hop as [Hl [He _] _ _]. destruct fns_listener as (H1 & H2 & H3). destruct (se_list _ _ _ Hs) as (c & a & Hctx & _).
  pose proof (queued_length φ) as Hlen. rewrite <- (Permutation_length Hq) in Hlen. pose proof (se_cap _ _ _ Hs) as Hcap.
  destruct (fl_add_ok _ _ (mkFunctor (Some fn_try_accept) (Some lsn_self)) Hr) as (rl & Hadd & Hr' & Hc'); [unfold Zlen in *; rewrite length_fmap; lia|].
  set (l1 := mkTcpListener (rl_listener_ref l) (Some ()) (Some self) (l_state l)).
  set (s' := (set_ready (fst s) rl, mkLWorld (Some l1) (l_kern (snd s)) (l_app (snd s))) : st).
  exists s', Trying, (q ++ [(fn_try_accept, lsn_self)]).
  split_and!.
  - unfold server_call, s_call, l_postable, s_postable. rewrite !decide_False, decide_True, on_self_eq by done.
    unfold postable_start. rewrite (the_ctx_ok s c Hctx), bind_ret_l. unfold tcp_accept. rewrite (the_listener_ok s l Hl), bind_ret_l, Hcb, Harg.
    rewrite !bool_decide_true by done. cbn [c_assert]. rewrite !bind_ret_l, He, bind_ret_l.
    rewrite (proj2 (orb_true_iff _ _)) by (left; apply orb_true_iff; destruct Hatt as [[[-> _]|[-> _]] _]; auto). rewrite bind_ret_l.
    unfold runloop_post. cbn [w_lsn fst snd]. rewrite !bool_decide_true by eauto. cbn [c_assert]. by rewrite !bind_ret_l, Hadd.
  - eapply (lserving_step φ Starting).
    + exact (serving_loop φ Starting s (set_ready (fst s) rl) Hs eq_refl eq_refl eq_refl Hc').
    + constructor; first [done|by constructor|by left].
    + exists l1, e, x. split_and!; try done. destruct Hop. by constructor.
  - split; [by rewrite fmap_app|]. rewrite Hq. unfold queued. cbn [lposted app]. by rewrite Permutation_app_comm.
  - unfold to_come. apply Nat.add_lt_le_mono; [unfold lsn_work; cbn; rewrite Hl, Hcb; lia|]. apply sum_le. done.
Qed.

(** The attempt that the listener has posted. *)
Lemma try_turn φ q s :
  serving φ Trying s → fl_rep (ready_list (fst s)) (to_functor <$> q) → q ≡ₚ queued φ Armed → lturned φ s (server_call fn_try_accept (Some lsn_self) s).
Proof using HA HL HIO HLi fns_ne apart_lsn.
  intros Hs Hr Hq. pose proof (se_lsn _ _ _ Hs) as (l & e & x & Hop & Hev & Hfd & Hh & Hn & Hcb & Harg & Hz & Hne).
  destruct fns_listener as (H1 & H2 & H3).
  assert (∃ ca, server_call fn_try_accept (Some lsn_self) s = postable_try_accept K N accept ca fn_accept_ready lsn_self s) as [ca Hrun].
  { unfold server_call, s_call, l_postable. rewrite decide_False, decide_True, on_self_eq by done. by eexists. }
  rewrite <- Hfd in Hz. destruct (posted_accept K N accept ca fn_accept_ready lsn_self notes fd_open HL callers bound listening HA s l e x () (Some self) Hop Hcb Harg Hz)
    as (s1 & Hrun1 & Hac & Hcs & Happ & Hlu & Hw & Hst). rewrite Hev, Hfd in *.
  assert (lbeside s s1) as Hb1 by (by eapply turn_lbeside).
  destruct (attempt_waits ca s1 _ _ _ Hac) as (s' & Hrun2 & Hinv & Hb2 & Hwk); [done|done|done|by rewrite Hcs|by rewrite Hcs|].
  pose proof (lbeside_trans _ _ _ Hb1 Hb2) as Hb. exists s', Armed, q. split_and!.
  - by rewrite Hrun, Hrun1.
  - by eapply (lserving_step φ Trying Armed s).
  - split; [|done]. by rewrite (lu_ready _ _ _ (lb_loop _ _ Hb)).
  - unfold to_come. rewrite (lively_same _ _ Hb). apply Nat.add_lt_mono_r. unfold lsn_work at 2. rewrite Hcs in Hwk. lia.
Qed.

(** The event for which the accept waits. *)
Lemma armed_event φ q s fl :
  serving φ Armed s → ready φ Armed q s → callers (l_kern (snd s)) lfd ≠ [] →
  ∃ s', listener_handler server_call lev (u16 EVFILT_READ) fl s = Ret s' ∧ serving φ Armed s' ∧ ready φ Armed q s' ∧ (to_come s' < to_come s)%nat.
Proof using HA HL HIO HLi fns_ne apart_lsn.
  intros Hs [Hr Hq] Hne. pose proof (se_lsn _ _ _ Hs) as (l & e & x & Hop & Hev & Hfd & Hh & Hn & Hcb & Harg & Hz & Hli & Hx).
  assert (accepting fd_open listening s l e x () (Some self)) as Hac by (constructor; try done; by rewrite Hfd).
  assert (∃ ca oc, server_call = l_postable K N accept ca fn_accept_ready fn_try_accept lsn_self oc) as (ca & oc & Hcall) by (by eexists _, _).
  pose proof (event_accepts K N accept ca fn_accept_ready fn_try_accept lsn_self oc fd_open listening s l e x () (Some self) Hac Hz) as Hrun.
  rewrite <- Hcall, Hev in Hrun.
  pose proof (accepting_retry fd_open listening s l e x () (Some self) L_STATE_READY Hac) as Hac1.
  set (s1 := w_lsn (Some (with_l_state L_STATE_READY l)) s) in *.
  destruct (attempt_waits ca s1 _ _ _ Hac1) as (s' & Hrun2 & Hinv & Hb2 & Hwk); [done..|].
  assert (lbeside s s1) as Hb1 by (constructor; first [done|by constructor|by left]). pose proof (lbeside_trans _ _ _ Hb1 Hb2) as Hb.
  exists s'. split_and!.
  - change (listener_handler server_call lev (u16 EVFILT_READ) fl s) with (listener_handler server_call lev (u16 EVFILT_READ) 0 s).
    rewrite Hrun by (by rewrite Hx). exact Hrun2.
  - by eapply (lserving_step φ Armed Armed s).
  - split; [|done]. by rewrite (lu_ready _ _ _ (lb_loop _ _ Hb)).
  - unfold to_come. rewrite (lively_same _ _ Hb). apply Nat.add_lt_mono_r. unfold lsn_work at 2. cbn [s1 w_lsn snd l_kern] in Hwk. lia.
Qed.

(** ** The turns of the loop *)

Abbreviation executing b s := (set_executing b (fst s), snd s).
Definition Inv (q : list (fn * arg_t)) (s : st) : Prop := ∃ φ ψ, serving φ ψ s ∧ ready φ ψ q s.
(** The end of some connection comes with errno 0. *)
Definition some_silent : Prop := ∃ i, i ∈ D ∧ silent i = true.

Lemma inv_turn g a q l s :
  Inv ((g, a) :: q) s → fl_rep l (to_functor <$> q) → capacity l = capacity (ready_list (fst s)) →
  let o := server_call g (Some a) (set_executing true (set_ready (fst s) l), snd s) in
  (∃ s' q', o = Ret s' ∧ Inv q' (executing false s') ∧ (to_come (executing false s') < to_come s)%nat) ∨ (o = AssertFail ∧ some_silent).
Proof using HIO HL HW HA HLi apart apart_lsn D_once fns_ne addrs.
  intros (φ & ψ & Hs & Hr & Hq) Hl Hc. set (s0 := (set_executing true (set_ready (fst s) l), snd s)). cbv zeta.
  assert (serving φ ψ s0) as Hs0 by (by eapply serving_loop).
  destruct (posted_in φ ψ g a q Hq) as [[Hp Hq']|(i & Hi & Hp & Hq')].
  - left. assert (lturned φ s0 (server_call g (Some a) s0)) as (s1 & ψ' & q' & Hrun & Hs1 & [Hr1 Hq1] & Hm).
    { destruct ψ; [..|done]; injection Hp as <- <-; [by eapply start_turn|by eapply try_turn]. }
    exists s1, q'. split; [exact Hrun|]. split; [|exact Hm]. exists φ, ψ'. split; [by eapply serving_loop|by split].
  - assert (φ i ≠ Ended) as Hφ by (intros E; by rewrite E in Hp).
    pose proof (call_lifts K N accept fn_accept_ready fn_try_accept fn_start fn_read_ready fn_try_write fn_postable_read fn_echo_read lsn_self self
      tcp_addr msg_addr echo_addr conn_of fns_ne addrs i g (Some a) (focus i s0)) as Hsim.
    change (lift (unfocus_world i) (focus i s0)) with (unfocus i (focus i s0)) in Hsim.
    rewrite unfocus_focus in Hsim by (rewrite (conn_there i (φ i)); [by eexists|by apply ok_there; [apply Hs0|]]).
    destruct (functor_turn φ ψ g a q s0 i Hs0 Hi Hp Hl Hq') as [(s1 & φ' & q' & Hrun & Hs1 & [Hr1 Hq1] & Hm & _)|[Hrun Hsi]]; rewrite Hrun in Hsim.
    + left. exists (unfocus i s1), q'. split; [by apply Hsim|]. split; [|exact Hm]. exists (<[i:=φ']> φ), ψ. split; [by eapply serving_loop|by split].
    + right. split; [by apply Hsim|by exists i].
Qed.

(** The events that a wait reports. *)
Abbreviation handlers addr event_arg := (first_level_handler (kq_lworld K) addr event_arg server_call).

Lemma event_turn addr event_arg φ ψ q s i ke :
  serving φ ψ s → ready φ ψ q s → i ∈ D → φ i = Waiting → filter ke = EVFILT_READ → udata ke = Some (ev i) →
  let o := dispatch_event (handlers addr event_arg) ke s in
  (∃ s' φ' q', o = Ret s' ∧ serving (<[i:=φ']> φ) ψ s' ∧ ready (<[i:=φ']> φ) ψ q' s' ∧ (to_come s' < to_come s)%nat ∧
    callers (l_kern (snd s')) lfd = callers (l_kern (snd s)) lfd) ∨ (o = AssertFail ∧ some_silent).
Proof using HIO HL HW HA HLi apart apart_lsn D_once fns_ne addrs.
  intros Hs [Hr Hq] Hi Hφ Hf Hu. pose proof (se_conns _ _ _ Hs i Hi) as Hok. rewrite Hφ in Hok. cbn [conn_ok] in Hok.
  assert (q ≡ₚ queued (<[i:=Waiting]> φ) ψ) as Hq'.
  { destruct (queue_of φ ψ i Hi) as (R & HR & H0 & _). by rewrite Hq, H0, HR, Hφ. }
  pose proof (turn_waiting K N (echo_done K fn_echo_read self echo_addr i) fn_read_ready fn_try_write fn_postable_read fn_echo_read
    (tcp_addr i) (msg_addr i) (echo_addr i) (λ _ _ _, Ub) notes fd_open HL incoming outgoing sent HIO (ev i) (fd i) () self (silent i) (focus i s) (total i)
    (u16 (flags ke)) Hok (room_for i s φ ψ q Hs Hi Hr Hq')) as Ht.
  apply (turn_serves φ ψ q s i _ _ Hs Hi ltac:(by rewrite Hφ) Hr Hq') in Ht; [|by right].
  pose proof (sim_stream (unfocus_world i) (conn_call i) server_call
    (call_lifts K N accept fn_accept_ready fn_try_accept fn_start fn_read_ready fn_try_write fn_postable_read fn_echo_read lsn_self self
      tcp_addr msg_addr echo_addr conn_of fns_ne addrs i) (ev i) (u16 EVFILT_READ) (u16 (flags ke)) (focus i s)) as Hsim.
  change (lift (unfocus_world i) (focus i s)) with (unfocus i (focus i s)) in Hsim.
  rewrite unfocus_focus in Hsim by (rewrite (conn_there i Waiting); [by eexists|done]).
  pose proof Hok as (t & e & x & m & σ & ts & [[_ [He _] _ _ _ _] Hh Href _ _ _ _ _ _ _] & _). rewrite Href in He. unfold event_at in He. cbn [focus fst] in He.
  assert (dispatch_event (handlers addr event_arg) ke s = stream_handler server_call (ev i) (u16 EVFILT_READ) (u16 (flags ke)) s) as Hd.
  { unfold dispatch_event. rewrite Hu. cbn [deref]. rewrite bind_ret_l, He, bind_ret_l, Hh. cbn [deref]. by rewrite bind_ret_l, Hf. }
  cbv zeta. rewrite Hd. destruct Ht as [(s1 & φ' & q' & Hrun & Hs1 & Hr1 & Hm & Hcs)|[Hrun Hsi]].
  - assert (stream_handler (conn_call i) (ev i) (u16 EVFILT_READ) (u16 (flags ke)) (focus i s) = Ret s1) as Hrun' by exact Hrun.
    rewrite Hrun' in Hsim. left. exists (unfocus i s1), φ', q'. split; [by apply Hsim|done].
  - assert (stream_handler (conn_call i) (ev i) (u16 EVFILT_READ) (u16 (flags ke)) (focus i s) = AssertFail) as Hrun' by exact Hrun.
    rewrite Hrun' in Hsim. right. split; [by apply Hsim|by exists i].
Qed.

Lemma lsn_event_turn addr event_arg φ q s ke :
  serving φ Armed s → ready φ Armed q s → callers (l_kern (snd s)) lfd ≠ [] → filter ke = EVFILT_READ → udata ke = Some lev →
  ∃ s', dispatch_event (handlers addr event_arg) ke s = Ret s' ∧ serving φ Armed s' ∧ ready φ Armed q s' ∧ (to_come s' < to_come s)%nat.
Proof using HA HL HIO HLi fns_ne apart_lsn.
  intros Hs Hr Hne Hf Hu. destruct (armed_event φ q s (u16 (flags ke)) Hs Hr Hne) as (s' & Hrun & H). exists s'. split; [|exact H].
  destruct (se_lsn _ _ _ Hs) as (l & e & x & [_ [He _] _ _] & Hev & _ & Hh & _). rewrite Hev in He. unfold event_at in He.
  unfold dispatch_event. rewrite Hu. cbn [deref]. rewrite bind_ret_l, He, bind_ret_l, Hh. cbn [deref]. by rewrite bind_ret_l, Hf.
Qed.

(** Whose an event is. *)
Definition event_of (φ : nat → phase) (ke : kevent_t) : Prop :=
  (∃ i, i ∈ D ∧ φ i = Waiting ∧ (ident ke, filter ke) = KqWatchers.on_read (fd i) ∧ udata ke = Some (ev i)) ∨
  ((ident ke, filter ke) = KqWatchers.on_read lfd ∧ udata ke = Some lev).
Abbreviation keys evs := ((λ ke, (ident ke, filter ke)) <$> evs).

Lemma key_in ke (evs : list kevent_t) : ke ∈ evs → (ident ke, filter ke) ∈ keys evs.
Proof. apply (list_elem_of_fmap_2 (λ ke, (ident ke, filter ke))). Qed.

Lemma events_turn addr event_arg evs : ∀ φ q s,
  serving φ Armed s → ready φ Armed q s → NoDup (keys evs) → Forall (event_of φ) evs →
  (KqWatchers.on_read lfd ∈ keys evs → callers (l_kern (snd s)) lfd ≠ []) →
  let o := dispatch_events (handlers addr event_arg) evs s in
  (∃ s' q', o = Ret s' ∧ Inv q' s' ∧ (to_come s' <= to_come s)%nat ∧ (evs ≠ [] → (to_come s' < to_come s)%nat)) ∨ (o = AssertFail ∧ some_silent).
Proof using HIO HL HW HA HLi apart apart_lsn D_once fns_ne addrs.
  induction evs as [|ke evs IH]; intros φ q s Hs Hr Hnd Hall Hcs; cbv zeta; [left; by exists s, q; split_and!; [done|exists φ, Armed|..]|].
  inversion Hall as [|? ? Hke Hall']; subst. cbn [fmap list_fmap] in Hnd, Hcs. apply NoDup_cons in Hnd as [Hnin Hnd]. rewrite elem_of_cons in Hcs.
  cbn [dispatch_events]. destruct Hke as [(i & Hi & Hφ & Hk & Hu)|[Hk Hu]]; pose proof (f_equal snd Hk) as Hfi; cbn in Hfi.
  - destruct (event_turn addr event_arg φ Armed q s i ke Hs Hr Hi Hφ Hfi Hu) as [(s1 & φ' & q1 & -> & Hs1 & Hr1 & Hm & Hcs1)|[-> Hsi]]; [|by right].
    rewrite bind_ret_l. destruct (IH (<[i:=φ']> φ) q1 s1 Hs1 Hr1 Hnd) as [(s' & q' & Hrun' & Hinv & Hle & _)|Hab]; [| |left|by right].
    + apply Forall_forall. intros ke' Hin. rewrite Forall_forall in Hall'. destruct (Hall' ke' Hin) as [(j & Hj & Hφj & Hkj & Huj)|H]; [left|by right].
      exists j. rewrite fn_lookup_insert_ne; [done|]. intros ->. apply Hnin. rewrite Hk, <- Hkj. by apply key_in.
    + rewrite Hcs1. auto.
    + exists s', q'. split_and!; [done|done|lia|lia].
  - destruct (lsn_event_turn addr event_arg φ q s ke Hs Hr) as (s1 & -> & Hs1 & Hr1 & Hm); [apply Hcs; by left|done..|].
    rewrite bind_ret_l. destruct (IH φ q s1 Hs1 Hr1 Hnd Hall') as [(s' & q' & Hrun' & Hinv & Hle & _)|Hab]; [|left|by right].
    + intros Hin. by rewrite Hk in Hnin.
    + exists s', q'. split_and!; [done|done|lia|lia].
Qed.

(** ** Waiting *)

Lemma in_use_ok (t : EventTable (RunloopEvent fn arg_t)) a : table_rep t a → event_table_number_in_use t = EVT_MAX - Zlen (free a).
Proof. intros [[Hm _ _ Hc _ _ _ _ _] _ _ _]. unfold event_table_number_in_use, freelist_size. by rewrite Hm, Hc. Qed.

(** All connections have been sent what they were to be sent, and have ended. *)
Definition all_served (s : st) : Prop :=
  (∀ i, i ∈ D → sent (l_kern (snd s)) (fd i) = total i ∧ c_echo (conn_at i s) = None) ∧
  ∃ c, ctx (l_app (snd s)) = Some c ∧ connection_list c = [].
(** Nothing was sent that was not to be sent. *)
Definition none_wrong (s : st) : Prop := ∀ i, i ∈ D → ∃ rest, total i = sent (l_kern (snd s)) (fd i) ++ rest.

Lemma quiet_phases φ ψ s : ready φ ψ [] s → ψ = Armed ∧ ∀ i, i ∈ D → φ i = Waiting ∨ φ i = Ended.
Proof using D_once.
  intros [_ Hq]. split.
  - apply Permutation_nil, app_nil in Hq as [Hq _]. by destruct ψ.
  - intros i Hi. destruct (queue_of φ ψ i Hi) as (R & _ & H0 & _). rewrite H0 in Hq. apply Permutation_nil in Hq.
    destruct (φ i); cbn in Hq; try discriminate Hq; auto.
Qed.

Definition at_rest (φ : nat → phase) : Prop := ∀ i, i ∈ D → φ i = Waiting ∨ φ i = Ended.

Lemma settled φ s s' :
  serving φ Armed s → at_rest φ → (∀ g, sent (l_kern (snd s')) g = sent (l_kern (snd s)) g) →
  l_app (snd s') = l_app (snd s) → none_wrong s' ∧ ((∀ i, i ∈ D → φ i = Ended) → all_served s' ∧ ∀ i, i ∈ D → silent i = false).
Proof.
  intros Hs Hw Hse Ha. split.
  - intros i Hi. rewrite Hse. pose proof (se_conns _ _ _ Hs i Hi) as Hok. destruct (Hw i Hi) as [E|E]; rewrite E in Hok.
    + destruct Hok as (t & e & x & m & σ & ts & _ & _ & o & _ & Ht & _). eexists. symmetry. exact Ht.
    + destruct Hok as [-> _]. exists []. by rewrite app_nil_r.
  - intros HE. assert (∀ i, i ∈ D → conn_ok i Ended s) as Hok by (intros i Hi; rewrite <- (HE i Hi); by apply (se_conns _ _ _ Hs)).
    split; [split|intros i Hi; by destruct (Hok i Hi) as (_ & _ & ?)].
    + intros i Hi. rewrite Hse. unfold conn_at. rewrite Ha. destruct (Hok i Hi) as (H1 & H2 & _). by split.
    + rewrite Ha. destruct (se_list _ _ _ Hs) as (c & a & Hc & _ & Hl & _). exists c. split; [done|].
      destruct (connection_list c) as [|i l]; [done|]. destruct (proj1 (Hl i)) as [Hi Hne]; [apply elem_of_cons; by left|]. by destruct Hne; apply HE.
Qed.

(** A wait leaves the connections and the listener that wait alone. *)
Lemma wait_serving φ s q n tmo :
  serving φ Armed s → at_rest φ → 0 < n → q = kqueue_fd (fst s) →
  serving φ Armed (fst s, l_on_kern (snd s) (fst (kevent K q [] n tmo (l_kern (snd s))))).
Proof using HW HLi.
  intros Hs Hw Hn ->. pose proof Hs as [Hc Hls Hl Hno Hch Hcap]. pose proof (wt_sockets _ _ _ _ _ _ HW (kqueue_fd (fst s)) n tmo (l_kern (snd s)) Hn) as Hso.
  constructor; try done.
  - intros i Hi. specialize (Hc i Hi). destruct (Hso (fd i)) as (H1 & H2 & H3 & _). destruct (Hso (u64 (fd i))) as (_ & _ & _ & H4).
    destruct (Hw i Hi) as [E|E]; rewrite E in *; cbn [conn_ok] in *; [|by cbn; rewrite H3].
    eapply conn_untouched; [exact Hc|]. constructor; try done.
    destruct Hc as (t & e & x & m & σ & ts & _ & (b & iob & _ & _ & _ & _ & _ & _ & _ & Hnt) & _). rewrite Hnt.
    by apply (wt_kept _ _ _ _ _ _ HW).
  - eapply lsn_untouched; [exact Hls|done..| |by apply (li_wait _ _ _ _ _ _ _ _ _ HLi)]. cbn. by destruct (Hso (u64 lfd)) as (_ & _ & _ & ->).
  - intros key nt Hk He. apply (Hno key nt); [|done]. by apply (wt_new _ _ _ _ _ _ HW) in Hk.
Qed.

(** What comes for the sockets that are watched comes before the timeout. *)
Definition prompt (tmo : Z) : Prop := ∀ k q i,
  i ∈ D → notes k q !! KqWatchers.on_read (fd i) = Some (armed_note (ev i) false) → incoming k (fd i) ≠ [] →
  ∃ k' ke evs, kevent K q [] runloop_MAX_EVENTS (timeout_of tmo) k = (k', KEvents (ke :: evs)).

(** What a run of the loop that returns comes to. *)
Definition ran (tmo : Z) (s : st) (n : Z) : Prop :=
  none_wrong s ∧ (prompt tmo → all_served s ∧ ∀ i, i ∈ D → silent i = false).

Lemma prompt_ends φ s tmo :
  serving φ Armed s → at_rest φ → prompt tmo →
  (∀ k' ke evs, kevent K (kqueue_fd (fst s)) [] runloop_MAX_EVENTS (timeout_of tmo) (l_kern (snd s)) ≠ (k', KEvents (ke :: evs))) →
  ∀ i, i ∈ D → φ i = Ended.
Proof.
  intros Hs Hw Hp Hno i Hi. destruct (Hw i Hi) as [E|E]; [|done]. exfalso. pose proof (se_conns _ _ _ Hs i Hi) as Hok. rewrite E in Hok.
  destruct Hok as (t & e & x & m & σ & ts & _ & (b & iob & _ & _ & _ & _ & _ & _ & _ & Hnt) & (o & Hf & _)).
  destruct (Hp (l_kern (snd s)) (kqueue_fd (fst s)) i Hi Hnt) as (k' & ke & evs & Hk); [|by eapply Hno].
  intros Hin. cbn in Hf. by rewrite Hin in Hf.
Qed.

(** The events that a wait reports are those of the connections that wait, and of the
    listener. *)
Lemma reported φ s k' evs tmo :
  serving φ Armed s → at_rest φ → kevent K (kqueue_fd (fst s)) [] runloop_MAX_EVENTS tmo (l_kern (snd s)) = (k', KEvents evs) →
  NoDup (keys evs) ∧ Forall (event_of φ) evs ∧ (KqWatchers.on_read lfd ∈ keys evs → callers k' lfd ≠ []).
Proof using HW HLi.
  intros Hs Hw Hk. destruct (wt_events _ _ _ _ _ _ HW (kqueue_fd (fst s)) runloop_MAX_EVENTS tmo (l_kern (snd s)) k' evs ltac:(done) Hk) as [Hnd Hall]. split_and!; [done| |].
  - eapply Forall_impl; [exact Hall|]. intros ke (nt & Hn & He & Hu). destruct (se_notes _ _ _ Hs _ _ Hn He) as [(i & Hi & Hφ & Hkey & ->)|[Hkey Hud]].
    + left. exists i. split_and!; [done|by destruct (Hw i Hi)|done|exact Hu].
    + right. by rewrite Hu.
  - intros (ke & Hkey & Hin)%list_elem_of_fmap_1. pose proof (li_wait _ _ _ _ _ _ _ _ _ HLi (kqueue_fd (fst s)) runloop_MAX_EVENTS tmo (l_kern (snd s)) lfd ltac:(done)) as (Hc & _).
    rewrite Hk in Hc. cbn [fst] in Hc. rewrite Hc. eapply (li_events _ _ _ _ _ _ _ _ _ HLi); [|exact Hk|exact Hin|by symmetry|]; [done|].
    by destruct (se_lsn _ _ _ Hs) as (l & e & x & _ & _ & _ & _ & _ & _ & _ & _ & Hli & _).
Qed.

Lemma inv_wait addr event_arg tmo s :
  Inv [] s → event_table_number_in_use (event_table (fst s)) ≠ 0 →
  match kevent (kq_lworld K) (kqueue_fd (fst s)) (change (fst s)) runloop_MAX_EVENTS (timeout_of tmo) (snd s) with
  | (w, KEvents []) => ran tmo (set_closed (fst s), fst (close (kq_lworld K) (kqueue_fd (fst s)) w)) 0
  | (w, KEvents evs) => let o := dispatch_events (handlers addr event_arg) evs (fst s, w) in
      (∃ s' q', o = Ret s' ∧ Inv q' s' ∧ (to_come s' < to_come s)%nat) ∨ (o = AssertFail ∧ some_silent)
  | (w, KError e) => ran tmo (fst s, w) (if e =? EINTR then -1 else if closed_flag (fst s) then 0 else -1)
  end.
Proof using HIO HL HW HA HLi apart apart_lsn D_once fns_ne addrs.
  intros (φ & ψ & Hs & Hr) _. destruct (quiet_phases φ ψ s Hr) as [-> Hw]. rewrite (se_change _ _ _ Hs).
  pose proof (wait_serving φ s _ runloop_MAX_EVENTS (timeout_of tmo) Hs Hw ltac:(done) eq_refl) as Hs1.
  pose proof (wt_sockets _ _ _ _ _ _ HW (kqueue_fd (fst s)) runloop_MAX_EVENTS (timeout_of tmo) (l_kern (snd s)) ltac:(done)) as Hso.
  pose proof (prompt_ends φ s tmo Hs Hw) as Hpe.
  pose proof (li_wait _ _ _ _ _ _ _ _ _ HLi (kqueue_fd (fst s)) runloop_MAX_EVENTS (timeout_of tmo) (l_kern (snd s)) lfd ltac:(done)) as (Hcl & _).
  unfold kq_lworld, kq_lift. cbn [kevent close].
  destruct (kevent K (kqueue_fd (fst s)) [] runloop_MAX_EVENTS (timeout_of tmo) (l_kern (snd s))) as [k' [[|ke evs]|e]] eqn:E; cbn [fst snd] in *.
  - pose proof (cl_sent _ _ _ _ _ _ HW (kqueue_fd (fst s)) k') as Hcs. unfold l_on_kern at 1. cbn [l_kern].
    destruct (close K (kqueue_fd (fst s)) k') as [k2 r]. cbn [fst] in *.
    destruct (settled φ s (set_closed (fst s), l_on_kern (l_on_kern (snd s) k') k2) Hs Hw) as [H1 H2]; [|done|].
    + intros g. cbn. rewrite Hcs. apply Hso.
    + split; [exact H1|]. intros Hp. apply H2, Hpe; [done|]. by intros.
  - destruct (reported φ s k' (ke :: evs) _ Hs Hw E) as (Hnd & Hall & Hcs).
    destruct (events_turn addr event_arg (ke :: evs) φ [] _ Hs1 Hr Hnd Hall Hcs) as [(s' & q' & Hrun & Hinv & _ & Hlt)|H]; [left|by right].
    exists s', q'. split_and!; [exact Hrun|done|]. eapply Nat.lt_le_trans; [by apply Hlt|]. apply Nat.add_le_mono; [unfold lsn_work; cbn; by rewrite Hcl|].
    apply sum_le. intros i _. unfold lively, conn_at, work. cbn. by destruct (Hso (fd i)) as (-> & -> & _).
  - destruct (settled φ s (fst s, l_on_kern (snd s) k') Hs Hw) as [H1 H2]; [|done|].
    + intros g. apply Hso.
    + split; [exact H1|]. intros Hp. apply H2, Hpe; [done|]. by intros.
Qed.

(** The loop always has something to wait for: the listener. *)
Lemma inv_idle s : Inv [] s → event_table_number_in_use (event_table (fst s)) ≠ 0.
Proof.
  intros (φ & ψ & Hs & _). destruct (se_list _ _ _ Hs) as (c & a & _ & _ & _ & Ht & _ & Hz). rewrite (in_use_ok _ _ Ht).
  pose proof (Zlen_nonneg (connection_list c)). lia.
Qed.

(** ** Property *)

(** C1: The server serves all its connections at once. It starts from any state in which
    the server's start is posted, or the listener's attempt to accept, or the accept
    waits for its event, and each connection is in some phase, with the functors of all
    of them anywhere in the ready list. No new caller comes: each accept finds none. Then,
    whatever events the kernel reports for the sockets it watches, and in whatever order
    the requests come, cut anywhere, and the responses are taken, the loop returns, with
    fuel above the number of reads, writes and accepts to come; no connection is sent
    anything but the responses to its own requests, whole and in order. The one
    exception is the end of a stream that comes with errno 0 ([silent]): then the process
    may abort. When what comes for the sockets comes before the timeout of the loop, the
    loop returns only if no connection ends so, and by then each connection was sent all
    its responses and has been freed, and the list of the server is empty. *)
Theorem server_loop_serves φ ψ q addr event_arg tmo fuel s :
  serving φ ψ s → ready φ ψ q s → (to_come s + 1 < fuel)%nat →
  let o := runloop_run (kq_lworld K) server_call (handlers addr event_arg) fuel tmo s in
  (∃ s' n, o = Ret (Some (s', n)) ∧ none_wrong s' ∧ (prompt tmo → all_served s' ∧ ∀ i, i ∈ D → silent i = false)) ∨
  (o = AssertFail ∧ ∃ i, i ∈ D ∧ silent i = true).
Proof using HIO HL HW HA HLi apart apart_lsn D_once fns_ne addrs.
  intros Hs Hr Hf. apply (run_rule _ _ _ _ Inv to_come (ran tmo) some_silent) with (q := q).
  - by intros q' s' (ξ & ζ & _ & H & _).
  - apply inv_turn.
  - apply inv_wait.
  - intros s' Hi Hz. by apply inv_idle in Hi.
  - by exists φ, ψ.
  - done.
Qed.
End ServerLoop.

(** ** Witness: a listener and two connections over the demonstration protocol, on a
    kernel that waits *)

(** The sockets of the connections, and the listening socket 4. *)
Record ex_sk := mkSk { sk : ex_tk; sk_callers : list caller; sk_listening : bool }.
Definition ex_on_sk (w : ex_sk) (k : ex_tk) : ex_sk := mkSk k (sk_callers w) (sk_listening w).
Definition ex_scallers (w : ex_sk) (f : Z) : list caller := if f =? 4 then sk_callers w else [].
Definition ex_sbound (w : ex_sk) (f : Z) : bool := f =? 4.
Definition ex_slistening (w : ex_sk) (f : Z) : bool := (f =? 4) && sk_listening w.
Definition ex_snotes (w : ex_sk) (q : Z) : gmap (Z * Z) note := tk_notes (sk w).
Definition ex_sopen (w : ex_sk) (fd : Z) : bool := true.
Definition ex_sin (w : ex_sk) : Z → list arrival := ex_in (sk w).
Definition ex_sout (w : ex_sk) : Z → list room := ex_out (sk w).
Definition ex_ssent (w : ex_sk) : Z → list byte := ex_sent (sk w).

(** A call that changes nothing waits; every note enabled is reported, that of the
    listening socket when accept has something to find. *)
Definition ex_reports (w : ex_sk) (kn : Z * Z * note) : Prop := enabled (snd kn) = true ∧ (fst kn = KqWatchers.on_read 4 → sk_callers w ≠ []).
#[local] Instance ex_reports_dec w kn : Decision (ex_reports w kn).
Proof. unfold ex_reports. apply _. Defined.
Definition ex_events (w : ex_sk) : list kevent_t :=
  (λ kn, mkKev (fst (fst kn)) (snd (fst kn)) 0 0 0 (n_udata (snd kn))) <$> map_to_list (base.filter (ex_reports w) (tk_notes (sk w))).
Definition ex_skq : kqueue_sys ex_sk := mkKq
  (λ w, (w, 3))
  (λ _ cs n _ w, (ex_on_sk w (mkTk (apply_changes cs (tk_notes (sk w))) (tk_in (sk w)) (tk_out (sk w)) (tk_sent (sk w))),
    KEvents (if n =? 0 then [] else ex_events w)))
  (λ _ w, (w, 0)).
Definition ex_snet : net ex_sk unit := mkNet _ _
  (fun _ _ _ w => (w, 5)) (fun _ _ _ _ w => (w, 0)) (fun _ => ()) (fun _ _ => None)
  (fun _ _ _ _ w => (w, 0)) (fun _ _ w => (mkSk (sk w) (sk_callers w) true, 0)) (fun _ _ _ _ w => (w, 0))
  (fun _ _ => 0) (fun _ _ w => (w, 0)) (fun _ _ w => (w, 0))
  (fun f n w => let '(k, r, er, bs) := ex_sys_read f n (sk w) in (ex_on_sk w k, r, er, bs))
  (fun f bs w => let '(k, r, er) := ex_sys_write f bs (sk w) in (ex_on_sk w k, r, er)) (fun _ w => (w, 0)).
Definition ex_saccept (f : Z) (w : ex_sk) : ex_sk * Z * Z :=
  match sk_callers w with
  | [] => (w, -1, KQ_EAGAIN)
  | c :: rest =>
      let w := mkSk (sk w) rest (sk_listening w) in
      match c with NoCaller => (w, -1, KQ_EAGAIN) | Caller sock => (w, sock, 0) | CallError e => (w, -1, e) end
  end.

Lemma ex_slaws : kqueue_laws ex_skq ex_snotes ex_sopen.
Proof. constructor. by intros. Qed.

Lemma ex_sio : io_laws ex_skq ex_snet ex_snotes ex_sopen ex_sin ex_sout ex_ssent.
Proof.
  destruct ex_io_laws as [R1 R2 W1 W2 Q1 Q2 Q3 R3 R4 W3 W4 R5 W5]. constructor; try done; cbn.
  - intros f n k q. specialize (R1 f n (sk k) q). cbn in R1. by destruct (ex_sys_read f n (sk k)) as [[[]]].
  - intros f bs k q. specialize (W1 f bs (sk k) q). cbn in W1. by destruct (ex_sys_write f bs (sk k)) as [[]].
  - intros g n k f. specialize (R3 g n (sk k) f). cbn in R3. by destruct (ex_sys_read g n (sk k)) as [[[]]].
  - intros f n k g Hg. specialize (R4 f n (sk k) g Hg). cbn in R4. by destruct (ex_sys_read f n (sk k)) as [[[]]].
  - intros f bs k g Hg. specialize (W3 f bs (sk k) g Hg). cbn in W3. by destruct (ex_sys_write f bs (sk k)) as [[]].
  - intros g bs k f. specialize (W4 g bs (sk k) f). cbn in W4. by destruct (ex_sys_write g bs (sk k)) as [[]].
  - intros f n k a rest Hin Ha. destruct (R5 f n (sk k) a rest Hin Ha) as (k' & r & er & bs & Hr & H). cbn in Hr. rewrite Hr. by eexists _, _, _, _.
  - intros f bs k a rest Hout. destruct (W5 f bs (sk k) a rest Hout) as (k' & r & er & Hr & H). cbn in Hr. rewrite Hr. by eexists _, _, _.
Qed.

Lemma ex_listening_4 k f : ex_slistening k f = true → f = 4 ∧ sk_listening k = true.
Proof. intros [H1%Z.eqb_eq H2]%andb_true_iff. done. Qed.

Lemma ex_slaccept : accept_laws ex_skq ex_snet ex_saccept ex_snotes ex_sopen ex_scallers ex_sbound ex_slistening.
Proof.
  constructor; try done.
  - intros f n k ->%Z.eqb_eq. by eexists.
  - intros f k c rest [-> Hl]%ex_listening_4 Hc. cbn in Hc. unfold ex_saccept. rewrite Hc. destruct c; by repeat eexists.
Qed.

Lemma ex_events_keys w : (λ ke, (ident ke, filter ke)) <$> ex_events w = fst <$> map_to_list (base.filter (ex_reports w) (tk_notes (sk w))).
Proof. unfold ex_events. rewrite <- list_fmap_compose. apply list_fmap_ext. by intros _ [[] ?] _. Qed.

Lemma ex_event_of w ke : ke ∈ ex_events w → ∃ nt, tk_notes (sk w) !! (ident ke, filter ke) = Some nt ∧ ex_reports w (ident ke, filter ke, nt) ∧ udata ke = n_udata nt.
Proof.
  intros ([[] nt] & -> & Hin)%list_elem_of_fmap_1. apply elem_of_map_to_list, map_lookup_filter_Some in Hin as [Hn He]. by exists nt.
Qed.

Lemma ex_wait_laws : wait_laws ex_skq ex_snotes ex_sopen ex_sin ex_sout ex_ssent.
Proof.
  constructor; try done.
  intros q n tmo k k' evs Hn. cbn. rewrite (proj2 (Z.eqb_neq n 0)) by lia. intros [= <- <-]. split.
  - rewrite ex_events_keys. apply NoDup_fst_map_to_list.
  - apply Forall_forall. intros ke (nt & Hk & [He _] & Hu)%ex_event_of. by exists nt.
Qed.

Lemma ex_listen_laws : listen_laws ex_skq ex_snet ex_saccept ex_sin ex_sout ex_ssent ex_scallers ex_sbound ex_slistening.
Proof.
  constructor; try done; cbn.
  - intros f n k g. by destruct (ex_sys_read f n (sk k)) as [[[]]].
  - intros f bs k g. by destruct (ex_sys_write f bs (sk k)) as [[]].
  - intros f k rest [-> Hl]%ex_listening_4 Hc. cbn in Hc. unfold ex_saccept. by rewrite Hc.
  - intros q n tmo k k' evs ke g Hn. rewrite (proj2 (Z.eqb_neq n 0)) by lia. intros [= <- <-] (nt & _ & [_ H] & _)%ex_event_of Hg [-> _]%ex_listening_4.
    by apply H.
Qed.

(** Connection 0 gets a request in two parts with a wait between them, connection 1 two
    requests at once; their responses are taken 7 bytes at a time. The listener's event is
    armed, and two attempts to accept will find no caller. *)
Definition ex_frame (t : list byte) : list byte := CH_STX :: t ++ [CH_ETX].
Definition ex_arrivals0 (er : Z) : list arrival := [Nothing; Bytes (CH_STX :: bytes "h"); Nothing; Bytes (bytes "i" ++ [CH_ETX]); End er].
Definition ex_arrivals1 : list arrival := [Bytes (ex_frame (bytes "yo") ++ ex_frame (bytes "ok")); Nothing; End 104].
Definition ex_skern (er : Z) : ex_sk := mkSk
  (mkTk {[ KqWatchers.on_read 4 := armed_note 0 true ]} (<[5 := ex_arrivals0 er]> {[ 6 := ex_arrivals1 ]})
     (<[5 := replicate 60 (Taken 7)]> {[ 6 := replicate 60 (Taken 7) ]}) ∅)
  [NoCaller; NoCaller] true.
Definition ex_replies (i : nat) : list byte := match i with
  | O => ex_frame (bytes "ServerResponse:[hi]")
  | _ => ex_frame (bytes "ServerResponse:[yo]") ++ ex_frame (bytes "ServerResponse:[ok]")
  end.
Definition ex_ev (i : nat) : Z := 1 + Z.of_nat i.
Definition ex_fd (i : nat) : Z := 5 + Z.of_nat i.
Definition ex_silent (er : Z) (i : nat) : bool := match i with O => er =? 0 | _ => false end.
Definition ex_conn (i : nat) : conn (M := DemoMsg.DemoMsg) (P := DemoMsg.DemoMsgParser) (arg_t := nat) :=
  mkConn (Some (mkTcp (ex_ev i) (ex_fd i) (mkReader RD_STATE_INITIAL Null Null Null) (mkWriter WRT_STATE_INITIAL Null Null Null))) ∅
    (Some ex_emsg) (Some (mkEcho (Ptr ()) (Ptr 2001%nat))).
(** The first read of each is posted, that of connection 1 first, and then the start of the
    server, as after accepting a caller. *)
Definition ex_posted : list (nat * nat) := [(7, 5); (7, 2); (3, 2001)]%nat.
Definition ex_ready : FunctorList nat nat :=
  mkFL 8 3 0 (None :: (Some ∘ to_functor <$> ex_posted) ++ replicate 5 None).
Abbreviation ex_srv := (Runloop nat nat * lworld (arg_t := nat) (KW := ex_sk)
  (App := sapp (gmap nat (conn (M := DemoMsg.DemoMsg) (P := DemoMsg.DemoMsgParser) (arg_t := nat))) nat) (acb := unit))%type.
Definition ex_lsn : TcpListener (arg_t := nat) (acb := unit) := mkTcpListener 0 None None L_STATE_READY.
Definition ex_both (er : Z) (t : EventTable (RunloopEvent nat nat)) : ex_srv :=
  (mkRunloop 3 false false t [] ex_ready,
   mkLWorld (Some ex_lsn) (ex_skern er) (mkSApp (Some (mkServerCtx L_STATE_READY [0%nat; 1%nat])) (<[0%nat := ex_conn 0]> {[ 1%nat := ex_conn 1 ]}))).

Lemma ex_ready_rep : fl_rep ex_ready (to_functor <$> ex_posted).
Proof.
  constructor; cbn; try done. intros i x Hi. destruct i as [|[|[|i]]]; cbn in Hi; by simplify_eq.
Qed.

Definition ex_lsn_event : RunloopEvent nat nat := mkEvent true (Some H_listener) (V_listener (mkListener 4 None None)).
Definition ex_conn_event (i : nat) : RunloopEvent nat nat := mkEvent true (Some H_stream) (V_stream (mkStream (ex_fd i) 0 None None None None)).
(** The pool with the events of the listener and of the two. *)
Definition ex_pool3 : outcome (EventTable (RunloopEvent nat nat)) :=
  t ← event_table_new true;
  '(s, _) ← runloop_listener_new 4 (mkRunloop 3 false false t [] ex_ready, tt);
  '(s, _) ← runloop_stream_new 5 s;
  '(s, _) ← runloop_stream_new 6 s;
  Ret (event_table (fst s)).
Definition ex_taken : pool := mkPool (seqZ 3 2045) ({[2]} ∪ ({[1]} ∪ ({[0]} ∪ ∅))).
Record ex_table (t : EventTable (RunloopEvent nat nat)) : Prop := {
  et_lsn : get_event t 0 = Ret ex_lsn_event;
  et_conn : ∀ i, (i < 2)%nat → get_event t (ex_ev i) = Ret (ex_conn_event i);
  et_rep : table_rep t ex_taken
}.

Lemma ex_free_next n k : 0 < k → seqZ n k = n :: seqZ (n + 1) (k - 1).
Proof. intros H. by rewrite seqZ_cons by done. Qed.

Lemma ex_pool3_rep : ∃ t, ex_pool3 = Ret t ∧ ex_table t.
Proof.
  destruct (table_new_ok (E := RunloopEvent nat nat)) as (t & Ht & Hr). unfold full_pool, EVT_MAX in Hr. rewrite ex_free_next in Hr by done.
  unfold ex_pool3. rewrite Ht, bind_ret_l.
  destruct (listener_new_ok 4 (mkRunloop 3 false false t [] ex_ready, tt) _ _ _ Hr eq_refl) as (s0 & -> & _ & [_ _ He0 _ Hp0]). rewrite bind_ret_l.
  cbn [free seen] in Hp0. rewrite ex_free_next in Hp0 by done.
  destruct (stream_new_ok 5 s0 _ _ _ Hp0 eq_refl) as (s1 & -> & _ & [_ _ He1 Ho1 Hp1]). rewrite bind_ret_l.
  cbn [free seen] in Hp1. rewrite ex_free_next in Hp1 by done.
  destruct (stream_new_ok 6 s1 _ _ _ Hp1 eq_refl) as (s2 & -> & _ & [_ _ He2 Ho2 Hp2]). rewrite bind_ret_l.
  eexists. split; [done|]. constructor; [by rewrite Ho2, Ho1| |exact Hp2].
  intros [|[|i]] Hi; [|exact He2|lia]. cbn. by rewrite Ho2.
Qed.

Abbreviation ex_serves er := (conn_ok 4%nat 2001%nat (λ i, 3 * i)%nat (λ i, 3 * i + 1)%nat (λ i, 3 * i + 2)%nat ex_snotes ex_sopen ex_sin ex_sout ex_ssent
  ex_ev ex_fd ex_replies (ex_silent er)).

Lemma ex_feeds0 er : feeds (M := DemoMsg) (P := DemoMsgParser) (er =? 0) start (ex_arrivals0 er) [bytes "hi"].
Proof.
  split; [done|]. eexists (Inside, bytes "h"), [], _. split; [reflexivity|]. split; [done|].
  split; [done|]. eexists start, [bytes "hi"], []. do 2 (split; [done|]). split; [symmetry; apply Z.eqb_eq|done].
Qed.
Lemma ex_feeds1 : feeds (M := DemoMsg) (P := DemoMsgParser) false start ex_arrivals1 [bytes "yo"; bytes "ok"].
Proof. split; [done|]. eexists start, [bytes "yo"; bytes "ok"], []. by split_and!. Qed.

Lemma ex_takes : Forall takes_some (replicate 60 (Taken 7)).
Proof. apply Forall_replicate. by exists 7. Qed.
Lemma ex_texts : Forall (answerable (M := DemoMsg) (P := DemoMsgParser)) [bytes "hi"; bytes "yo"; bytes "ok"].
Proof. repeat constructor; vm_compute; done. Qed.

Lemma ex_conn_ok er i t : (i < 2)%nat → ex_table t → ex_serves er i Reading (ex_both er t).
Proof.
  intros Hi Ht. assert (conn_at i (ex_both er t) = ex_conn i) as Hat by (by destruct i as [|[|]]; [| |lia]).
  exists (mkTcp (ex_ev i) (ex_fd i) (mkReader RD_STATE_INITIAL Null Null Null) (mkWriter WRT_STATE_INITIAL Null Null Null)), (ex_conn_event i),
    (mkStream (ex_fd i) 0 None None None None), ex_emsg, start, [].
  split; [|split].
  - constructor; try done; try (by unfold focus; rewrite Hat). constructor; try done; [by unfold focus; rewrite Hat|]. split; [by apply et_conn|done].
  - by split_and!.
  - destruct i as [|[|]]; [| |lia].
    + exists [bytes "hi"]. split_and!; [exact (ex_feeds0 er)|reflexivity| |exact ex_takes|vm_compute; lia].
      pose proof ex_texts as H. by inversion H; constructor.
    + exists [bytes "yo"; bytes "ok"]. split_and!; [exact ex_feeds1|reflexivity| |exact ex_takes|vm_compute; lia].
      pose proof ex_texts as H. by inversion H.
Qed.

Lemma ex_prompt : prompt ex_skq ex_snotes ex_sin [0%nat; 1%nat] ex_ev ex_fd 10.
Proof.
  intros k q i Hi Hn _. cbn. destruct (ex_events k) as [|ke evs] eqn:E; [|by eexists _, ke, evs].
  exfalso. assert ((λ ke, (ident ke, filter ke)) <$> ex_events k = []) as Hk by (by rewrite E).
  rewrite ex_events_keys in Hk. apply fmap_nil_inv in Hk. eapply elem_of_nil. rewrite <- Hk.
  apply elem_of_map_to_list, map_lookup_filter_Some. split; [exact Hn|]. split; [done|].
  rewrite !elem_of_cons, elem_of_nil in Hi. by destruct Hi as [->|[->|[]]].
Qed.

Lemma ex_both_serving er t : ex_table t →
  serving 1%nat 4%nat 2000%nat 2001%nat (λ i, 3 * i)%nat (λ i, 3 * i + 1)%nat (λ i, 3 * i + 2)%nat ex_snotes ex_sopen ex_sin ex_sout ex_ssent
    ex_scallers ex_sbound ex_slistening [0%nat; 1%nat] ex_ev ex_fd ex_replies (ex_silent er) 0 4 (λ _, Reading) Starting (ex_both er t).
Proof.
  intros Ht. constructor; [| | | |done|done].
  - intros i Hi. rewrite !elem_of_cons, elem_of_nil in Hi. destruct Hi as [->|[->|[]]]; by apply ex_conn_ok; [lia|].
  - exists ex_lsn, ex_lsn_event, (mkListener 4 None None). split_and!; try done; [|by apply (Forall_replicate _ 2 NoCaller)|by split_and!; [..|split; [right|]]].
    constructor; try done. split; [by apply et_lsn|done].
  - eexists (mkServerCtx L_STATE_READY [0%nat; 1%nat]), _. split_and!; [done| | |apply Ht| |].
    + by apply (bool_decide_unpack _).
    + intros i. cbn [connection_list]. split; [done|by intros [? _]].
    + intros i Hi. rewrite !elem_of_cons, elem_of_nil in Hi. destruct Hi as [->|[->|[]]]; cbn; set_solver.
    + unfold Zlen. cbn [ex_taken free connection_list]. rewrite length_seqZ. done.
  - intros key nt H _. right. change (tk_notes (sk (ex_skern er)) !! key = Some nt) in H. cbn [sk ex_skern tk_notes] in H. apply lookup_singleton_Some in H as [<- <-]. done.
Qed.

Abbreviation ex_server := (server_call ex_skq ex_snet ex_saccept 1%nat 2%nat 3%nat 4%nat 5%nat 6%nat 7%nat 2000%nat 2001%nat
  (λ i, 3 * i)%nat (λ i, 3 * i + 1)%nat (λ i, 3 * i + 2)%nat ex_conn_of : nat → option nat → ex_srv → outcome ex_srv).

Lemma ex_apart i j : i ∈ [0%nat; 1%nat] → j ∈ [0%nat; 1%nat] → i ≠ j → ex_ev i ≠ ex_ev j ∧ u64 (ex_fd i) ≠ u64 (ex_fd j).
Proof. rewrite !elem_of_cons, !elem_of_nil. intros [->|[->|[]]] [->|[->|[]]]; done. Qed.
Lemma ex_apart_lsn i : i ∈ [0%nat; 1%nat] → ex_ev i ≠ 0 ∧ u64 (ex_fd i) ≠ u64 4.
Proof. rewrite !elem_of_cons, !elem_of_nil. by intros [->|[->|[]]]. Qed.
Lemma ex_once : NoDup [0%nat; 1%nat].
Proof. by apply (bool_decide_unpack _). Qed.
Lemma ex_to_come er t : (to_come ex_sin ex_sout ex_scallers [0%nat; 1%nat] ex_fd 4 (ex_both er t) + 1 < 200)%nat.
Proof. replace (to_come _ _ _ _ _ _ _) with 131%nat by (vm_compute; reflexivity). lia. Qed.
Lemma ex_is_ready er t :
  ready 2%nat 3%nat 5%nat 6%nat 7%nat 2000%nat 2001%nat (λ i, 3 * i)%nat (λ i, 3 * i + 1)%nat (λ i, 3 * i + 2)%nat
    [0%nat; 1%nat] (λ _, Reading) Starting ex_posted (ex_both er t).
Proof. split; [exact ex_ready_rep|]. apply (bool_decide_unpack _). by vm_compute. Qed.

Abbreviation ex_srun er t := (runloop_run (kq_lworld ex_skq) ex_server (first_level_handler (kq_lworld ex_skq) ex_addr ex_event_arg ex_server) 200 10 (ex_both er t)).

(** When the stream of connection 0 ends with ECONNRESET both are answered; when it ends
    with errno 0 the process aborts. *)
Lemma server_loop_serves_witness :
  ∃ t, ex_pool3 = Ret t ∧
    (∃ s' n, ex_srun 104 t = Ret (Some (s', n)) ∧
       ex_ssent (l_kern (snd s')) 5 = ex_frame (bytes "ServerResponse:[hi]") ∧
       ex_ssent (l_kern (snd s')) 6 = ex_frame (bytes "ServerResponse:[yo]") ++ ex_frame (bytes "ServerResponse:[ok]")) ∧
    ex_srun 0 t = AssertFail.
Proof.
  destruct ex_pool3_rep as (t & Ht & H). exists t. split; [exact Ht|].
  pose proof (λ er, server_loop_serves ex_skq ex_snet ex_saccept 1%nat 2%nat 3%nat 4%nat 5%nat 6%nat 7%nat 2000%nat 2001%nat
    (λ i, 3 * i)%nat (λ i, 3 * i + 1)%nat (λ i, 3 * i + 2)%nat ex_conn_of ex_snotes ex_sopen ex_slaws _ _ _ ex_sio ex_wait_laws ex_server_fns ex_addrs
    _ _ _ ex_slaccept ex_listen_laws [0%nat; 1%nat] ex_ev ex_fd ex_replies (ex_silent er) 0 4 ex_once ex_apart ex_apart_lsn (λ _, Reading) Starting ex_posted
    ex_addr ex_event_arg 10 200 (ex_both er t) (ex_both_serving er t H) (ex_is_ready er t) (ex_to_come er t)) as Hall. split.
  - destruct (Hall 104) as [(s' & n & Hrun & _ & Hp)|[_ (i & _ & Hi)]]; [|exfalso; destruct i; discriminate Hi].
    exists s', n. split; [exact Hrun|]. destruct (Hp ex_prompt) as [[Hs _] _].
    split; [exact (proj1 (Hs 0%nat ltac:(by left)))|exact (proj1 (Hs 1%nat ltac:(by right; left)))].
  - destruct (Hall 0) as [(s' & n & _ & _ & Hp)|[Hrun _]]; [|exact Hrun]. destruct (Hp ex_prompt) as [_ Hs]. discriminate (Hs 0%nat ltac:(by left)).
Defined.
