(* ===== verification/VerifyStats.v ===== *)
(** * VerifyStats: the response times of the verification client
    (src/apps/client/verify_statistics.c)

    A growing array of doubles and its mean and standard deviation. Doubles are the binary64
    numbers of the Standard Library's [SpecFloat], with their rounding. *)

From S2P Require Import Prelude.
From Stdlib Require Import Floats.SpecFloat.
Open Scope Z_scope.

(** ** Doubles *)

Abbreviation double := spec_float.
Definition d_add : double → double → double := SFadd 53 1024.
Definition d_sub : double → double → double := SFsub 53 1024.
Definition d_mul : double → double → double := SFmul 53 1024.
Definition d_div : double → double → double := SFdiv 53 1024.
Definition d_sqrt : double → double := SFsqrt 53 1024.
(** Conversion of an integer, rounded to nearest. *)
Definition d_of_int (n : Z) : double := binary_normalize 53 1024 n 0 false.
(** The constant [1e-6]. *)
Definition d_micro : double := S754_finite false 4722366482869645 (-72).

(** ** The array *)

(** Seconds and microseconds; [now] below is what [gettimeofday] answers. *)
Definition timeval : Type := Z * Z.

(** [readings_ptr] is NULL or a block, whose unset elements are [None]; the times and
    [total_elapsed_time] are [None] until they are set. *)
Record ResponseTimesArray := mkRTA {
  size_in_doubles : Z;
  next_index : Z;
  start_time : option timeval;
  round_trip_start_time : option timeval;
  total_elapsed_time : option double;
  readings_ptr : option (list (option double))
}.

Definition rta_with_readings (this : ResponseTimesArray) (next : Z) (p : option (list (option double))) : ResponseTimesArray :=
  mkRTA (size_in_doubles this) next (start_time this) (round_trip_start_time this) (total_elapsed_time this) p.

(** [n * sizeof(double)] at type [size_t], and the doubles in so many bytes. No object
    is larger than half the address space. *)
Definition sizeof_doubles (n : Z) : Z := u64 (u64 n * 8).
Definition malloc_doubles (n : Z) : option (list (option double)) :=
  if sizeof_doubles n <? 2 ^ 63 then Some (replicate (Z.to_nat (sizeof_doubles n / 8)) None) else None.

(** [realloc]: the block keeps what fits; a block reallocated to nothing is freed. *)
Definition realloc_doubles (p : option (list (option double))) (n : Z) : option (list (option double)) :=
  match p, malloc_doubles n with
  | None, b => b
  | Some _, None => None
  | Some old, Some new =>
      if bool_decide (new = []) then None else Some (take (length new) old ++ drop (length old) new)
  end.

Definition rta_new (size : Z) : ResponseTimesArray := mkRTA size 0 None None None (malloc_doubles size).

Definition rta_length (this : ResponseTimesArray) : Z := next_index this.

(** The size is not recorded. *)
Definition rta_expand (this : ResponseTimesArray) (to_nbr_doubles : Z) : outcome ResponseTimesArray :=
  c_assert (size_in_doubles this <? to_nbr_doubles);;
  let p := realloc_doubles (readings_ptr this) to_nbr_doubles in
  c_assert (bool_decide (is_Some p));;
  Ret (rta_with_readings this (next_index this) p).

(** [readings_ptr[i]] *)
Definition d_store (p : option (list (option double))) (i : Z) (v : double) : outcome (option (list (option double))) :=
  b ← deref p;
  if (0 <=? i) && (i <? Zlen b) then Ret (Some (<[Z.to_nat i := Some v]> b)) else Ub.
Definition d_load (p : option (list (option double))) (i : Z) : outcome double :=
  b ← deref p;
  if (0 <=? i) && (i <? Zlen b) then deref (mjoin (b !! Z.to_nat i)) else Ub.

(** [readings_ptr[next_index] = value; next_index++] *)
Definition push_reading (this : ResponseTimesArray) (value : double) : outcome ResponseTimesArray :=
  p ← d_store (readings_ptr this) (next_index this) value;
  n ← chk_int (next_index this + 1);
  Ret (rta_with_readings this n p).

Definition rta_add (this : ResponseTimesArray) (value : double) : outcome ResponseTimesArray :=
  n ← chk_int (next_index this + 1);
  this ← (if size_in_doubles this <=? n then d ← chk_int (size_in_doubles this * 2); rta_expand this d else Ret this);
  push_reading this value.

(** The loop of [rta_append]: [n] readings of [src] from the [i]th on. *)
Fixpoint append_loop (n : nat) (i : Z) (dest src : ResponseTimesArray) : outcome ResponseTimesArray :=
  match n with
  | O => Ret dest
  | S n =>
      v ← d_load (readings_ptr src) i;
      dest ← push_reading dest v;
      append_loop n (i + 1) dest src
  end.
(** The two arrays are different objects. *)
Definition rta_append (dest src : ResponseTimesArray) : outcome ResponseTimesArray :=
  n ← chk_int (next_index dest + next_index src);
  dest ← (if size_in_doubles dest <? n then rta_expand dest n else Ret dest);
  append_loop (Z.to_nat (next_index src)) 0 dest src.

Definition rta_at_index (this : ResponseTimesArray) (index : Z) : outcome double :=
  c_assert (index <? next_index this);; d_load (readings_ptr this) index.

(** ** Times *)

Definition time_diff_ms (t1 t2 : timeval) : double :=
  d_add (d_of_int (t1.1 - t2.1)) (d_mul (d_of_int (t1.2 - t2.2)) d_micro).

Definition rta_set_elapsed_time (this : ResponseTimesArray) (elapsed_time : double) : ResponseTimesArray :=
  mkRTA (size_in_doubles this) (next_index this) (start_time this) (round_trip_start_time this) (Some elapsed_time) (readings_ptr this).
Definition rta_get_elapsed_time (this : ResponseTimesArray) : outcome double := deref (total_elapsed_time this).
Definition rta_start_measurement (rta : ResponseTimesArray) (now : timeval) : ResponseTimesArray :=
  mkRTA (size_in_doubles rta) (next_index rta) (Some now) (round_trip_start_time rta) (total_elapsed_time rta) (readings_ptr rta).
Definition rta_end_measurement (rta : ResponseTimesArray) (now : timeval) : outcome ResponseTimesArray :=
  t ← deref (start_time rta);
  Ret (rta_set_elapsed_time rta (time_diff_ms now t)).
Definition rta_start_round_trip (rta : ResponseTimesArray) (now : timeval) : ResponseTimesArray :=
  mkRTA (size_in_doubles rta) (next_index rta) (start_time rta) (Some now) (total_elapsed_time rta) (readings_ptr rta).
Definition rta_end_round_trip (rta : ResponseTimesArray) (now : timeval) : outcome ResponseTimesArray :=
  t ← deref (round_trip_start_time rta);
  rta_add rta (time_diff_ms now t).

(** ** Analysis *)

(** The two loops of [rta_stat_analyse]: the total, and the total of the squared
    deviations from the mean. *)
Fixpoint total_loop (n : nat) (i : Z) (all : ResponseTimesArray) (total : double) : outcome double :=
  match n with
  | O => Ret total
  | S n => v ← rta_at_index all i; total_loop n (i + 1) all (d_add total v)
  end.
Fixpoint std_loop (n : nat) (i : Z) (all : ResponseTimesArray) (mean std_total : double) : outcome double :=
  match n with
  | O => Ret std_total
  | S n =>
      v ← rta_at_index all i;
      let x := d_sub v mean in
      std_loop n (i + 1) all mean (d_add std_total (d_mul x x))
  end.

(** Mean, standard deviation and number of round trips. *)
Definition rta_stat_analyse (all : ResponseTimesArray) : outcome (double * double * Z) :=
  let nbr_response_times := rta_length all in
  total ← total_loop (Z.to_nat nbr_response_times) 0 all (d_of_int 0);
  let mean := d_div total (d_mul (d_of_int nbr_response_times) (d_of_int 1)) in
  std_total ← std_loop (Z.to_nat nbr_response_times) 0 all mean (d_of_int 0);
  let variance := d_div std_total (d_mul (d_of_int nbr_response_times) (d_of_int 1)) in
  Ret (mean, d_sqrt variance, nbr_response_times).

(** ** Specification *)

(** The array holds the readings [vs], in a block of [cap] doubles. *)
Record readings (this : ResponseTimesArray) (vs : list double) (cap : Z) : Prop := {
  rd_next : next_index this = Zlen vs;
  rd_block : ∃ b, readings_ptr this = Some b ∧ Zlen b = cap ∧ take (length vs) b = Some <$> vs
}.

Fixpoint rta_adds (this : ResponseTimesArray) (vs : list double) : outcome ResponseTimesArray :=
  match vs with [] => Ret this | v :: vs => this ← rta_add this v; rta_adds this vs end.
Fixpoint rta_appends (dest : ResponseTimesArray) (srcs : list ResponseTimesArray) : outcome ResponseTimesArray :=
  match srcs with [] => Ret dest | src :: srcs => dest ← rta_append dest src; rta_appends dest srcs end.

(** The largest size whose double is an [int]. *)
Definition size_ok (n : Z) : Prop := 1 ≤ n ≤ 1073741823.

Definition mean_of (vs : list double) : double :=
  d_div (fold_left d_add vs (d_of_int 0)) (d_mul (d_of_int (Zlen vs)) (d_of_int 1)).
Definition sq_dev (m v : double) : double := d_mul (d_sub v m) (d_sub v m).
Definition stddev_of (vs : list double) : double :=
  d_sqrt (d_div (fold_left d_add (sq_dev (mean_of vs) <$> vs) (d_of_int 0)) (d_mul (d_of_int (Zlen vs)) (d_of_int 1))).

(** ** Lemmas *)

Lemma malloc_doubles_ok n : 0 ≤ n ≤ INT_MAX → malloc_doubles n = Some (replicate (Z.to_nat n) None).
Proof.
  unfold INT_MAX. intros Hn. unfold malloc_doubles, sizeof_doubles. rewrite (u64_small n), u64_small by lia.
  rewrite (proj2 (Z.ltb_lt _ _)) by lia. by rewrite Z.div_mul.
Qed.

Lemma rta_new_ok n : 0 ≤ n ≤ INT_MAX → readings (rta_new n) [] n.
Proof.
  intros Hn. constructor; [done|]. eexists. cbn [readings_ptr rta_new]. rewrite malloc_doubles_ok by done.
  split_and!; [done| |done]. unfold Zlen. rewrite length_replicate. lia.
Qed.

Lemma readings_cap this vs cap : readings this vs cap → Zlen vs ≤ cap.
Proof.
  intros [_ (b & _ & <- & Hb)]. apply (f_equal length) in Hb. rewrite length_take, length_fmap in Hb. unfold Zlen. lia.
Qed.

Lemma expand_ok this vs cap n :
  readings this vs cap → size_in_doubles this < n → Zlen vs ≤ n → 0 < n ≤ INT_MAX →
  ∃ this', rta_expand this n = Ret this' ∧ readings this' vs n ∧ size_in_doubles this' = size_in_doubles this.
Proof.
  intros Hr Hs Hv Hn. pose proof (readings_cap _ _ _ Hr) as Hc. destruct Hr as [Hnx (b & Hp & Hl & Hb)].
  unfold rta_expand. rewrite (assert_true (size_in_doubles this <? n)) by (bool_prop; lia). rewrite bind_ret_l, Hp. unfold realloc_doubles.
  rewrite malloc_doubles_ok by lia.
  rewrite bool_decide_false by (intros H; apply (f_equal length) in H; rewrite length_replicate in H; cbn [length] in H; lia).
  rewrite assert_true by (by apply bool_decide_true). rewrite bind_ret_l. eexists. split; [done|]. split; [|done].
  constructor; [done|]. eexists. split; [done|]. unfold Zlen in *.
  rewrite length_app, length_take, length_drop, length_replicate. split; [lia|].
  rewrite take_app_le by (rewrite length_take; lia). rewrite take_take. by rewrite Nat.min_l by lia.
Qed.

Lemma push_ok this vs cap v :
  readings this vs cap → Zlen vs < cap → cap ≤ INT_MAX →
  ∃ this', push_reading this v = Ret this' ∧ readings this' (vs ++ [v]) cap ∧ size_in_doubles this' = size_in_doubles this.
Proof.
  intros [Hnx (b & Hp & Hl & Hb)] Hv Hc. pose proof (Zlen_nonneg vs). unfold push_reading, d_store. rewrite Hp, Hnx. cbn [deref].
  rewrite bind_ret_l. guard_true ((0 <=? Zlen vs) && (Zlen vs <? Zlen b)). rewrite bind_ret_l.
  rewrite chk_int_ok by (unfold INT_MIN; lia). rewrite bind_ret_l. eexists. split; [done|]. split; [|done].
  constructor; [cbn; rewrite Zlen_app; unfold Zlen; cbn; lia|]. eexists. split; [done|].
  unfold Zlen in *. rewrite length_insert. split; [done|]. rewrite Nat2Z.id, fmap_app, length_app. cbn [length fmap list_fmap].
  rewrite Nat.add_1_r, (take_S_r _ _ (Some v)) by (rewrite list_lookup_insert_eq; [done|lia]). by rewrite take_insert_ge, Hb.
Qed.

Lemma push_full this vs v : readings this vs (Zlen vs) → push_reading this v = Ub.
Proof.
  intros [Hnx (b & Hp & Hl & _)]. unfold push_reading, d_store. rewrite Hp, Hnx. cbn [deref]. rewrite bind_ret_l.
  by rewrite Hl, Z.ltb_irrefl, andb_false_r.
Qed.

(** An array made for [n] readings, and the blocks it goes through. *)
Record sized (n : Z) (this : ResponseTimesArray) (vs : list double) : Prop := {
  sz_size : size_in_doubles this = n;
  sz_readings : readings this vs n ∨ readings this vs (2 * n)
}.

Lemma new_sized n : size_ok n → sized n (rta_new n) [].
Proof. unfold size_ok. intros. constructor; [done|]. left. apply rta_new_ok. unfold INT_MAX. lia. Qed.

(** Every addition to an array that is nearly full asks for the same size. *)
Lemma add_full_expands n this vs v :
  size_ok n → sized n this vs → n ≤ Zlen vs + 1 → Zlen vs ≤ 2 * n →
  ∃ this', rta_add this v = push_reading this' v ∧ readings this' vs (2 * n) ∧ size_in_doubles this' = n.
Proof.
  unfold size_ok. intros Hn [Hsz Hr] Hv1 Hv2. assert (∃ cap, readings this vs cap) as [cap Hr'] by (destruct Hr; eauto).
  pose proof (Zlen_nonneg vs). destruct (expand_ok this vs cap (2 * n) Hr') as (this' & He & Hr1 & Hs1); [lia|lia|unfold INT_MAX; lia|].
  exists this'. split_and!; [|done|by rewrite Hs1]. destruct Hr' as [Hnx _]. unfold rta_add. rewrite Hnx.
  rewrite (chk_int_ok (Zlen vs + 1)) by (unfold INT_MIN, INT_MAX; lia). rewrite bind_ret_l, Hsz, (proj2 (Z.leb_le _ _)) by lia.
  rewrite chk_int_ok by (unfold INT_MIN, INT_MAX; lia). by rewrite bind_ret_l, Z.mul_comm, He, bind_ret_l.
Qed.

Lemma add_ok n this vs v :
  size_ok n → sized n this vs → Zlen vs < 2 * n → ∃ this', rta_add this v = Ret this' ∧ sized n this' (vs ++ [v]).
Proof.
  intros Hn Hs Hv. pose proof (Zlen_nonneg vs). destruct (decide (n ≤ Zlen vs + 1)) as [Hf|Hf].
  - destruct (add_full_expands n this vs v Hn Hs Hf) as (t1 & -> & Hr1 & Hs1); [lia|].
    unfold size_ok in Hn. destruct (push_ok t1 vs (2 * n) v Hr1) as (t2 & -> & Hr2 & Hs2); [lia|unfold INT_MAX; lia|].
    exists t2. split; [done|]. constructor; [by rewrite Hs2|by right].
  - destruct Hs as [Hsz Hr]. unfold size_ok in Hn. unfold rta_add.
    assert (next_index this = Zlen vs) as -> by (by destruct Hr as [[? _]|[? _]]).
    rewrite (chk_int_ok (Zlen vs + 1)) by (unfold INT_MIN, INT_MAX; lia). rewrite bind_ret_l, Hsz, (proj2 (Z.leb_gt _ _)) by lia. rewrite bind_ret_l.
    destruct Hr as [Hr|Hr]; destruct (push_ok this vs _ v Hr) as (t2 & -> & Hr2 & Hs2); try (unfold INT_MAX; lia);
      exists t2; (split; [done|]); (constructor; [by rewrite Hs2|]); [by left|by right].
Qed.

Lemma adds_ok n vs : ∀ this ws,
  size_ok n → sized n this ws → Zlen ws + Zlen vs ≤ 2 * n → ∃ this', rta_adds this vs = Ret this' ∧ sized n this' (ws ++ vs).
Proof.
  induction vs as [|v vs IH]; intros this ws Hn Hs Hl; cbn [rta_adds].
  - exists this. by rewrite app_nil_r.
  - rewrite Zlen_cons in Hl. pose proof (Zlen_nonneg vs). destruct (add_ok n this ws v Hn Hs) as (t1 & -> & Hs1); [lia|].
    rewrite bind_ret_l. destruct (IH t1 (ws ++ [v]) Hn Hs1) as (t2 & -> & Hs2); [rewrite Zlen_app, Zlen_cons; unfold Zlen at 2; cbn; lia|].
    exists t2. by rewrite <- app_assoc in Hs2.
Qed.

Lemma adds_app this vs ws : rta_adds this (vs ++ ws) = (this ← rta_adds this vs; rta_adds this ws).
Proof. revert this. induction vs as [|v vs IH]; intros this; [done|]. cbn [rta_adds app]. rewrite bind_assoc. destruct (rta_add this v); [|done..]. apply IH. Qed.

Lemma adds_overflow n vs : size_ok n → 2 * n < Zlen vs → rta_adds (rta_new n) vs = Ub.
Proof.
  intros Hn Hl. rewrite <- (take_drop (Z.to_nat (2 * n)) vs), adds_app.
  assert (Zlen (take (Z.to_nat (2 * n)) vs) = 2 * n) as Ht by (unfold Zlen, size_ok in *; rewrite length_take; lia).
  destruct (adds_ok n (take (Z.to_nat (2 * n)) vs) (rta_new n) [] Hn (new_sized n Hn)) as (t1 & -> & Hs); [rewrite Ht; unfold Zlen; cbn; lia|].
  rewrite bind_ret_l. cbn [app] in Hs. destruct (drop (Z.to_nat (2 * n)) vs) as [|v ws] eqn:Ed.
  { apply (f_equal length) in Ed. rewrite length_drop in Ed. unfold Zlen, size_ok in *. cbn in Ed. lia. }
  cbn [rta_adds]. destruct (add_full_expands n t1 _ v Hn Hs) as (t2 & -> & Hr2 & _); [unfold size_ok in Hn; lia|lia|].
  rewrite (push_full t2 (take (Z.to_nat (2 * n)) vs) v); [done|by rewrite Ht].
Qed.

Lemma load_ok this vs cap i v : readings this vs cap → vs !! i = Some v → d_load (readings_ptr this) (Z.of_nat i) = Ret v.
Proof.
  intros [_ (b & Hp & _ & Hb)] Hv. pose proof (lookup_lt_Some _ _ _ Hv) as Hi.
  assert (b !! i = Some (Some v)) as Hbi by (rewrite <- (lookup_take_lt _ (length vs)), Hb, list_lookup_fmap, Hv; done).
  apply lookup_lt_Some in Hbi as Hlen. unfold d_load. rewrite Hp. cbn [deref]. rewrite bind_ret_l, Nat2Z.id, Hbi.
  unfold Zlen. guard_true ((0 <=? Z.of_nat i) && (Z.of_nat i <? Z.of_nat (length b))). done.
Qed.

Lemma at_index_ok this vs cap i v : readings this vs cap → vs !! i = Some v → rta_at_index this (Z.of_nat i) = Ret v.
Proof.
  intros Hr Hv. unfold rta_at_index. rewrite (load_ok this vs cap i v Hr Hv). destruct Hr as [Hn _].
  rewrite assert_true; [done|]. apply lookup_lt_Some in Hv. unfold Zlen in Hn. bool_prop. lia.
Qed.

Lemma append_loop_ok src ws scap : ∀ rest i dest vs cap,
  readings src ws scap → drop i ws = rest → readings dest vs cap → Zlen vs + Zlen rest ≤ cap → cap ≤ INT_MAX →
  ∃ dest', append_loop (length rest) (Z.of_nat i) dest src = Ret dest' ∧ readings dest' (vs ++ rest) cap ∧ size_in_doubles dest' = size_in_doubles dest.
Proof.
  induction rest as [|w rest IH]; intros i dest vs cap Hs Hd Hr Hl Hc; cbn [append_loop length].
  - exists dest. by rewrite app_nil_r.
  - assert (ws !! i = Some w) as Hw by (rewrite <- (Nat.add_0_r i), <- lookup_drop, Hd; done).
    rewrite (load_ok src ws scap i w Hs Hw), bind_ret_l. rewrite Zlen_cons in Hl. pose proof (Zlen_nonneg rest).
    destruct (push_ok dest vs cap w Hr) as (d1 & -> & Hr1 & Hs1); [lia|done|]. rewrite bind_ret_l.
    replace (Z.of_nat i + 1) with (Z.of_nat (S i)) by lia.
    destruct (IH (S i) d1 (vs ++ [w]) cap Hs) as (d2 & E & Hr2 & Hs2); [|done| |done|].
    + replace (S i) with (i + 1)%nat by lia. by rewrite <- drop_drop, Hd.
    + rewrite Zlen_app, Zlen_cons. unfold Zlen at 2. cbn. lia.
    + exists d2. rewrite E, Hs2, <- Hs1. by rewrite <- app_assoc in Hr2.
Qed.

(** The block is at least as large as the size recorded, as after [rta_new] and appends. *)
Definition roomy (dest : ResponseTimesArray) (vs : list double) : Prop :=
  ∃ cap, readings dest vs cap ∧ 0 ≤ size_in_doubles dest ≤ cap ∧ cap ≤ INT_MAX.

Lemma append_ok dest src vs ws scap :
  roomy dest vs → readings src ws scap → Zlen vs + Zlen ws ≤ INT_MAX →
  ∃ dest', rta_append dest src = Ret dest' ∧ roomy dest' (vs ++ ws).
Proof.
  intros (cap & Hr & Hsz & Hcap) Hs Hl. pose proof (Zlen_nonneg vs). pose proof (Zlen_nonneg ws).
  assert (∃ d1 cap1, (if size_in_doubles dest <? Zlen vs + Zlen ws then rta_expand dest (Zlen vs + Zlen ws) else Ret dest) = Ret d1 ∧
    readings d1 vs cap1 ∧ size_in_doubles d1 = size_in_doubles dest ∧ Zlen vs + Zlen ws ≤ cap1 ∧ size_in_doubles dest ≤ cap1 ∧ cap1 ≤ INT_MAX)
    as (d1 & cap1 & E & Hr1 & Hs1 & Hl1 & Hl2 & Hl3).
  { split_if.
    - destruct (expand_ok dest vs cap (Zlen vs + Zlen ws) Hr) as (d1 & He & Hr1 & Hs1); [lia..|].
      exists d1, (Zlen vs + Zlen ws). split_and!; try done; lia.
    - exists dest, cap. split_and!; try done; lia. }
  pose proof Hr as [Hn _]. pose proof Hs as [Hsn _]. unfold rta_append. rewrite Hn, Hsn.
  rewrite (chk_int_ok (Zlen vs + Zlen ws)) by (unfold INT_MIN; lia). rewrite bind_ret_l, E, bind_ret_l.
  destruct (append_loop_ok src ws scap ws 0 d1 vs cap1 Hs eq_refl Hr1 Hl1 Hl3) as (d2 & E2 & Hr2 & Hs2).
  unfold Zlen at 1. rewrite Nat2Z.id. exists d2. split; [done|]. exists cap1. split; [done|]. lia.
Qed.

Lemma appends_ok srcs wss : Forall2 (λ s ws, ∃ cap, readings s ws cap) srcs wss → ∀ dest vs,
  roomy dest vs → Zlen vs + Zlen (concat wss) ≤ INT_MAX → ∃ dest', rta_appends dest srcs = Ret dest' ∧ roomy dest' (vs ++ concat wss).
Proof.
  induction 1 as [|src ws srcs wss (scap & Hs) _ IH]; intros dest vs Hr Hl; cbn [rta_appends concat] in *.
  - exists dest. by rewrite app_nil_r.
  - rewrite Zlen_app in Hl. pose proof (Zlen_nonneg (concat wss)).
    destruct (append_ok dest src vs ws scap Hr Hs) as (d1 & -> & Hr1); [lia|]. rewrite bind_ret_l.
    destruct (IH d1 (vs ++ ws) Hr1) as (d2 & E & Hr2); [rewrite Zlen_app; lia|]. exists d2. by rewrite <- app_assoc in Hr2.
Qed.

Lemma total_loop_ok all vs cap : readings all vs cap → ∀ rest i total,
  drop i vs = rest → total_loop (length rest) (Z.of_nat i) all total = Ret (fold_left d_add rest total).
Proof.
  intros Hr. induction rest as [|v rest IH]; intros i total Hd; [done|]. cbn [total_loop length fold_left].
  assert (vs !! i = Some v) as Hv by (rewrite <- (Nat.add_0_r i), <- lookup_drop, Hd; done).
  rewrite (at_index_ok all vs cap i v Hr Hv), bind_ret_l. replace (Z.of_nat i + 1) with (Z.of_nat (S i)) by lia.
  apply IH. replace (S i) with (i + 1)%nat by lia. by rewrite <- drop_drop, Hd.
Qed.

Lemma std_loop_ok all vs cap m : readings all vs cap → ∀ rest i total,
  drop i vs = rest → std_loop (length rest) (Z.of_nat i) all m total = Ret (fold_left d_add (sq_dev m <$> rest) total).
Proof.
  intros Hr. induction rest as [|v rest IH]; intros i total Hd; [done|]. cbn [std_loop length fold_left fmap list_fmap].
  assert (vs !! i = Some v) as Hv by (rewrite <- (Nat.add_0_r i), <- lookup_drop, Hd; done).
  rewrite (at_index_ok all vs cap i v Hr Hv), bind_ret_l. replace (Z.of_nat i + 1) with (Z.of_nat (S i)) by lia.
  apply IH. replace (S i) with (i + 1)%nat by lia. by rewrite <- drop_drop, Hd.
Qed.

Lemma analyse_ok all vs cap : readings all vs cap → rta_stat_analyse all = Ret (mean_of vs, stddev_of vs, Zlen vs).
Proof.
  intros Hr. pose proof Hr as [Hn _]. unfold rta_stat_analyse, rta_length. rewrite Hn. assert (Z.to_nat (Zlen vs) = length vs) as -> by apply Nat2Z.id.
  pose proof (total_loop_ok all vs cap Hr vs 0%nat (d_of_int 0) eq_refl) as Ht.
  pose proof (std_loop_ok all vs cap (mean_of vs) Hr vs 0%nat (d_of_int 0) eq_refl) as Hd.
  change (Z.of_nat 0) with 0 in Ht, Hd. rewrite Ht, bind_ret_l. unfold mean_of at 1 2 in Hd. by rewrite Hd.
Qed.

Lemma rta_consolidate_ok n srcs wss :
  0 ≤ n ≤ INT_MAX → Forall2 (λ s ws, ∃ cap, readings s ws cap) srcs wss → Zlen (concat wss) ≤ INT_MAX →
  (all ← rta_appends (rta_new n) srcs; rta_stat_analyse all) =
    Ret (mean_of (concat wss), stddev_of (concat wss), Zlen (concat wss)).
Proof.
  intros Hn Hs Hl. destruct (appends_ok srcs wss Hs (rta_new n) []) as (all & -> & cap & Hr & _); [|done|].
  - exists n. split_and!; [by apply rta_new_ok|cbn; lia..].
  - rewrite bind_ret_l. by eapply analyse_ok.
Qed.

(** Neither the readings nor the start of the measurement depend on the rest. *)
Lemma sized_start_round_trip n this vs now : sized n this vs → sized n (rta_start_round_trip this now) vs.
Proof. intros [Hs [[Hn Hr]|[Hn Hr]]]; (constructor; [done|]); [left|right]; by constructor. Qed.

Lemma add_start this v this' : rta_add this v = Ret this' → start_time this' = start_time this.
Proof.
  unfold rta_add. intros H. apply bind_ret_inv in H as (n & _ & H). apply bind_ret_inv in H as (t1 & H1 & H).
  assert (start_time t1 = start_time this) as <-.
  { destruct (size_in_doubles this <=? n); [|by injection H1 as ->]. apply bind_ret_inv in H1 as (d & _ & H1). unfold rta_expand in H1.
    do 2 (apply bind_ret_inv in H1 as (? & _ & H1)). by injection H1 as <-. }
  unfold push_reading in H. do 2 (apply bind_ret_inv in H as (? & _ & H)). by injection H as <-.
Qed.

Lemma end_round_trip_ok n this vs t now :
  size_ok n → sized n this vs → round_trip_start_time this = Some t → Zlen vs < 2 * n →
  ∃ this', rta_end_round_trip this now = Ret this' ∧ sized n this' (vs ++ [time_diff_ms now t]) ∧ start_time this' = start_time this.
Proof.
  intros Hn Hs Ht Hl. destruct (add_ok n this vs (time_diff_ms now t) Hn Hs Hl) as (t1 & E & Hs1). exists t1.
  unfold rta_end_round_trip. rewrite Ht. cbn [deref]. rewrite bind_ret_l, E. split_and!; [done|done|by eapply add_start].
Qed.

(** ** Properties *)

(** An array made for [n] readings takes twice as many and no more: up to [2n] additions
    keep every reading, in order, and the next one writes past the end of the block, as
    the size is not updated when the block grows. *)
Theorem rta_holds_twice n vs :
  size_ok n →
  (Zlen vs ≤ 2 * n → ∃ this cap, rta_adds (rta_new n) vs = Ret this ∧ readings this vs cap) ∧
  (2 * n < Zlen vs → rta_adds (rta_new n) vs = Ub).
Proof.
  intros Hn. split; [|by apply adds_overflow]. intros Hl.
  destruct (adds_ok n vs (rta_new n) [] Hn (new_sized n Hn)) as (this & E & [_ [Hr|Hr]]); [done|eauto..].
Qed.

Lemma rta_holds_twice_witness : rta_adds (rta_new 2) (replicate 5 (d_of_int 1)) = Ub.
Proof. destruct (rta_holds_twice 2 (replicate 5 (d_of_int 1))) as [_ H]; [done|]. by apply H. Defined.

(** The readings of any number of arrays appended to a new one, of whatever size, are
    analysed together: nothing is lost or written out of bounds, and the analysis gives
    the number of all readings, their mean and their standard deviation, summed in the
    order of the arrays. *)
Theorem rta_consolidates n srcs wss :
  0 ≤ n ≤ INT_MAX → Forall2 (λ s ws, ∃ cap, readings s ws cap) srcs wss → Zlen (concat wss) ≤ INT_MAX →
  (all ← rta_appends (rta_new n) srcs; rta_stat_analyse all) =
    Ret (mean_of (concat wss), stddev_of (concat wss), Zlen (concat wss)).
Proof. apply rta_consolidate_ok. Qed.

(** Two threads that made one and two round trips. *)
Lemma rta_consolidates_witness :
  ∃ s1 s2, rta_adds (rta_new 1) [d_of_int 1] = Ret s1 ∧ rta_adds (rta_new 1) [d_of_int 2; d_of_int 3] = Ret s2 ∧
    (all ← rta_appends (rta_new 0) [s1; s2]; rta_stat_analyse all) =
      Ret (d_of_int 2, d_sqrt (d_div (d_of_int 2) (d_of_int 3)), 3).
Proof.
  assert (size_ok 1) as H1 by done.
  destruct (adds_ok 1 [d_of_int 1] (rta_new 1) [] H1 (new_sized 1 H1)) as (s1 & E1 & [_ Hr1]); [done|].
  destruct (adds_ok 1 [d_of_int 2; d_of_int 3] (rta_new 1) [] H1 (new_sized 1 H1)) as (s2 & E2 & [_ Hr2]); [done|].
  exists s1, s2. split_and!; [done|done|].
  rewrite (rta_consolidates 0 [s1; s2] [[d_of_int 1]; [d_of_int 2; d_of_int 3]]); [by vm_compute|done| |done].
  repeat constructor; [destruct Hr1; eauto|destruct Hr2; eauto].
Defined.
