(* ===== verification/VerifyClient.v ===== *)
(** * VerifyClient: the client that verifies the echo server
    (src/apps/client/verify_thread_context.c, verify_client_thread_function.c, and the
    parts of verify_getopt.c and verify_main.c that take options and consolidate results)

    A thread opens connections one after the other, sends messages on each and compares
    what comes back with what the echo application answers. Proved against the interface of
    [MsgFormat], whatever the format. *)

From Stdlib Require Import Strings.Ascii.
From S2P Require Import Prelude Cbuffer IOBuffer DemoMsg MsgFormat SocketFunctions MStream EchoApp VerifyStats.
Open Scope Z_scope.

(** ** Contexts *)

(** [url], [rountrips_count] and [uid] are never set nor read. *)
Record VerifyThreadContext := mkVTC {
  ctx_port : Z;
  max_rountrips_per_connection : Z;
  max_connections_per_thread : Z;
  ident : Z;
  roundtrip_per_connection_counter : Z;
  total_roundtrips : Z;
  response_times_ref : ResponseTimesArray
}.

Definition ctx_with_counters (ctx : VerifyThreadContext) (counter total : Z) : VerifyThreadContext :=
  mkVTC (ctx_port ctx) (max_rountrips_per_connection ctx) (max_connections_per_thread ctx) (ident ctx) counter total (response_times_ref ctx).
Definition ctx_with_times (ctx : VerifyThreadContext) (rta : ResponseTimesArray) : VerifyThreadContext :=
  mkVTC (ctx_port ctx) (max_rountrips_per_connection ctx) (max_connections_per_thread ctx) (ident ctx)
    (roundtrip_per_connection_counter ctx) (total_roundtrips ctx) rta.

Definition verify_ctx_init (port id nbr_roundtrips_per_connection nbr_connections_per_thread max_threads : Z) : outcome VerifyThreadContext :=
  n ← chk_int (nbr_roundtrips_per_connection * nbr_connections_per_thread);
  Ret (mkVTC port nbr_roundtrips_per_connection nbr_connections_per_thread id 0 0 (rta_new n)).
Definition verify_ctx_new (port id nbr_roundtrips_per_connection nbr_connections_per_thread max_threads : Z) : outcome VerifyThreadContext :=
  verify_ctx_init port id nbr_roundtrips_per_connection nbr_connections_per_thread max_threads.

Definition verify_ctx_increment_total_round_trip_count (ctx : VerifyThreadContext) : outcome VerifyThreadContext :=
  n ← chk_int (total_roundtrips ctx + 1); Ret (ctx_with_counters ctx (roundtrip_per_connection_counter ctx) n).
Definition verify_ctx_increment_connection_round_trip_count (ctx : VerifyThreadContext) : outcome VerifyThreadContext :=
  n ← chk_int (roundtrip_per_connection_counter ctx + 1); Ret (ctx_with_counters ctx n (total_roundtrips ctx)).
Definition verify_ctx_reset_connection_round_trip_count (ctx : VerifyThreadContext) : VerifyThreadContext :=
  ctx_with_counters ctx 0 (total_roundtrips ctx).

(** The text of a request, and what [verify_response] prints into [test_buffer]. *)
Definition request_text (id i j : Z) : list byte :=
  bytes "Client " ++ fmt_d id ++ bytes " connection: " ++ fmt_d i ++ bytes " msg: " ++ fmt_d j.
Definition expected_text (t : list byte) : list byte := bytes "ServerResponse:[" ++ t ++ bytes "]".

Section Client.
Context {W addr M P S : Type} `{!MsgOps M P}.
Variable N : net W addr.
(** The clock, which reading does not change. *)
Variable gettimeofday : W → timeval.
Abbreviation mstream_t := (MStream M).

(** The random identifier it makes in a local buffer is not used. *)
Definition make_request (ctx : VerifyThreadContext) (i j : Z) : outcome M :=
  msg_ref ← MSG_NEW (P := P);
  iob ← deref (MSG_GET_CONTENT (P := P) msg_ref);
  iob ← IOBuffer_sprintf iob (request_text (ident ctx) i j);
  Ret (MSG_CONTENT_CHANGED (P := P) msg_ref iob).

Definition verify_response (request_msg response_msg : M) : outcome bool :=
  request_content ← deref (MSG_GET_CONTENT (P := P) request_msg);
  response_content ← deref (MSG_GET_CONTENT (P := P) response_msg);
  _ ← IOBuffer_cstr response_content;
  req ← IOBuffer_cstr request_content;
  test_buffer ← mem_store (malloc_block 200) 0 (init (expected_text req ++ [NUL]));
  let slen := Zlen (expected_text req) in
  test ← mem_cstr test_buffer 0;
  c_assert (slen =? Zlen test);;
  resp ← IOBuffer_cstr response_content;
  Ret (bool_decide (test = resp)).

(** The body of the loop of a connection up to its exit: the request and the response,
    and whether the line printed says that the verification succeeded. [None] is the end
    of the fuel. *)
Definition round_trip (fuel : nat) (ctx : VerifyThreadContext) (stream : mstream_t) (parser : P) (i j : Z) (w : W)
    : outcome (option (VerifyThreadContext * mstream_t * P * W * M * M * bool)) :=
  let ctx := ctx_with_times ctx (rta_start_round_trip (response_times_ref ctx) (gettimeofday w)) in
  _ ← chk_int (roundtrip_per_connection_counter ctx + 1);
  request ← make_request ctx i j;
  w ← mstream_write (P := P) N stream request w;
  r ← mstream_read N fuel stream parser w;
  match r with
  | None => Ret None
  | Some (stream, parser, w, response) =>
      _ ← MSG_SERIALIZE (P := P) request;
      _ ← MSG_SERIALIZE (P := P) response;
      ok ← verify_response request response;
      rta ← rta_end_round_trip (response_times_ref ctx) (gettimeofday w);
      ctx ← verify_ctx_increment_connection_round_trip_count (ctx_with_times ctx rta);
      ctx ← verify_ctx_increment_total_round_trip_count ctx;
      Ret (Some (ctx, stream, parser, w, request, response, ok))
  end.

(** The loop of a connection, with fuel; the verdicts in order. *)
Fixpoint round_trips (fuel n : nat) (ctx : VerifyThreadContext) (stream : mstream_t) (parser : P) (i j : Z) (w : W)
    : outcome (option (VerifyThreadContext * mstream_t * P * W * list bool)) :=
  match n with
  | O => Ret None
  | Datatypes.S n =>
      j ← chk_int (j + 1);
      r ← round_trip fuel ctx stream parser i j w;
      match r with
      | None => Ret None
      | Some (ctx, stream, parser, w, request, response, ok) =>
          if max_rountrips_per_connection ctx <=? roundtrip_per_connection_counter ctx
          then Ret (Some (ctx, stream, parser, w, [ok]))
          else
            _ ← MSG_FREE (P := P) request;
            _ ← MSG_FREE (P := P) response;
            r ← round_trips fuel n ctx stream parser i j w;
            match r with
            | None => Ret None
            | Some (ctx, stream, parser, w, oks) => Ret (Some (ctx, stream, parser, w, ok :: oks))
            end
      end
  end.

(** The loop over connections: [n] of them, from the [i]th on. The parser goes on. *)
Fixpoint connections (fuel n : nat) (ctx : VerifyThreadContext) (parser : P) (i : Z) (w : W)
    : outcome (option (VerifyThreadContext * W * list bool)) :=
  match n with
  | O => Ret (Some (ctx, w, []))
  | Datatypes.S n =>
      '(stream, w) ← mstream_new (M := M) N localhost (ctx_port ctx) w;
      r ← round_trips fuel fuel (verify_ctx_reset_connection_round_trip_count ctx) stream parser i 0 w;
      match r with
      | None => Ret None
      | Some (ctx, stream, parser, w, oks) =>
          w ← mstream_free (P := P) N stream w;
          r ← connections fuel n ctx parser (i + 1) w;
          match r with None => Ret None | Some (ctx, w, oks') => Ret (Some (ctx, w, oks ++ oks')) end
      end
  end.

Definition verify_client_thread_function (fuel : nat) (ctx : VerifyThreadContext) (w : W)
    : outcome (option (VerifyThreadContext * W * list bool)) :=
  let ctx := ctx_with_times ctx (rta_start_measurement (response_times_ref ctx) (gettimeofday w)) in
  parser ← MSG_PARSER_NEW (M := M);
  r ← connections fuel (Z.to_nat (max_connections_per_thread ctx)) ctx parser 0 w;
  match r with
  | None => Ret None
  | Some (ctx, w, oks) =>
      rta ← rta_end_measurement (response_times_ref ctx) (gettimeofday w);
      Ret (Some (ctx_with_times ctx rta, w, oks))
  end.

(** ** Specification *)

Context `{!MsgLaws M P S}.

(** The socket gives the chunks, and then the world is as [K] says. *)
Fixpoint receives (fd : Z) (chunks : list (list byte)) (w : W) (K : W → Prop) : Prop :=
  match chunks with
  | [] => K w
  | bs :: chunks => ∃ w' er, sys_read N fd 4096 w = (w', Zlen bs, er, bs) ∧ 0 < Zlen bs ≤ 4096 ∧ receives fd chunks w' K
  end.

(** The chunks hold one message, which the last one completes. *)
Fixpoint one_message (σ : S) (chunks : list (list byte)) (σ' : S) (t : list byte) : Prop :=
  match chunks with
  | [] => False
  | [bs] => parse σ bs = Some (σ', [t])
  | bs :: chunks => ∃ σ1, parse σ bs = Some (σ1, []) ∧ one_message σ1 chunks σ' t
  end.

(** A server that takes the requests of connection [i] from the [j]th on, and answers each
    as the echo application does, cut into reads as given. *)
Fixpoint answers (fd id i j : Z) (cuts : list (list (list byte))) (σ : S) (w : W) (K : S → W → Prop) : Prop :=
  match cuts with
  | [] => K σ w
  | chunks :: cuts =>
      ∃ w1 er σ1, sys_write N fd (wire (request_text id i j)) w = (w1, Zlen (wire (request_text id i j)), er) ∧
        one_message σ chunks σ1 (response_text (request_text id i j)) ∧
        receives fd chunks w1 (λ w2, answers fd id i (j + 1) cuts σ1 w2 K)
  end.

(** The same over connections, one after the other. *)
Fixpoint serves (port id i : Z) (conns : list (list (list (list byte)))) (σ : S) (w : W) : Prop :=
  match conns with
  | [] => True
  | cuts :: conns =>
      ∃ w1 fd, create_and_connect_socket N localhost port w = Ret (w1, fd) ∧
        answers fd id i 1 cuts σ w1 (λ σ' w', serves port id (i + 1) conns σ' (sys_close N fd w').1)
  end.

(** The texts of a client are texts of the format. *)
Definition texts_ok (id r c : Z) : Prop :=
  ∀ i j, 0 ≤ i < c → 1 ≤ j ≤ r → text_ok (request_text id i j) ∧ text_ok (response_text (request_text id i j)).

(** ** Lemmas *)

Lemma receives_mono fd chunks : ∀ w (K K' : W → Prop), (∀ w, K w → K' w) → receives fd chunks w K → receives fd chunks w K'.
Proof.
  induction chunks as [|bs chunks IH]; intros w K K' HK; cbn [receives]; [apply HK|].
  intros (w' & er & ? & ? & H). exists w', er. split; [done|]. split; [done|]. by eapply IH.
Qed.

(** Reading the answer. *)
Lemma read_answer chunks : ∀ fuel st p w σ σ' t K,
  input_msg_list st = [] → state_is p σ → one_message σ chunks σ' t → receives (m_fd st) chunks w K → (length chunks < fuel)%nat →
  ∃ p' w' m, mstream_read N fuel st p w = Ret (Some (st, p', w', m)) ∧ msg_text m t ∧ state_is p' σ' ∧ K w'.
Proof.
  induction chunks as [|bs chunks IH]; intros [|fuel] st p w σ σ' t K Hl Hp Hm Hr Hf; cbn [length] in Hf; try lia; [by destruct Hm|].
  cbn [receives] in Hr. destruct Hr as (w1 & er & Er & Hlen & Hr). destruct chunks as [|bs' chunks].
  - destruct (mstream_round N fuel st p w σ bs w1 er σ' [t] Hl Hp Er Hlen Hm) as (p' & out & -> & Hp' & Ho).
    inversion Ho as [|m ? ? ? Ht Hnil]; subst. inversion Hnil; subst. destruct fuel as [|fuel]; [cbn in Hf; lia|].
    exists p', w1, m. split_and!; try done. destruct st as [h po fd l]. cbn in Hl. subst l. done.
  - destruct Hm as (σ1 & E & Hm). destruct (mstream_round N fuel st p w σ bs w1 er σ1 [] Hl Hp Er Hlen E) as (p' & out & -> & Hp' & Ho).
    inversion Ho; subst. replace (new_msg_cb st []) with st by (destruct st as [h po fd l]; cbn in Hl; by subst l).
    apply (IH fuel st p' w1 σ1 σ' t K); try done. cbn [length] in *. lia.
Qed.

Lemma dec_aux_len fuel : ∀ n acc, Zlen (dec_aux fuel n acc) ≤ Z.of_nat fuel + Zlen acc.
Proof.
  induction fuel as [|fuel IH]; intros n acc; cbn [dec_aux]; [lia|]. destruct (n / 10 =? 0); [rewrite Zlen_cons; lia|].
  specialize (IH (n / 10) (digit (n mod 10) :: acc)). rewrite Zlen_cons in IH. lia.
Qed.
Lemma fmt_d_len n : Zlen (fmt_d n) ≤ 11.
Proof.
  unfold fmt_d. destruct (n <? 0); rewrite ?Zlen_cons;
    [pose proof (dec_aux_len 10 (- n) [])|pose proof (dec_aux_len 10 n [])]; change (Zlen (A := byte) []) with 0 in *; lia.
Qed.
Lemma request_text_len id i j : Zlen (request_text id i j) ≤ 60.
Proof.
  unfold request_text. rewrite !Zlen_app. change (Zlen (bytes "Client ")) with 7. change (Zlen (bytes " connection: ")) with 13.
  change (Zlen (bytes " msg: ")) with 6. pose proof (fmt_d_len id). pose proof (fmt_d_len i). pose proof (fmt_d_len j). lia.
Qed.

Lemma make_request_ok ctx i j :
  text_ok (request_text (ident ctx) i j) → ∃ m, make_request ctx i j = Ret m ∧ msg_text m (request_text (ident ctx) i j).
Proof.
  intros Ht. pose proof (request_text_len (ident ctx) i j).
  destruct (print_law _ Ht) as (m & b & b' & Hn & Hg & Hs & Hm); [lia|]. unfold make_request. rewrite Hn, bind_ret_l, Hg. cbn [deref].
  rewrite bind_ret_l, Hs, bind_ret_l. by eexists.
Qed.

Lemma cstr_no_nul m : ∀ bs, cstr_of m = Ret bs → no_nul bs = true.
Proof.
  induction m as [|[b|] m IH]; intros bs H; cbn [cstr_of] in H; [done| |done]. destruct (beq b NUL) eqn:E; [by injection H as <-|].
  apply bind_ret_inv in H as (bs' & H & [= <-]). change (negb (beq b NUL) && no_nul bs' = true). by rewrite E, (IH bs' H).
Qed.
Lemma iob_cstr_no_nul b bs : IOBuffer_cstr b = Ret bs → no_nul bs = true.
Proof. unfold IOBuffer_cstr, mem_cstr. destruct (in_block _ _ _); [|done]. apply cstr_no_nul. Qed.

(** A string printed into an array that has room for it. *)
Lemma printed_cstr n bs :
  no_nul bs = true → Zlen bs < n → ∃ m, mem_store (malloc_block n) 0 (init (bs ++ [NUL])) = Ret m ∧ mem_cstr m 0 = Ret bs.
Proof.
  intros Hn Hl. pose proof (Zlen_nonneg bs). assert (msize (init (bs ++ [NUL])) = Zlen bs + 1) as Hm.
  { rewrite msize_init, length_app. unfold Zlen. cbn [length]. lia. }
  rewrite mem_store_ok; [|lia|rewrite Hm; unfold msize, malloc_block; rewrite length_replicate; lia].
  eexists. split; [done|]. change (Z.to_nat 0) with 0%nat. cbn [take app]. unfold mem_cstr.
  assert (∀ x, in_block x 0 0 = true) as -> by (intros x; apply in_block_true; pose proof (msize_nonneg x); lia).
  change (Z.to_nat 0) with 0%nat. rewrite drop_0, init_app, <- app_assoc. cbn [init fmap list_fmap app]. by apply cstr_of_init.
Qed.

(** The comparison is that of the two texts, if what is printed fits [test_buffer]. *)
Lemma verify_response_ok q r t t' :
  msg_text q t → msg_text r t' → text_ok t → text_ok t' → Zlen t ≤ 182 →
  verify_response q r = Ret (bool_decide (expected_text t = t')).
Proof.
  intros Hq Hr Ht Ht' Hl. destruct (content_law q t Hq Ht) as (cq & Hgq & Hcq). destruct (content_law r t' Hr Ht') as (cr & Hgr & Hcr).
  unfold verify_response. rewrite Hgq, Hgr. cbn [deref]. rewrite !bind_ret_l, Hcr, bind_ret_l, Hcq, bind_ret_l.
  destruct (printed_cstr 200 (expected_text t)) as (m & -> & Hm).
  - apply iob_cstr_no_nul in Hcq. unfold expected_text, no_nul in *. by rewrite !forallb_app, Hcq.
  - unfold expected_text. rewrite !Zlen_app. change (Zlen (bytes "ServerResponse:[")) with 16. change (Zlen (bytes "]")) with 1. lia.
  - rewrite bind_ret_l, Hm, bind_ret_l, Z.eqb_refl. cbn [c_assert]. by rewrite bind_ret_l, bind_ret_l.
Qed.

Lemma verify_response_long q r t t' :
  msg_text q t → msg_text r t' → text_ok t → text_ok t' → 182 < Zlen t → verify_response q r = Ub.
Proof.
  intros Hq Hr Ht Ht' Hl. destruct (content_law q t Hq Ht) as (cq & Hgq & Hcq). destruct (content_law r t' Hr Ht') as (cr & Hgr & Hcr).
  unfold verify_response. rewrite Hgq, Hgr. cbn [deref]. rewrite !bind_ret_l, Hcr, bind_ret_l, Hcq, bind_ret_l.
  rewrite mem_store_ub; [done|]. right. rewrite msize_init, length_app. change (msize (malloc_block 200)) with 200.
  change (length [NUL]) with 1%nat. unfold expected_text, Zlen in *. rewrite !length_app.
  change (length (bytes "ServerResponse:[")) with 16%nat. change (length (bytes "]")) with 1%nat. lia.
Qed.

(** A context of a thread [id] for [r] round trips on each of [c] connections, after [counter]
    of them on the current connection and [n] in all. *)
Record progress (port id r c counter n : Z) (ctx : VerifyThreadContext) : Prop := {
  pg_port : ctx_port ctx = port;
  pg_rounds : max_rountrips_per_connection ctx = r;
  pg_connections : max_connections_per_thread ctx = c;
  pg_ident : ident ctx = id;
  pg_counter : roundtrip_per_connection_counter ctx = counter;
  pg_total : total_roundtrips ctx = n;
  pg_times : ∃ vs, sized (r * c) (response_times_ref ctx) vs ∧ Zlen vs = n;
  pg_start : is_Some (start_time (response_times_ref ctx))
}.

Lemma round_trip_ok fuel port id r c counter n ctx st parser σ i j chunks w w1 er σ1 K :
  size_ok (r * c) → progress port id r c counter n ctx → 0 ≤ counter < r → r ≤ INT_MAX - 1 → 0 ≤ n < r * c →
  input_msg_list st = [] → state_is parser σ → text_ok (request_text id i j) → text_ok (response_text (request_text id i j)) →
  sys_write N (m_fd st) (wire (request_text id i j)) w = (w1, Zlen (wire (request_text id i j)), er) →
  one_message σ chunks σ1 (response_text (request_text id i j)) → receives (m_fd st) chunks w1 K → (length chunks < fuel)%nat →
  ∃ ctx' parser' w' q m, round_trip fuel ctx st parser i j w = Ret (Some (ctx', st, parser', w', q, m, true)) ∧
    progress port id r c (counter + 1) (n + 1) ctx' ∧ state_is parser' σ1 ∧ K w' ∧ (∃ t, msg_text q t) ∧ (∃ t, msg_text m t).
Proof.
  intros Hsz [Hp Hr Hc Hid Hk Hn (vs & Hvs & Hlen) Hst] Hkr Hr2 Hnb Hl Hps Htq Htr Hw Hm Hrc Hf. set (t := request_text id i j) in *.
  set (rta1 := rta_start_round_trip (response_times_ref ctx) (gettimeofday w)).
  assert (ident (ctx_with_times ctx rta1) = id) as Hid1 by done.
  destruct (make_request_ok (ctx_with_times ctx rta1) i j) as (q & Hq & Hqt); [by rewrite Hid1|]. rewrite Hid1 in Hqt. fold t in Hqt.
  destruct (read_answer chunks fuel st parser w1 σ σ1 (response_text t) K Hl Hps Hm Hrc Hf) as (p' & w2 & m & Hread & Hmt & Hps' & HK).
  destruct (serialize_law q t Hqt Htq) as (bq & Hsq & _). destruct (serialize_law m _ Hmt Htr) as (bm & Hsm & _).
  pose proof (request_text_len id i j). fold t in H.
  assert (verify_response q m = Ret true) as Hv.
  { rewrite (verify_response_ok q m t (response_text t)) by (done || lia). by rewrite bool_decide_true. }
  destruct (end_round_trip_ok (r * c) rta1 vs (gettimeofday w) (gettimeofday w2)) as (rta2 & He & Hs2 & Hst2);
    [done|by apply sized_start_round_trip|done|lia|].
  unfold round_trip. fold rta1. cbn [ctx_with_times roundtrip_per_connection_counter]. rewrite Hk.
  assert (size_ok (r * c) ∧ n + 1 ≤ INT_MAX) as [_ Hn1] by (unfold size_ok, INT_MAX in *; lia).
  rewrite (chk_int_ok (counter + 1)) by (unfold INT_MIN, INT_MAX in *; lia). rewrite bind_ret_l. fold (ctx_with_times ctx rta1). rewrite Hq, bind_ret_l.
  rewrite (write_ok N st q t w w1 er Hqt Htq Hw), bind_ret_l, Hread, bind_ret_l, Hsq, bind_ret_l, Hsm, bind_ret_l, Hv, bind_ret_l.
  cbn [ctx_with_times response_times_ref]. rewrite He, bind_ret_l.
  unfold verify_ctx_increment_connection_round_trip_count, verify_ctx_increment_total_round_trip_count.
  cbn [ctx_with_times ctx_with_counters roundtrip_per_connection_counter total_roundtrips]. rewrite Hk, Hn.
  rewrite (chk_int_ok (counter + 1)), !bind_ret_l by (unfold INT_MIN, INT_MAX in *; lia).
  cbn [ctx_with_counters total_roundtrips]. rewrite (chk_int_ok (n + 1)), !bind_ret_l by (unfold INT_MIN, INT_MAX in *; lia).
  eexists _, p', w2, q, m. split; [done|]. split_and!; [|done|done|by eexists|by eexists].
  constructor; try done; cbn [ctx_with_counters response_times_ref].
  - exists (vs ++ [time_diff_ms (gettimeofday w2) (gettimeofday w)]). split; [done|]. rewrite Zlen_app, Hlen. done.
  - cbn [ctx_with_times response_times_ref]. by rewrite Hst2.
Qed.

(** All the round trips of a connection. *)
Lemma round_trips_ok cuts : ∀ fuel k port id r c counter n ctx st parser σ i w K,
  size_ok (r * c) → progress port id r c counter n ctx → 0 ≤ counter → counter + Zlen cuts = r → cuts ≠ [] → r ≤ INT_MAX - 1 →
  0 ≤ n → n + Zlen cuts ≤ r * c → input_msg_list st = [] → state_is parser σ → texts_ok id r c → 0 ≤ i < c →
  answers (m_fd st) id i (counter + 1) cuts σ w K → (length cuts ≤ k)%nat → Forall (λ chunks, (length chunks < fuel)%nat) cuts →
  ∃ ctx' parser' σ' w', round_trips fuel k ctx st parser i counter w = Ret (Some (ctx', st, parser', w', replicate (length cuts) true)) ∧
    progress port id r c r (n + Zlen cuts) ctx' ∧ state_is parser' σ' ∧ K σ' w'.
Proof.
  induction cuts as [|chunks cuts IH]; intros fuel [|k] port id r c counter n ctx st parser σ i w K Hsz Hpg H0 Hcr Hne Hr Hn0 Hn Hl Hps Hok Hi Ha Hk Hf;
    [done|done|cbn in Hk; lia|]. clear Hne. rewrite Zlen_cons in *. pose proof (Zlen_nonneg cuts).
  cbn [answers] in Ha. destruct Ha as (w1 & er & σ1 & Hw & Hm & Hrc). inversion Hf as [|? ? Hf1 Hf2]; subst.
  destruct (Hok i (counter + 1)) as [Htq Htr]; [lia..|].
  destruct (round_trip_ok fuel port id (counter + (1 + Zlen cuts)) c counter n ctx st parser σ i (counter + 1) chunks w w1 er σ1 _
    Hsz Hpg ltac:(lia) Hr ltac:(lia) Hl Hps Htq Htr Hw Hm Hrc Hf1) as (ctx1 & p1 & w2 & q & m & E & Hpg1 & Hps1 & HK & (tq & Hqt) & (tm & Hmt)).
  cbn [round_trips]. rewrite (chk_int_ok (counter + 1)), bind_ret_l by (unfold INT_MIN, INT_MAX in *; lia). rewrite E, bind_ret_l.
  rewrite (pg_rounds _ _ _ _ _ _ _ Hpg1), (pg_counter _ _ _ _ _ _ _ Hpg1).
  destruct cuts as [|chunks2 cuts].
  - change (Zlen (A := list (list byte)) []) with 0 in *. rewrite (proj2 (Z.leb_le _ _)) by lia. exists ctx1, p1, σ1, w2.
    split; [done|]. split; [|done]. by replace (counter + (1 + 0)) with (counter + 1) in * by lia; replace (n + (1 + 0)) with (n + 1) by lia.
  - rewrite Zlen_cons in *. pose proof (Zlen_nonneg cuts). rewrite (proj2 (Z.leb_gt _ _)) by lia.
    destruct (free_law q tq Hqt) as [? ->]. rewrite bind_ret_l. destruct (free_law m tm Hmt) as [? ->]. rewrite bind_ret_l.
    destruct (IH fuel k port id (counter + (1 + (1 + Zlen cuts))) c (counter + 1) (n + 1) ctx1 st p1 σ1 i w2 K)
      as (ctx' & p' & σ' & w' & -> & Hpg' & Hps' & HK'); try done; try lia; [cbn in *; lia|].
    rewrite bind_ret_l. exists ctx', p', σ', w'. split_and!; [done| |done|done].
    by replace (n + (1 + (1 + Zlen cuts))) with (n + 1 + (1 + Zlen cuts)) by lia.
Qed.

Lemma reset_progress port id r c k n ctx :
  progress port id r c k n ctx → progress port id r c 0 n (verify_ctx_reset_connection_round_trip_count ctx).
Proof. by intros [? ? ? ? ? ? ? ?]. Qed.

Lemma connections_ok conns : ∀ fuel port id r c k n ctx parser σ i w,
  size_ok (r * c) → progress port id r c k n ctx → 1 ≤ r ≤ INT_MAX - 1 → 0 ≤ n → n + Zlen conns * r ≤ r * c → 0 ≤ i → i + Zlen conns = c →
  state_is parser σ → texts_ok id r c → serves port id i conns σ w → r ≤ Z.of_nat fuel →
  Forall (λ cuts, Zlen cuts = r ∧ Forall (λ chunks, (length chunks < fuel)%nat) cuts) conns →
  ∃ ctx' w' k', connections fuel (length conns) ctx parser i w =
      Ret (Some (ctx', w', replicate (Z.to_nat (Zlen conns * r)) true)) ∧ progress port id r c k' (n + Zlen conns * r) ctx'.
Proof.
  induction conns as [|cuts conns IH]; intros fuel port id r c k n ctx parser σ i w Hsz Hpg Hr Hn0 Hn Hi Hic Hps Hok Hs Hk Hf.
  - exists ctx, w, k. by change (Zlen (A := list (list (list byte))) []) with 0; rewrite Z.mul_0_l, Z.add_0_r.
  - rewrite Zlen_cons in *. pose proof (Zlen_nonneg conns). inversion Hf as [|? ? [Hlen Hf1] Hf2]; subst.
    cbn [serves connections length] in *. destruct Hs as (w1 & fd & Hc & Ha). unfold mstream_new, mstream_init.
    rewrite (pg_port _ _ _ _ _ _ _ Hpg), Hc, !bind_ret_l. set (st := mkMS localhost port fd []) in *.
    destruct (round_trips_ok cuts fuel fuel port id (Zlen cuts) (i + (1 + Zlen conns)) 0 n _ st parser σ i w1
      (λ σ' w', serves port id (i + 1) conns σ' (sys_close N fd w').1) Hsz (reset_progress _ _ _ _ _ _ _ Hpg)) as (ctx1 & p1 & σ1 & w2 & -> & Hpg1 & Hps1 & Hs1); try done; try nia.
    { intros ->. change (Zlen (A := list (list byte)) []) with 0 in Hr. lia. }
    { unfold Zlen in Hk. lia. }
    rewrite bind_ret_l. unfold mstream_free. destruct (sys_close N (m_fd st) w2) as [w3 rc] eqn:Ecl. cbn [free_msgs input_msg_list st]. rewrite !bind_ret_l.
    change (m_fd st) with fd in Ecl. rewrite Ecl in Hs1. cbn [fst] in Hs1.
    destruct (IH fuel port id (Zlen cuts) (i + (1 + Zlen conns)) (Zlen cuts) (n + Zlen cuts) ctx1 p1 σ1 (i + 1) w3) as (ctx' & w' & k' & -> & Hpg');
      try done; try lia.
    rewrite bind_ret_l. exists ctx', w', k'. split; [|by replace (n + (1 + Zlen conns) * Zlen cuts) with (n + Zlen cuts + Zlen conns * Zlen cuts) by lia].
    rewrite <- replicate_add. do 4 f_equal. unfold Zlen. lia.
Qed.

Lemma new_progress port id r c threads :
  size_ok (r * c) → ∃ ctx, verify_ctx_new port id r c threads = Ret ctx ∧ ctx_port ctx = port ∧
    ∀ now, progress port id r c 0 0 (ctx_with_times ctx (rta_start_measurement (response_times_ref ctx) now)).
Proof.
  intros Hsz. unfold verify_ctx_new, verify_ctx_init. rewrite chk_int_ok by (unfold size_ok, INT_MIN, INT_MAX in *; lia).
  rewrite bind_ret_l. eexists. split; [done|]. split; [done|]. intros now. constructor; try done. exists []. split; [|done].
  destruct (new_sized (r * c) Hsz) as [Hs [[Hn Hr]|[Hn Hr]]]; (constructor; [done|]); [left|right]; by constructor.
Qed.

(** The texts of a client fit every buffer they go through. *)
Lemma thread_ok fuel port id r c threads conns w :
  size_ok (r * c) → 1 ≤ r ≤ INT_MAX - 1 → Zlen conns = c → texts_ok id r c → serves port id 0 conns start w → r ≤ Z.of_nat fuel →
  Forall (λ cuts, Zlen cuts = r ∧ Forall (λ chunks, (length chunks < fuel)%nat) cuts) conns →
  ∃ ctx ctx' w' vs cap,
    verify_ctx_new port id r c threads = Ret ctx ∧
    verify_client_thread_function fuel ctx w = Ret (Some (ctx', w', replicate (Z.to_nat (r * c)) true)) ∧
    total_roundtrips ctx' = r * c ∧ readings (response_times_ref ctx') vs cap ∧ Zlen vs = r * c ∧
    is_Some (total_elapsed_time (response_times_ref ctx')).
Proof.
  intros Hsz Hr Hc Hok Hs Hk Hf. destruct (new_progress port id r c threads Hsz) as (ctx & Hnew & _ & Hpg). exists ctx.
  specialize (Hpg (gettimeofday w)). destruct parser_new_law as (p & Hp & Hps).
  destruct (connections_ok conns fuel port id r c 0 0 _ p start 0 w Hsz Hpg Hr) as (ctx1 & w1 & k & E & Hpg1); try done; try lia.
  replace (Zlen conns * r) with (r * c) in * by lia. rewrite Z.add_0_l in Hpg1.
  destruct Hpg1 as [_ _ _ _ _ Ht (vs & Hvs & Hlen) [t Hst]].
  unfold verify_client_thread_function. rewrite Hp, bind_ret_l. rewrite (pg_connections _ _ _ _ _ _ _ Hpg).
  assert (Z.to_nat c = length conns) as -> by (rewrite <- Hc; apply Nat2Z.id). rewrite E, bind_ret_l.
  unfold rta_end_measurement. rewrite Hst. cbn [deref]. rewrite bind_ret_l, bind_ret_l.
  destruct Hvs as [_ Hrd]. assert (∃ cap, readings (response_times_ref ctx1) vs cap) as [cap [Hn Hb]] by (destruct Hrd; eauto).
  eexists _, w1, vs, cap. split_and!; [done|done|done|by constructor|done|by eexists].
Qed.

(** ** Properties *)

(** C4: The verification client and the echo application agree: against a server that accepts
    each connection, takes whole frames, and answers each request with the response the
    echo application makes of it, cut into reads anywhere, every verification succeeds:
    a thread set up for [c] connections of [r] round trips makes exactly [r * c] of them,
    whatever the format, and ends with as many readings and its counters right. Neither
    the array of readings nor the buffer of the comparison overflows, and [r] rounds of
    the loop and one more than the longest cut are fuel enough. *)
Theorem verify_client_succeeds fuel port id r c threads conns w :
  size_ok (r * c) → 1 ≤ r ≤ INT_MAX - 1 → Zlen conns = c → texts_ok id r c → serves port id 0 conns start w → r ≤ Z.of_nat fuel →
  Forall (λ cuts, Zlen cuts = r ∧ Forall (λ chunks, (length chunks < fuel)%nat) cuts) conns →
  ∃ ctx ctx' w' vs cap,
    verify_ctx_new port id r c threads = Ret ctx ∧
    verify_client_thread_function fuel ctx w = Ret (Some (ctx', w', replicate (Z.to_nat (r * c)) true)) ∧
    total_roundtrips ctx' = r * c ∧ readings (response_times_ref ctx') vs cap ∧ Zlen vs = r * c ∧
    is_Some (total_elapsed_time (response_times_ref ctx')).
Proof. apply thread_ok. Qed.

(** A verification tells right answers from wrong ones: it succeeds exactly when the
    content received is the echo of the request, as long as the request has at most 182
    bytes; what it prints for a longer one does not fit its buffer. *)
Theorem verify_response_sound q m t t' :
  msg_text q t → msg_text m t' → text_ok t → text_ok t' →
  verify_response q m = if Zlen t <=? 182 then Ret (bool_decide (t' = response_text t)) else Ub.
Proof.
  intros Hq Hm Ht Ht'. split_if.
  - rewrite (verify_response_ok q m t t') by done. f_equal. apply bool_decide_ext.
    change (expected_text t) with (response_text t). by split.
  - by eapply verify_response_long.
Qed.
End Client.

(** ** The program *)

(** [atoi] of the C library: white space, a sign, digits; the value saturates at [long]. *)
Definition is_space (c : byte) : bool := (uchar c =? 32) || ((9 <=? uchar c) && (uchar c <=? 13)).
Fixpoint skip_space (cs : list byte) : list byte :=
  match cs with c :: cs' => if is_space c then skip_space cs' else cs | [] => [] end.
Fixpoint digits_value (acc : Z) (cs : list byte) : Z :=
  match cs with
  | c :: cs => if (48 <=? uchar c) && (uchar c <=? 57) then digits_value (acc * 10 + (uchar c - 48)) cs else acc
  | [] => acc
  end.
Definition atoi (cs : list byte) : Z :=
  let v := match skip_space cs with
           | c :: cs' => if uchar c =? 45 then - digits_value 0 cs' else if uchar c =? 43 then digits_value 0 cs' else digits_value 0 (c :: cs')
           | [] => 0
           end in
  s32 (Z.max (- 2 ^ 63) (Z.min (2 ^ 63 - 1) v)).

(** The options, as [getopt] answers them one after the other: the letter and the argument. *)
Record verify_args := mkArgs { a_host : option (list byte); a_port : Z; a_processes : Z; a_roundtrips : Z; a_connections : Z; a_threads : Z }.
Definition args_default : verify_args := mkArgs None 9002 1 1 1 1.

(** One option; [None] is the end of the program after the usage is printed. *)
Definition verify_option (a : verify_args) (c : Ascii.ascii) (optarg : list byte) : option verify_args :=
  match c with
  | "n"%char => Some (mkArgs (a_host a) (a_port a) (atoi optarg) (a_roundtrips a) (a_connections a) (a_threads a))
  | "t"%char => Some (mkArgs (a_host a) (a_port a) (a_processes a) (a_roundtrips a) (a_connections a) (atoi optarg))
  | "r"%char => Some (mkArgs (a_host a) (a_port a) (a_processes a) (atoi optarg) (a_connections a) (a_threads a))
  | "c"%char => Some (mkArgs (a_host a) (a_port a) (a_processes a) (a_roundtrips a) (atoi optarg) (a_threads a))
  | "p"%char => Some (mkArgs (a_host a) (atoi optarg) (a_processes a) (a_roundtrips a) (a_connections a) (a_threads a))
  | "h"%char => Some (mkArgs (Some optarg) (a_port a) (a_processes a) (a_roundtrips a) (a_connections a) (a_threads a))
  | _ => None
  end.
Fixpoint verify_options (a : verify_args) (opts : list (Ascii.ascii * list byte)) : option verify_args :=
  match opts with [] => Some a | (c, arg) :: opts => a ← verify_option a c arg; verify_options a opts end.
(** The host, if given, and the four numbers the caller passes pointers to. *)
Definition verify_process_args (opts : list (Ascii.ascii * list byte)) : option (option (list byte) * Z * Z * Z * Z) :=
  a ← verify_options args_default opts;
  Some (a_host a, a_port a, a_roundtrips a, a_connections a, a_threads a).

(** [main] after its threads have ended: the array for all readings is made for the default
    numbers of threads, connections and round trips. *)
Definition NBR_THREADS : Z := 8.
Definition NBR_CONNECTIONS_PER_THREAD : Z := 3.
Definition NBR_ROUNDTRIPS_PER_CONNECTION : Z := 30.
Definition verify_report (tctx : list VerifyThreadContext) : outcome (double * double * Z) :=
  all_readings ← rta_appends (rta_new (NBR_THREADS * NBR_CONNECTIONS_PER_THREAD * NBR_ROUNDTRIPS_PER_CONNECTION)) (response_times_ref <$> tctx);
  rta_stat_analyse all_readings.

(** The report covers every round trip of every thread. *)
Theorem verify_report_complete n tctx :
  Forall (λ ctx, ∃ vs cap, readings (response_times_ref ctx) vs cap ∧ Zlen vs = n) tctx → 0 ≤ n → Zlen tctx * n ≤ INT_MAX →
  ∃ vs, verify_report tctx = Ret (mean_of vs, stddev_of vs, Zlen tctx * n).
Proof.
  intros Ht Hn Hl. assert (∃ wss, Forall2 (λ s ws, ∃ cap, readings s ws cap) (response_times_ref <$> tctx) wss ∧ Zlen (concat wss) = Zlen tctx * n)
    as (wss & Hs & Hc).
  { clear Hl. induction Ht as [|ctx tctx (vs & cap & Hr & Hv) _ (wss & Hs & Hc)]; [by exists []|].
    exists (vs :: wss). split; [constructor; [by exists cap|done]|]. cbn [concat]. rewrite Zlen_app, Zlen_cons, Hc, Hv. lia. }
  exists (concat wss). unfold verify_report. rewrite <- Hc. apply rta_consolidate_ok; [done|done|lia].
Qed.

(** ** Witnesses *)

Definition ex_answer (j : Z) : list byte := frame (response_text (request_text 3 0 j)).
Definition ex_served : list (list byte) := [ex_answer 1; take 9 (ex_answer 2); drop 9 (ex_answer 2)].

Lemma ex_texts_ok : texts_ok (M := DemoMsg) (P := DemoMsgParser) 3 2 1.
Proof.
  intros i j Hi Hj. assert (i = 0) as -> by lia. assert (j = 1 ∨ j = 2) as [-> | ->] by lia; by vm_compute.
Qed.
Lemma ex_serves :
  serves (M := DemoMsg) (P := DemoMsgParser) ex_msock 9001 3 0 [[[ex_answer 1]; [take 9 (ex_answer 2); drop 9 (ex_answer 2)]]] start ex_served.
Proof.
  eexists _, 5. split; [done|]. eexists _, 0, (Outside, []). split; [done|]. split; [by vm_compute|].
  eexists _, 0. split; [done|]. split; [by vm_compute|]. eexists _, 0, (Outside, []). split; [done|].
  split; [eexists; split; by vm_compute|]. eexists _, 0. split; [done|]. split; [by vm_compute|].
  eexists _, 0. split; [done|]. split; [by vm_compute|]. done.
Qed.

(** Two round trips; the second answer comes in two pieces. *)
Lemma verify_client_succeeds_witness :
  ∃ ctx ctx' w', verify_ctx_new 9001 3 2 1 1 = Ret ctx ∧
    verify_client_thread_function (M := DemoMsg) (P := DemoMsgParser) ex_msock (λ w, (Zlen w, 0)) 3 ctx ex_served = Ret (Some (ctx', w', [true; true])) ∧
    total_roundtrips ctx' = 2.
Proof.
  destruct (verify_client_succeeds (M := DemoMsg) (P := DemoMsgParser) ex_msock (λ w, (Zlen w, 0)) 3 9001 3 2 1 1 [[[ex_answer 1]; [take 9 (ex_answer 2); drop 9 (ex_answer 2)]]] ex_served)
    as (ctx & ctx' & w' & vs & cap & H1 & H2 & H3 & _); [done|done|done|exact ex_texts_ok|exact ex_serves|done| |by exists ctx, ctx', w'].
  repeat constructor.
Defined.

(** The response of another request is rejected. *)
Lemma verify_response_sound_witness :
  verify_response (P := DemoMsgParser) (mkDemo (Some (filled 1024 (bytes "ab")))) (mkDemo (Some (filled 1024 (response_text (bytes "cd"))))) = Ret false.
Proof.
  rewrite (verify_response_sound (M := DemoMsg) (P := DemoMsgParser) _ _ (bytes "ab") (response_text (bytes "cd"))).
  - done.
  - eexists. split; [done|]. by apply filled_text.
  - eexists. split; [done|]. by apply filled_text.
  - by vm_compute.
  - by vm_compute.
Defined.
