(* ===== verification/ServerMain.v ===== *)
(** * ServerMain: the process of the server (src/apps/server_process/async_main.c and
    async_process_main.c)

    The options, and the function of each thread: a listening socket, a loop, a server
    context, and the run of the loop. Creating and joining the threads is left out: a
    process is the arguments with which its threads start. *)

From Stdlib Require Import Strings.Ascii.
From S2P Require Import Prelude SocketFunctions FunctorList EventTable KqRunloop KqHelpers KqWatchers TcpStream TcpListener ServerCtx VerifyClient.
Open Scope Z_scope.

(** ** Options (async_main.c) *)

Record server_args := mkSArgs { s_host : list byte; s_port : Z; s_processes : Z; s_roundtrips : Z; s_connections : Z; s_threads : Z }.
Definition server_default : server_args := mkSArgs (bytes "localhost") 9002 1 100 1 1.

(** One option; [None] is the end of the program after the usage is printed. *)
Definition server_option (a : server_args) (c : Ascii.ascii) (optarg : list byte) : option server_args :=
  match c with
  | "n"%char => Some (mkSArgs (s_host a) (s_port a) (atoi optarg) (s_roundtrips a) (s_connections a) (s_threads a))
  | "t"%char => Some (mkSArgs (s_host a) (s_port a) (s_processes a) (s_roundtrips a) (s_connections a) (atoi optarg))
  | "r"%char => Some (mkSArgs (s_host a) (s_port a) (s_processes a) (atoi optarg) (s_connections a) (s_threads a))
  | "c"%char => Some (mkSArgs (s_host a) (s_port a) (s_processes a) (s_roundtrips a) (atoi optarg) (s_threads a))
  | "p"%char => Some (mkSArgs (s_host a) (atoi optarg) (s_processes a) (s_roundtrips a) (s_connections a) (s_threads a))
  | "h"%char => Some (mkSArgs optarg (s_port a) (s_processes a) (s_roundtrips a) (s_connections a) (s_threads a))
  | _ => None
  end.
Fixpoint server_options (a : server_args) (opts : list (Ascii.ascii * list byte)) : option server_args :=
  match opts with [] => Some a | (c, arg) :: opts => a ← server_option a c arg; server_options a opts end.
Definition process_args (opts : list (Ascii.ascii * list byte)) : option server_args := server_options server_default opts.

(** ** The process (async_process_main.c) *)

Definition MAX_NBR_THREADS : Z := 10.

(** The table of the threads is declared before their number is checked; a table without
    elements is undefined. *)
Definition process_main (host : list byte) (port nbr_threads : Z) : outcome (list (Z * list byte)) :=
  if nbr_threads <=? 0 then Ub else
  c_assert (nbr_threads <=? MAX_NBR_THREADS);;
  Ret (replicate (Z.to_nat nbr_threads) (port, host)).
(** [main], as it is compiled: one process, whatever the option says. *)
Definition server_main (opts : list (Ascii.ascii * list byte)) : option (outcome (list (Z * list byte))) :=
  a ← process_args opts; Some (process_main (s_host a) (s_port a) (s_threads a)).

Section ServerMain.
Context {fn arg_t KW App app address : Type} `{!EqDecision fn, !EqDecision arg_t, !EqDecision app}.
Abbreviation sworld := (lworld (arg_t := arg_t) (KW := KW) (App := sapp App app) (acb := unit)).
Abbreviation st := (Runloop fn arg_t * sworld)%type.
Variable K : kqueue_sys KW.
Variable N : net KW address.
Variable fn_start : fn.
Variable self : arg_t.
Variable sizeof_ref sizeof_listener : Z.
(** What the loop calls, and the handlers of its events. *)
Variable call : fn → option arg_t → st → outcome st.
Variable call_handler : first_level → Z → Z → Z → st → outcome st.

(** A thread up to the run of its loop. *)
Definition thread_starts (malloc_ok : bool) (port : Z) (host : list byte) (w : sworld) : outcome st :=
  '(k, f) ← create_listener_socket N port host (l_kern w);
  k ← socket_set_non_blocking N f k;
  s ← runloop_new (kq_lworld K) malloc_ok (l_on_kern w k);
  s ← server_ctx_init sizeof_ref sizeof_listener f s;
  server_ctx_run fn_start self s.
Definition thread_function (fuel : nat) (malloc_ok : bool) (port : Z) (host : list byte) (w : sworld) : outcome (option (st * Z)) :=
  s ← thread_starts malloc_ok port host w;
  runloop_run (kq_lworld K) call call_handler fuel 0 s.

(** ** Properties *)

Lemma loop_starts (w : sworld) k2 q :
  kqueue K (l_kern w) = (k2, q) → q ≠ -1 →
  ∃ rl : Runloop fn arg_t, runloop_new (kq_lworld K) true w = Ret (rl, l_on_kern w k2) ∧ table_rep (event_table rl) full_pool ∧
    fl_rep (ready_list rl) [] ∧ capacity (ready_list rl) = runloop_READY_LIST_MAX ∧ kqueue_fd rl = q ∧ change rl = [].
Proof.
  intros Hk Hq. unfold runloop_new, runloop_init, kq_lworld, kq_lift. cbn [c_assert kqueue]. rewrite bind_ret_l, Hk.
  rewrite (proj2 (Z.eqb_neq q (-1))) by done. cbn [negb c_assert]. rewrite bind_ret_l.
  destruct (table_new_ok (E := RunloopEvent fn arg_t)) as (t & -> & Ht). rewrite bind_ret_l.
  destruct (fl_new_ok (fn := fn) (arg_t := arg_t) runloop_READY_LIST_MAX) as (l & -> & Hl & Hc); [by vm_compute|]. rewrite bind_ret_l.
  by eexists.
Qed.

(** A thread starts: when the kernel gives it a listening socket and a queue, and a
    listener has the room that its constructor writes, the thread comes to the run of its
    loop with the server's start posted, a listener with no accept in progress on the
    first event of the pool, and a server without connections, from which
    [server_accepts] goes on. As the constructor allocates the size of a pointer, it does
    not get there: what the thread does is undefined. *)
Theorem thread_starts_server port host (w : sworld) fuel f k k1 k2 q (fd_open : KW → Z → bool) :
  create_listener_socket N port host (l_kern w) = Ret (k, f) → socket_set_non_blocking N f k = Ret k1 →
  kqueue K k1 = (k2, q) → q ≠ -1 → fd_open k2 (u64 f) = true →
  if sizeof_ref <? sizeof_listener then thread_function fuel true port host w = Ub
  else ∃ s e, thread_starts true port host w = Ret s ∧
    open_listener fd_open s (mkTcpListener 0 None None L_STATE_INITIAL) e (mkListener f None None) ∧
    ctx (l_app (snd s)) = Some (mkServerCtx L_STATE_INITIAL []) ∧ l_kern (snd s) = k2 ∧
    fl_rep (ready_list (fst s)) [mkFunctor (Some fn_start) (Some self)] ∧ capacity (ready_list (fst s)) = runloop_READY_LIST_MAX ∧
    table_rep (event_table (fst s)) (mkPool (seqZ 1 2047) ({[0]} ∪ ∅)).
Proof.
  intros Hc Hn Hk Hq Ho. assert (∀ A (g : st → outcome A), (s ← thread_starts true port host w; g s) =
    (s ← runloop_new (kq_lworld K) true (l_on_kern w k1); s ← server_ctx_init sizeof_ref sizeof_listener f s; s ← server_ctx_run fn_start self s; g s)) as Hst.
  { intros A g. unfold thread_starts. rewrite Hc, bind_ret_l, Hn, bind_ret_l. destruct (runloop_new _ _ _) as [s| |]; [|done..]. rewrite !bind_ret_l. by destruct (server_ctx_init _ _ f s). }
  destruct (loop_starts (l_on_kern w k1) k2 q Hk Hq) as (rl & Hnew & Ht & Hr & Hcap & Hqu & Hch).
  destruct (Z.ltb_spec sizeof_ref sizeof_listener) as [Hlt|Hge].
  - unfold thread_function. rewrite Hst, Hnew, bind_ret_l. unfold server_ctx_init, tcp_listener_new, tcp_listener_init.
    by rewrite (proj2 (Z.ltb_lt _ _)).
  - assert (thread_starts true port host w = (s ← thread_starts true port host w; Ret s)) as -> by (by rewrite bind_ret_r). rewrite Hst, Hnew, bind_ret_l.
    unfold full_pool in Ht. rewrite (seqZ_cons 0 EVT_MAX ltac:(done)) in Ht.
    destruct (listener_new_ok f (rl, l_on_kern w k2) _ _ _ Ht eq_refl) as (s1 & Hs1 & Hw1 & [Hr1 Hq1 He1 _ Hp1]).
    unfold server_ctx_init, tcp_listener_new, tcp_listener_init. rewrite (proj2 (Z.ltb_ge _ _)) by done.
    change (l_on_kern (l_on_kern w k1) k2) with (l_on_kern w k2). rewrite Hs1, !bind_ret_l. unfold server_ctx_run, the_ctx. cbn [w_ctx snd l_app ctx deref]. rewrite bind_ret_l, bind_ret_r.
    cbn [fst] in Hr1. unfold runloop_post. cbn [w_ctx w_lsn fst snd].
    destruct (fl_add_ok (ready_list (fst s1)) [] (mkFunctor (Some fn_start) (Some self))) as (l & Hl & Hr2 & Hc2); [by rewrite Hr1|rewrite Hr1, Hcap; done|].
    rewrite !bool_decide_true by eauto. cbn [c_assert]. rewrite !bind_ret_l, Hl, bind_ret_l. eexists _, _. split; [reflexivity|].
    split_and!; [|done|cbn; by rewrite Hw1|exact Hr2|cbn; by rewrite Hc2, Hr1, Hcap|exact Hp1].
    constructor; [reflexivity|split; [exact He1|done]|done|]. unfold lopen. cbn. by rewrite Hw1.
Qed.
End ServerMain.

(** Without options the numbers that [main] and the usage give are not used. *)
Example server_defaults : server_main [] = Some (Ret [(9002, bytes "localhost")]).
Proof. reflexivity. Qed.

(** ** Witness *)

Lemma thread_starts_server_witness :
  thread_function (app := nat) ex_lkq ex_lnet 3%nat 8%nat 8 56 (λ _ _ s, Ret s) (λ _ _ _ _ s, Ret s) 5 true 9011 (bytes "localhost")
    (mkLWorld None (mkLk ∅ [] false) (mkSApp (None : option (ServerCtx nat)) tt)) = Ub.
Proof.
  exact (thread_starts_server (app := nat) ex_lkq ex_lnet 3%nat 8%nat 8 56 (λ _ _ s, Ret s) (λ _ _ _ _ s, Ret s) 9011 (bytes "localhost")
    (mkLWorld None (mkLk ∅ [] false) (mkSApp (None : option (ServerCtx nat)) tt)) 5 5 _ _ _ _ ex_lopen eq_refl eq_refl eq_refl ltac:(discriminate) eq_refl).
Defined.
